(** * Workshop dashboard analytics: stage-event interval reconstruction

    A shallow embedding of [dashboardRoute.js] (the Express routes that
    compute stage timing analytics over vehicles and their stage events)
    together with the properties stated for it.

    Conventions of the embedding.
    - A JavaScript [Date] is its time value: a [Z] number of milliseconds
      since the epoch.  Sums and differences of dates are [Z].  The
      quotients handed to [utils.formatDuration] are exact rationals
      ([Q]); the minute-based formatter, whose product [minutes * 60] is
      not exact in the source, works on IEEE 754 doubles ([Js.number]).
    - A field that a document may lack ([undefined]) is an [option].
    - Code that can raise a [TypeError] lives in the [completion] monad.
    - The accumulators [result[period]] are finite maps ([gmap]); objects
      whose key order is part of the response are association lists in
      insertion order, which is the enumeration order of an object none
      of whose keys is an array index.
    - Where the source tests [!obj[k]] on an object filled under
      data-dependent keys, a name that [{}] inherits from
      [Object.prototype] is truthy ([Js.inheritedName]): no entry is
      created and the [push] that follows throws.
    - [Vehicle.find (...)] is an external collaborator: every metric
      function takes the list of documents the query returned. *)

From Stdlib Require Import ZArith QArith Qround String Ascii List Lia.
From Stdlib Require Import DecimalString DecimalZ DecimalPos.
From Stdlib Require Import Sorting.Sorted Sorting.Permutation.
From Stdlib Require SpecFloat.
From stdpp Require Import base list strings gmap sorting.

Local Open Scope string_scope.
Local Open Scope Z_scope.
Local Open Scope list_scope.

(** ** JavaScript string and array helpers *)

Module Js.

(** [n.toString()] for an integral number. *)
Definition toString (n : Z) : string := NilZero.string_of_int (Z.to_int n).

Fixpoint repeatChar (n : nat) (c : ascii) : string :=
  match n with
  | O => EmptyString
  | S k => String c (repeatChar k c)
  end.

(** [s.padStart(n, c)] for a one-character pad string. *)
Definition padStart (n : nat) (c : ascii) (s : string) : string :=
  repeatChar (n - String.length s) c +:+ s.

(** [l.join(sep)]. *)
Fixpoint join (sep : string) (l : list string) : string :=
  match l with
  | [] => ""
  | [x] => x
  | x :: rest => x +:+ sep +:+ join sep rest
  end.

(** [s.split(c)] for a one-character separator: the pieces between
    separators, at least one piece. *)
Fixpoint split (c : ascii) (s : string) : list string :=
  match s with
  | EmptyString => [""]
  | String a rest =>
      if Ascii.eqb a c then "" :: split c rest
      else match split c rest with
           | [] => [String a ""]
           | p :: ps => String a p :: ps
           end
  end.

(** [Number(s)] on decimal integer literals; [None] is [NaN].  The routes
    apply it only to the fields of a formatted duration. *)
Definition Number (s : string) : option Z :=
  match s with
  | EmptyString => Some 0
  | _ => option_map Z.of_int (NilZero.int_of_string s)
  end.

(** [s.startsWith(p)]. *)
Definition startsWith (s p : string) : bool := String.prefix p s.

Definition isDigit (a : ascii) : bool :=
  let n := nat_of_ascii a in ((48 <=? n) && (n <=? 57))%nat.

Fixpoint allDigits (s : string) : bool :=
  match s with
  | EmptyString => true
  | String a rest => isDigit a && allDigits rest
  end.

Fixpoint hasChar (c : ascii) (s : string) : bool :=
  match s with
  | EmptyString => false
  | String a rest => Ascii.eqb a c || hasChar c rest
  end.

(** An array index: the canonical decimal numeral of an integer from 0 to
    [2 ^ 32 - 2].  An object enumerates its keys of this kind first, in
    ascending order, and its other string keys in insertion order. *)
Definition arrayIndex (k : string) : bool :=
  allDigits k
  && String.eqb (toString (default 0 (Number k))) k
  && (default 0 (Number k) <=? 4294967294).

(** A number whose arithmetic is not exact in the source: an IEEE 754
    binary64 value, with the round-to-nearest-even operations of the
    standard. *)
Definition number : Type := SpecFloat.spec_float.

(** The number an integer converts to (itself below [2 ^ 53]). *)
Definition ofZ (z : Z) : number := SpecFloat.binary_normalize 53 1024 z 0 false.

(** [x * y] and [x / y]. *)
Definition fmul (x y : number) : number := SpecFloat.SFmul 53 1024 x y.
Definition fdiv (x y : number) : number := SpecFloat.SFdiv 53 1024 x y.

(** [Math.floor(x)] of a finite number, as an integer. *)
Definition floor (x : number) : Z :=
  match x with
  | SpecFloat.S754_finite s m e =>
      let v := if s then Z.neg m else Z.pos m in
      if 0 <=? e then v * 2 ^ e else v / 2 ^ (- e)
  | _ => 0
  end.

(** The own property names of [Object.prototype]: on an object created
    by [{}], [obj[k]] is a function (the prototype itself for
    ["__proto__"]) for each of them, hence truthy. *)
Definition objectPrototypeNames : list string :=
  [ "constructor"; "__defineGetter__"; "__defineSetter__"; "hasOwnProperty";
    "__lookupGetter__"; "__lookupSetter__"; "isPrototypeOf"; "propertyIsEnumerable";
    "toString"; "valueOf"; "__proto__"; "toLocaleString" ].

Definition inheritedName (k : string) : bool := existsb (String.eqb k) objectPrototypeNames.

End Js.

(** ** Duration formatter *)

(** [utils.formatDuration]: milliseconds to [HH:MM:SS].  [Math.floor] of a
    quotient is [Qfloor] or [Z.div]; [%] is the truncating remainder. *)
Definition formatDuration (milliseconds : Q) : string :=
  let totalSeconds := Qfloor (milliseconds / 1000) in
  let hours := totalSeconds / 3600 in
  let mins := (Z.rem totalSeconds 3600) / 60 in
  let secs := Z.rem totalSeconds 60 in
  Js.join ":" (map (fun n => Js.padStart 2 "0" (Js.toString n)) [hours; mins; secs]).

(** The copy local to [/dashboard/special-stage-averages] (and
    [/dashboard/job-card-received-metrics]): it goes through
    [remainingSeconds]. *)
Definition route_formatDuration (milliseconds : Q) : string :=
  let totalSeconds := Qfloor (milliseconds / 1000) in
  let hours := totalSeconds / 3600 in
  let remainingSeconds := Z.rem totalSeconds 3600 in
  let mins := remainingSeconds / 60 in
  let secs := Z.rem remainingSeconds 60 in
  Js.join ":" [Js.padStart 2 "0" (Js.toString hours);
               Js.padStart 2 "0" (Js.toString mins);
               Js.padStart 2 "0" (Js.toString secs)].

(** [utils.formatMinutes]: [Math.floor(minutes * 60)] is taken of the
    double product.  A product that is [NaN] or infinite prints as the
    source prints it; the integer arithmetic on [totalSeconds] is that of
    [formatDuration]. *)
Definition formatMinutes (minutes : Js.number) : string :=
  match Js.fmul minutes (Js.ofZ 60) with
  | SpecFloat.S754_nan => "NaN:NaN:NaN"
  | SpecFloat.S754_infinity s => (if s then "-Infinity" else "Infinity") +:+ ":NaN:NaN"
  | product =>
      let totalSeconds := Js.floor product in
      let hours := totalSeconds / 3600 in
      let mins := (Z.rem totalSeconds 3600) / 60 in
      let secs := Z.rem totalSeconds 60 in
      Js.join ":" (map (fun n => Js.padStart 2 "0" (Js.toString n)) [hours; mins; secs])
  end.

(** [utils.formatMilliseconds]: [utils.formatMinutes(ms / 60000)], the
    quotient being a double. *)
Definition formatMilliseconds (ms : Js.number) : string :=
  formatMinutes (Js.fdiv ms (Js.ofZ 60000)).

(** One field of a formatted duration. *)
Definition field (n : Z) : string := Js.padStart 2 "0" (Js.toString n).

(** The reading of a duration string done by the job-card metrics:
    [d.duration.split(':').map(Number)] and
    [(h * 3600 + m * 60 + s) * 1000]. *)
Definition parseDuration (duration : string) : option Z :=
  match map Js.Number (Js.split ":" duration) with
  | Some h :: Some m :: Some s :: _ => Some ((h * 3600 + m * 60 + s) * 1000)
  | _ => None
  end.

(** ** Data model *)

(** [performedBy: { userId, userName }]. *)
Record Performer := mkPerformer {
  userId : string;
  userName : option string
}.

(** One element of [vehicle.stages]. *)
Record StageEvent := mkEvent {
  stageName : option string;
  eventType : option string;
  timestamp : Z;
  performedBy : option Performer;
  role : option string;
  workType : option string;
  bayNumber : option string
}.

Record Vehicle := mkVehicle {
  vehicleNumber : string;
  entryTime : Z;
  exitTime : option Z;
  stages : list StageEvent
}.

(** A per-occurrence record pushed on a [details] array. *)
Record Detail := mkDetail {
  d_vehicleNumber : string;
  startTime : Z;
  endTime : Z;
  duration : string
}.

(** A reporting window [{ start, end }]. *)
Record Range := mkRange {
  r_start : Z;
  r_end : Z
}.

(** [x === lit] for a possibly missing string field. *)
Definition strictEq (x : option string) (lit : string) : bool :=
  match x with
  | Some s => String.eqb s lit
  | None => false
  end.

(** Truthiness of a possibly missing string field ([!x] is its negation). *)
Definition truthy (x : option string) : bool :=
  match x with
  | Some s => negb (String.eqb s "")
  | None => false
  end.

Definition isEvent (ty : string) (e : StageEvent) : bool := strictEq (eventType e) ty.

(** [s.timestamp >= start && s.timestamp <= end]. *)
Definition inWindow (r : Range) (s : StageEvent) : bool :=
  (r_start r <=? timestamp s) && (timestamp s <=? r_end r).

(** [.sort((a, b) => a.timestamp - b.timestamp)]: the stable ascending
    sort on timestamps, written as insertion from the right. *)
Fixpoint insertByTimestamp (e : StageEvent) (l : list StageEvent) : list StageEvent :=
  match l with
  | [] => [e]
  | y :: rest =>
      if timestamp e <=? timestamp y then e :: l
      else y :: insertByTimestamp e rest
  end.

Definition sortByTimestamp (l : list StageEvent) : list StageEvent :=
  foldr insertByTimestamp [] l.

(** ** Abrupt completion *)

(** A computation either completes normally or throws; the only throw in
    these routes is the [TypeError] of calling a method on [undefined]. *)
Inductive completion (A : Type) : Type :=
  | Normal (a : A)
  | Throw (message : string).
Arguments Normal {A} a.
Arguments Throw {A} message.

Definition cbind {A B : Type} (c : completion A) (k : A -> completion B) : completion B :=
  match c with
  | Normal a => k a
  | Throw m => Throw m
  end.

Notation "'let*' x ':=' c 'in' k" := (cbind c (fun x => k))
  (at level 10, x name, c at level 100, k at level 200).

(** [l.find(p)], [l.filter(p)] and [l.forEach(f)] for a callback that may
    throw: the callback runs on the elements in order and the first throw
    ends the iteration. *)
Fixpoint findE {A : Type} (p : A -> completion bool) (l : list A) : completion (option A) :=
  match l with
  | [] => Normal None
  | x :: rest =>
      let* b := p x in
      if b then Normal (Some x) else findE p rest
  end.

Fixpoint filterE {A : Type} (p : A -> completion bool) (l : list A) : completion (list A) :=
  match l with
  | [] => Normal []
  | x :: rest =>
      let* b := p x in
      let* kept := filterE p rest in
      Normal (if b then x :: kept else kept)
  end.

Fixpoint forEachE {A S : Type} (f : S -> A -> completion S) (l : list A) (s : S) : completion S :=
  match l with
  | [] => Normal s
  | x :: rest =>
      let* s' := f s x in
      forEachE f rest s'
  end.

Definition undefinedStartsWith : string :=
  "Cannot read properties of undefined (reading 'startsWith')".

(** [s.stageName.startsWith(p)]. *)
Definition stageNameStartsWith (s : StageEvent) (p : string) : completion bool :=
  match stageName s with
  | Some n => Normal (Js.startsWith n p)
  | None => Throw undefinedStartsWith
  end.

(** ** Ordered objects *)

(** An object whose property order is observed, as an association list
    with distinct keys in insertion order. *)
Definition getProp {V : Type} (obj : list (string * V)) (k : string) : option V :=
  option_map snd (find (fun kv => String.eqb (fst kv) k) obj).

Definition hasOwnProperty {V : Type} (obj : list (string * V)) (k : string) : bool :=
  existsb (fun kv => String.eqb (fst kv) k) obj.

(** [obj[k] = f(obj[k])] on an existing key. *)
Fixpoint updateProp {V : Type} (f : V -> V) (k : string) (obj : list (string * V)) : list (string * V) :=
  match obj with
  | [] => []
  | (k', v) :: rest =>
      if String.eqb k' k then (k', f v) :: rest
      else (k', v) :: updateProp f k rest
  end.

Definition stageOrder : list string :=
  [ "Interactive Bay";
    "Job Card Creation + Customer Approval";
    "Job Card Received + Bay Allocation";
    "Bay Work";
    "Additional Work Job Approval";
    "Creation of Parts Estimate";
    "Final Inspection";
    "Ready for Washing";
    "Washing" ].

(** [sortByStageOrder(obj)].  The list is the enumeration order of the
    object that is returned when none of its keys is an array index; the
    keys the callers pass are stage names. *)
Definition sortByStageOrder {V : Type} (obj : list (string * V)) : list (string * V) :=
  let result :=
    omap (fun stageName => option_map (fun v => (stageName, v)) (getProp obj stageName))
         stageOrder in
  result ++ List.filter (fun kv => negb (hasOwnProperty result (fst kv))) obj.

(** ** Stage averages ([calculateStageAverages]) *)

Definition trackedStages : list string :=
  [ "Interactive Bay";
    "Job Card Creation + Customer Approval";
    "Job Card Received + Bay Allocation";
    "Bay Work";
    "Additional Work Job Approval";
    "Creation of Parts Estimate";
    "Final Inspection";
    "Ready for Washing";
    "Washing" ].

(** [result[period][stage]]. *)
Record Bucket := mkBucket {
  totalDurationMs : Z;
  count : Z;
  details : list Detail
}.

Definition emptyBucket : Bucket := mkBucket 0 0 [].

(** The formatted entry of the response. *)
Record StageOut := mkStageOut {
  totalDuration : string;
  o_count : Z;
  average : string;
  o_details : list Detail
}.

(** The body of [if (endEvent) { ... }]: add the duration, count the
    occurrence and push its detail record. *)
Definition pushOccurrence (fmt : Js.number -> string) (vn : string)
    (startEvent endEvent : StageEvent) (b : Bucket) : Bucket :=
  let durationMs := timestamp endEvent - timestamp startEvent in
  {| totalDurationMs := totalDurationMs b + durationMs;
     count := count b + 1;
     details := details b ++
       [ {| d_vehicleNumber := vn;
            startTime := timestamp startEvent;
            endTime := timestamp endEvent;
            duration := fmt (Js.ofZ durationMs) |} ] |}.

(** [ends.find(e => e.timestamp > startEvent.timestamp)]. *)
Definition findEnd (ends : list StageEvent) (startEvent : StageEvent) : option StageEvent :=
  find (fun e => timestamp startEvent <? timestamp e) ends.

(** The events of one stage of one vehicle inside the window, sorted. *)
Definition stageEventsOf (r : Range) (vehicle : Vehicle) (name : string) : list StageEvent :=
  sortByTimestamp
    (List.filter (fun s => strictEq (stageName s) name && inWindow r s) (stages vehicle)).

(** The body of [trackedStages.forEach(stageName => ...)] for one vehicle. *)
Definition stageAveragesStage (r : Range) (vehicle : Vehicle)
    (result : gmap string Bucket) (name : string) : gmap string Bucket :=
  let stageEvents := stageEventsOf r vehicle name in
  let starts := List.filter (isEvent "Start") stageEvents in
  let ends := List.filter (isEvent "End") stageEvents in
  fold_left
    (fun result startEvent =>
       match findEnd ends startEvent with
       | Some endEvent =>
           alter (pushOccurrence formatMilliseconds (vehicleNumber vehicle) startEvent endEvent)
                 name result
       | None => result
       end)
    starts result.

Definition stageAveragesVehicle (r : Range) (result : gmap string Bucket)
    (vehicle : Vehicle) : gmap string Bucket :=
  fold_left (stageAveragesStage r vehicle) trackedStages result.

(** [result[period]] as initialised: an empty bucket per tracked stage. *)
Definition initBuckets (names : list string) : gmap string Bucket :=
  list_to_map (map (fun name => (name, emptyBucket)) names).

(** [result[period]] after the loop over the vehicles of the window. *)
Definition stageAveragesAccumulate (r : Range) (vehicles : list Vehicle) : gmap string Bucket :=
  fold_left (stageAveragesVehicle r) vehicles (initBuckets trackedStages).

Definition formatStage (stageData : Bucket) : StageOut :=
  let avg :=
    if 0 <? count stageData
    then formatMilliseconds (Js.fdiv (Js.ofZ (totalDurationMs stageData))
                                     (Js.ofZ (count stageData)))
    else "00:00:00" in
  {| totalDuration := formatMilliseconds (Js.ofZ (totalDurationMs stageData));
     o_count := count stageData;
     average := avg;
     o_details := details stageData |}.

(** [periodResult]: one formatted entry per tracked stage, in that order.
    Every tracked stage has a bucket, so the lookup never misses. *)
Definition stageAveragesFormat (result : gmap string Bucket) : list (string * StageOut) :=
  sortByStageOrder
    (map (fun name => (name, formatStage (default emptyBucket (result !! name))))
         trackedStages).

(** [calculateStageAverages(dateRanges, timePeriods)], with [findVehicles]
    standing for the [Vehicle.find] query of a window. *)
Definition calculateStageAverages (findVehicles : Range -> list Vehicle)
    (dateRanges : list (string * Range)) : list (string * list (string * StageOut)) :=
  map (fun pr : string * Range =>
         (fst pr, stageAveragesFormat (stageAveragesAccumulate (snd pr) (findVehicles (snd pr)))))
      dateRanges.

(** ** Special stage averages ([calculateSpecialStageAverages]) *)

Definition specialStages : list string :=
  [ "Job Card Creation + Customer Approval";
    "Additional Work Job Approval";
    "Ready for Washing" ].

Record SBucket := mkSBucket {
  s_totalDurationMs : Z;
  s_totalDurationFormatted : string;
  s_count : Z;
  s_averageMs : Q;
  s_averageFormatted : string;
  s_details : list Detail
}.

Definition emptySBucket : SBucket := mkSBucket 0 "00:00:00" 0 0%Q "00:00:00" [].

Definition pushSpecial (vn : string) (startEvent endEvent : StageEvent) (b : SBucket) : SBucket :=
  let duration := timestamp endEvent - timestamp startEvent in
  {| s_totalDurationMs := s_totalDurationMs b + duration;
     s_totalDurationFormatted := s_totalDurationFormatted b;
     s_count := s_count b + 1;
     s_averageMs := s_averageMs b;
     s_averageFormatted := s_averageFormatted b;
     s_details := s_details b ++
       [ {| d_vehicleNumber := vn;
            startTime := timestamp startEvent;
            endTime := timestamp endEvent;
            duration := formatDuration (inject_Z duration) |} ] |}.

(** [s.stageName.startsWith("Job Card Received + Bay Allocation") &&
     s.eventType === "Start" && s.timestamp > startEvent.timestamp]. *)
Definition bayAllocationAfter (startEvent s : StageEvent) : completion bool :=
  let* b := stageNameStartsWith s "Job Card Received + Bay Allocation" in
  Normal (b && isEvent "Start" s && (timestamp startEvent <? timestamp s)).

(** [s.stageName.startsWith("Additional Work Job Approval") &&
     s.eventType === "Start"]. *)
Definition isAdditionalApprovalStart (s : StageEvent) : completion bool :=
  let* b := stageNameStartsWith s "Additional Work Job Approval" in
  Normal (b && isEvent "Start" s).

(** The body of [additionalApprovalStarts.forEach(startEvent => ...)]. *)
Definition additionalApprovalStep (vn : string) (vehicleStages : list StageEvent)
    (result : gmap string SBucket) (startEvent : StageEvent) : completion (gmap string SBucket) :=
  let* subsequentBayAllocations := filterE (bayAllocationAfter startEvent) vehicleStages in
  Normal
    (if (2 <=? length subsequentBayAllocations)%nat then
       match subsequentBayAllocations !! 1%nat with
       | Some endEvent => alter (pushSpecial vn startEvent endEvent)
                                "Additional Work Job Approval" result
       | None => result
       end
     else result).

(** The body of [jobCardStarts.forEach(startEvent => ...)]. *)
Definition jobCardCreationStep (vn : string) (vehicleStages : list StageEvent)
    (result : gmap string SBucket) (startEvent : StageEvent) : completion (gmap string SBucket) :=
  let* endEvent := findE (bayAllocationAfter startEvent) vehicleStages in
  Normal
    (match endEvent with
     | Some endEvent => alter (pushSpecial vn startEvent endEvent)
                              "Job Card Creation + Customer Approval" result
     | None => result
     end).

(** The body of [washingReadyStarts.forEach(startEvent => ...)]. *)
Definition readyForWashingStep (vn : string) (vehicleStages : list StageEvent)
    (result : gmap string SBucket) (startEvent : StageEvent) : gmap string SBucket :=
  match find (fun s => strictEq (stageName s) "Washing" && isEvent "Start" s
                       && (timestamp startEvent <? timestamp s)) vehicleStages with
  | Some endEvent => alter (pushSpecial vn startEvent endEvent) "Ready for Washing" result
  | None => result
  end.

(** The body of [vehicles.forEach(vehicle => ...)]. *)
Definition specialVehicle (r : Range) (result : gmap string SBucket)
    (vehicle : Vehicle) : completion (gmap string SBucket) :=
  let vehicleStages := sortByTimestamp (List.filter (inWindow r) (stages vehicle)) in
  let vn := vehicleNumber vehicle in
  let jobCardStarts :=
    List.filter (fun s => strictEq (stageName s) "Job Card Creation + Customer Approval"
                          && isEvent "Start" s) vehicleStages in
  let* result := forEachE (jobCardCreationStep vn vehicleStages) jobCardStarts result in
  let* additionalApprovalStarts := filterE isAdditionalApprovalStart vehicleStages in
  let* result := forEachE (additionalApprovalStep vn vehicleStages)
                          additionalApprovalStarts result in
  let washingReadyStarts :=
    List.filter (fun s => strictEq (stageName s) "Ready for Washing" && isEvent "Start" s)
                vehicleStages in
  Normal (fold_left (readyForWashingStep vn vehicleStages) washingReadyStarts result).

(** "Calculate average durations": only a bucket with [count > 0] is
    touched, the others keep their initial strings. *)
Definition specialAverage (stageData : SBucket) : SBucket :=
  if 0 <? s_count stageData then
    let averageMs := (inject_Z (s_totalDurationMs stageData) / inject_Z (s_count stageData))%Q in
    {| s_totalDurationMs := s_totalDurationMs stageData;
       s_totalDurationFormatted := formatDuration (inject_Z (s_totalDurationMs stageData));
       s_count := s_count stageData;
       s_averageMs := averageMs;
       s_averageFormatted := formatDuration averageMs;
       s_details := s_details stageData |}
  else stageData.

Definition initSBuckets : gmap string SBucket :=
  list_to_map (map (fun name => (name, emptySBucket)) specialStages).

(** [result[period]] after the loop over the vehicles and the averages. *)
Definition specialAccumulate (r : Range) (vehicles : list Vehicle) : completion (gmap string SBucket) :=
  let* result := forEachE (specialVehicle r) vehicles initSBuckets in
  Normal (fold_left (fun result name => alter specialAverage name result) specialStages result).

Definition formatSpecial (stageData : SBucket) : StageOut :=
  {| totalDuration := s_totalDurationFormatted stageData;
     o_count := s_count stageData;
     average := s_averageFormatted stageData;
     o_details := s_details stageData |}.

Definition specialFormat (result : gmap string SBucket) : list (string * StageOut) :=
  sortByStageOrder
    (map (fun name => (name, formatSpecial (default emptySBucket (result !! name))))
         specialStages).

(** [forEachE] over the windows, collecting one entry per window. *)
Fixpoint mapE {A B : Type} (f : A -> completion B) (l : list A) : completion (list B) :=
  match l with
  | [] => Normal []
  | x :: rest =>
      let* y := f x in
      let* ys := mapE f rest in
      Normal (y :: ys)
  end.

Definition calculateSpecialStageAverages (findVehicles : Range -> list Vehicle)
    (dateRanges : list (string * Range)) : completion (list (string * list (string * StageOut))) :=
  let* results :=
    mapE (fun pr : string * Range =>
            let* result := specialAccumulate (snd pr) (findVehicles (snd pr)) in
            Normal (fst pr, result))
         dateRanges in
  Normal (map (fun pres : string * gmap string SBucket => (fst pres, specialFormat (snd pres)))
              results).

(** ** Job-card-received metrics ([calculateJobCardReceivedMetrics]) *)

Record JBucket := mkJBucket {
  j_totalDuration : string;
  j_count : Z;
  j_average : string;
  j_details : list Detail
}.

Definition emptyJBucket : JBucket := mkJBucket "00:00:00" 0 "00:00:00" [].

(** [result[period]]: the three metrics of the family. *)
Record JResult := mkJResult {
  jobCardReceivedBayAllocation : JBucket;
  jobCardReceivedByTechnician : JBucket;
  jobCardReceivedByFI : JBucket
}.

Definition emptyJResult : JResult := mkJResult emptyJBucket emptyJBucket emptyJBucket.

Definition pushDetail (d : Detail) (b : JBucket) : JBucket :=
  {| j_totalDuration := j_totalDuration b;
     j_count := j_count b;
     j_average := j_average b;
     j_details := j_details b ++ [d] |}.

(** The detail record of an interval from [first] to [second]. *)
Definition intervalDetail (vn : string) (first second : StageEvent) : Detail :=
  {| d_vehicleNumber := vn;
     startTime := timestamp first;
     endTime := timestamp second;
     duration := formatDuration (inject_Z (timestamp second - timestamp first)) |}.

Definition isBayAllocationStart (s : StageEvent) : completion bool :=
  let* b := stageNameStartsWith s "Job Card Received + Bay Allocation" in
  Normal (b && isEvent "Start" s).

Definition bayWorkAfter (startEvent s : StageEvent) : completion bool :=
  let* b := stageNameStartsWith s "Bay Work" in
  Normal (b && isEvent "Start" s && (timestamp startEvent <? timestamp s)).

Definition bayAllocationBefore (technicianEvent s : StageEvent) : completion bool :=
  let* b := stageNameStartsWith s "Job Card Received + Bay Allocation" in
  Normal (b && isEvent "Start" s && (timestamp s <? timestamp technicianEvent)).

Definition technicianBefore (fiEvent s : StageEvent) : bool :=
  strictEq (stageName s) "Job Card Received (by Technician)" && isEvent "Start" s
  && (timestamp s <? timestamp fiEvent).

(** The body of [for (const vehicle of vehicles)].  The window filter is
    not followed by a sort here: [vehicleStages] keeps the array order. *)
Definition jobCardVehicle (r : Range) (result : JResult) (vehicle : Vehicle) : completion JResult :=
  let vehicleStages := List.filter (inWindow r) (stages vehicle) in
  let vn := vehicleNumber vehicle in
  let* jcReceivedStarts := filterE isBayAllocationStart vehicleStages in
  let* bayAllocation :=
    forEachE (fun b startEvent =>
                let* nextBayWork := findE (bayWorkAfter startEvent) vehicleStages in
                Normal (match nextBayWork with
                        | Some nextBayWork => pushDetail (intervalDetail vn startEvent nextBayWork) b
                        | None => b
                        end))
             jcReceivedStarts (jobCardReceivedBayAllocation result) in
  let technicianStarts :=
    List.filter (fun s => strictEq (stageName s) "Job Card Received (by Technician)"
                          && isEvent "Start" s) vehicleStages in
  let* byTechnician :=
    forEachE (fun b technicianEvent =>
                let* previousStage := findE (bayAllocationBefore technicianEvent) vehicleStages in
                Normal (match previousStage with
                        | Some previousStage =>
                            pushDetail (intervalDetail vn previousStage technicianEvent) b
                        | None => b
                        end))
             technicianStarts (jobCardReceivedByTechnician result) in
  let fiStarts :=
    List.filter (fun s => strictEq (stageName s) "Job Card Received (by FI)"
                          && isEvent "Start" s) vehicleStages in
  let byFI :=
    fold_left (fun b fiEvent =>
                 match find (technicianBefore fiEvent) vehicleStages with
                 | Some previousTechnicianStage =>
                     pushDetail (intervalDetail vn previousTechnicianStage fiEvent) b
                 | None => b
                 end)
              fiStarts (jobCardReceivedByFI result) in
  Normal {| jobCardReceivedBayAllocation := bayAllocation;
            jobCardReceivedByTechnician := byTechnician;
            jobCardReceivedByFI := byFI |}.

(** A number that may be [NaN]. *)
Definition formatNumber (x : option Q) : string :=
  match x with
  | Some q => formatDuration q
  | None => "NaN:NaN:NaN"
  end.

(** [items.reduce((sum, d) => sum + parse(d.duration), 0)]. *)
Definition totalOfDetails (items : list Detail) : option Z :=
  fold_left (fun sum d =>
               match sum, parseDuration (duration d) with
               | Some a, Some b => Some (a + b)
               | _, _ => None
               end)
            items (Some 0).

(** "Final formatting: count, total, average". *)
Definition jobCardFinalize (b : JBucket) : JBucket :=
  let items := j_details b in
  let count := Z.of_nat (length items) in
  if 0 <? count then
    let totalMs := totalOfDetails items in
    let avgMs := option_map (fun t => (inject_Z t / inject_Z count)%Q) totalMs in
    {| j_totalDuration := formatNumber (option_map inject_Z totalMs);
       j_count := count;
       j_average := formatNumber avgMs;
       j_details := items |}
  else b.

Definition jobCardPeriod (r : Range) (vehicles : list Vehicle) : completion JResult :=
  let* result := forEachE (jobCardVehicle r) vehicles emptyJResult in
  Normal {| jobCardReceivedBayAllocation := jobCardFinalize (jobCardReceivedBayAllocation result);
            jobCardReceivedByTechnician := jobCardFinalize (jobCardReceivedByTechnician result);
            jobCardReceivedByFI := jobCardFinalize (jobCardReceivedByFI result) |}.

Definition calculateJobCardReceivedMetrics (findVehicles : Range -> list Vehicle)
    (dateRanges : list (string * Range)) : completion (list (string * JResult)) :=
  mapE (fun pr : string * Range =>
          let* result := jobCardPeriod (snd pr) (findVehicles (snd pr)) in
          Normal (fst pr, result))
       dateRanges.

(** ** Bay work metrics ([calculateBayWorkMetrics]) *)

Record BayBucket := mkBayBucket {
  b_totalDurationMs : Z;
  b_totalPausedDurationMs : Z;
  b_totalActiveDurationMs : Z;
  b_count : Z;
  b_details : list Detail
}.

Definition emptyBayBucket : BayBucket := mkBayBucket 0 0 0 0 [].

(** [result[period]]. *)
Record BayResult := mkBayResult {
  byWorkType : gmap string BayBucket;
  overall : BayBucket
}.

Definition emptyBayResult : BayResult := mkBayResult ∅ emptyBayBucket.

(** An entry of [workGroups]. *)
Record WorkGroup := mkWorkGroup {
  g_workType : string;
  g_bayNumber : string;
  g_stages : list StageEvent
}.

(** The body of [bayWorkStages.forEach(stage => ...)]: an event without
    [workType] or [bayNumber] is left out; the others are appended to the
    group of their key, created on first use.  The key contains a hyphen,
    so it is neither a name inherited from [Object.prototype] nor an
    array index: [workGroups] keeps its insertion order, which
    [Object.entries] follows. *)
Definition addToGroup (workGroups : list (string * WorkGroup)) (stage : StageEvent)
    : list (string * WorkGroup) :=
  if negb (truthy (workType stage)) || negb (truthy (bayNumber stage)) then workGroups
  else
    match workType stage, bayNumber stage with
    | Some w, Some b =>
        let key := w +:+ "-" +:+ b in
        let workGroups :=
          if hasOwnProperty workGroups key then workGroups
          else workGroups ++ [(key, mkWorkGroup w b [])] in
        updateProp (fun g => mkWorkGroup (g_workType g) (g_bayNumber g) (g_stages g ++ [stage]))
                   key workGroups
    | _, _ => workGroups
    end.

Inductive WalkState : Type :=
  | StActive
  | StPaused.

(** [for (const e of subsequent) { ... }] with its five locals; the result
    is [(endEvent, paused, active)] when the loop is left. *)
Fixpoint walk (subsequent : list StageEvent) (lastTime paused active : Z) (state : WalkState)
    : option StageEvent * Z * Z :=
  match subsequent with
  | [] => (None, paused, active)
  | e :: rest =>
      let duration := timestamp e - lastTime in
      let active := match state with StActive => active + duration | StPaused => active end in
      let paused := match state with StActive => paused | StPaused => paused + duration end in
      if isEvent "Pause" e then walk rest (timestamp e) paused active StPaused
      else if isEvent "Resume" e then walk rest (timestamp e) paused active StActive
      else if isEvent "End" e then (Some e, paused, active)
      else walk rest (timestamp e) paused active state
  end.

(** [stages.filter(s => s.timestamp > startEvent.timestamp &&
     ["Pause", "Resume", "End"].includes(s.eventType)).sort(...)]. *)
Definition subsequentOf (stages : list StageEvent) (startEvent : StageEvent) : list StageEvent :=
  sortByTimestamp
    (List.filter (fun s => (timestamp startEvent <? timestamp s)
                           && (isEvent "Pause" s || isEvent "Resume" s || isEvent "End" s))
                 stages).

Definition addBay (total paused active : Z) (detail : Detail) (b : BayBucket) : BayBucket :=
  {| b_totalDurationMs := b_totalDurationMs b + total;
     b_totalPausedDurationMs := b_totalPausedDurationMs b + paused;
     b_totalActiveDurationMs := b_totalActiveDurationMs b + active;
     b_count := b_count b + 1;
     b_details := b_details b ++ [detail] |}.

(** The body of [starts.forEach(startEvent => ...)]. *)
Definition bayWorkStart (vn : string) (wt : string) (stages : list StageEvent)
    (result : BayResult) (startEvent : StageEvent) : BayResult :=
  match walk (subsequentOf stages startEvent) (timestamp startEvent) 0 0 StActive with
  | (Some endEvent, paused, active) =>
      let total := timestamp endEvent - timestamp startEvent in
      let detail := intervalDetail vn startEvent endEvent in
      {| byWorkType := alter (addBay total paused active detail) wt (byWorkType result);
         overall := addBay total paused active detail (overall result) |}
  | (None, _, _) => result
  end.

Definition detailsPushError : string :=
  "Cannot read properties of undefined (reading 'push')".

(** Whether the walk after [startEvent] finds an [End]. *)
Definition closedOccurrence (stages : list StageEvent) (startEvent : StageEvent) : bool :=
  match walk (subsequentOf stages startEvent) (timestamp startEvent) 0 0 StActive with
  | (Some _, _, _) => true
  | (None, _, _) => false
  end.

(** The body of [for (const [_, group] of Object.entries(workGroups))].
    [byWorkType[workType]] is truthy for a work type that has a bucket
    and for a name inherited from [Object.prototype]; for the latter no
    bucket is created, and the first closed occurrence of the group reads
    [details] of the inherited value, which is [undefined], and throws at
    [details.push]. *)
Definition bayWorkGroup (vn : string) (result : BayResult) (entry : string * WorkGroup)
    : completion BayResult :=
  let group := snd entry in
  let wt := g_workType group in
  let result :=
    match byWorkType result !! wt with
    | Some _ => result
    | None =>
        if Js.inheritedName wt then result
        else {| byWorkType := <[wt := emptyBayBucket]> (byWorkType result);
                overall := overall result |}
    end in
  let starts := List.filter (isEvent "Start") (g_stages group) in
  forEachE (fun result startEvent =>
              match byWorkType result !! wt with
              | Some _ => Normal (bayWorkStart vn wt (g_stages group) result startEvent)
              | None =>
                  if closedOccurrence (g_stages group) startEvent then Throw detailsPushError
                  else Normal result
              end)
           starts result.

Definition isBayWorkInWindow (r : Range) (s : StageEvent) : completion bool :=
  let* b := stageNameStartsWith s "Bay Work:" in
  Normal (b && inWindow r s).

(** The body of [for (const vehicle of vehicles)]. *)
Definition bayWorkVehicle (r : Range) (result : BayResult) (vehicle : Vehicle) : completion BayResult :=
  let* inWin := filterE (isBayWorkInWindow r) (stages vehicle) in
  let bayWorkStages := sortByTimestamp inWin in
  let workGroups := fold_left addToGroup bayWorkStages [] in
  forEachE (bayWorkGroup (vehicleNumber vehicle)) workGroups result.

Definition bayWorkAccumulate (r : Range) (vehicles : list Vehicle) : completion BayResult :=
  forEachE (bayWorkVehicle r) vehicles emptyBayResult.

Record BayOut := mkBayOut {
  bo_totalDuration : string;
  bo_activeDuration : string;
  bo_pausedDuration : string;
  bo_count : Z;
  bo_average : string;
  bo_details : list Detail
}.

Definition formatBay (data : BayBucket) : BayOut :=
  {| bo_totalDuration := formatDuration (inject_Z (b_totalDurationMs data));
     bo_activeDuration := formatDuration (inject_Z (b_totalActiveDurationMs data));
     bo_pausedDuration := formatDuration (inject_Z (b_totalPausedDurationMs data));
     bo_count := b_count data;
     bo_average :=
       if 0 <? b_count data
       then formatDuration (inject_Z (b_totalActiveDurationMs data) / inject_Z (b_count data))
       else "00:00:00";
     bo_details := b_details data |}.

(** The order of [workTypes.sort()]. *)
Definition stringLe (a b : string) : Prop := Is_true (String.leb a b).

Record BayPeriodOut := mkBayPeriodOut {
  po_byWorkType : list (string * BayOut);
  po_overall : BayOut
}.

(** The formatted entries are listed in the order of [workTypes.sort()],
    in which they are inserted; this is the enumeration order of the
    formatted object when no work type is an array index. *)
Definition bayWorkFormat (result : BayResult) : BayPeriodOut :=
  let workTypes := elements (dom (byWorkType result)) in
  let sortedWorkTypes := merge_sort stringLe workTypes in
  {| po_byWorkType :=
       map (fun wt => (wt, formatBay (default emptyBayBucket (byWorkType result !! wt))))
           sortedWorkTypes;
     po_overall := formatBay (overall result) |}.

Definition calculateBayWorkMetrics (findVehicles : Range -> list Vehicle)
    (dateRanges : list (string * Range)) : completion (list (string * BayPeriodOut)) :=
  let* results :=
    mapE (fun pr : string * Range =>
            let* result := bayWorkAccumulate (snd pr) (findVehicles (snd pr)) in
            Normal (fst pr, result))
         dateRanges in
  Normal (map (fun pres : string * BayResult => (fst pres, bayWorkFormat (snd pres))) results).

(** ** Live status ([/dashboard/live-status]) *)

(** The key under which [obj[x]] stores a possibly missing string. *)
Definition propertyKey (x : option string) : string := default "undefined" x.

Definition stageGroupsPushError : string :=
  "stageGroups[stage.stageName].push is not a function".

(** [if (!stageGroups[stage.stageName]) stageGroups[stage.stageName] = [];
     stageGroups[stage.stageName].push(stage)].  [stageGroups[k]] is
    truthy for an own key, which holds an array, and for a name inherited
    from [Object.prototype], which holds no array: no key is created for
    it and the call of [push] throws. *)
Definition groupPush (stageGroups : list (string * list StageEvent)) (stage : StageEvent)
    : completion (list (string * list StageEvent)) :=
  let key := propertyKey (stageName stage) in
  let stageGroups :=
    if hasOwnProperty stageGroups key || Js.inheritedName key then stageGroups
    else stageGroups ++ [(key, [])] in
  if hasOwnProperty stageGroups key
  then Normal (updateProp (fun entries => entries ++ [stage]) key stageGroups)
  else Throw stageGroupsPushError.

(** [start.performedBy?.userName || "Unknown"]. *)
Definition performerName (e : StageEvent) : string :=
  match performedBy e with
  | Some p => if truthy (userName p) then default "Unknown" (userName p) else "Unknown"
  | None => "Unknown"
  end.

Section LiveLoop.

(** The two copies of the route push records with different fields; the
    loop is the same, so it is written once over the record built from
    the vehicle number and the open [Start]. *)
Context {E : Type} (entryOf : string -> StageEvent -> E).

(** [ends.some(end => end.timestamp > start.timestamp)]. *)
Definition isEnded (ends : list StageEvent) (start : StageEvent) : bool :=
  existsb (fun e => timestamp start <? timestamp e) ends.

(** [for (const start of starts) { ... break; }]: the first start that is
    not ended is pushed and the loop is left. *)
Fixpoint liveStarts (vn name : string) (ends starts : list StageEvent)
    (stageMap : gmap string (list E)) : gmap string (list E) :=
  match starts with
  | [] => stageMap
  | start :: rest =>
      if negb (isEnded ends start) then
        <[name := default [] (stageMap !! name) ++ [entryOf vn start]]> stageMap
      else liveStarts vn name ends rest stageMap
  end.

(** The body of [for (const [stageName, entries] of Object.entries(stageGroups))]. *)
Definition liveGroup (vn : string) (stageMap : gmap string (list E))
    (group : string * list StageEvent) : gmap string (list E) :=
  let starts := sortByTimestamp (List.filter (isEvent "Start") (snd group)) in
  let ends := sortByTimestamp (List.filter (isEvent "End") (snd group)) in
  liveStarts vn (fst group) ends starts stageMap.

(** The body of [for (const vehicle of activeVehicles)].  The keys of
    [stageGroups] are own keys, so none of them is an inherited name and
    [stageMap[stageName]] is tested and filled like any key. *)
Definition liveVehicle (stageMap : gmap string (list E)) (vehicle : Vehicle)
    : completion (gmap string (list E)) :=
  let* stageGroups := forEachE groupPush (stages vehicle) [] in
  Normal (fold_left (liveGroup (vehicleNumber vehicle)) stageGroups stageMap).

(** [Vehicle.find({ exitTime: null })] over the stored documents. *)
Definition activeVehicles (db : list Vehicle) : list Vehicle :=
  List.filter (fun v => match exitTime v with None => true | Some _ => false end) db.

Definition liveStageMap (db : list Vehicle) : completion (gmap string (list E)) :=
  forEachE liveVehicle (activeVehicles db) ∅.

End LiveLoop.

(** The record pushed by the first copy of the route. *)
Record LiveEntry := mkLiveEntry {
  l_vehicleNumber : string;
  l_startedAt : Z;
  l_performedBy : string
}.

Definition liveEntry (vn : string) (start : StageEvent) : LiveEntry :=
  {| l_vehicleNumber := vn;
     l_startedAt := timestamp start;
     l_performedBy := performerName start |}.

(** [liveStageStatus] of the first copy. *)
Definition liveStageStatus (db : list Vehicle) : completion (gmap string (list LiveEntry)) :=
  liveStageMap liveEntry db.

(** The record pushed by the copy in [dashboardRoute.js]; [formatToIST] is
    the locale rendering of a date, left as a parameter. *)
Record LiveEntryIST := mkLiveEntryIST {
  li_vehicleNumber : string;
  li_startedAt : string;
  li_performedBy : string;
  li_duration : string;
  li_durationMinutes : Z
}.

(** [Math.round]. *)
Definition mathRound (q : Q) : Z := Qfloor (q + (1 # 2))%Q.

Definition liveEntryIST (formatToIST : Z -> string) (now : Z) (vn : string) (start : StageEvent)
    : LiveEntryIST :=
  let durationMs := now - timestamp start in
  {| li_vehicleNumber := vn;
     li_startedAt := formatToIST (timestamp start);
     li_performedBy := performerName start;
     li_duration := formatDuration (inject_Z durationMs);
     li_durationMinutes := mathRound (inject_Z durationMs / 60000)%Q |}.

(** [stageWiseDistribution] of the copy in [dashboardRoute.js]. *)
Definition stageWiseDistribution (formatToIST : Z -> string) (now : Z) (db : list Vehicle)
    : completion (gmap string (list LiveEntryIST)) :=
  liveStageMap (liveEntryIST formatToIST now) db.

(** ** Window generator ([utils.getDateRanges]) *)

(** The part of [Date] the generator uses.  A date object is its time
    value; local time is UTC shifted by a fixed offset [tz] in
    milliseconds (the business zone has no daylight saving).  Day numbers
    count days since 1970-01-01 in the proleptic Gregorian calendar. *)
Module DateApi.

Definition msPerDay : Z := 86400000.

(** Day number of the civil date [y]-[m]-[d], [m] in 1..12. *)
Definition daysFromCivil (y m d : Z) : Z :=
  let y := if m <=? 2 then y - 1 else y in
  let era := y / 400 in
  let yoe := y - era * 400 in
  let doy := (153 * (if 2 <? m then m - 3 else m + 9) + 2) / 5 + d - 1 in
  let doe := yoe * 365 + yoe / 4 - yoe / 100 + doy in
  era * 146097 + doe - 719468.

(** Civil date [(y, m, d)] of a day number, [m] in 1..12. *)
Definition civilFromDays (z : Z) : Z * Z * Z :=
  let z := z + 719468 in
  let era := z / 146097 in
  let doe := z - era * 146097 in
  let yoe := (doe - doe / 1460 + doe / 36524 - doe / 146096) / 365 in
  let y := yoe + era * 400 in
  let doy := doe - (365 * yoe + yoe / 4 - yoe / 100) in
  let mp := (5 * doy + 2) / 153 in
  let d := doy - (153 * mp + 2) / 5 + 1 in
  let m := if mp <? 10 then mp + 3 else mp - 9 in
  (if m <=? 2 then y + 1 else y, m, d).

(** [MakeDay(year, month, date)]: [month] is 0-based and, like [date],
    may lie outside its range; the excess carries over. *)
Definition makeDay (year month date : Z) : Z :=
  daysFromCivil (year + month / 12) (month mod 12 + 1) 1 + date - 1.

Definition localDay (tz t : Z) : Z := (t + tz) / msPerDay.
Definition timeInDay (tz t : Z) : Z := (t + tz) mod msPerDay.

Definition getFullYear (tz t : Z) : Z := fst (fst (civilFromDays (localDay tz t))).
Definition getMonth (tz t : Z) : Z := snd (fst (civilFromDays (localDay tz t))) - 1.
Definition getDate (tz t : Z) : Z := snd (civilFromDays (localDay tz t)).
(** [getDay]: 0 is Sunday; 1970-01-01 was a Thursday. *)
Definition getDay (tz t : Z) : Z := (localDay tz t + 4) mod 7.

(** [d.setHours(0, 0, 0, 0)]: the new time value of [d]. *)
Definition setHours0 (tz t : Z) : Z := localDay tz t * msPerDay - tz.

(** [d.setDate(date)]: the new time value of [d]. *)
Definition setDate (tz t date : Z) : Z :=
  makeDay (getFullYear tz t) (getMonth tz t) date * msPerDay + timeInDay tz t - tz.

(** [new Date(year, month, date)]. *)
Definition newDate (tz year month date : Z) : Z :=
  makeDay year month date * msPerDay - tz.

End DateApi.

(** [utils.getDateRanges()].  Every [new Date()] reads the wall clock:
    [clock k] is its [k]-th reading and the function returns the number of
    readings made so far along with the windows.  [now] is one mutable
    date object: [setHours] and [setDate] change it in place, and the
    month boundaries are taken from it after both changes. *)
Definition getDateRanges (tz : Z) (clock : nat -> Z) (tick : nat)
    : list (string * Range) * nat :=
  let now := clock tick in
  let now := DateApi.setHours0 tz now in
  let startOfDay := now in
  let now := DateApi.setDate tz now (DateApi.getDate tz now - DateApi.getDay tz now) in
  let startOfWeek := now in
  let startOfMonth :=
    DateApi.newDate tz (DateApi.getFullYear tz now) (DateApi.getMonth tz now) 1 in
  let startOfLastMonth :=
    DateApi.newDate tz (DateApi.getFullYear tz now) (DateApi.getMonth tz now - 1) 1 in
  let endOfLastMonth :=
    DateApi.newDate tz (DateApi.getFullYear tz now) (DateApi.getMonth tz now) 0 in
  ([ ("today", mkRange startOfDay (clock (tick + 1)%nat));
     ("thisWeek", mkRange startOfWeek (clock (tick + 2)%nat));
     ("thisMonth", mkRange startOfMonth (clock (tick + 3)%nat));
     ("lastMonth", mkRange startOfLastMonth endOfLastMonth) ],
   (tick + 4)%nat).

(** ** The metrics route ([/dashboard/metrics]) *)

(** The four [Vehicle.find] queries, one per metric family. *)
Record Queries := mkQueries {
  findStageAverages : Range -> list Vehicle;
  findSpecial : Range -> list Vehicle;
  findJobCard : Range -> list Vehicle;
  findBayWork : Range -> list Vehicle
}.

Record MetricsResult := mkMetricsResult {
  stageAverages : option (list (string * list (string * StageOut)));
  specialStageAverages : option (list (string * list (string * StageOut)));
  jobCardReceivedMetrics : option (list (string * JResult));
  bayWorkMetrics : option (list (string * BayPeriodOut))
}.

(** [utils.standardResponse]: the status code and the body. *)
Record Response := mkResponse {
  status : Z;
  success : bool;
  message : string;
  data : MetricsResult + string
}.

Definition wants (metricType family : string) : bool :=
  String.eqb metricType "all" || String.eqb metricType family.

(** [if (wanted) result.x = await calculate(...)]. *)
Definition whenWanted {A : Type} (wanted : bool) (c : completion A) : completion (option A) :=
  if wanted then (let* a := c in Normal (Some a)) else Normal None.

Definition resortPeriods {V : Type} (r : list (string * list (string * V)))
    : list (string * list (string * V)) :=
  map (fun pr => (fst pr, sortByStageOrder (snd pr))) r.

(** The [try] block of the route. *)
Definition metricsBody (q : Queries) (dateRanges : list (string * Range)) (metricType : string)
    : completion MetricsResult :=
  let sa :=
    if wants metricType "stage-averages"
    then Some (calculateStageAverages (findStageAverages q) dateRanges) else None in
  let* ssa := whenWanted (wants metricType "special-stage-averages")
                (calculateSpecialStageAverages (findSpecial q) dateRanges) in
  let* jc := whenWanted (wants metricType "job-card-received")
               (calculateJobCardReceivedMetrics (findJobCard q) dateRanges) in
  let* bw := whenWanted (wants metricType "bay-work")
               (calculateBayWorkMetrics (findBayWork q) dateRanges) in
  Normal {| stageAverages := option_map resortPeriods sa;
            specialStageAverages := option_map resortPeriods ssa;
            jobCardReceivedMetrics := jc;
            bayWorkMetrics := bw |}.

(** The route: one call of the window generator, then the [try] block,
    whose throw is turned into the error response by [utils.handleError]. *)
Definition dashboardMetrics (tz : Z) (clock : nat -> Z) (tick : nat) (q : Queries)
    (metricType : string) : Response * nat :=
  let '(dateRanges, tick) := getDateRanges tz clock tick in
  (match metricsBody q dateRanges metricType with
   | Normal result =>
       {| status := 200; success := true;
          message := "Dashboard metrics calculated successfully" +:+
                     (if String.eqb metricType "all" then "" else " for " +:+ metricType);
          data := inl result |}
   | Throw msg =>
       {| status := 500; success := false; message := "Server error"; data := inr msg |}
   end, tick).

(** ** The stage averages route ([/dashboard/stage-averages]) *)

Definition restrictedStages : list string :=
  [ "Interactive Bay"; "Washing"; "Final Inspection"; "Creation of Parts Estimate" ].

(** [result[period]] of the route after the loop over the vehicles: the
    loop body is the one of [calculateStageAverages], run over the
    restricted stages. *)
Definition routeStageAveragesAccumulate (r : Range) (vehicles : list Vehicle)
    : gmap string Bucket :=
  fold_left (fun result vehicle => fold_left (stageAveragesStage r vehicle) restrictedStages result)
            vehicles (initBuckets restrictedStages).

(** [formattedResult[period]] of the route: one entry per restricted
    stage, in that order. *)
Definition routeStageAveragesFormat (result : gmap string Bucket) : list (string * StageOut) :=
  map (fun name => (name, formatStage (default emptyBucket (result !! name)))) restrictedStages.

(** The [data] of the route's response. *)
Definition routeStageAverages (findVehicles : Range -> list Vehicle)
    (dateRanges : list (string * Range)) : list (string * list (string * StageOut)) :=
  map (fun pr : string * Range =>
         (fst pr, routeStageAveragesFormat
                    (routeStageAveragesAccumulate (snd pr) (findVehicles (snd pr)))))
      dateRanges.

(** ** All-time active vehicles ([/dashboard/all-time-active]) *)

(** The copy of the duration formatter local to
    [/dashboard/all-time-active] and [/dashboard/todays-vehicles]: a
    template literal instead of [join]. *)
Definition inline_formatDuration (ms : Q) : string :=
  let totalSeconds := Qfloor (ms / 1000) in
  let hours := totalSeconds / 3600 in
  let mins := (Z.rem totalSeconds 3600) / 60 in
  let secs := Z.rem totalSeconds 60 in
  Js.padStart 2 "0" (Js.toString hours) +:+ ":" +:+ Js.padStart 2 "0" (Js.toString mins)
  +:+ ":" +:+ Js.padStart 2 "0" (Js.toString secs).

(** [stages.reduce((latest, stage) => (!latest || stage.timestamp >
     latest.timestamp) ? stage : latest, null)]. *)
Definition lastStageOf (stages : list StageEvent) : option StageEvent :=
  fold_left (fun latest stage =>
               match latest with
               | None => Some stage
               | Some l => if timestamp l <? timestamp stage then Some stage else latest
               end)
            stages None.

(** [a === b] on two possibly missing strings. *)
Definition sameName (a b : option string) : bool :=
  match a, b with
  | Some x, Some y => String.eqb x y
  | None, None => true
  | _, _ => false
  end.

Definition stageMapPushError : string :=
  "stageMap[stage.stageName].push is not a function".

Section AllTimeLoop.

Context {E : Type} (entryOf : string -> StageEvent -> E).

(** [stages.some(s => s.stageName === stage.stageName &&
     s.eventType === 'End' && s.timestamp > stage.timestamp)]. *)
Definition endedLater (stages : list StageEvent) (stage : StageEvent) : bool :=
  existsb (fun s => sameName (stageName s) (stageName stage) && isEvent "End" s
                    && (timestamp stage <? timestamp s))
          stages.

(** The body of [for (const stage of stages)]: the key of the stage name
    is created whether or not a record is pushed, and no [break] follows
    the push.  [stageMap[k]] is truthy for an own key and for a name
    inherited from [Object.prototype]; for the latter no key is created
    and the call of [push] throws. *)
Definition allTimeStage (vn : string) (stages : list StageEvent)
    (stageMap : gmap string (list E)) (stage : StageEvent) : completion (gmap string (list E)) :=
  let key := propertyKey (stageName stage) in
  let stageMap :=
    match stageMap !! key with
    | Some _ => stageMap
    | None => if Js.inheritedName key then stageMap else <[key := []]> stageMap
    end in
  if isEvent "Start" stage && negb (endedLater stages stage)
  then match stageMap !! key with
       | Some _ => Normal (alter (fun entries => entries ++ [entryOf vn stage]) key stageMap)
       | None => Throw stageMapPushError
       end
  else Normal stageMap.

Definition allTimeStages (stageMap : gmap string (list E)) (vehicle : Vehicle)
    : completion (gmap string (list E)) :=
  forEachE (allTimeStage (vehicleNumber vehicle) (stages vehicle)) (stages vehicle) stageMap.

End AllTimeLoop.

(** [vehicleStageInfo[vehicleNumber].lastStage]. *)
Record LastStage := mkLastStage {
  ls_stageName : option string;
  ls_timestamp : string;
  ls_performedBy : string;
  ls_duration : string
}.

Definition lastStageInfo (formatToIST : Z -> string) (now : Z) (lastStage : StageEvent)
    : LastStage :=
  {| ls_stageName := stageName lastStage;
     ls_timestamp := formatToIST (timestamp lastStage);
     ls_performedBy := performerName lastStage;
     ls_duration := inline_formatDuration (inject_Z (now - timestamp lastStage)) |}.

(** The record pushed on [stageMap[stage.stageName]]. *)
Record ActiveEntry := mkActiveEntry {
  ae_vehicleNumber : string;
  ae_startedAt : string;
  ae_performedBy : string;
  ae_duration : string
}.

Definition activeEntry (formatToIST : Z -> string) (now : Z) (vn : string) (stage : StageEvent)
    : ActiveEntry :=
  {| ae_vehicleNumber := vn;
     ae_startedAt := formatToIST (timestamp stage);
     ae_performedBy := performerName stage;
     ae_duration := inline_formatDuration (inject_Z (now - timestamp stage)) |}.

(** The body of [for (const vehicle of allTimeActiveVehicles)] on the two
    objects it fills: [vehicleStageInfo], keyed by vehicle number, whose
    entry is reset and then given a [lastStage] when the vehicle has an
    event, and [stageMap]. *)
Definition allTimeVehicle (formatToIST : Z -> string) (now : Z)
    (st : gmap string (option LastStage) * gmap string (list ActiveEntry)) (vehicle : Vehicle)
    : completion (gmap string (option LastStage) * gmap string (list ActiveEntry)) :=
  let vehicleStageInfo :=
    <[vehicleNumber vehicle := option_map (lastStageInfo formatToIST now)
                                          (lastStageOf (stages vehicle))]> (fst st) in
  let* stageMap := allTimeStages (activeEntry formatToIST now) (snd st) vehicle in
  Normal (vehicleStageInfo, stageMap).

Record ActiveVehicleOut := mkActiveVehicleOut {
  avo_vehicleNumber : string;
  avo_entryTime : string;
  avo_lastStage : option LastStage;
  avo_duration : string;
  avo_durationHours : Z
}.

Record AllTimeActive := mkAllTimeActive {
  ata_count : nat;
  ata_vehicles : list ActiveVehicleOut;
  ata_stageWiseDistribution : gmap string (list ActiveEntry);
  ata_updatedAt : string
}.

(** The [data] of the response, from the documents
    [Vehicle.find({ exitTime: null }).sort({ entryTime: -1 })] returned. *)
Definition allTimeActive (formatToIST : Z -> string) (now : Z)
    (allTimeActiveVehicles : list Vehicle) : completion AllTimeActive :=
  let* st := forEachE (allTimeVehicle formatToIST now) allTimeActiveVehicles (∅, ∅) in
  let vehicleStageInfo := fst st in
  let stageMap := snd st in
  Normal
  {| ata_count := length allTimeActiveVehicles;
     ata_vehicles :=
       map (fun v =>
              {| avo_vehicleNumber := vehicleNumber v;
                 avo_entryTime := formatToIST (entryTime v);
                 avo_lastStage := mjoin (vehicleStageInfo !! vehicleNumber v);
                 avo_duration := inline_formatDuration (inject_Z (now - entryTime v));
                 avo_durationHours := mathRound (inject_Z (now - entryTime v) / 3600000)%Q |})
           allTimeActiveVehicles;
     ata_stageWiseDistribution := stageMap;
     ata_updatedAt := formatToIST now |}.

(** ** Today's vehicles ([/dashboard/todays-vehicles]) *)

Record TodayLastStage := mkTodayLastStage {
  tl_stageName : option string;
  tl_timestamp : string;
  tl_performedBy : string;
  tl_eventType : option string;
  tl_duration : string
}.

Record TodayVehicleOut := mkTodayVehicleOut {
  tv_vehicleNumber : string;
  tv_entryTime : string;
  tv_exitTime : option string;
  tv_isActive : bool;
  tv_lastStage : option TodayLastStage;
  tv_duration : string;
  tv_durationMinutes : Z
}.

(** The callback of [todaysVehicles.map]. *)
Definition processVehicle (formatToIST : Z -> string) (now : Z) (v : Vehicle) : TodayVehicleOut :=
  let durationMs :=
    match exitTime v with
    | Some exit => exit - entryTime v
    | None => now - entryTime v
    end in
  let lastStage := lastStageOf (stages v) in
  {| tv_vehicleNumber := vehicleNumber v;
     tv_entryTime := formatToIST (entryTime v);
     tv_exitTime := option_map formatToIST (exitTime v);
     tv_isActive := match exitTime v with Some _ => false | None => true end;
     tv_lastStage :=
       option_map (fun lastStage =>
                     {| tl_stageName := stageName lastStage;
                        tl_timestamp := formatToIST (timestamp lastStage);
                        tl_performedBy := performerName lastStage;
                        tl_eventType := eventType lastStage;
                        tl_duration :=
                          inline_formatDuration (inject_Z (now - timestamp lastStage)) |})
                  lastStage;
     tv_duration := inline_formatDuration (inject_Z durationMs);
     tv_durationMinutes := mathRound (inject_Z durationMs / 60000)%Q |}.

Record TodaysVehicles := mkTodaysVehicles {
  tvs_count : nat;
  tvs_activeCount : nat;
  tvs_completedCount : nat;
  tvs_vehicles : list TodayVehicleOut;
  tvs_updatedAt : string
}.

(** The [data] of the response, from the documents the query returned. *)
Definition todaysVehiclesResponse (formatToIST : Z -> string) (now : Z)
    (todaysVehicles : list Vehicle) : TodaysVehicles :=
  let processedVehicles := map (processVehicle formatToIST now) todaysVehicles in
  {| tvs_count := length todaysVehicles;
     tvs_activeCount := length (List.filter tv_isActive processedVehicles);
     tvs_completedCount := length (List.filter (fun v => negb (tv_isActive v)) processedVehicles);
     tvs_vehicles := processedVehicles;
     tvs_updatedAt := formatToIST now |}.

(** ** Live stage-wise status ([/dashboard/stage-live-status]) *)

Definition stagesWithStartEnd : list string :=
  [ "Interactive Bay"; "Bay Work"; "Final Inspection"; "Washing";
    "Creation of Parts Estimate" ].

Definition stagesWithOnlyStart : list string :=
  [ "Job Card Creation + Customer Approval"; "Job Card Received + Bay Allocation";
    "Additional Work Job Approval"; "Ready for Washing" ].

(** [stageInfo], with the [endTime] the completed records add. *)
Record StageInfo := mkStageInfo {
  si_vehicleNumber : string;
  si_startTime : string;
  si_performedBy : string;
  si_endTime : option string
}.

(** [result[stage]]. *)
Record LiveBucket := mkLiveBucket {
  lb_active : list StageInfo;
  lb_completed : list StageInfo
}.

Definition pushActive (info : StageInfo) (b : LiveBucket) : LiveBucket :=
  {| lb_active := lb_active b ++ [info]; lb_completed := lb_completed b |}.

Definition pushCompleted (info : StageInfo) (b : LiveBucket) : LiveBucket :=
  {| lb_active := lb_active b; lb_completed := lb_completed b ++ [info] |}.

(** [s => s.stageName.startsWith(stage) && s.eventType === ty]. *)
Definition isStageEvent (stage ty : string) (s : StageEvent) : completion bool :=
  let* b := stageNameStartsWith s stage in
  Normal (b && isEvent ty s).

(** The body of [for (const startEvent of starts)] of a stage with
    [Start] and [End]: [ends] is in array order, and [find] takes its
    first element after the start. *)
Definition startEndStart (format : Z -> string) (vn stage : string) (ends : list StageEvent)
    (result : gmap string LiveBucket) (startEvent : StageEvent) : gmap string LiveBucket :=
  let hasEnd := find (fun e => timestamp startEvent <? timestamp e) ends in
  let stageInfo :=
    mkStageInfo vn (format (timestamp startEvent)) (performerName startEvent) None in
  match hasEnd with
  | Some hasEnd =>
      alter (pushCompleted
               (mkStageInfo vn (format (timestamp startEvent)) (performerName startEvent)
                            (Some (format (timestamp hasEnd)))))
            stage result
  | None => alter (pushActive stageInfo) stage result
  end.

(** The body of [for (const stage of stagesWithStartEnd)]. *)
Definition startEndStage (format : Z -> string) (vehicle : Vehicle)
    (result : gmap string LiveBucket) (stage : string) : completion (gmap string LiveBucket) :=
  let* starts := filterE (isStageEvent stage "Start") (stages vehicle) in
  let* ends := filterE (isStageEvent stage "End") (stages vehicle) in
  Normal (fold_left (startEndStart format (vehicleNumber vehicle) stage ends) starts result).

(** [stages.some(s => s.eventType === "Start" && s.timestamp >
     startEvent.timestamp)]. *)
Definition hasNext (stages : list StageEvent) (startEvent : StageEvent) : bool :=
  existsb (fun s => isEvent "Start" s && (timestamp startEvent <? timestamp s)) stages.

(** The body of [for (const startEvent of starts)] of a stage with
    [Start] only. *)
Definition onlyStartStart (format : Z -> string) (vn stage : string) (stages : list StageEvent)
    (result : gmap string LiveBucket) (startEvent : StageEvent) : gmap string LiveBucket :=
  let entry := mkStageInfo vn (format (timestamp startEvent)) (performerName startEvent) None in
  if hasNext stages startEvent then alter (pushCompleted entry) stage result
  else alter (pushActive entry) stage result.

(** The body of [for (const stage of stagesWithOnlyStart)]. *)
Definition onlyStartStage (format : Z -> string) (vehicle : Vehicle)
    (result : gmap string LiveBucket) (stage : string) : completion (gmap string LiveBucket) :=
  let* starts := filterE (isStageEvent stage "Start") (stages vehicle) in
  Normal (fold_left (onlyStartStart format (vehicleNumber vehicle) stage (stages vehicle))
                    starts result).

(** The body of [for (const vehicle of vehicles)]. *)
Definition stageLiveVehicle (format : Z -> string) (result : gmap string LiveBucket)
    (vehicle : Vehicle) : completion (gmap string LiveBucket) :=
  let* result := forEachE (startEndStage format vehicle) stagesWithStartEnd result in
  forEachE (onlyStartStage format vehicle) stagesWithOnlyStart result.

(** [result] after its initialisation: every stage of the two lists has
    a bucket. *)
Definition initLive : gmap string LiveBucket :=
  fold_left (fun result stage => <[stage := mkLiveBucket [] []]> result)
            (stagesWithStartEnd ++ stagesWithOnlyStart) ∅.

(** The [data] of the response, from the documents the query returned. *)
Definition stageLiveStatus (format : Z -> string) (vehicles : list Vehicle)
    : completion (gmap string LiveBucket) :=
  forEachE (stageLiveVehicle format) vehicles initLive.

(** ** Active stages with their duration ([/active-stages-with-duration]) *)

Definition undefinedIncludes : string :=
  "Cannot read properties of undefined (reading 'includes')".

(** [s.includes(p)]. *)
Fixpoint includes (s p : string) : bool :=
  Js.startsWith s p
  || match s with
     | EmptyString => false
     | String _ rest => includes rest p
     end.

(** [s.stageName.includes(p)]. *)
Definition stageNameIncludes (s : StageEvent) (p : string) : completion bool :=
  match stageName s with
  | Some n => Normal (includes n p)
  | None => Throw undefinedIncludes
  end.

(** [l.some(p)] for a callback that may throw. *)
Fixpoint someE {A : Type} (p : A -> completion bool) (l : list A) : completion bool :=
  match l with
  | [] => Normal false
  | x :: rest =>
      let* b := p x in
      if b then Normal true else someE p rest
  end.

Definition dependentPatterns : list string :=
  [ "Job Card Creation + Customer Approval"; "Additional Work Job Approval";
    "Ready for Washing"; "Job Card Received" ].

(** [isDependentStage(stageName)]. *)
Definition isDependentStage (stageName : option string) : completion bool :=
  match stageName with
  | Some n => Normal (existsb (includes n) dependentPatterns)
  | None => Throw undefinedIncludes
  end.

(** [obj[k] = v] for a value that is an object: an existing key keeps its
    place; for ["__proto__"] the assignment runs the setter inherited from
    [Object.prototype], which replaces the prototype and creates no own
    key. *)
Definition setProp {V : Type} (k : string) (v : V) (obj : list (string * V))
    : list (string * V) :=
  if String.eqb k "__proto__" then obj
  else if hasOwnProperty obj k then updateProp (fun _ => v) k obj else obj ++ [(k, v)].

(** [delete obj[k]]. *)
Definition deleteProp {V : Type} (k : string) (obj : list (string * V)) : list (string * V) :=
  List.filter (fun kv => negb (String.eqb (fst kv) k)) obj.

(** The callback of the first pass, [stages.forEach(stage => ...)], on
    [stageStartTimes]. *)
Definition recordStartTime (stageStartTimes : list (string * Z)) (stage : StageEvent)
    : completion (list (string * Z)) :=
  if isEvent "Start" stage then
    let* dependent := isDependentStage (stageName stage) in
    Normal (if negb dependent
            then setProp (propertyKey (stageName stage)) (timestamp stage) stageStartTimes
            else stageStartTimes)
  else if isEvent "End" stage
          && hasOwnProperty stageStartTimes (propertyKey (stageName stage))
  then Normal (deleteProp (propertyKey (stageName stage)) stageStartTimes)
  else Normal stageStartTimes.

(** An entry of [dependentStages]. *)
Record DependentConfig := mkDependentConfig {
  endedBy : option (StageEvent -> bool);
  cfg_isActive : bool
}.

(** The callback of [stages.some] for ['Job Card Received']. *)
Definition otherJobCardReceivedStart (s : StageEvent) : completion bool :=
  match stageName s with
  | Some n =>
      Normal (includes n "Job Card Received" && isEvent "Start" s
              && negb (existsb (includes n) ["Job Card Received + Bay Allocation"]))
  | None => Throw undefinedIncludes
  end.

(** The object literal [dependentStages]: its two [isActive] flags are
    computed, in this order, when the object is built. *)
Definition dependentStages (stages : list StageEvent)
    : completion (list (string * DependentConfig)) :=
  let* additionalWork :=
    someE (fun s =>
             let* b := stageNameStartsWith s "Additional Work Job Approval" in
             Normal (b && isEvent "Start" s))
          stages in
  let* jobCardReceived := someE otherJobCardReceivedStart stages in
  Normal
    [ ("Job Card Creation + Customer Approval",
       mkDependentConfig
         (Some (fun stage => strictEq (stageName stage) "Ready for Washing"
                             && isEvent "Start" stage))
         false);
      ("Additional Work Job Approval", mkDependentConfig None additionalWork);
      ("Ready for Washing",
       mkDependentConfig
         (Some (fun stage => strictEq (stageName stage) "Washing" && isEvent "Start" stage))
         false);
      ("Job Card Received", mkDependentConfig None jobCardReceived) ].

(** A record of [activeStages]. *)
Record ActiveStage := mkActiveStage {
  as_stageName : option string;
  as_startedAt : Z;
  as_durationMinutes : Z;
  as_durationFormatted : string;
  as_startedBy : string;
  as_role : option string;
  as_isDependentStage : bool;
  as_workType : option string;
  as_bayNumber : option string
}.

Definition activeStage (now : Z) (name : option string) (startedAt : Z)
    (startStage : StageEvent) (dependent : bool) : ActiveStage :=
  let durationMinutes := mathRound (inject_Z (now - startedAt) / 60000)%Q in
  {| as_stageName := name;
     as_startedAt := startedAt;
     as_durationMinutes := durationMinutes;
     as_durationFormatted :=
       Js.toString (durationMinutes / 60) +:+ "h " +:+ Js.toString (Z.rem durationMinutes 60)
       +:+ "m";
     as_startedBy := performerName startStage;
     as_role := role startStage;
     as_isDependentStage := dependent;
     as_workType := if truthy (workType startStage) then workType startStage else None;
     as_bayNumber := if truthy (bayNumber startStage) then bayNumber startStage else None |}.

(** [isEnded] of a start of a dependent stage. *)
Definition dependentEnded (config : DependentConfig) (stages : list StageEvent)
    (startStage : StageEvent) : bool :=
  match endedBy config with
  | Some endedBy =>
      existsb (fun s => endedBy s && (timestamp startStage <? timestamp s)) stages
  | None => negb (cfg_isActive config)
  end.

(** The body of [for (const [stagePattern, config] of
    Object.entries(dependentStages))]. *)
Definition dependentStarts (now : Z) (stages : list StageEvent)
    (activeStages : list ActiveStage) (entry : string * DependentConfig)
    : completion (list ActiveStage) :=
  let stagePattern := fst entry in
  let config := snd entry in
  let* stageStarts :=
    filterE (fun s =>
               let* b := stageNameIncludes s stagePattern in
               Normal (b && isEvent "Start" s))
            stages in
  Normal (fold_left
            (fun activeStages startStage =>
               if negb (dependentEnded config stages startStage)
               then activeStages
                    ++ [activeStage now (stageName startStage) (timestamp startStage)
                                    startStage true]
               else activeStages)
            stageStarts activeStages).

(** The callback of [Object.entries(stageStartTimes).forEach]. *)
Definition regularStage (now : Z) (stages : list StageEvent)
    (activeStages : list ActiveStage) (entry : string * Z) : list ActiveStage :=
  let name := fst entry in
  let startTime := snd entry in
  match find (fun s => strictEq (stageName s) name && (timestamp s =? startTime)) stages with
  | Some startStage => activeStages ++ [activeStage now (Some name) startTime startStage false]
  | None => activeStages
  end.

Record VehicleActiveStages := mkVehicleActiveStages {
  vas_vehicleNumber : string;
  vas_entryTime : Z;
  vas_activeStages : list ActiveStage;
  vas_totalActiveStages : nat
}.

(** The callback of [activeVehicles.map]. *)
Definition vehicleActiveStages (now : Z) (vehicle : Vehicle) : completion VehicleActiveStages :=
  let stages := stages vehicle in
  let* stageStartTimes := forEachE recordStartTime stages [] in
  let* dependentStages := dependentStages stages in
  let* activeStages := forEachE (dependentStarts now stages) dependentStages [] in
  let activeStages := fold_left (regularStage now stages) stageStartTimes activeStages in
  Normal {| vas_vehicleNumber := vehicleNumber vehicle;
            vas_entryTime := entryTime vehicle;
            vas_activeStages := activeStages;
            vas_totalActiveStages := length activeStages |}.

Record ActiveStagesResponse := mkActiveStagesResponse {
  asr_count : nat;
  asr_vehicles : list VehicleActiveStages
}.

(** The body of the response, from the documents the query returned. *)
Definition activeStagesWithDuration (now : Z) (activeVehicles : list Vehicle)
    : completion ActiveStagesResponse :=
  let* vehiclesWithActiveStages := mapE (vehicleActiveStages now) activeVehicles in
  let result :=
    List.filter (fun v => (0 <? vas_totalActiveStages v)%nat) vehiclesWithActiveStages in
  Normal {| asr_count := length result; asr_vehicles := result |}.

(** ** Notions used to state the properties *)

(** Chronological order of two events. *)
Definition tsLe (a b : StageEvent) : Prop := timestamp a <= timestamp b.

(** What the loop over the starts of one stage does to the bucket of that
    stage, as a function of the bucket alone. *)
Definition matchStarts (vn : string) (ends starts : list StageEvent) (b : Bucket) : Bucket :=
  fold_left
    (fun b s => match findEnd ends s with
                | Some e => pushOccurrence formatMilliseconds vn s e b
                | None => b
                end)
    starts b.

(** The detail record of a start, if it is closed. *)
Definition detailOfStart (vn : string) (ends : list StageEvent) (s : StageEvent) : option Detail :=
  option_map
    (fun e => {| d_vehicleNumber := vn;
                 startTime := timestamp s;
                 endTime := timestamp e;
                 duration := formatMilliseconds (Js.ofZ (timestamp e - timestamp s)) |})
    (findEnd ends s).

Definition washingEvent (ty : string) (t : Z) : StageEvent :=
  mkEvent (Some "Washing") (Some ty) t None None None None.

(** One vehicle with two starts of "Washing" and a single later end. *)
Definition twoStartsOneEnd : Vehicle :=
  mkVehicle "V1" 0 None
    [ washingEvent "Start" 1000; washingEvent "Start" 2000; washingEvent "End" 3000 ].

Definition stageEvent (name ty : string) (t : Z) : StageEvent :=
  mkEvent (Some name) (Some ty) t None None None None.

(** Two starts of "Additional Work Job Approval" followed by three starts
    of "Job Card Received + Bay Allocation". *)
Definition twoApprovalsThreeAllocations : Vehicle :=
  mkVehicle "V5" 0 None
    [ stageEvent "Additional Work Job Approval" "Start" 1000;
      stageEvent "Additional Work Job Approval" "Start" 2000;
      stageEvent "Job Card Received + Bay Allocation" "Start" 3000;
      stageEvent "Job Card Received + Bay Allocation" "Start" 4000;
      stageEvent "Job Card Received + Bay Allocation" "Start" 5000 ].

(** [s.stageName.startsWith(p)] on an event that has a stage name. *)
Definition nameStartsWith (p : string) (s : StageEvent) : bool :=
  match stageName s with
  | Some n => Js.startsWith n p
  | None => false
  end.

Definition hasStageName (s : StageEvent) : bool :=
  match stageName s with
  | Some _ => true
  | None => false
  end.

(** A start of "Job Card Received + Bay Allocation" (prefix match)
    strictly after [startEvent]. *)
Definition laterBayAllocation (startEvent s : StageEvent) : bool :=
  nameStartsWith "Job Card Received + Bay Allocation" s && isEvent "Start" s
  && (timestamp startEvent <? timestamp s).

(** A start of "Additional Work Job Approval" (prefix match). *)
Definition approvalStart (s : StageEvent) : bool :=
  nameStartsWith "Additional Work Job Approval" s && isEvent "Start" s.

(** The events of a vehicle inside the window, sorted. *)
Definition windowStages (r : Range) (vehicle : Vehicle) : list StageEvent :=
  sortByTimestamp (List.filter (inWindow r) (stages vehicle)).

Definition bayEvent (ty : string) (t : Z) : StageEvent :=
  mkEvent (Some "Bay Work: Denting") (Some ty) t None None (Some "Denting") (Some "B1").

(** Start at 09:00, pause at 09:20, resume at 09:30, end at 10:00 (in
    milliseconds after 09:00), stored out of chronological order. *)
Definition dentingStages : list StageEvent :=
  [ bayEvent "End" 3600000; bayEvent "Start" 0;
    bayEvent "Resume" 1800000; bayEvent "Pause" 1200000 ].

Definition dentingVehicle : Vehicle := mkVehicle "V2" 0 None dentingStages.

(** The exact duration of a detail record, in milliseconds, and the
    duration its [duration] string retains (whole seconds). *)
Definition exactMs (d : Detail) : Z := endTime d - startTime d.
Definition truncatedMs (d : Detail) : Z := exactMs d / 1000 * 1000.

Definition sumOf (f : Detail -> Z) (ds : list Detail) : Z :=
  fold_right (fun d acc => f d + acc) 0 ds.

(** An accumulated bucket agrees with its detail records. *)
Definition bucketOk (b : Bucket) : Prop :=
  count b = Z.of_nat (length (details b))
  /\ totalDurationMs b = sumOf exactMs (details b).

(** A special-stage bucket while the vehicles are being processed, and
    after the averages of the window were computed. *)
Definition sAccOk (b : SBucket) : Prop :=
  s_count b = Z.of_nat (length (s_details b))
  /\ s_totalDurationMs b = sumOf exactMs (s_details b)
  /\ s_totalDurationFormatted b = "00:00:00"
  /\ s_averageFormatted b = "00:00:00".

Definition sFinalOk (b : SBucket) : Prop :=
  s_count b = Z.of_nat (length (s_details b))
  /\ s_totalDurationMs b = sumOf exactMs (s_details b)
  /\ s_totalDurationFormatted b = formatDuration (inject_Z (s_totalDurationMs b))
  /\ s_averageFormatted b =
       (if 0 <? s_count b
        then formatDuration (inject_Z (s_totalDurationMs b) / inject_Z (s_count b))
        else "00:00:00").

(** A detail record made from two events in chronological order. *)
Definition detailOk (d : Detail) : Prop :=
  startTime d < endTime d /\ duration d = formatDuration (inject_Z (exactMs d)).

(** A job-card bucket while the vehicles are being processed, and after
    the final formatting of the window. *)
Definition jAccOk (b : JBucket) : Prop :=
  j_totalDuration b = "00:00:00" /\ j_count b = 0 /\ j_average b = "00:00:00"
  /\ Forall detailOk (j_details b).

Definition jFinalOk (b : JBucket) : Prop :=
  j_count b = Z.of_nat (length (j_details b))
  /\ Forall detailOk (j_details b)
  /\ j_totalDuration b = formatDuration (inject_Z (sumOf truncatedMs (j_details b)))
  /\ j_average b =
       (if 0 <? j_count b
        then formatDuration (inject_Z (sumOf truncatedMs (j_details b)) / inject_Z (j_count b))
        else "00:00:00").

(** An accumulated Bay Work bucket agrees with its detail records, and
    its active and paused times split its total. *)
Definition bayOk (data : BayBucket) : Prop :=
  b_count data = Z.of_nat (length (b_details data))
  /\ b_totalDurationMs data = sumOf exactMs (b_details data)
  /\ b_totalActiveDurationMs data + b_totalPausedDurationMs data = b_totalDurationMs data
  /\ 0 <= b_totalActiveDurationMs data /\ 0 <= b_totalPausedDurationMs data.

Definition bayResultOk (res : BayResult) : Prop :=
  bayOk (overall res) /\ map_Forall (fun _ => bayOk) (byWorkType res).

(** The three buckets of a job-card result. *)
Definition jBuckets (jr : JResult) : list JBucket :=
  [ jobCardReceivedBayAllocation jr; jobCardReceivedByTechnician jr; jobCardReceivedByFI jr ].

(** Two bay allocations, each followed by a Bay Work start 1.5 s later. *)
Definition subSecondVehicle : Vehicle :=
  mkVehicle "V6" 0 None
    [ stageEvent "Job Card Received + Bay Allocation" "Start" 0;
      stageEvent "Bay Work: Denting" "Start" 1500;
      stageEvent "Job Card Received + Bay Allocation" "Start" 2000;
      stageEvent "Bay Work: Denting" "Start" 3500 ].

(** Two "Washing" occurrences of 1.5 s each. *)
Definition subSecondWashing : Vehicle :=
  mkVehicle "V7" 0 None
    [ washingEvent "Start" 0; washingEvent "End" 1500;
      washingEvent "Start" 2000; washingEvent "End" 3500 ].

(** One "Washing" occurrence of 123 seconds. *)
Definition washingFor123Seconds : Vehicle :=
  mkVehicle "V10" 0 None [ washingEvent "Start" 0; washingEvent "End" 123000 ].

(** The sum of the [duration] strings of a list of details, read back. *)
Definition sumOfDurationStrings (ds : list Detail) : option Z := totalOfDetails ds.

(** An event that carries both a stage name and an event type. *)
Definition wellFormed (s : StageEvent) : bool :=
  hasStageName s && match eventType s with Some _ => true | None => false end.

(** A Bay Work event that can be attributed to a (workType, bayNumber)
    group. *)
Definition hasGroupKey (s : StageEvent) : bool :=
  truthy (workType s) && truthy (bayNumber s).

Definition keepEvents (p : StageEvent -> bool) (v : Vehicle) : Vehicle :=
  mkVehicle (vehicleNumber v) (entryTime v) (exitTime v) (List.filter p (stages v)).

(** A closed "Ready for Washing" occurrence of one hour, and a vehicle with
    one event that has no stage name, both on 2026-11-03 (UTC). *)
Definition goodVehicle : Vehicle :=
  mkVehicle "V3" 0 None
    [ stageEvent "Ready for Washing" "Start" 1793680000000;
      stageEvent "Washing" "Start" 1793683600000 ].

Definition corruptVehicle : Vehicle :=
  mkVehicle "V8" 0 None [ mkEvent None (Some "Start") 1793690000000 None None None None ].

(** Bay Work events of the work type "constructor", one second apart
    from [t] on. *)
Definition constructorVehicleAt (t : Z) (types : list string) : Vehicle :=
  mkVehicle "V11" 0 None
    (imap (fun i ty => mkEvent (Some "Bay Work: constructor") (Some ty)
                               (t + 1000 * Z.of_nat i) None None
                               (Some "constructor") (Some "B1"))
          types).

Definition constructorVehicle : list string -> Vehicle := constructorVehicleAt 1000.

Definition sameBatch (vehicles : list Vehicle) : Queries :=
  mkQueries (fun _ => vehicles) (fun _ => vehicles) (fun _ => vehicles) (fun _ => vehicles).

(** A clock that advances by one millisecond per reading, starting on
    2026-11-03 at 10:00 UTC. *)
Definition tickingClock (k : nat) : Z := 1793700000000 + Z.of_nat k.

(** The count the response reports for a special stage in a window. *)
Definition reportedSpecialCount (resp : Response) (period name : string) : option Z :=
  match data resp with
  | inl result =>
      match specialStageAverages result with
      | Some periods =>
          match getProp periods period with
          | Some outs => option_map o_count (getProp outs name)
          | None => None
          end
      | None => None
      end
  | inr _ => None
  end.

(** The end boundary of a named window. *)
Definition windowEnd (ranges : list (string * Range)) (name : string) : option Z :=
  option_map r_end (getProp ranges name).

Definition windowStart (ranges : list (string * Range)) (name : string) : option Z :=
  option_map r_start (getProp ranges name).

(** Two bay allocations and a technician receipt, stored in two orders. *)
Definition receiptInOrder : Vehicle :=
  mkVehicle "V9" 0 None
    [ stageEvent "Job Card Received + Bay Allocation" "Start" 1000;
      stageEvent "Job Card Received + Bay Allocation" "Start" 2000;
      stageEvent "Job Card Received (by Technician)" "Start" 3000 ].

Definition receiptReordered : Vehicle :=
  mkVehicle "V9" 0 None
    [ stageEvent "Job Card Received + Bay Allocation" "Start" 2000;
      stageEvent "Job Card Received + Bay Allocation" "Start" 1000;
      stageEvent "Job Card Received (by Technician)" "Start" 3000 ].

(** The details of the technician metric for a batch of one vehicle. *)
Definition technicianDetails (r : Range) (v : Vehicle) : completion (list Detail) :=
  let* jr := jobCardPeriod r [v] in
  Normal (j_details (jobCardReceivedByTechnician jr)).

(** The group an event falls into in [stageGroups], and the events of a
    group in array order. *)
Definition keyOf (s : StageEvent) : string := propertyKey (stageName s).

Definition groupOf (name : string) (l : list StageEvent) : list StageEvent :=
  List.filter (fun s => String.eqb (keyOf s) name) l.

(** The stage name of an event is a name that every object inherits from
    [Object.prototype]; a vehicle none of whose events is so named. *)
Definition inheritedStage (s : StageEvent) : bool := Js.inheritedName (keyOf s).

Definition noInheritedStage (v : Vehicle) : bool :=
  forallb (fun s => negb (inheritedStage s)) (stages v).

(** [stageGroups] and the live map of vehicles without an inherited stage
    name: every key that is read is an own key. *)
Definition ownGroupPush (stageGroups : list (string * list StageEvent)) (stage : StageEvent)
    : list (string * list StageEvent) :=
  let key := propertyKey (stageName stage) in
  let stageGroups :=
    if hasOwnProperty stageGroups key then stageGroups else stageGroups ++ [(key, [])] in
  updateProp (fun entries => entries ++ [stage]) key stageGroups.

Definition ownLiveVehicle {E : Type} (entryOf : string -> StageEvent -> E)
    (stageMap : gmap string (list E)) (vehicle : Vehicle) : gmap string (list E) :=
  fold_left (liveGroup entryOf (vehicleNumber vehicle))
            (fold_left ownGroupPush (stages vehicle) []) stageMap.

Definition ownLiveStageMap {E : Type} (entryOf : string -> StageEvent -> E)
    (db : list Vehicle) : gmap string (list E) :=
  fold_left (ownLiveVehicle entryOf) (activeVehicles db) ∅.

(** The earliest [Start] of a group that no [End] of the group follows. *)
Definition openStart (entries : list StageEvent) : option StageEvent :=
  let starts := sortByTimestamp (List.filter (isEvent "Start") entries) in
  let ends := sortByTimestamp (List.filter (isEvent "End") entries) in
  find (fun s => negb (isEnded ends s)) starts.

(** The records of one vehicle in a list of live records. *)
Definition entriesOf {E : Type} (vehicleOf : E -> string) (vn : string) (l : list E) : list E :=
  List.filter (fun e => String.eqb (vehicleOf e) vn) l.

(** Three unclosed starts of "Washing" and one closed start. *)
Definition washingQueue : Vehicle :=
  mkVehicle "V4" 0 None
    [ washingEvent "Start" 5000; washingEvent "Start" 3000; washingEvent "End" 2000;
      washingEvent "Start" 1000; washingEvent "Start" 4000 ].

(** ** Further notions used to state properties *)

(** Membership of a key in the canonical stage order. *)
Definition inStageOrder (k : string) : bool := existsb (String.eqb k) stageOrder.

(** The entries of an object whose key is a canonical stage, in canonical
    order, and the other entries, in the order of the object. *)
Definition knownEntries {V : Type} (obj : list (string * V)) : list (string * V) :=
  omap (fun stageName => option_map (fun v => (stageName, v)) (getProp obj stageName))
       stageOrder.

Definition unknownEntries {V : Type} (obj : list (string * V)) : list (string * V) :=
  List.filter (fun kv => negb (inStageOrder (fst kv))) obj.

(** A key for which an object behaves like an ordered list of entries:
    it is not an array index (enumerated before the other keys), not
    ["__proto__"] (assigning to it adds no key) and not
    ["hasOwnProperty"] (as an own key it hides the method that
    [sortByStageOrder] calls). *)
Definition plainKey (k : string) : bool :=
  negb (Js.arrayIndex k) && negb (String.eqb k "__proto__")
  && negb (String.eqb k "hasOwnProperty").

(** The starts and the ends of a stage of a vehicle inside the window, in
    chronological order, and the detail records of its closed starts. *)
Definition stageStarts (r : Range) (v : Vehicle) (name : string) : list StageEvent :=
  List.filter (isEvent "Start") (stageEventsOf r v name).

Definition stageEnds (r : Range) (v : Vehicle) (name : string) : list StageEvent :=
  List.filter (isEvent "End") (stageEventsOf r v name).

Definition vehicleDetails (r : Range) (name : string) (v : Vehicle) : list Detail :=
  omap (detailOfStart (vehicleNumber v) (stageEnds r v name)) (stageStarts r v name).

(** A start of the stage inside the window that an end of the stage
    inside the window follows. *)
Definition closedStart (r : Range) (v : Vehicle) (name : string) (s : StageEvent) : bool :=
  existsb (fun e => timestamp s <? timestamp e) (stageEnds r v name).

(** The formatted entry of a bucket nothing was added to. *)
Definition zeroStageOut : StageOut := mkStageOut "00:00:00" 0 "00:00:00" [].

Definition zeroBayOut : BayOut := mkBayOut "00:00:00" "00:00:00" "00:00:00" 0 "00:00:00" [].

Definition noMetrics : MetricsResult := mkMetricsResult None None None None.

(** The metric types the route knows. *)
Definition knownMetricTypes : list string :=
  [ "all"; "stage-averages"; "special-stage-averages"; "job-card-received"; "bay-work" ].

(** A start of "Washing" (exact name) strictly after [startEvent]. *)
Definition laterWashingStart (startEvent s : StageEvent) : bool :=
  strictEq (stageName s) "Washing" && isEvent "Start" s
  && (timestamp startEvent <? timestamp s).

(** The pure readings of the job-card callbacks on events that carry a
    stage name. *)
Definition bayAllocationStart (s : StageEvent) : bool :=
  nameStartsWith "Job Card Received + Bay Allocation" s && isEvent "Start" s.

Definition laterBayWork (startEvent s : StageEvent) : bool :=
  nameStartsWith "Bay Work" s && isEvent "Start" s && (timestamp startEvent <? timestamp s).

Definition earlierBayAllocation (technicianEvent s : StageEvent) : bool :=
  nameStartsWith "Job Card Received + Bay Allocation" s && isEvent "Start" s
  && (timestamp s <? timestamp technicianEvent).

Definition technicianStart (s : StageEvent) : bool :=
  strictEq (stageName s) "Job Card Received (by Technician)" && isEvent "Start" s.

Definition fiStart (s : StageEvent) : bool :=
  strictEq (stageName s) "Job Card Received (by FI)" && isEvent "Start" s.

(** The events of a vehicle inside the window, in array order. *)
Definition windowArray (r : Range) (v : Vehicle) : list StageEvent :=
  List.filter (inWindow r) (stages v).

(** Two bay allocations, then the technician receipt, in chronological
    order. *)
Definition twoAllocationsThenReceipt : Vehicle :=
  mkVehicle "V11" 0 None
    [ stageEvent "Job Card Received + Bay Allocation" "Start" 1000;
      stageEvent "Job Card Received + Bay Allocation" "Start" 5000;
      stageEvent "Job Card Received (by Technician)" "Start" 6000 ].

(** The sum of one counter over the work types of a Bay Work result. *)
Definition sumBuckets (f : BayBucket -> Z) (m : gmap string BayBucket) : Z :=
  map_fold (fun _ b acc => f b + acc) 0 m.

(** The overall bucket is the roll-up of the work-type buckets. *)
Definition rollupOk (res : BayResult) : Prop :=
  b_count (overall res) = sumBuckets b_count (byWorkType res)
  /\ b_totalDurationMs (overall res) = sumBuckets b_totalDurationMs (byWorkType res)
  /\ b_totalActiveDurationMs (overall res) = sumBuckets b_totalActiveDurationMs (byWorkType res)
  /\ b_totalPausedDurationMs (overall res) = sumBuckets b_totalPausedDurationMs (byWorkType res).

Definition notPause (s : StageEvent) : bool := negb (isEvent "Pause" s).

(** A Bay Work occurrence that is never paused. *)
Definition unpausedStages : list StageEvent :=
  [ bayEvent "Start" 0; bayEvent "Resume" 1000; bayEvent "End" 5000 ].

(** The year of the era, the month and the day of the month that
    [DateApi.civilFromDays] computes from the day of the era. *)
Definition civilOfDoe (doe : Z) : Z * Z * Z :=
  let yoe := (doe - doe / 1460 + doe / 36524 - doe / 146096) / 365 in
  let doy := doe - (365 * yoe + yoe / 4 - yoe / 100) in
  let mp := (5 * doy + 2) / 153 in
  let d := doy - (153 * mp + 2) / 5 + 1 in
  let m := if mp <? 10 then mp + 3 else mp - 9 in
  (yoe, m, d).

(** The day of the era that [DateApi.daysFromCivil] computes back is the
    one [civilOfDoe] started from, and the date is in range. *)
Definition checkDoe (doe : Z) : bool :=
  let '(yoe, m, d) := civilOfDoe doe in
  (0 <=? yoe) && (yoe <? 400) && (1 <=? m) && (m <=? 12) && (1 <=? d) && (d <=? 31)
  && (yoe * 365 + yoe / 4 - yoe / 100
      + ((153 * (if 2 <? m then m - 3 else m + 9) + 2) / 5 + d - 1) =? doe).

(** [P] on the [2 ^ n] integers from [from]. *)
Fixpoint allFrom (n : nat) (P : Z -> bool) (from : Z) : bool :=
  match n with
  | O => P from
  | S k => allFrom k P from && allFrom k P (from + 2 ^ Z.of_nat k)
  end.

(** A [Start] filed under the key [name] that no later [End] with the
    same stage name follows, among the events [stages] of a vehicle. *)
Definition unendedStart (stages : list StageEvent) (name : string) (s : StageEvent) : bool :=
  String.eqb (keyOf s) name && isEvent "Start" s && negb (endedLater stages s).

(** What the all-time route pushes for one vehicle under a key. *)
Definition unendedEntries {E : Type} (entryOf : string -> StageEvent -> E) (name : string)
    (v : Vehicle) : list E :=
  map (entryOf (vehicleNumber v)) (List.filter (unendedStart (stages v) name) (stages v)).

(** An unended [Start] whose stage name is inherited from
    [Object.prototype]: the event at which the all-time route fails; a
    vehicle that has one. *)
Definition failingStart (stages : list StageEvent) (s : StageEvent) : bool :=
  inheritedStage s && isEvent "Start" s && negb (endedLater stages s).

Definition allTimeFails (v : Vehicle) : bool := existsb (failingStart (stages v)) (stages v).

(** The loops of the all-time route when they do not fail: an event with
    an inherited stage name leaves the map as it is, every other key is an
    own key. *)
Definition ownAllTimeStage {E : Type} (entryOf : string -> StageEvent -> E) (vn : string)
    (stages : list StageEvent) (stageMap : gmap string (list E)) (stage : StageEvent)
    : gmap string (list E) :=
  if inheritedStage stage then stageMap
  else
    let key := propertyKey (stageName stage) in
    let stageMap :=
      match stageMap !! key with
      | Some _ => stageMap
      | None => <[key := []]> stageMap
      end in
    if isEvent "Start" stage && negb (endedLater stages stage)
    then alter (fun entries => entries ++ [entryOf vn stage]) key stageMap
    else stageMap.

Definition ownAllTimeStages {E : Type} (entryOf : string -> StageEvent -> E)
    (stageMap : gmap string (list E)) (vehicle : Vehicle) : gmap string (list E) :=
  fold_left (ownAllTimeStage entryOf (vehicleNumber vehicle) (stages vehicle))
            (stages vehicle) stageMap.

Definition ownAllTimeVehicle (formatToIST : Z -> string) (now : Z)
    (st : gmap string (option LastStage) * gmap string (list ActiveEntry)) (vehicle : Vehicle)
    : gmap string (option LastStage) * gmap string (list ActiveEntry) :=
  (<[vehicleNumber vehicle := option_map (lastStageInfo formatToIST now)
                                         (lastStageOf (stages vehicle))]> (fst st),
   ownAllTimeStages (activeEntry formatToIST now) (snd st) vehicle).

Definition ownAllTimeActive (formatToIST : Z -> string) (now : Z)
    (allTimeActiveVehicles : list Vehicle) : AllTimeActive :=
  let st := fold_left (ownAllTimeVehicle formatToIST now) allTimeActiveVehicles (∅, ∅) in
  let vehicleStageInfo := fst st in
  let stageMap := snd st in
  {| ata_count := length allTimeActiveVehicles;
     ata_vehicles :=
       map (fun v =>
              {| avo_vehicleNumber := vehicleNumber v;
                 avo_entryTime := formatToIST (entryTime v);
                 avo_lastStage := mjoin (vehicleStageInfo !! vehicleNumber v);
                 avo_duration := inline_formatDuration (inject_Z (now - entryTime v));
                 avo_durationHours := mathRound (inject_Z (now - entryTime v) / 3600000)%Q |})
           allTimeActiveVehicles;
     ata_stageWiseDistribution := stageMap;
     ata_updatedAt := formatToIST now |}.

(** No key of the map is a name inherited from [Object.prototype]. *)
Definition ownKeysOnly {V : Type} (m : gmap string V) : Prop :=
  forall k, Js.inheritedName k = true -> m !! k = None.

Definition noExit (v : Vehicle) : bool :=
  match exitTime v with
  | Some _ => false
  | None => true
  end.

(** The pure reading of the callbacks of [/dashboard/stage-live-status]
    on events that carry a stage name: the events of a type whose stage
    name starts with [stage], in array order. *)
Definition stageEventsOfType (stage ty : string) (v : Vehicle) : list StageEvent :=
  List.filter (fun s => nameStartsWith stage s && isEvent ty s) (stages v).

Definition allNamed (v : Vehicle) : bool := forallb hasStageName (stages v).

Definition startInfo (format : Z -> string) (vn : string) (s : StageEvent) : StageInfo :=
  mkStageInfo vn (format (timestamp s)) (performerName s) None.

Definition completedInfo (format : Z -> string) (vn : string) (s e : StageEvent) : StageInfo :=
  mkStageInfo vn (format (timestamp s)) (performerName s) (Some (format (timestamp e))).

(** The first [End] of the array after a start. *)
Definition firstLaterEnd (ends : list StageEvent) (s : StageEvent) : option StageEvent :=
  find (fun e => timestamp s <? timestamp e) ends.

(** How a start is filed: [true] under [completed], [false] under
    [active], with the record pushed. *)
Definition startEndClass (format : Z -> string) (vn : string) (ends : list StageEvent)
    (s : StageEvent) : bool * StageInfo :=
  match firstLaterEnd ends s with
  | Some e => (true, completedInfo format vn s e)
  | None => (false, startInfo format vn s)
  end.

Definition onlyStartClass (format : Z -> string) (vn : string) (stages : list StageEvent)
    (s : StageEvent) : bool * StageInfo :=
  (hasNext stages s, startInfo format vn s).

Definition startEndClasses (format : Z -> string) (stage : string) (v : Vehicle)
    : list (bool * StageInfo) :=
  map (startEndClass format (vehicleNumber v) (stageEventsOfType stage "End" v))
      (stageEventsOfType stage "Start" v).

Definition onlyStartClasses (format : Z -> string) (stage : string) (v : Vehicle)
    : list (bool * StageInfo) :=
  map (onlyStartClass format (vehicleNumber v) (stages v)) (stageEventsOfType stage "Start" v).

Definition activeOf (cs : list (bool * StageInfo)) : list StageInfo :=
  map snd (List.filter (fun c => negb (fst c)) cs).

Definition completedOf (cs : list (bool * StageInfo)) : list StageInfo :=
  map snd (List.filter fst cs).

Definition pushClass (c : bool * StageInfo) (b : LiveBucket) : LiveBucket :=
  if fst c then pushCompleted (snd c) b else pushActive (snd c) b.

Definition addClasses (cs : list (bool * StageInfo)) (b : LiveBucket) : LiveBucket :=
  {| lb_active := lb_active b ++ activeOf cs; lb_completed := lb_completed b ++ completedOf cs |}.

Definition isIn (name : string) (names : list string) : bool := existsb (String.eqb name) names.

(** What one vehicle adds to the bucket of a stage. *)
Definition vehicleClasses (format : Z -> string) (name : string) (v : Vehicle)
    : list (bool * StageInfo) :=
  (if isIn name stagesWithStartEnd then startEndClasses format name v else [])
  ++ (if isIn name stagesWithOnlyStart then onlyStartClasses format name v else []).

(** A vehicle with two washings, the first one ended. *)
Definition twoWashings : Vehicle :=
  mkVehicle "V13" 0 None
    [ washingEvent "Start" 1000; washingEvent "End" 2000; washingEvent "Start" 3000 ].

(** A vehicle with two stages that have a start only. *)
Definition twoOnlyStarts : Vehicle :=
  mkVehicle "V15" 0 None
    [ stageEvent "Job Card Creation + Customer Approval" "Start" 1000;
      stageEvent "Ready for Washing" "Start" 2000 ].

(** The pure readings of the callbacks of [/active-stages-with-duration]
    on events that carry a stage name. *)
Definition nameIncludes (p : string) (s : StageEvent) : bool :=
  match stageName s with
  | Some n => includes n p
  | None => false
  end.

Definition dependentName (s : StageEvent) : bool :=
  match stageName s with
  | Some n => existsb (includes n) dependentPatterns
  | None => false
  end.

Definition openTimesStep (stageStartTimes : list (string * Z)) (stage : StageEvent)
    : list (string * Z) :=
  if isEvent "Start" stage then
    if negb (dependentName stage)
    then setProp (keyOf stage) (timestamp stage) stageStartTimes
    else stageStartTimes
  else if isEvent "End" stage && hasOwnProperty stageStartTimes (keyOf stage)
  then deleteProp (keyOf stage) stageStartTimes
  else stageStartTimes.

(** [stageStartTimes] after the first pass. *)
Definition openTimes (stages : list StageEvent) : list (string * Z) :=
  fold_left openTimesStep stages [].

Definition additionalWorkStart (s : StageEvent) : bool :=
  nameStartsWith "Additional Work Job Approval" s && isEvent "Start" s.

Definition otherJobCardStart (s : StageEvent) : bool :=
  match stageName s with
  | Some n =>
      includes n "Job Card Received" && isEvent "Start" s
      && negb (existsb (includes n) ["Job Card Received + Bay Allocation"])
  | None => false
  end.

Definition dependentConfigs (stages : list StageEvent) : list (string * DependentConfig) :=
  [ ("Job Card Creation + Customer Approval",
     mkDependentConfig
       (Some (fun stage => strictEq (stageName stage) "Ready for Washing"
                           && isEvent "Start" stage))
       false);
    ("Additional Work Job Approval",
     mkDependentConfig None (existsb additionalWorkStart stages));
    ("Ready for Washing",
     mkDependentConfig
       (Some (fun stage => strictEq (stageName stage) "Washing" && isEvent "Start" stage))
       false);
    ("Job Card Received", mkDependentConfig None (existsb otherJobCardStart stages)) ].

Definition dependentRecord (now : Z) (s : StageEvent) : ActiveStage :=
  activeStage now (stageName s) (timestamp s) s true.

(** The records one entry of [dependentStages] adds, and the records the
    entries of [stageStartTimes] add. *)
Definition dependentRecords (now : Z) (stages : list StageEvent)
    (entry : string * DependentConfig) : list ActiveStage :=
  map (dependentRecord now)
      (List.filter (fun s => negb (dependentEnded (snd entry) stages s))
                   (List.filter (fun s => nameIncludes (fst entry) s && isEvent "Start" s)
                                stages)).

Definition regularRecords (now : Z) (stages : list StageEvent) (times : list (string * Z))
    : list ActiveStage :=
  omap (fun entry =>
          option_map (fun s => activeStage now (Some (fst entry)) (snd entry) s false)
                     (find (fun s => strictEq (stageName s) (fst entry)
                                     && (timestamp s =? snd entry))
                           stages))
       times.

(** The [Start] and [End] events of the stage named [n], in array order. *)
Definition startOrEndOf (n : string) (s : StageEvent) : bool :=
  strictEq (stageName s) n && (isEvent "Start" s || isEvent "End" s).

Definition typeErrorMessage (m : string) : Prop :=
  m = undefinedIncludes \/ m = undefinedStartsWith.

(** A washing whose [End] is stored after its [Start] but is earlier in
    time, an approval of additional work, bay work under way, and a bay
    allocation. *)
Definition mixedVehicle : Vehicle :=
  mkVehicle "V16" 0 None
    [ stageEvent "Washing" "Start" 1000; stageEvent "Washing" "End" 500;
      stageEvent "Job Card Received + Bay Allocation" "Start" 2000;
      stageEvent "Additional Work Job Approval" "Start" 3000;
      stageEvent "Bay Work: PM" "Start" 4000;
      stageEvent "Final Inspection" "Start" 6000 ].

(** ** The special stages, vehicle by vehicle *)

(** Every event of the vehicle inside the window has a stage name. *)
Definition allNamedIn (r : Range) (vehicle : Vehicle) : bool :=
  forallb hasStageName (List.filter (inWindow r) (stages vehicle)).

(** The detail record of a start that [closure] closes. *)
Definition closedDetail (vn : string) (closure : StageEvent -> option StageEvent)
    (s : StageEvent) : option Detail :=
  option_map
    (fun e => mkDetail vn (timestamp s) (timestamp e)
                       (formatDuration (inject_Z (timestamp e - timestamp s))))
    (closure s).

(** What a start does to the buckets when [closure] decides its end. *)
Definition closeWith (vn key : string) (closure : StageEvent -> option StageEvent)
    (result : gmap string SBucket) (s : StageEvent) : gmap string SBucket :=
  match closure s with
  | Some e => alter (pushSpecial vn s e) key result
  | None => result
  end.

(** A bucket after the detail records [ds] were pushed onto [b]. *)
Definition grownBy (b b' : SBucket) (ds : list Detail) : Prop :=
  s_details b' = s_details b ++ ds
  /\ s_count b' = s_count b + Z.of_nat (length ds)
  /\ s_totalDurationMs b' = s_totalDurationMs b + sumOf exactMs ds
  /\ s_totalDurationFormatted b' = s_totalDurationFormatted b
  /\ s_averageMs b' = s_averageMs b
  /\ s_averageFormatted b' = s_averageFormatted b.

(** The starts of the three special stages among the events of the window
    and the event that closes each of them: the second later bay
    allocation for an approval, the first later bay allocation for a job
    card creation, the first later start of "Washing" for a vehicle that
    is ready for washing. *)
Definition creationStart (s : StageEvent) : bool :=
  strictEq (stageName s) "Job Card Creation + Customer Approval" && isEvent "Start" s.

Definition readyStart (s : StageEvent) : bool :=
  strictEq (stageName s) "Ready for Washing" && isEvent "Start" s.

Definition laterBayAllocations (r : Range) (vehicle : Vehicle) (startEvent : StageEvent)
    : list StageEvent :=
  List.filter (laterBayAllocation startEvent) (windowStages r vehicle).

Definition approvalClosure (r : Range) (vehicle : Vehicle) (startEvent : StageEvent)
    : option StageEvent :=
  laterBayAllocations r vehicle startEvent !! 1%nat.

Definition creationClosure (r : Range) (vehicle : Vehicle) (startEvent : StageEvent)
    : option StageEvent :=
  find (laterBayAllocation startEvent) (windowStages r vehicle).

Definition washingClosure (r : Range) (vehicle : Vehicle) (startEvent : StageEvent)
    : option StageEvent :=
  find (laterWashingStart startEvent) (windowStages r vehicle).


Definition creationDetails (r : Range) (vehicle : Vehicle) : list Detail :=
  omap (closedDetail (vehicleNumber vehicle) (creationClosure r vehicle))
       (List.filter creationStart (windowStages r vehicle)).

(** The buckets after a vehicle whose events inside the window all carry a
    stage name. *)
Definition specialVehicleNamed (r : Range) (result : gmap string SBucket)
    (vehicle : Vehicle) : gmap string SBucket :=
  let vn := vehicleNumber vehicle in
  let vehicleStages := windowStages r vehicle in
  let result :=
    fold_left (closeWith vn "Job Card Creation + Customer Approval" (creationClosure r vehicle))
              (List.filter creationStart vehicleStages) result in
  let result :=
    fold_left (closeWith vn "Additional Work Job Approval" (approvalClosure r vehicle))
              (List.filter approvalStart vehicleStages) result in
  fold_left (closeWith vn "Ready for Washing" (washingClosure r vehicle))
            (List.filter readyStart vehicleStages) result.

(** Every vehicle of every window has a stage name on each of its events
    inside that window. *)
Definition allWindowsNamed (findVehicles : Range -> list Vehicle)
    (dateRanges : list (string * Range)) : bool :=
  forallb (fun pr : string * Range => forallb (allNamedIn (snd pr)) (findVehicles (snd pr)))
          dateRanges.

(** The entry of a special stage in the formatted result of a window. *)
Definition specialEntry (key : string) (dets : Range -> Vehicle -> list Detail)
    (findVehicles : Range -> list Vehicle) (pr : string * Range)
    (po : string * list (string * StageOut)) : Prop :=
  fst po = fst pr
  /\ exists o, getProp (snd po) key = Some o
       /\ o_details o = flat_map (dets (snd pr)) (findVehicles (snd pr))
       /\ o_count o = Z.of_nat (length (o_details o)).
(** * Properties *)

(** ** The duration formatter *)

Lemma uint_string_digits d : Js.allDigits (NilEmpty.string_of_uint d) = true.
Proof. induction d; simpl; auto. Qed.

Lemma allDigits_no_colon s : Js.allDigits s = true -> Js.hasChar ":" s = false.
Proof.
  induction s as [|a s IH]; simpl; [done|].
  intros [Ha Hs]%andb_true_iff. rewrite (IH Hs), orb_false_r.
  destruct (Ascii.eqb_spec a ":") as [->|]; [discriminate Ha | done].
Qed.

Lemma toString_nonneg n :
  0 <= n -> exists d, d <> Decimal.Nil /\ Js.toString n = NilEmpty.string_of_uint d
                      /\ Z.of_uint d = n.
Proof.
  intros Hn. unfold Js.toString. destruct n as [|p|p]; [| |lia].
  - exists (Decimal.D0 Decimal.Nil). done.
  - exists (Pos.to_uint p). split; [apply Unsigned.to_uint_nonnil|].
    split.
    + simpl. destruct (Pos.to_uint p) eqn:E; try done.
      by apply Unsigned.to_uint_nonnil in E.
    + change (Z.of_int (Z.to_int (Z.pos p)) = Z.pos p). apply DecimalZ.of_to.
Qed.

Lemma toString_neg p :
  exists d, d <> Decimal.Nil /\ Js.toString (Z.neg p) = String "-" (NilEmpty.string_of_uint d).
Proof.
  exists (Pos.to_uint p). split; [apply Unsigned.to_uint_nonnil|].
  unfold Js.toString. simpl. destruct (Pos.to_uint p) eqn:E; try done.
  by apply Unsigned.to_uint_nonnil in E.
Qed.

Lemma toString_no_colon n : Js.hasChar ":" (Js.toString n) = false.
Proof.
  destruct n as [|p|p]; [done| |].
  - destruct (toString_nonneg (Z.pos p)) as (d & _ & -> & _); [lia|].
    apply allDigits_no_colon, uint_string_digits.
  - destruct (toString_neg p) as (d & _ & ->). simpl.
    apply allDigits_no_colon, uint_string_digits.
Qed.

Lemma toString_digits n : 0 <= n -> Js.allDigits (Js.toString n) = true.
Proof.
  intros Hn. destruct (toString_nonneg n Hn) as (d & _ & -> & _).
  apply uint_string_digits.
Qed.

Lemma toString_length n : (1 <= String.length (Js.toString n))%nat.
Proof.
  destruct n as [|p|p]; [simpl; lia| |].
  - destruct (toString_nonneg (Z.pos p)) as (d & Hd & -> & _); [lia|].
    destruct d; simpl; try lia. done.
  - destruct (toString_neg p) as (d & _ & ->). simpl. lia.
Qed.

Lemma Number_toString n : Js.Number (Js.toString n) = Some n.
Proof.
  unfold Js.Number.
  assert (Hlen := toString_length n).
  destruct (Js.toString n) eqn:E; [simpl in Hlen; lia|].
  rewrite <- E. unfold Js.toString.
  rewrite NilZero.isi.
  - simpl. f_equal. apply DecimalZ.of_to.
  - destruct n; simpl; try done. intros [=H]. by apply Unsigned.to_uint_nonnil in H.
  - destruct n; simpl; try done. intros [=H]. by apply Unsigned.to_uint_nonnil in H.
Qed.

Lemma field_cases n :
  (field n = Js.toString n /\ (2 <= String.length (Js.toString n))%nat) \/
  (0 <= n /\ field n = String "0" (Js.toString n) /\ String.length (Js.toString n) = 1%nat).
Proof.
  unfold field, Js.padStart.
  assert (Hlen := toString_length n).
  destruct (String.length (Js.toString n)) as [|[|k]] eqn:E; [lia| |].
  - right. split; [|done].
    destruct n as [|p|p]; [lia|lia|].
    destruct (toString_neg p) as (d & Hd & Hs). rewrite Hs in E. simpl in E.
    destruct d; simpl in E; try lia. done.
  - left. replace (2 - S (S k))%nat with 0%nat by lia. split; [done|lia].
Qed.

Lemma Number_field n : Js.Number (field n) = Some n.
Proof.
  destruct (field_cases n) as [[-> _]|(Hn & -> & _)]; [apply Number_toString|].
  destruct (toString_nonneg n Hn) as (d & Hd & -> & Hz).
  unfold Js.Number, NilZero.int_of_string. simpl.
  rewrite NilEmpty.usu. simpl. f_equal. exact Hz.
Qed.

Lemma field_no_colon n : Js.hasChar ":" (field n) = false.
Proof.
  destruct (field_cases n) as [[-> _]|(_ & -> & _)]; simpl; apply toString_no_colon.
Qed.

Lemma field_digits n : 0 <= n -> Js.allDigits (field n) = true.
Proof.
  intros Hn. destruct (field_cases n) as [[-> _]|(_ & -> & _)]; simpl; by apply toString_digits.
Qed.

Lemma field_length n : (2 <= String.length (field n))%nat.
Proof.
  destruct (field_cases n) as [[-> H]|(_ & -> & H)]; [done|].
  simpl. lia.
Qed.

Lemma split_no_sep c s : Js.hasChar c s = false -> Js.split c s = [s].
Proof.
  induction s as [|a s IH]; simpl; [done|].
  intros [Ha Hs]%orb_false_iff. rewrite Ha, (IH Hs). done.
Qed.

Lemma split_app c s t :
  Js.hasChar c s = false ->
  Js.split c (s +:+ String c t) = s :: Js.split c t.
Proof.
  induction s as [|a s IH]; simpl.
  - intros _. by rewrite Ascii.eqb_refl.
  - intros [Ha Hs]%orb_false_iff. rewrite Ha, (IH Hs). done.
Qed.


Lemma field_length_small n : 0 <= n < 100 -> String.length (field n) = 2%nat.
Proof.
  intros Hn. rewrite <- (Z2Nat.id n) by lia.
  assert (Z.to_nat n < 100)%nat as Hk by lia.
  generalize dependent (Z.to_nat n). clear. intros k Hk.
  do 100 (destruct k as [|k]; [reflexivity|]). lia.
Qed.

Lemma formatDuration_fields ms :
  let total := Qfloor (ms / 1000) in
  formatDuration ms =
    field (total / 3600) +:+ ":" +:+ field (Z.rem total 3600 / 60) +:+ ":" +:+ field (Z.rem total 60).
Proof. reflexivity. Qed.

Lemma rem_rem_3600_60 t : Z.rem (Z.rem t 3600) 60 = Z.rem t 60.
Proof.
  rewrite (Z.rem_eq t 3600) by lia.
  replace (t - 3600 * Z.quot t 3600) with (t + (- 60 * Z.quot t 3600) * 60) by lia.
  apply Z.rem_add; [lia|].
  pose proof (Z.rem_sign_mul t 3600 ltac:(lia)) as H1.
  rewrite Z.rem_eq in H1 by lia.
  replace (t + - 60 * Z.quot t 3600 * 60) with (t - 3600 * Z.quot t 3600) by lia.
  nia.
Qed.

Lemma route_formatDuration_eq ms : route_formatDuration ms = formatDuration ms.
Proof.
  unfold route_formatDuration, formatDuration.
  cbv zeta. rewrite rem_rem_3600_60. reflexivity.
Qed.

Lemma parseDuration_fields h m s :
  parseDuration (field h +:+ ":" +:+ field m +:+ ":" +:+ field s)
  = Some ((h * 3600 + m * 60 + s) * 1000).
Proof.
  unfold parseDuration.
  change (":" +:+ field m +:+ ":" +:+ field s) with (String ":" (field m +:+ String ":" (field s))).
  rewrite !split_app, split_no_sep by apply field_no_colon.
  simpl. by rewrite !Number_field.
Qed.

Lemma parseDuration_formatDuration ms :
  let total := Qfloor (ms / 1000) in
  parseDuration (formatDuration ms)
  = Some ((total / 3600 * 3600 + Z.rem total 3600 / 60 * 60 + Z.rem total 60) * 1000).
Proof. intros total. rewrite formatDuration_fields. apply parseDuration_fields. Qed.

Lemma hms_recompose t :
  0 <= t ->
  t / 3600 * 3600 + Z.rem t 3600 / 60 * 60 + Z.rem t 60 = t
  /\ 0 <= t / 3600 /\ 0 <= Z.rem t 3600 / 60 < 60 /\ 0 <= Z.rem t 60 < 60.
Proof.
  intros Ht. rewrite !Z.rem_mod_nonneg by lia.
  pose proof (Z.div_mod t 3600 ltac:(lia)).
  pose proof (Z.mod_pos_bound t 3600 ltac:(lia)).
  pose proof (Z.div_mod (t mod 3600) 60 ltac:(lia)).
  pose proof (Z.mod_pos_bound (t mod 3600) 60 ltac:(lia)).
  pose proof (Z.mod_pos_bound t 60 ltac:(lia)).
  assert ((t mod 3600) mod 60 = t mod 60) as E.
  { rewrite (Z.mod_eq t 3600) by lia.
    replace (t - 3600 * (t / 3600)) with (t + (- 60 * (t / 3600)) * 60) by lia.
    apply Z.mod_add. lia. }
  pose proof (Z.div_pos t 3600 Ht ltac:(lia)).
  assert (0 <= t mod 3600 / 60 < 60) by (split; [apply Z.div_pos; lia | apply Z.div_lt_upper_bound; lia]).
  repeat split; lia.
Qed.

Lemma Qfloor_div1000_nonneg ms : (0 <= ms)%Q -> 0 <= Qfloor (ms / 1000).
Proof.
  intros H. change 0 with (Qfloor 0). apply Qfloor_resp_le.
  apply Qle_shift_div_l; [reflexivity|]. by rewrite Qmult_0_l.
Qed.

(** Claim C9.  For a non-negative duration in milliseconds, both copies
    of the formatter return [HH:MM:SS]: three decimal fields joined by
    colons, each at least two characters long (minutes and seconds exactly
    two), minutes and seconds below 60, and hours the whole quotient of
    the seconds by 3600 with no reduction modulo 24.  The seconds encoded
    are the input divided by 1000 and rounded down, and reading the string
    back gives that number of seconds in milliseconds. *)
Theorem formatDuration_HHMMSS (ms : Q) :
  (0 <= ms)%Q ->
  let total := Qfloor (ms / 1000) in
  exists hh mm ss : Z,
    formatDuration ms = field hh +:+ ":" +:+ field mm +:+ ":" +:+ field ss
    /\ route_formatDuration ms = formatDuration ms
    /\ hh = total / 3600 /\ 0 <= hh /\ 0 <= mm < 60 /\ 0 <= ss < 60
    /\ hh * 3600 + mm * 60 + ss = total
    /\ (inject_Z total <= ms / 1000 /\ ms / 1000 < inject_Z (total + 1))%Q
    /\ Js.allDigits (field hh) = true /\ Js.allDigits (field mm) = true
    /\ Js.allDigits (field ss) = true
    /\ (2 <= String.length (field hh))%nat
    /\ String.length (field mm) = 2%nat /\ String.length (field ss) = 2%nat
    /\ parseDuration (formatDuration ms) = Some (total * 1000).
Proof.
  intros Hms total.
  pose proof (Qfloor_div1000_nonneg ms Hms) as Ht. fold total in Ht.
  destruct (hms_recompose total Ht) as (Hsum & Hh & Hm & Hs).
  exists (total / 3600), (Z.rem total 3600 / 60), (Z.rem total 60).
  split; [apply formatDuration_fields|].
  split; [apply route_formatDuration_eq|].
  do 5 (split; [done|]).
  split; [split; [apply Qfloor_le | apply Qlt_floor]|].
  do 3 (split; [apply field_digits; lia|]).
  split; [apply field_length|].
  do 2 (split; [apply field_length_small; lia|]).
  rewrite parseDuration_formatDuration. fold total. by rewrite Hsum.
Qed.

Lemma formatDuration_HHMMSS_witness :
  (0 <= inject_Z 360000000)%Q /\
  exists hh mm ss : Z,
    formatDuration (inject_Z 360000000) = field hh +:+ ":" +:+ field mm +:+ ":" +:+ field ss
    /\ hh = 100.
Proof.
  split; [done|].
  destruct (formatDuration_HHMMSS (inject_Z 360000000)) as (hh & mm & ss & H1 & _ & H2 & _); [done|].
  exists hh, mm, ss. split; [exact H1|]. rewrite H2. reflexivity.
Defined.

(** ** The chronological sort *)

Lemma insertByTimestamp_perm e l : Permutation (insertByTimestamp e l) (e :: l).
Proof.
  induction l as [|y l IH]; simpl; [done|].
  destruct (timestamp e <=? timestamp y); [done|].
  rewrite IH. apply perm_swap.
Qed.

Lemma sortByTimestamp_perm l : Permutation (sortByTimestamp l) l.
Proof.
  induction l as [|x l IH]; simpl; [done|].
  rewrite insertByTimestamp_perm. by constructor.
Qed.

Lemma sortByTimestamp_In x l : In x (sortByTimestamp l) <-> In x l.
Proof.
  split; apply Permutation_in; [|symmetry]; apply sortByTimestamp_perm.
Qed.

Lemma insertByTimestamp_sorted e l :
  StronglySorted tsLe l -> StronglySorted tsLe (insertByTimestamp e l).
Proof.
  induction 1 as [|y l Hl IH Hy]; simpl.
  - constructor; constructor.
  - destruct (Z.leb_spec (timestamp e) (timestamp y)) as [Hle|Hgt].
    + constructor; [by constructor|].
      constructor; [done|].
      eapply List.Forall_impl; [|exact Hy]. unfold tsLe. intros; simpl in *; lia.
    + constructor; [done|].
      rewrite insertByTimestamp_perm. constructor; [unfold tsLe; lia|done].
Qed.

Lemma sortByTimestamp_sorted l : StronglySorted tsLe (sortByTimestamp l).
Proof.
  induction l; simpl; [constructor|]. by apply insertByTimestamp_sorted.
Qed.

Lemma filter_sorted (p : StageEvent -> bool) l :
  StronglySorted tsLe l -> StronglySorted tsLe (List.filter p l).
Proof.
  induction 1 as [|y l Hl IH Hy]; simpl; [constructor|].
  destruct (p y); [|done].
  constructor; [done|].
  apply List.Forall_forall. intros x [Hx _]%filter_In.
  by eapply List.Forall_forall in Hy.
Qed.

Lemma sorted_timestamps l :
  StronglySorted tsLe l -> StronglySorted Z.le (map timestamp l).
Proof.
  induction 1 as [|y l Hl IH Hy]; simpl; constructor; [done|].
  apply List.Forall_forall. intros t (x & <- & Hx)%in_map_iff.
  by eapply List.Forall_forall in Hy.
Qed.

(** A sorted list of integers is determined by its elements. *)
Lemma sorted_perm_eq (l1 l2 : list Z) :
  StronglySorted Z.le l1 -> StronglySorted Z.le l2 -> Permutation l1 l2 -> l1 = l2.
Proof.
  intros H1. revert l2. induction H1 as [|x l1 Hl1 IH Hx]; intros l2 H2 Hp.
  - by apply Permutation_nil in Hp.
  - destruct H2 as [|y l2 Hl2 Hy].
    { symmetry in Hp. by apply Permutation_nil in Hp. }
    assert (x = y) as ->.
    { assert (In x (y :: l2)) as Hin1 by (eapply Permutation_in; [exact Hp|by left]).
      assert (In y (x :: l1)) as Hin2 by (eapply Permutation_in; [symmetry; exact Hp|by left]).
      rewrite List.Forall_forall in Hx, Hy.
      destruct Hin1 as [->|Hin1]; [done|]. destruct Hin2 as [->|Hin2]; [done|].
      specialize (Hx _ Hin2). specialize (Hy _ Hin1). lia. }
    f_equal. apply IH; [done|]. by apply Permutation_cons_inv in Hp.
Qed.

(** The first match of a search through a sorted list is an earliest match. *)
Lemma find_sorted_earliest (p : StageEvent -> bool) l e :
  StronglySorted tsLe l -> find p l = Some e ->
  In e l /\ p e = true /\ forall e', In e' l -> p e' = true -> timestamp e <= timestamp e'.
Proof.
  induction 1 as [|y l Hl IH Hy]; simpl; [done|].
  destruct (p y) eqn:Hp.
  - intros [= <-]. split; [by left|]. split; [done|].
    intros e' [<-|Hin] _; [lia|].
    rewrite List.Forall_forall in Hy. by apply Hy.
  - intros Hf. destruct (IH Hf) as (Hin & Hpe & Hmin).
    split; [by right|]. split; [done|].
    intros e' [<-|Hin'] Hp'; [congruence|by apply Hmin].
Qed.

(** ** Start/End matching in the stage averages *)

Lemma stageAveragesStage_lookup r vehicle name (result : gmap string Bucket) :
  stageAveragesStage r vehicle result name !! name =
    matchStarts (vehicleNumber vehicle)
      (List.filter (isEvent "End") (stageEventsOf r vehicle name))
      (List.filter (isEvent "Start") (stageEventsOf r vehicle name))
    <$> result !! name.
Proof.
  unfold stageAveragesStage, matchStarts.
  generalize (List.filter (isEvent "Start") (stageEventsOf r vehicle name)) as starts.
  intros starts. revert result.
  induction starts as [|s starts IH]; intros result; simpl.
  - by destruct (result !! name).
  - rewrite IH. destruct (findEnd _ s); [|done].
    rewrite lookup_alter_eq. by destruct (result !! name).
Qed.

Lemma stageAveragesStage_lookup_ne r vehicle name name' (result : gmap string Bucket) :
  name <> name' ->
  stageAveragesStage r vehicle result name !! name' = result !! name'.
Proof.
  intros Hne. unfold stageAveragesStage.
  generalize (List.filter (isEvent "Start") (stageEventsOf r vehicle name)) as starts.
  intros starts. revert result.
  induction starts as [|s starts IH]; intros result; simpl; [done|].
  rewrite IH. destruct (findEnd _ s); [|done]. by rewrite lookup_alter_ne.
Qed.

Lemma matchStarts_details vn ends starts b :
  details (matchStarts vn ends starts b) = details b ++ omap (detailOfStart vn ends) starts.
Proof.
  unfold matchStarts. revert b.
  induction starts as [|s starts IH]; intros b; simpl; [by rewrite app_nil_r|].
  rewrite IH. unfold detailOfStart at 2. destruct (findEnd ends s); simpl; [|done].
  by rewrite <- app_assoc.
Qed.

Lemma strictEq_true x lit : strictEq x lit = true <-> x = Some lit.
Proof.
  destruct x as [s|]; simpl; [|done].
  rewrite String.eqb_eq. split; congruence.
Qed.

Lemma inWindow_true r s : inWindow r s = true <-> r_start r <= timestamp s <= r_end r.
Proof. unfold inWindow. rewrite andb_true_iff, !Z.leb_le. done. Qed.

Lemma stageEventsOf_In r vehicle name e :
  In e (stageEventsOf r vehicle name) <->
  In e (stages vehicle) /\ stageName e = Some name /\ r_start r <= timestamp e <= r_end r.
Proof.
  unfold stageEventsOf.
  rewrite sortByTimestamp_In, filter_In, andb_true_iff, strictEq_true, inWindow_true. done.
Qed.

Lemma findEnd_spec ends s :
  StronglySorted tsLe ends ->
  match findEnd ends s with
  | Some e => In e ends /\ timestamp s < timestamp e
              /\ forall e', In e' ends -> timestamp s < timestamp e' -> timestamp e <= timestamp e'
  | None => forall e', In e' ends -> timestamp e' <= timestamp s
  end.
Proof.
  intros Hs. unfold findEnd.
  destruct (find _ ends) as [e|] eqn:Hf.
  - destruct (find_sorted_earliest _ _ _ Hs Hf) as (Hin & Hp & Hmin).
    apply Z.ltb_lt in Hp. split; [done|]. split; [done|].
    intros e' Hin' Hlt. apply Hmin; [done|]. by apply Z.ltb_lt.
  - intros e' Hin'. pose proof (find_none _ _ Hf _ Hin') as Hp. simpl in Hp.
    apply Z.ltb_ge in Hp. done.
Qed.

(** Claim C1, as the code has it.  For a vehicle, a window and a stage
    whose bucket exists, the starts of the stage inside the window are
    taken in ascending timestamp order, and each start is matched on its
    own to the earliest [End] of the same stage inside the window with a
    strictly later timestamp, or left open when there is none.  The match
    of a start does not depend on the other starts: closing events are not
    used up, and the details pushed are the matches of the starts in
    order. *)
Theorem stage_starts_matched_independently (r : Range) (vehicle : Vehicle) (name : string)
    (result : gmap string Bucket) (b : Bucket) :
  result !! name = Some b ->
  let stageEvents := stageEventsOf r vehicle name in
  let starts := List.filter (isEvent "Start") stageEvents in
  let ends := List.filter (isEvent "End") stageEvents in
  StronglySorted tsLe starts
  /\ (forall e, In e starts <->
        In e (stages vehicle) /\ stageName e = Some name /\ eventType e = Some "Start"
        /\ r_start r <= timestamp e <= r_end r)
  /\ (forall e, In e ends <->
        In e (stages vehicle) /\ stageName e = Some name /\ eventType e = Some "End"
        /\ r_start r <= timestamp e <= r_end r)
  /\ (forall s, In s starts ->
        match findEnd ends s with
        | Some e => In e ends /\ timestamp s < timestamp e
                    /\ forall e', In e' ends -> timestamp s < timestamp e' ->
                                  timestamp e <= timestamp e'
        | None => forall e', In e' ends -> timestamp e' <= timestamp s
        end)
  /\ exists b', stageAveragesStage r vehicle result name !! name = Some b'
       /\ details b' = details b ++ omap (detailOfStart (vehicleNumber vehicle) ends) starts.
Proof.
  intros Hb stageEvents starts ends.
  assert (StronglySorted tsLe stageEvents) as Hsorted by apply sortByTimestamp_sorted.
  split; [by apply filter_sorted|].
  split.
  { intros e. unfold starts. rewrite filter_In. unfold stageEvents.
    rewrite stageEventsOf_In. unfold isEvent. rewrite strictEq_true. tauto. }
  split.
  { intros e. unfold ends. rewrite filter_In. unfold stageEvents.
    rewrite stageEventsOf_In. unfold isEvent. rewrite strictEq_true. tauto. }
  split.
  { intros s _. apply findEnd_spec. by apply filter_sorted. }
  eexists. split.
  - rewrite stageAveragesStage_lookup, Hb. reflexivity.
  - apply matchStarts_details.
Qed.

Lemma stage_starts_matched_independently_witness :
  initBuckets trackedStages !! "Washing" = Some emptyBucket /\
  exists b',
    stageAveragesStage (mkRange 0 10000) twoStartsOneEnd (initBuckets trackedStages) "Washing"
      !! "Washing" = Some b'
    /\ details b' = [ mkDetail "V1" 1000 3000 "00:00:02"; mkDetail "V1" 2000 3000 "00:00:01" ].
Proof.
  destruct (stage_starts_matched_independently (mkRange 0 10000) twoStartsOneEnd "Washing"
              (initBuckets trackedStages) emptyBucket)
    as (_ & _ & _ & _ & b' & Hb' & Hd); [by vm_compute|].
  split; [by vm_compute|].
  exists b'. split; [exact Hb'|]. rewrite Hd. by vm_compute.
Defined.

(** Claim C1 as stated fails.  The vehicle has a single "Washing" [End],
    and both of its starts are reported closed by it; likewise both
    approval starts are reported closed by the same bay-allocation start
    (the one at 4000) although only three allocation starts exist. *)
Lemma closing_event_reused :
  length (List.filter (isEvent "End") (stages twoStartsOneEnd)) = 1%nat
  /\ details <$> (stageAveragesAccumulate (mkRange 0 10000) [twoStartsOneEnd] !! "Washing")
     = Some [ mkDetail "V1" 1000 3000 "00:00:02"; mkDetail "V1" 2000 3000 "00:00:01" ]
  /\ (let* result := specialAccumulate (mkRange 0 10000) [twoApprovalsThreeAllocations] in
      Normal (s_details <$> result !! "Additional Work Job Approval"))
     = Normal (Some [ mkDetail "V5" 1000 4000 "00:00:03"; mkDetail "V5" 2000 4000 "00:00:02" ]).
Proof. by vm_compute. Qed.

(** ** Callbacks that do not throw *)

Lemma stageNameStartsWith_named s p :
  hasStageName s = true -> stageNameStartsWith s p = Normal (nameStartsWith p s).
Proof. unfold hasStageName, stageNameStartsWith, nameStartsWith. by destruct (stageName s). Qed.

Lemma filterE_pure {A} (p : A -> completion bool) (q : A -> bool) l :
  (forall x, In x l -> p x = Normal (q x)) -> filterE p l = Normal (List.filter q l).
Proof.
  induction l as [|x l IH]; intros H; simpl; [done|].
  rewrite (H x) by (by left). simpl. rewrite IH by (intros; apply H; by right). done.
Qed.

Lemma findE_pure {A} (p : A -> completion bool) (q : A -> bool) l :
  (forall x, In x l -> p x = Normal (q x)) -> findE p l = Normal (find q l).
Proof.
  induction l as [|x l IH]; intros H; simpl; [done|].
  rewrite (H x) by (by left). simpl. destruct (q x); [done|].
  apply IH. intros; apply H; by right.
Qed.

(** An invariant of the loop body is an invariant of the loop. *)
Lemma forEachE_invariant {A S} (P : S -> Prop) (f : S -> A -> completion S) l s s' :
  (forall s x s', P s -> f s x = Normal s' -> P s') ->
  P s -> forEachE f l s = Normal s' -> P s'.
Proof.
  intros Hstep. revert s. induction l as [|x l IH]; intros s Hs; simpl.
  - by intros [= <-].
  - destruct (f s x) as [s1|m] eqn:Hf; simpl; [|done].
    apply IH. by eapply Hstep.
Qed.

(** A throw of the loop body at some element, whatever the state, makes
    the loop throw. *)
Lemma forEachE_throws {A S} (f : S -> A -> completion S) l1 x l2 s :
  (forall s, exists m, f s x = Throw m) ->
  exists m, forEachE f (l1 ++ x :: l2) s = Throw m.
Proof.
  intros Hx. revert s. induction l1 as [|y l1 IH]; intros s; simpl.
  - destruct (Hx s) as [m ->]. by exists m.
  - destruct (f s y) as [s1|m]; simpl; [apply IH|by exists m].
Qed.

Lemma windowStages_In r vehicle e :
  In e (windowStages r vehicle) <->
  In e (stages vehicle) /\ r_start r <= timestamp e <= r_end r.
Proof.
  unfold windowStages. rewrite sortByTimestamp_In, filter_In, inWindow_true. done.
Qed.

Lemma bayAllocationAfter_named startEvent s :
  hasStageName s = true ->
  bayAllocationAfter startEvent s = Normal (laterBayAllocation startEvent s).
Proof.
  intros H. unfold bayAllocationAfter. by rewrite stageNameStartsWith_named.
Qed.

Lemma isAdditionalApprovalStart_named s :
  hasStageName s = true -> isAdditionalApprovalStart s = Normal (approvalStart s).
Proof.
  intros H. unfold isAdditionalApprovalStart. by rewrite stageNameStartsWith_named.
Qed.


Lemma forEachE_completes {A S} (f : S -> A -> completion S) l s :
  (forall s x, In x l -> exists s', f s x = Normal s') ->
  exists s', forEachE f l s = Normal s'.
Proof.
  revert s. induction l as [|x l IH]; intros s H; simpl; [by eexists|].
  destruct (H s x) as [s1 ->]; [by left|]. cbn [cbind].
  apply IH. intros; apply H; by right.
Qed.


(** ** The special stages, vehicle by vehicle *)

Lemma stageNameStartsWith_cases s p :
  stageNameStartsWith s p
  = if hasStageName s then Normal (nameStartsWith p s) else Throw undefinedStartsWith.
Proof. unfold hasStageName, stageNameStartsWith, nameStartsWith. by destruct (stageName s). Qed.

Lemma bayAllocationAfter_cases startEvent s :
  bayAllocationAfter startEvent s
  = if hasStageName s then Normal (laterBayAllocation startEvent s)
    else Throw undefinedStartsWith.
Proof.
  unfold bayAllocationAfter. rewrite stageNameStartsWith_cases. by destruct (hasStageName s).
Qed.

Lemma isAdditionalApprovalStart_cases s :
  isAdditionalApprovalStart s
  = if hasStageName s then Normal (approvalStart s) else Throw undefinedStartsWith.
Proof.
  unfold isAdditionalApprovalStart. rewrite stageNameStartsWith_cases.
  by destruct (hasStageName s).
Qed.

(** A filter whose callback throws on the elements that fail [named]
    visits every element. *)
Lemma filterE_cases {A} (named q : A -> bool) (p : A -> completion bool) msg l :
  (forall x, p x = if named x then Normal (q x) else Throw msg) ->
  filterE p l = if forallb named l then Normal (List.filter q l) else Throw msg.
Proof.
  intros Hp. induction l as [|x l IH]; cbn [filterE forallb List.filter]; [done|].
  rewrite Hp. destruct (named x); cbn [cbind andb]; [|done].
  rewrite IH. destruct (forallb named l); cbn [cbind]; [|done]. by destruct (q x).
Qed.

(** A search stops at the first match, so it may return before it meets an
    element on which the callback throws. *)
Lemma findE_cases {A} (named q : A -> bool) (p : A -> completion bool) msg l :
  (forall x, p x = if named x then Normal (q x) else Throw msg) ->
  findE p l = Normal (find q l) \/ (findE p l = Throw msg /\ forallb named l = false).
Proof.
  intros Hp. induction l as [|x l IH]; cbn [findE forallb find]; [by left|].
  rewrite Hp. destruct (named x); cbn [cbind andb]; [|by right].
  destruct (q x); [by left|exact IH].
Qed.

Lemma forEachE_cases {A S} (f : S -> A -> completion S) (g : S -> A -> S) msg l s :
  (forall s x, f s x = Normal (g s x) \/ f s x = Throw msg) ->
  forEachE f l s = Normal (fold_left g l s) \/ forEachE f l s = Throw msg.
Proof.
  intros Hf. revert s. induction l as [|x l IH]; intros s; cbn [forEachE fold_left]; [by left|].
  destruct (Hf s x) as [-> | ->]; cbn [cbind]; [apply IH|by right].
Qed.

Lemma forEachE_all {A S} (ok : A -> bool) (f : S -> A -> completion S) (g : S -> A -> S)
    msg l s :
  (forall s x, f s x = if ok x then Normal (g s x) else Throw msg) ->
  forEachE f l s = if forallb ok l then Normal (fold_left g l s) else Throw msg.
Proof.
  intros Hf. revert s. induction l as [|x l IH]; intros s; cbn [forEachE fold_left forallb];
    [done|].
  rewrite Hf. destruct (ok x); cbn [cbind andb]; [apply IH|done].
Qed.

Lemma mapE_all {A B} (ok : A -> bool) (f : A -> completion B) (g : A -> B) msg l :
  (forall x, f x = if ok x then Normal (g x) else Throw msg) ->
  mapE f l = if forallb ok l then Normal (map g l) else Throw msg.
Proof.
  intros Hf. induction l as [|x l IH]; cbn [mapE map forallb]; [done|].
  rewrite Hf. destruct (ok x); cbn [cbind andb]; [|done].
  rewrite IH. by destruct (forallb ok l).
Qed.

Lemma forallb_same_elements {A} (p : A -> bool) l l' :
  (forall x, In x l <-> In x l') -> forallb p l = forallb p l'.
Proof.
  intros H. apply eq_true_iff_eq. rewrite !forallb_forall.
  split; intros Hp x Hx; apply Hp, H, Hx.
Qed.

Lemma windowStages_named r vehicle :
  forallb hasStageName (windowStages r vehicle) = allNamedIn r vehicle.
Proof.
  apply forallb_same_elements. intros x. unfold windowStages. apply sortByTimestamp_In.
Qed.

(** The three loops of a vehicle over its starts. *)
Lemma additionalApprovalStep_cases r vehicle result startEvent :
  additionalApprovalStep (vehicleNumber vehicle) (windowStages r vehicle) result startEvent
  = if allNamedIn r vehicle
    then Normal (closeWith (vehicleNumber vehicle) "Additional Work Job Approval"
                           (approvalClosure r vehicle) result startEvent)
    else Throw undefinedStartsWith.
Proof.
  unfold additionalApprovalStep.
  rewrite (filterE_cases hasStageName (laterBayAllocation startEvent) _ undefinedStartsWith)
    by apply bayAllocationAfter_cases.
  rewrite windowStages_named. destruct (allNamedIn r vehicle); cbn [cbind]; [|done].
  unfold closeWith, approvalClosure. fold (laterBayAllocations r vehicle startEvent).
  destruct (Nat.leb_spec 2 (length (laterBayAllocations r vehicle startEvent))) as [Hge|Hlt];
    [done|].
  rewrite (lookup_ge_None_2 (laterBayAllocations r vehicle startEvent) 1) by lia. done.
Qed.

Lemma jobCardCreationStep_cases r vehicle result startEvent :
  jobCardCreationStep (vehicleNumber vehicle) (windowStages r vehicle) result startEvent
  = Normal (closeWith (vehicleNumber vehicle) "Job Card Creation + Customer Approval"
                      (creationClosure r vehicle) result startEvent)
  \/ (jobCardCreationStep (vehicleNumber vehicle) (windowStages r vehicle) result startEvent
      = Throw undefinedStartsWith
      /\ allNamedIn r vehicle = false).
Proof.
  unfold jobCardCreationStep.
  destruct (findE_cases hasStageName (laterBayAllocation startEvent)
              (bayAllocationAfter startEvent) undefinedStartsWith (windowStages r vehicle)
              (bayAllocationAfter_cases startEvent)) as [-> | [-> Hn]]; cbn [cbind].
  - by left.
  - right. by rewrite <- windowStages_named.
Qed.

Lemma readyForWashing_closeWith r vehicle :
  readyForWashingStep (vehicleNumber vehicle) (windowStages r vehicle)
  = closeWith (vehicleNumber vehicle) "Ready for Washing" (washingClosure r vehicle).
Proof. reflexivity. Qed.

(** A vehicle either has a stage name on every event inside the window,
    and then its three loops run to their end, or the filter of the
    approval starts, which visits every event, throws. *)
Lemma specialVehicle_cases r result vehicle :
  specialVehicle r result vehicle
  = if allNamedIn r vehicle then Normal (specialVehicleNamed r result vehicle)
    else Throw undefinedStartsWith.
Proof.
  unfold specialVehicle. fold (windowStages r vehicle). fold creationStart. fold readyStart.
  rewrite (filterE_cases hasStageName approvalStart _ undefinedStartsWith)
    by apply isAdditionalApprovalStart_cases.
  rewrite windowStages_named.
  destruct (forEachE_cases
              (jobCardCreationStep (vehicleNumber vehicle) (windowStages r vehicle))
              (closeWith (vehicleNumber vehicle) "Job Card Creation + Customer Approval"
                         (creationClosure r vehicle))
              undefinedStartsWith
              (List.filter creationStart (windowStages r vehicle)) result) as [-> | Hthrow].
  { intros s x. destruct (jobCardCreationStep_cases r vehicle s x) as [H|[H _]]; tauto. }
  - cbn [cbind]. destruct (allNamedIn r vehicle) eqn:Hn; cbn [cbind]; [|done].
    rewrite (forEachE_all (fun _ => true) _
               (closeWith (vehicleNumber vehicle) "Additional Work Job Approval"
                          (approvalClosure r vehicle)) undefinedStartsWith).
    + rewrite (proj2 (forallb_forall _ _)) by done. cbn [cbind].
      rewrite readyForWashing_closeWith. done.
    + intros s x. by rewrite additionalApprovalStep_cases, Hn.
  - destruct (allNamedIn r vehicle) eqn:Hn; [|by rewrite Hthrow].
    exfalso. revert Hthrow.
    rewrite (forEachE_all (fun _ => true) _
               (closeWith (vehicleNumber vehicle) "Job Card Creation + Customer Approval"
                          (creationClosure r vehicle)) undefinedStartsWith).
    + by rewrite (proj2 (forallb_forall _ _)).
    + intros s x. destruct (jobCardCreationStep_cases r vehicle s x) as [H|[_ H]]; [done|].
      by rewrite Hn in H.
Qed.

Lemma specialVehicles_cases r vehicles result :
  forEachE (specialVehicle r) vehicles result
  = if forallb (allNamedIn r) vehicles
    then Normal (fold_left (specialVehicleNamed r) vehicles result)
    else Throw undefinedStartsWith.
Proof. apply forEachE_all. intros s x. apply specialVehicle_cases. Qed.

(** ** The Pause/Resume/End walk of a Bay Work occurrence *)

Lemma walk_accounts subsequent : forall lastTime paused active state endEvent p a,
  walk subsequent lastTime paused active state = (Some endEvent, p, a) ->
  a + p = active + paused + (timestamp endEvent - lastTime)
  /\ In endEvent subsequent /\ eventType endEvent = Some "End".
Proof.
  induction subsequent as [|e rest IH]; intros lastTime paused active state endEvent p a; simpl.
  - intros [=].
  - destruct (isEvent "Pause" e) eqn:Hp; [|destruct (isEvent "Resume" e) eqn:Hr;
      [|destruct (isEvent "End" e) eqn:He]].
    + intros H. apply IH in H as (H & Hin & Hty). split; [|by auto].
      destruct state; lia.
    + intros H. apply IH in H as (H & Hin & Hty). split; [|by auto].
      destruct state; lia.
    + intros [= <- <- <-]. split; [destruct state; lia|].
      split; [by left|]. by apply strictEq_true.
    + intros H. apply IH in H as (H & Hin & Hty). split; [|by auto].
      destruct state; lia.
Qed.

Lemma walk_nonneg subsequent : forall lastTime paused active state r,
  StronglySorted tsLe subsequent ->
  Forall (fun e => lastTime <= timestamp e) subsequent ->
  0 <= paused -> 0 <= active ->
  walk subsequent lastTime paused active state = r ->
  0 <= snd (fst r) /\ 0 <= snd r.
Proof.
  induction subsequent as [|e rest IH]; intros lastTime paused active state r Hs Hl Hp Ha; simpl.
  - intros <-. done.
  - apply StronglySorted_inv in Hs as [Hs He].
    apply Forall_cons in Hl as [Hle _].
    assert (Forall (fun e' => timestamp e <= timestamp e') rest) as Hl' by exact He.
    destruct (isEvent "Pause" e); [|destruct (isEvent "Resume" e); [|destruct (isEvent "End" e)]].
    + apply IH; [done|done|destruct state; lia|destruct state; lia].
    + apply IH; [done|done|destruct state; lia|destruct state; lia].
    + intros <-. simpl. destruct state; lia.
    + apply IH; [done|done|destruct state; lia|destruct state; lia].
Qed.

Lemma subsequentOf_In stages startEvent e :
  In e (subsequentOf stages startEvent) ->
  In e stages /\ timestamp startEvent < timestamp e.
Proof.
  unfold subsequentOf. rewrite sortByTimestamp_In, filter_In, andb_true_iff, Z.ltb_lt. tauto.
Qed.

Lemma walk_closed stages startEvent endEvent paused active :
  walk (subsequentOf stages startEvent) (timestamp startEvent) 0 0 StActive
    = (Some endEvent, paused, active) ->
  active + paused = timestamp endEvent - timestamp startEvent
  /\ 0 <= active /\ 0 <= paused
  /\ In endEvent stages /\ eventType endEvent = Some "End"
  /\ timestamp startEvent < timestamp endEvent.
Proof.
  intros Hw.
  destruct (walk_accounts _ _ _ _ _ _ _ _ Hw) as (Hsum & Hin & Hty).
  apply subsequentOf_In in Hin as [Hin Hlt].
  split; [lia|].
  assert (0 <= paused /\ 0 <= active) as [Hp Ha].
  { change paused with (snd (fst (Some endEvent, paused, active))).
    change active with (snd (Some endEvent, paused, active)) at 2.
    eapply (walk_nonneg _ _ 0 0 StActive); [apply sortByTimestamp_sorted| |lia|lia|exact Hw].
    apply List.Forall_forall. intros e [_ He]%subsequentOf_In. lia. }
  done.
Qed.

(** Claim C3.  When the walk after a [Start] of a (workType, bayNumber)
    group finds an [End], the active and the paused time it accumulated
    add up exactly to the [End] timestamp minus the [Start] timestamp,
    which is the total added to the buckets; both parts are non-negative
    and the [End] is an event of the group strictly after the start. *)
Theorem bay_work_active_plus_paused_is_total (vn wt : string) (stages : list StageEvent)
    (result : BayResult) (startEvent endEvent : StageEvent) (paused active : Z) :
  walk (subsequentOf stages startEvent) (timestamp startEvent) 0 0 StActive
    = (Some endEvent, paused, active) ->
  let total := timestamp endEvent - timestamp startEvent in
  active + paused = total
  /\ 0 <= active /\ 0 <= paused
  /\ In endEvent stages /\ eventType endEvent = Some "End"
  /\ timestamp startEvent < timestamp endEvent
  /\ bayWorkStart vn wt stages result startEvent
     = {| byWorkType :=
            alter (addBay total paused active (intervalDetail vn startEvent endEvent)) wt
                  (byWorkType result);
          overall := addBay total paused active (intervalDetail vn startEvent endEvent)
                            (overall result) |}.
Proof.
  intros Hw total.
  destruct (walk_closed _ _ _ _ _ Hw) as (H1 & H2 & H3 & H4 & H5 & H6).
  do 6 (split; [done|]).
  unfold bayWorkStart. by rewrite Hw.
Qed.

Lemma bay_work_active_plus_paused_is_total_witness :
  walk (subsequentOf dentingStages (bayEvent "Start" 0)) 0 0 0 StActive
    = (Some (bayEvent "End" 3600000), 600000, 3000000)
  /\ 3000000 + 600000 = 3600000 - 0.
Proof.
  assert (walk (subsequentOf dentingStages (bayEvent "Start" 0))
               (timestamp (bayEvent "Start" 0)) 0 0 StActive
          = (Some (bayEvent "End" 3600000), 600000, 3000000)) as Hw by (by vm_compute).
  split; [exact Hw|].
  exact (proj1 (bay_work_active_plus_paused_is_total "V2" "Denting" dentingStages
                  emptyBayResult _ _ _ _ Hw)).
Defined.

(** ** Buckets and their detail records *)

Lemma sumOf_app f ds1 ds2 : sumOf f (ds1 ++ ds2) = sumOf f ds1 + sumOf f ds2.
Proof. induction ds1 as [|d ds1 IH]; simpl; [done|]. rewrite IH. lia. Qed.

Lemma map_Forall_alter_same {V} (P : V -> Prop) (f : V -> V) (k : string) (m : gmap string V) :
  (forall v, P v -> P (f v)) ->
  map_Forall (fun _ => P) m -> map_Forall (fun _ => P) (alter f k m).
Proof.
  intros Hf Hm i v. rewrite lookup_alter. case_decide as Hik.
  - subst. destruct (m !! i) as [v0|] eqn:Hi; simpl; intros [= <-].
    apply Hf. by eapply Hm.
  - apply Hm.
Qed.

Lemma fold_alter_lookup {V} (f : V -> V) (names : list string) (m : gmap string V) k :
  NoDup names -> In k names ->
  fold_left (fun m name => alter f name m) names m !! k = f <$> m !! k.
Proof.
  intros Hnd. revert m. induction Hnd as [|n names Hn Hnd IH]; intros m; simpl; [done|].
  intros [->|Hin].
  - assert (forall m' : gmap string V,
              fold_left (fun m name => alter f name m) names m' !! k = m' !! k) as Hskip.
    { clear IH. revert Hn. clear. intros Hn.
      induction names as [|n names IH]; intros m'; simpl; [done|].
      rewrite IH by (intros ?; apply Hn; by right).
      apply lookup_alter_ne. intros ->. apply Hn. by left. }
    by rewrite Hskip, lookup_alter_eq.
  - rewrite IH by done. apply f_equal. apply lookup_alter_ne.
    intros ->. by apply Hn, list_elem_of_In.
Qed.

Lemma init_lookup {V} (names : list string) (v : V) k x :
  (list_to_map (map (fun name => (name, v)) names) : gmap string V) !! k = Some x -> x = v.
Proof.
  intros H%elem_of_list_to_map_2. apply list_elem_of_In in H.
  apply in_map_iff in H as (n & [= _ <-] & _). done.
Qed.

Lemma getProp_In {V} (obj : list (string * V)) k v : getProp obj k = Some v -> In (k, v) obj.
Proof.
  unfold getProp. destruct (find _ obj) as [[k' v']|] eqn:Hf; simpl; [|done].
  intros [= <-]. apply find_some in Hf as [Hin Heq]. simpl in Heq.
  apply String.eqb_eq in Heq as ->. done.
Qed.

(** Reordering an object keeps its entries. *)
Lemma sortByStageOrder_In {V} (obj : list (string * V)) kv :
  In kv (sortByStageOrder obj) -> In kv obj.
Proof.
  unfold sortByStageOrder. rewrite in_app_iff. intros [H|H].
  - apply list_elem_of_In, list_elem_of_omap in H as (k & _ & Hk).
    destruct (getProp obj k) as [v|] eqn:Hg; simpl in Hk; [|done].
    injection Hk as <-. by apply getProp_In.
  - by apply filter_In in H as [H _].
Qed.

Lemma pushOccurrence_ok fmt vn s e b : bucketOk b -> bucketOk (pushOccurrence fmt vn s e b).
Proof.
  intros [Hc Ht]. unfold bucketOk, pushOccurrence. simpl.
  rewrite length_app, sumOf_app. simpl. unfold exactMs at 2. simpl. lia.
Qed.

Lemma stageAveragesStage_ok r vehicle name (result : gmap string Bucket) :
  map_Forall (fun _ => bucketOk) result ->
  map_Forall (fun _ => bucketOk) (stageAveragesStage r vehicle result name).
Proof.
  unfold stageAveragesStage.
  generalize (List.filter (isEvent "Start") (stageEventsOf r vehicle name)) as starts.
  intros starts. revert result.
  induction starts as [|s starts IH]; intros result Hres; simpl; [done|].
  apply IH. destruct (findEnd _ s); [|done].
  apply map_Forall_alter_same; [|done]. apply pushOccurrence_ok.
Qed.

Lemma stageAveragesAccumulate_ok r vehicles :
  map_Forall (fun _ => bucketOk) (stageAveragesAccumulate r vehicles).
Proof.
  unfold stageAveragesAccumulate.
  assert (map_Forall (fun _ => bucketOk) (initBuckets trackedStages)) as Hinit.
  { intros k b Hb. apply init_lookup in Hb as ->. by split. }
  revert Hinit. generalize (initBuckets trackedStages) as result.
  induction vehicles as [|v vehicles IH]; intros result Hres; simpl; [done|].
  apply IH. unfold stageAveragesVehicle.
  revert Hres. generalize trackedStages as names. intros names. revert result.
  induction names as [|n names IHn]; intros result Hres; simpl; [done|].
  apply IHn. by apply stageAveragesStage_ok.
Qed.

(** Every entry of the formatted stage averages is the formatting of an
    accumulated bucket that agrees with its details. *)
Lemma stageAverages_entry findVehicles dateRanges period outs name out :
  In (period, outs) (calculateStageAverages findVehicles dateRanges) ->
  In (name, out) outs ->
  exists b, out = formatStage b /\ bucketOk b.
Proof.
  unfold calculateStageAverages. intros ([p r] & [= _ <-] & _)%in_map_iff Hout.
  unfold stageAveragesFormat in Hout. apply sortByStageOrder_In in Hout.
  apply in_map_iff in Hout as (n & [= _ <-] & _). simpl.
  eexists. split; [reflexivity|].
  destruct (stageAveragesAccumulate _ _ !! n) as [b|] eqn:Hb; simpl.
  - by eapply stageAveragesAccumulate_ok.
  - by split.
Qed.

Lemma mapE_In {A B} (f : A -> completion B) l ys y :
  mapE f l = Normal ys -> In y ys -> exists x, In x l /\ f x = Normal y.
Proof.
  revert ys. induction l as [|x l IH]; intros ys; simpl.
  - intros [= <-] [].
  - destruct (f x) as [y0|] eqn:Hx; simpl; [|done].
    destruct (mapE f l) as [ys0|] eqn:Hl; simpl; [|done].
    intros [= <-] [<-|Hin].
    + exists x. split; [by left|done].
    + destruct (IH _ eq_refl Hin) as (x' & Hx' & Hf). exists x'. split; [by right|done].
Qed.

Lemma pushSpecial_ok vn s e b : sAccOk b -> sAccOk (pushSpecial vn s e b).
Proof.
  intros (Hc & Ht & Hf & Ha). unfold sAccOk, pushSpecial. simpl.
  rewrite length_app, sumOf_app. simpl. unfold exactMs at 2. simpl.
  repeat split; [lia|lia|done|done].
Qed.

Lemma fold_left_invariant {A S} (P : S -> Prop) (f : S -> A -> S) l s :
  (forall s x, P s -> P (f s x)) -> P s -> P (fold_left f l s).
Proof.
  intros Hstep. revert s. induction l as [|x l IH]; intros s Hs; simpl; [done|].
  apply IH. by apply Hstep.
Qed.

Lemma specialVehicle_ok r result vehicle result' :
  specialVehicle r result vehicle = Normal result' ->
  map_Forall (fun _ => sAccOk) result -> map_Forall (fun _ => sAccOk) result'.
Proof.
  unfold specialVehicle. intros H Hres.
  destruct (forEachE (jobCardCreationStep _ _) _ result) as [r1|] eqn:H1; simpl in H; [|done].
  destruct (filterE isAdditionalApprovalStart _) as [starts|] eqn:H2; simpl in H; [|done].
  destruct (forEachE (additionalApprovalStep _ _) _ r1) as [r2|] eqn:H3; simpl in H; [|done].
  injection H as <-.
  set (P := map_Forall (fun _ : string => sAccOk)).
  assert (P r1) as Hr1.
  { apply (forEachE_invariant P _ _ _ _) with (3 := H1); [|done].
    intros m x m' Hm. unfold jobCardCreationStep.
    destruct (findE (bayAllocationAfter x) _) as [[e|]|]; cbn [cbind]; [| |done]; intros [= <-]; [|done].
    apply map_Forall_alter_same; [apply pushSpecial_ok|done]. }
  assert (P r2) as Hr2.
  { apply (forEachE_invariant P _ _ _ _) with (3 := H3); [|done].
    intros m x m' Hm. unfold additionalApprovalStep.
    destruct (filterE (bayAllocationAfter x) _) as [subs|]; cbn [cbind]; [|done]. intros [= <-].
    repeat case_match; try done.
    apply map_Forall_alter_same; [apply pushSpecial_ok|done]. }
  apply (fold_left_invariant P); [|done].
  intros m x Hm. unfold readyForWashingStep. destruct (find _ _); [|done].
  apply map_Forall_alter_same; [apply pushSpecial_ok|done].
Qed.

Lemma specialAverage_ok b : sAccOk b -> sFinalOk (specialAverage b).
Proof.
  intros (Hc & Ht & Hf & Ha). unfold specialAverage, sFinalOk.
  destruct (0 <? s_count b) eqn:Hpos; simpl.
  - rewrite Hpos. done.
  - rewrite Hpos. split; [done|]. split; [done|]. split; [|done].
    apply Z.ltb_ge in Hpos.
    assert (s_details b = []) as Hnil by (destruct (s_details b); [done|simpl in Hc; lia]).
    rewrite Ht, Hnil, Hf. reflexivity.
Qed.

Lemma specialStages_NoDup : NoDup specialStages.
Proof. apply (bool_decide_unpack _). by vm_compute. Qed.

Lemma specialAccumulate_ok r vehicles result name b :
  specialAccumulate r vehicles = Normal result ->
  In name specialStages -> result !! name = Some b -> sFinalOk b.
Proof.
  unfold specialAccumulate.
  destruct (forEachE (specialVehicle r) vehicles initSBuckets) as [acc|] eqn:Hacc;
    cbn [cbind]; [|done].
  intros Heq Hname Hlook.
  assert (specialAverage <$> acc !! name = Some b) as Hb.
  { rewrite <- (fold_alter_lookup specialAverage specialStages acc name specialStages_NoDup Hname).
    injection Heq as <-. exact Hlook. }
  clear Heq Hlook. revert Hb.
  destruct (acc !! name) as [b0|] eqn:Hb0; simpl; [|done]. intros [= <-].
  apply specialAverage_ok.
  assert (map_Forall (fun _ => sAccOk) acc) as Hok.
  { apply (forEachE_invariant (map_Forall (fun _ : string => sAccOk)) _ _ _ _) with (3 := Hacc).
    - intros s x s' Hs Hv. by eapply specialVehicle_ok.
    - intros k x Hx. apply init_lookup in Hx as ->. by repeat split. }
  by eapply Hok.
Qed.

(** Every entry of the formatted special stage averages is the formatting
    of a finished bucket. *)
Lemma specialStageAverages_entry findVehicles dateRanges result period outs name out :
  calculateSpecialStageAverages findVehicles dateRanges = Normal result ->
  In (period, outs) result ->
  In (name, out) outs ->
  exists b, out = formatSpecial b /\ sFinalOk b.
Proof.
  unfold calculateSpecialStageAverages.
  destruct (mapE _ dateRanges) as [results|] eqn:Hm; simpl; [|done].
  intros [= <-] ([p m] & [= _ <-] & Hin)%in_map_iff Hout.
  destruct (mapE_In _ _ _ _ Hm Hin) as ([p' r] & _ & Hacc). simpl in Hacc.
  destruct (specialAccumulate r (findVehicles r)) as [m'|] eqn:Hs; simpl in Hacc; [|done].
  injection Hacc as _ <-.
  unfold specialFormat in Hout. apply sortByStageOrder_In in Hout.
  apply in_map_iff in Hout as (n & [= _ <-] & Hn). simpl.
  eexists. split; [reflexivity|].
  destruct (m' !! n) as [b|] eqn:Hb; simpl.
  - by eapply specialAccumulate_ok.
  - by repeat split.
Qed.

Lemma Qfloor_ms_seconds x : Qfloor (inject_Z x / 1000) = x / 1000.
Proof. symmetry. apply (Zdiv_Qdiv x 1000). Qed.

(** Reading back a formatted non-negative duration loses the part below
    one second and nothing else. *)
Lemma parseDuration_formatDuration_nonneg x :
  0 <= x -> parseDuration (formatDuration (inject_Z x)) = Some (x / 1000 * 1000).
Proof.
  intros Hx. rewrite parseDuration_formatDuration, Qfloor_ms_seconds.
  assert (0 <= x / 1000) as Hs by (apply Z.div_pos; lia).
  destruct (hms_recompose _ Hs) as [-> _]. done.
Qed.

Lemma totalOfDetails_ok items :
  Forall detailOk items -> totalOfDetails items = Some (sumOf truncatedMs items).
Proof.
  unfold totalOfDetails.
  assert (forall a, Forall detailOk items ->
            fold_left (fun sum d => match sum, parseDuration (duration d) with
                                    | Some a, Some b => Some (a + b)
                                    | _, _ => None
                                    end) items (Some a)
            = Some (a + sumOf truncatedMs items)) as H.
  { induction items as [|d items IH]; intros a Hok; simpl; [f_equal; lia|].
    apply Forall_cons in Hok as [[Hlt Hd] Hok].
    rewrite Hd, parseDuration_formatDuration_nonneg by (unfold exactMs; lia).
    rewrite IH by done. f_equal. unfold truncatedMs. lia. }
  intros Hok. by rewrite H.
Qed.

Lemma findE_Some {A} (p : A -> completion bool) l x :
  findE p l = Normal (Some x) -> In x l /\ p x = Normal true.
Proof.
  induction l as [|y l IH]; simpl; [done|].
  destruct (p y) as [[|]|] eqn:Hy; simpl; [| |done].
  - intros [= <-]. split; [by left|done].
  - intros H. destruct (IH H). split; [by right|done].
Qed.

Lemma intervalDetail_ok vn first second :
  timestamp first < timestamp second -> detailOk (intervalDetail vn first second).
Proof. intros H. by split. Qed.

Lemma pushDetail_ok d b : detailOk d -> jAccOk b -> jAccOk (pushDetail d b).
Proof.
  intros Hd (H1 & H2 & H3 & H4). unfold jAccOk, pushDetail. simpl.
  repeat split; try done. apply Forall_app. split; [done|]. by constructor.
Qed.

Lemma bayWorkAfter_true startEvent s :
  bayWorkAfter startEvent s = Normal true -> timestamp startEvent < timestamp s.
Proof.
  unfold bayWorkAfter, stageNameStartsWith. destruct (stageName s); simpl; [|done].
  intros [= H]. apply andb_true_iff in H as [_ H]. by apply Z.ltb_lt.
Qed.

Lemma bayAllocationBefore_true technicianEvent s :
  bayAllocationBefore technicianEvent s = Normal true -> timestamp s < timestamp technicianEvent.
Proof.
  unfold bayAllocationBefore, stageNameStartsWith. destruct (stageName s); simpl; [|done].
  intros [= H]. apply andb_true_iff in H as [_ H]. by apply Z.ltb_lt.
Qed.

Lemma jobCardVehicle_ok r result vehicle result' :
  jobCardVehicle r result vehicle = Normal result' ->
  jAccOk (jobCardReceivedBayAllocation result) /\ jAccOk (jobCardReceivedByTechnician result)
  /\ jAccOk (jobCardReceivedByFI result) ->
  jAccOk (jobCardReceivedBayAllocation result') /\ jAccOk (jobCardReceivedByTechnician result')
  /\ jAccOk (jobCardReceivedByFI result').
Proof.
  unfold jobCardVehicle. intros H (Ha & Ht & Hf).
  destruct (filterE isBayAllocationStart _) as [starts|] eqn:H1; cbn [cbind] in H; [|done].
  match type of H with
  | cbind ?c _ = _ => destruct c as [ba|] eqn:H2; cbn [cbind] in H; [|done]
  end.
  match type of H with
  | cbind ?c _ = _ => destruct c as [bt|] eqn:H3; cbn [cbind] in H; [|done]
  end.
  injection H as <-. simpl.
  split; [|split].
  - apply (forEachE_invariant jAccOk _ _ _ _) with (3 := H2); [|done].
    intros b x b' Hb.
    destruct (findE (bayWorkAfter x) _) as [[e|]|] eqn:Hfind; cbn [cbind]; [| |done];
      intros [= <-]; [|done].
    apply findE_Some in Hfind as [_ Hp].
    apply pushDetail_ok; [|done]. by apply intervalDetail_ok, bayWorkAfter_true.
  - apply (forEachE_invariant jAccOk _ _ _ _) with (3 := H3); [|done].
    intros b x b' Hb.
    destruct (findE (bayAllocationBefore x) _) as [[e|]|] eqn:Hfind; cbn [cbind]; [| |done];
      intros [= <-]; [|done].
    apply findE_Some in Hfind as [_ Hp].
    apply pushDetail_ok; [|done]. by apply intervalDetail_ok, bayAllocationBefore_true.
  - apply (fold_left_invariant jAccOk); [|done].
    intros b x Hb. destruct (find (technicianBefore x) _) as [e|] eqn:Hfind; [|done].
    apply find_some in Hfind as [_ Hp]. unfold technicianBefore in Hp.
    apply andb_true_iff in Hp as [_ Hp]. apply Z.ltb_lt in Hp.
    apply pushDetail_ok; [|done]. by apply intervalDetail_ok.
Qed.

Lemma jobCardFinalize_ok b : jAccOk b -> jFinalOk (jobCardFinalize b).
Proof.
  intros (H1 & H2 & H3 & H4). unfold jobCardFinalize, jFinalOk.
  destruct (0 <? Z.of_nat (length (j_details b))) eqn:Hpos; simpl.
  - rewrite Hpos, totalOfDetails_ok by done. done.
  - apply Z.ltb_ge in Hpos.
    assert (j_details b = []) as Hnil by (destruct (j_details b); [done|simpl in Hpos; lia]).
    rewrite H2, Hnil, H1, H3. simpl. repeat split; try constructor; reflexivity.
Qed.

(** Every bucket of the job-card metrics is a finished bucket. *)
Lemma jobCardReceived_entry findVehicles dateRanges result period jr :
  calculateJobCardReceivedMetrics findVehicles dateRanges = Normal result ->
  In (period, jr) result ->
  jFinalOk (jobCardReceivedBayAllocation jr) /\ jFinalOk (jobCardReceivedByTechnician jr)
  /\ jFinalOk (jobCardReceivedByFI jr).
Proof.
  unfold calculateJobCardReceivedMetrics. intros Hm Hin.
  destruct (mapE_In _ _ _ _ Hm Hin) as ([p r] & _ & Hp). simpl in Hp.
  unfold jobCardPeriod in Hp.
  destruct (forEachE (jobCardVehicle r) _ emptyJResult) as [acc|] eqn:Hacc;
    cbn [cbind] in Hp; [|done].
  injection Hp as _ <-. simpl.
  assert (jAccOk (jobCardReceivedBayAllocation acc) /\ jAccOk (jobCardReceivedByTechnician acc)
          /\ jAccOk (jobCardReceivedByFI acc)) as (Ha & Ht & Hf).
  { apply (forEachE_invariant
             (fun res => jAccOk (jobCardReceivedBayAllocation res)
                         /\ jAccOk (jobCardReceivedByTechnician res)
                         /\ jAccOk (jobCardReceivedByFI res)) _ _ _ _) with (3 := Hacc).
    - intros s x s' Hs Hv. by eapply jobCardVehicle_ok.
    - simpl. repeat split; constructor. }
  repeat split; by apply jobCardFinalize_ok.
Qed.

Lemma addBay_ok total paused active vn s e data :
  total = timestamp e - timestamp s -> active + paused = total ->
  0 <= active -> 0 <= paused ->
  bayOk data -> bayOk (addBay total paused active (intervalDetail vn s e) data).
Proof.
  intros -> Hsum Ha Hp (H1 & H2 & H3 & H4 & H5). unfold bayOk, addBay. simpl.
  rewrite length_app, sumOf_app. simpl. unfold exactMs at 2. simpl.
  repeat split; lia.
Qed.

Lemma bayWorkStart_ok vn wt stages result startEvent :
  bayResultOk result -> bayResultOk (bayWorkStart vn wt stages result startEvent).
Proof.
  intros [Ho Hm]. unfold bayWorkStart.
  destruct (walk _ _ _ _ _) as [[[e|] paused] active] eqn:Hw; [|done].
  destruct (walk_closed _ _ _ _ _ Hw) as (H1 & H2 & H3 & _).
  split; simpl.
  - by apply addBay_ok.
  - apply map_Forall_alter_same; [|done]. intros data. by apply addBay_ok.
Qed.

Lemma bayWorkGroup_ok vn result entry result' :
  bayWorkGroup vn result entry = Normal result' ->
  bayResultOk result -> bayResultOk result'.
Proof.
  unfold bayWorkGroup. intros H [Ho Hm].
  apply (forEachE_invariant bayResultOk _ _ _ _) with (3 := H).
  { intros res x res' Hres. destruct (byWorkType res !! _); [|destruct (closedOccurrence _ _)];
      intros [= <-]; [by apply bayWorkStart_ok|done]. }
  destruct (byWorkType result !! g_workType entry.2) eqn:Hl; [done|].
  destruct (Js.inheritedName _); [done|].
  split; [done|]. simpl. apply map_Forall_insert_2; [|done].
  repeat split; simpl; lia.
Qed.

Lemma bayWorkVehicle_ok r result vehicle result' :
  bayWorkVehicle r result vehicle = Normal result' ->
  bayResultOk result -> bayResultOk result'.
Proof.
  unfold bayWorkVehicle. intros H Hres.
  destruct (filterE (isBayWorkInWindow r) _) as [inWin|]; cbn [cbind] in H; [|done].
  apply (forEachE_invariant bayResultOk _ _ _ _) with (3 := H); [|done].
  intros res x res' Hx Hg. by eapply bayWorkGroup_ok.
Qed.

Lemma bayWorkAccumulate_ok r vehicles result :
  bayWorkAccumulate r vehicles = Normal result -> bayResultOk result.
Proof.
  unfold bayWorkAccumulate. intros H.
  apply (forEachE_invariant bayResultOk _ _ _ _) with (3 := H).
  - intros s x s' Hs Hv. by eapply bayWorkVehicle_ok.
  - split; [repeat split; simpl; lia|]. apply map_Forall_empty.
Qed.

(** Every bucket of the formatted Bay Work metrics is the formatting of an
    accumulated bucket that agrees with its details. *)
Lemma bayWork_entry findVehicles dateRanges result period out :
  calculateBayWorkMetrics findVehicles dateRanges = Normal result ->
  In (period, out) result ->
  (exists data, po_overall out = formatBay data /\ bayOk data)
  /\ forall wt o, In (wt, o) (po_byWorkType out) ->
       exists data, o = formatBay data /\ bayOk data.
Proof.
  unfold calculateBayWorkMetrics.
  destruct (mapE _ dateRanges) as [results|] eqn:Hm; cbn [cbind]; [|done].
  intros [= <-] ([p res] & [= _ <-] & Hin)%in_map_iff.
  destruct (mapE_In _ _ _ _ Hm Hin) as ([p' r] & _ & Hacc). simpl in Hacc.
  destruct (bayWorkAccumulate r (findVehicles r)) as [res'|] eqn:Hs;
    cbn [cbind] in Hacc; [|done].
  injection Hacc as _ <-.
  destruct (bayWorkAccumulate_ok _ _ _ Hs) as [Ho Hmap].
  split; simpl.
  - by exists (overall res').
  - intros wt o (k & [= _ <-] & _)%in_map_iff.
    eexists. split; [reflexivity|].
    destruct (byWorkType res' !! k) as [data|] eqn:Hk; simpl.
    + by eapply Hmap.
    + repeat split; simpl; lia.
Qed.

(** ** Counts, totals and averages of the final output *)

(** Claim C8, as the code has it.  In the final output of every metric
    family the count of a bucket is the length of its details.  In the
    stage averages, the special stage averages and the Bay Work metrics
    the accumulated total is the sum over the details of end time minus
    start time.  In the job-card metrics the total is recomputed from the
    [duration] strings of the details, so it is the sum over the details
    of end time minus start time truncated to whole seconds. *)
Theorem counts_and_totals_follow_details
    (findVehicles : Range -> list Vehicle) (dateRanges : list (string * Range)) :
  (forall period outs name out,
      In (period, outs) (calculateStageAverages findVehicles dateRanges) ->
      In (name, out) outs ->
      exists b, out = formatStage b
        /\ count b = Z.of_nat (length (details b))
        /\ totalDurationMs b = sumOf exactMs (details b))
  /\ (forall result period outs name out,
      calculateSpecialStageAverages findVehicles dateRanges = Normal result ->
      In (period, outs) result ->
      In (name, out) outs ->
      exists b, out = formatSpecial b
        /\ s_count b = Z.of_nat (length (s_details b))
        /\ s_totalDurationMs b = sumOf exactMs (s_details b)
        /\ totalDuration out = formatDuration (inject_Z (s_totalDurationMs b)))
  /\ (forall result period jr jb,
      calculateJobCardReceivedMetrics findVehicles dateRanges = Normal result ->
      In (period, jr) result ->
      In jb (jBuckets jr) ->
      j_count jb = Z.of_nat (length (j_details jb))
      /\ Forall detailOk (j_details jb)
      /\ j_totalDuration jb = formatDuration (inject_Z (sumOf truncatedMs (j_details jb))))
  /\ (forall result period out,
      calculateBayWorkMetrics findVehicles dateRanges = Normal result ->
      In (period, out) result ->
      forall o, (o = po_overall out \/ exists wt, In (wt, o) (po_byWorkType out)) ->
      exists data, o = formatBay data
        /\ b_count data = Z.of_nat (length (b_details data))
        /\ b_totalDurationMs data = sumOf exactMs (b_details data)).
Proof.
  split; [|split; [|split]].
  - intros period outs name out Hp Ho.
    destruct (stageAverages_entry _ _ _ _ _ _ Hp Ho) as (b & -> & Hc & Ht). by exists b.
  - intros result period outs name out Hr Hp Ho.
    destruct (specialStageAverages_entry _ _ _ _ _ _ _ Hr Hp Ho) as (b & -> & Hc & Ht & Hf & _).
    by exists b.
  - intros result period jr jb Hr Hp Hb.
    destruct (jobCardReceived_entry _ _ _ _ _ Hr Hp) as (Ha & Ht & Hf).
    simpl in Hb. destruct Hb as [<-|[<-|[<-|[]]]].
    + by destruct Ha as (? & ? & ? & _).
    + by destruct Ht as (? & ? & ? & _).
    + by destruct Hf as (? & ? & ? & _).
  - intros result period out Hr Hp o Ho.
    destruct (bayWork_entry _ _ _ _ _ Hr Hp) as [(data & Hd & Hok) Hwt].
    destruct Ho as [->|(wt & Hin)].
    + exists data. by destruct Hok as (? & ? & _).
    + destruct (Hwt _ _ Hin) as (data' & -> & Hok'). exists data'.
      by destruct Hok' as (? & ? & _).
Qed.

Lemma counts_and_totals_follow_details_witness :
  let result := calculateStageAverages (fun _ => [subSecondWashing]) [("today", mkRange 0 10000)] in
  exists outs out b,
    In ("today", outs) result /\ In ("Washing", out) outs
    /\ out = formatStage b
    /\ count b = Z.of_nat (length (details b))
    /\ totalDurationMs b = sumOf exactMs (details b)
    /\ totalDuration out = "00:00:03".
Proof.
  intros result.
  set (outs := stageAveragesFormat
                 (stageAveragesAccumulate (mkRange 0 10000) [subSecondWashing])).
  assert (In ("today", outs) result) as Hp by (by left).
  assert (exists out, In ("Washing", out) outs /\ totalDuration out = "00:00:03")
    as (out & Ho & Htot).
  { eexists. split; [do 8 right; left; reflexivity|by vm_compute]. }
  destruct (proj1 (counts_and_totals_follow_details (fun _ => [subSecondWashing])
                     [("today", mkRange 0 10000)]) _ _ _ _ Hp Ho) as (b & Hb & Hc & Ht).
  by exists outs, out, b.
Defined.

(** Claim C8 as stated fails in one family whichever duration of a detail
    record is meant.  Job-card metrics: two occurrences of 1500 ms are
    recorded and the reported total is two seconds, not the three seconds
    of their sum.  Stage averages: two occurrences of 1500 ms accumulate
    3000 ms, while their recorded [duration] strings add up to 2000 ms. *)
Lemma total_is_not_one_sum_of_details :
  (exists jr,
      jobCardPeriod (mkRange 0 10000) [subSecondVehicle] = Normal jr
      /\ map exactMs (j_details (jobCardReceivedBayAllocation jr)) = [1500; 1500]
      /\ j_totalDuration (jobCardReceivedBayAllocation jr) = "00:00:02"
      /\ formatDuration
           (inject_Z (sumOf exactMs (j_details (jobCardReceivedBayAllocation jr))))
         = "00:00:03")
  /\ (exists b,
      stageAveragesAccumulate (mkRange 0 10000) [subSecondWashing] !! "Washing" = Some b
      /\ map duration (details b) = ["00:00:01"; "00:00:01"]
      /\ totalDurationMs b = 3000
      /\ sumOfDurationStrings (details b) = Some 2000).
Proof. split; eexists; by vm_compute. Qed.




(** The formatter of the stage averages converts to minutes and back in
    double precision, so it can print one second less than the whole
    seconds of its argument: a single "Washing" occurrence of 123000 ms
    has the average and the total 00:02:02, while [formatDuration] prints
    00:02:03 for 123000 ms. *)
Lemma stage_average_goes_through_minutes :
  let result := calculateStageAverages (fun _ => [washingFor123Seconds])
                                       [("today", mkRange 0 1000000)] in
  (exists outs out,
      In ("today", outs) result /\ In ("Washing", out) outs
      /\ o_count out = 1
      /\ average out = "00:02:02"
      /\ totalDuration out = "00:02:02"
      /\ map duration (o_details out) = ["00:02:02"])
  /\ Js.floor (Js.fmul (Js.fdiv (Js.ofZ 123000) (Js.ofZ 60000)) (Js.ofZ 60)) = 122
  /\ formatDuration (inject_Z 123000 / inject_Z 1) = "00:02:03".
Proof.
  intros result. split; [|by vm_compute].
  eexists. eexists. split; [by left|]. split; [do 8 right; left; reflexivity|].
  by vm_compute.
Qed.

(** ** Malformed events and errors *)

Lemma insertByTimestamp_head x l :
  Forall (tsLe x) l -> insertByTimestamp x l = x :: l.
Proof.
  destruct 1 as [|y l Hy _]; simpl; [done|].
  unfold tsLe in Hy. destruct (Z.leb_spec (timestamp x) (timestamp y)); [done|lia].
Qed.

Lemma filter_insertByTimestamp (p : StageEvent -> bool) x l :
  StronglySorted tsLe l ->
  List.filter p (insertByTimestamp x l)
  = if p x then insertByTimestamp x (List.filter p l) else List.filter p l.
Proof.
  induction 1 as [|y l Hl IH Hy]; simpl.
  - by destruct (p x).
  - destruct (Z.leb_spec (timestamp x) (timestamp y)) as [Hle|Hgt]; simpl.
    + destruct (p x); [|done].
      symmetry. apply insertByTimestamp_head.
      assert (Forall (tsLe x) (y :: l)) as Hall.
      { constructor; [done|]. eapply List.Forall_impl; [|exact Hy].
        unfold tsLe. intros; simpl in *; lia. }
      apply List.Forall_forall. intros z Hz.
      rewrite List.Forall_forall in Hall. apply Hall.
      change (In z (List.filter p (y :: l))) in Hz. by apply filter_In in Hz as [Hz _].
    + rewrite IH. destruct (p y), (p x); simpl; try done.
      destruct (Z.leb_spec (timestamp x) (timestamp y)); [lia|done].
Qed.

(** The sort is stable, so filtering before or after it is the same. *)
Lemma filter_sortByTimestamp (p : StageEvent -> bool) l :
  List.filter p (sortByTimestamp l) = sortByTimestamp (List.filter p l).
Proof.
  induction l as [|x l IH]; simpl; [done|].
  rewrite filter_insertByTimestamp by apply sortByTimestamp_sorted.
  rewrite IH. by destruct (p x).
Qed.

Lemma stageAveragesStage_wellFormed r v result name :
  stageAveragesStage r (keepEvents wellFormed v) result name = stageAveragesStage r v result name.
Proof.
  unfold stageAveragesStage, stageEventsOf. simpl.
  rewrite <- !filter_sortByTimestamp.
  set (l := sortByTimestamp (stages v)).
  assert (forall ty, List.filter (isEvent ty)
            (List.filter (fun s => strictEq (stageName s) name && inWindow r s)
               (List.filter wellFormed l))
          = List.filter (isEvent ty)
              (List.filter (fun s => strictEq (stageName s) name && inWindow r s) l)) as H.
  { intros ty. induction l as [|x l IH]; simpl; [done|].
    destruct (wellFormed x) eqn:Hwf; simpl.
    - destruct (strictEq (stageName x) name && inWindow r x); simpl; by rewrite IH.
    - rewrite IH.
      destruct (strictEq (stageName x) name && inWindow r x) eqn:Hp; simpl; [|done].
      assert (isEvent ty x = false) as ->; [|done].
      unfold wellFormed, hasStageName, isEvent in *.
      destruct (stageName x), (eventType x); simpl in *; done. }
  by rewrite !H.
Qed.

Lemma stageAveragesAccumulate_wellFormed r vehicles :
  stageAveragesAccumulate r (map (keepEvents wellFormed) vehicles)
  = stageAveragesAccumulate r vehicles.
Proof.
  unfold stageAveragesAccumulate. generalize (initBuckets trackedStages) as result.
  induction vehicles as [|v vehicles IH]; intros result; simpl; [done|].
  rewrite <- IH. f_equal. unfold stageAveragesVehicle.
  generalize trackedStages as names. intros names. revert result.
  induction names as [|n names IHn]; intros result; simpl; [done|].
  by rewrite stageAveragesStage_wellFormed.
Qed.

Lemma addToGroup_keyless workGroups stage :
  hasGroupKey stage = false -> addToGroup workGroups stage = workGroups.
Proof.
  unfold hasGroupKey, addToGroup. intros H.
  destruct (truthy (workType stage)), (truthy (bayNumber stage)); simpl in *; done.
Qed.

Lemma fold_addToGroup_keyless l : forall workGroups,
  fold_left addToGroup (List.filter hasGroupKey l) workGroups = fold_left addToGroup l workGroups.
Proof.
  induction l as [|x l IH]; intros workGroups; simpl; [done|].
  destruct (hasGroupKey x) eqn:Hx; simpl; [done|].
  by rewrite addToGroup_keyless.
Qed.

Lemma isBayWorkInWindow_named r s :
  hasStageName s = true ->
  isBayWorkInWindow r s = Normal (nameStartsWith "Bay Work:" s && inWindow r s).
Proof. intros H. unfold isBayWorkInWindow. by rewrite stageNameStartsWith_named. Qed.

Lemma filter_comm (p q : StageEvent -> bool) l :
  List.filter p (List.filter q l) = List.filter q (List.filter p l).
Proof.
  induction l as [|x l IH]; simpl; [done|].
  destruct (p x) eqn:Hp, (q x) eqn:Hq; simpl; rewrite ?Hp, ?Hq, ?IH; done.
Qed.

Lemma bayWorkVehicle_keyless r result v :
  (forall e, In e (stages v) -> hasStageName e = true) ->
  bayWorkVehicle r result (keepEvents hasGroupKey v) = bayWorkVehicle r result v.
Proof.
  intros Hn. unfold bayWorkVehicle. simpl.
  rewrite (filterE_pure _ (fun s => nameStartsWith "Bay Work:" s && inWindow r s) (stages v))
    by (intros x Hx; by apply isBayWorkInWindow_named, Hn).
  rewrite (filterE_pure _ (fun s => nameStartsWith "Bay Work:" s && inWindow r s))
    by (intros x [Hx _]%filter_In; by apply isBayWorkInWindow_named, Hn).
  cbn [cbind]. f_equal.
  rewrite filter_comm, <- filter_sortByTimestamp. by rewrite fold_addToGroup_keyless.
Qed.

Lemma updateProp_In {V} (f : V -> V) key (obj : list (string * V)) k v :
  In (k, v) (updateProp f key obj) -> exists v0, In (k, v0) obj /\ (v = v0 \/ v = f v0).
Proof.
  induction obj as [|[k' v'] obj IH]; simpl; [done|].
  destruct (String.eqb k' key).
  - intros [[= <- <-]|Hin]; [exists v'; split; [by left|by right]|].
    exists v. split; [by right|by left].
  - intros [[= <- <-]|Hin]; [exists v'; split; [by left|by left]|].
    destruct (IH Hin) as (v0 & Hv0 & Hv). exists v0. split; [by right|done].
Qed.

(** The work type of a group is the work type of one of its events. *)
Lemma addToGroup_workType (Q : string -> Prop) workGroups stage :
  (forall w, workType stage = Some w -> Q w) ->
  (forall k g, In (k, g) workGroups -> Q (g_workType g)) ->
  forall k g, In (k, g) (addToGroup workGroups stage) -> Q (g_workType g).
Proof.
  intros Hw Hg k g. unfold addToGroup.
  destruct (negb (truthy (workType stage)) || negb (truthy (bayNumber stage))); [apply Hg|].
  destruct (workType stage) as [w|]; [|apply Hg].
  destruct (bayNumber stage) as [b|]; [|apply Hg].
  intros (g0 & Hin & Heq)%updateProp_In.
  assert (Q (g_workType g0)) as Hg0.
  { destruct (hasOwnProperty workGroups (w +:+ "-" +:+ b)); [by eapply Hg|].
    apply in_app_iff in Hin as [Hin|[[= <- <-]|[]]]; [by eapply Hg|]. by apply Hw. }
  by destruct Heq as [-> | ->].
Qed.

Lemma fold_addToGroup_workType (Q : string -> Prop) l :
  (forall e w, In e l -> workType e = Some w -> Q w) ->
  forall workGroups,
    (forall k g, In (k, g) workGroups -> Q (g_workType g)) ->
    forall k g, In (k, g) (fold_left addToGroup l workGroups) -> Q (g_workType g).
Proof.
  induction l as [|x l IH]; intros Hl workGroups Hg; cbn [fold_left]; [exact Hg|].
  apply IH; [intros e w He; apply Hl; by right|].
  apply addToGroup_workType; [|exact Hg]. intros w. apply Hl. by left.
Qed.

Lemma forEachE_completes_invariant {A S} (P : S -> Prop) (f : S -> A -> completion S) l s :
  (forall s x, In x l -> P s -> exists s', f s x = Normal s' /\ P s') ->
  P s -> exists s', forEachE f l s = Normal s' /\ P s'.
Proof.
  revert s. induction l as [|x l IH]; intros s H Hs; simpl; [by exists s|].
  destruct (H s x) as (s1 & -> & H1); [by left|done|]. cbn [cbind].
  apply IH; [|done]. intros; apply H; [by right|done].
Qed.

(** A group whose work type is not a name inherited from
    [Object.prototype] has its bucket, and its starts are processed to
    the end. *)
Lemma bayWorkGroup_completes vn result entry :
  Js.inheritedName (g_workType (snd entry)) = false ->
  exists result', bayWorkGroup vn result entry = Normal result'.
Proof.
  intros Hwt. unfold bayWorkGroup. rewrite Hwt.
  set (wt := g_workType (snd entry)).
  match goal with
  | |- exists r, forEachE ?f ?l ?s = Normal r =>
      destruct (forEachE_completes_invariant
                  (fun res : BayResult => is_Some (byWorkType res !! wt)) f l s)
        as (res & Hres & _); [| |by exists res]
  end.
  - intros res x _ [data Hdata]. rewrite Hdata. eexists. split; [done|].
    unfold bayWorkStart. destruct (walk _ _ _ _ _) as [[[e|] ?] ?]; cbn [byWorkType];
      [|by eexists].
    rewrite lookup_alter_eq, Hdata. by eexists.
  - destruct (byWorkType result !! wt) eqn:Hl; [by rewrite Hl|].
    cbn [byWorkType]. rewrite lookup_insert_eq. by eexists.
Qed.

Lemma bayWorkVehicle_completes r result v :
  (forall e, In e (stages v) -> hasStageName e = true) ->
  (forall e wt, In e (stages v) -> workType e = Some wt -> Js.inheritedName wt = false) ->
  exists result', bayWorkVehicle r result v = Normal result'.
Proof.
  intros Hn Hwt. unfold bayWorkVehicle.
  rewrite (filterE_pure _ (fun s => nameStartsWith "Bay Work:" s && inWindow r s) (stages v))
    by (intros x Hx; by apply isBayWorkInWindow_named, Hn).
  cbn [cbind]. apply forEachE_completes. intros res [k g] Hin.
  apply bayWorkGroup_completes. cbn [snd].
  apply (fold_addToGroup_workType (fun w => Js.inheritedName w = false)
           (sortByTimestamp (List.filter (fun s => nameStartsWith "Bay Work:" s && inWindow r s)
                                         (stages v))) ) with (workGroups := []) (k := k);
    [|done|done].
  intros e w [He _]%sortByTimestamp_In%filter_In. by apply Hwt.
Qed.

Lemma filterE_throws {A} (p : A -> completion bool) l x m :
  In x l -> p x = Throw m -> exists m', filterE p l = Throw m'.
Proof.
  induction l as [|y l IH]; simpl; [done|].
  intros [->|Hin] Hx.
  - rewrite Hx. by eexists.
  - destruct (p y); simpl; [|by eexists].
    destruct (IH Hin Hx) as [m' ->]. by eexists.
Qed.

Lemma mapE_throws {A B} (f : A -> completion B) l x :
  In x l -> (exists m, f x = Throw m) -> exists m, mapE f l = Throw m.
Proof.
  induction l as [|y l IH]; simpl; [done|].
  intros [->|Hin] Hx.
  - destruct Hx as [m ->]. by eexists.
  - destruct (f y); simpl; [|by eexists].
    destruct (IH Hin Hx) as [m' ->]. by eexists.
Qed.

(** One in-window event without a stage name makes the processing of its
    vehicle throw, whatever was accumulated before. *)
Lemma specialVehicle_throws r v e :
  In e (stages v) -> inWindow r e = true -> stageName e = None ->
  forall result, exists m, specialVehicle r result v = Throw m.
Proof.
  intros Hin Hw Hname result. unfold specialVehicle.
  destruct (forEachE (jobCardCreationStep _ _) _ result) as [r1|]; cbn [cbind]; [|by eexists].
  destruct (filterE_throws isAdditionalApprovalStart
              (sortByTimestamp (List.filter (inWindow r) (stages v))) e undefinedStartsWith)
    as [m Hm].
  - apply sortByTimestamp_In, filter_In. done.
  - unfold isAdditionalApprovalStart, stageNameStartsWith. by rewrite Hname.
  - rewrite Hm. by eexists.
Qed.

Lemma specialAccumulate_throws r vs1 v vs2 e :
  In e (stages v) -> inWindow r e = true -> stageName e = None ->
  exists m, specialAccumulate r (vs1 ++ v :: vs2) = Throw m.
Proof.
  intros Hin Hw Hname. unfold specialAccumulate.
  destruct (forEachE_throws (specialVehicle r) vs1 v vs2 initSBuckets) as [m Hm].
  - by eapply specialVehicle_throws.
  - rewrite Hm. by eexists.
Qed.

Lemma calculateSpecialStageAverages_throws findVehicles dateRanges period r :
  In (period, r) dateRanges ->
  (exists m, specialAccumulate r (findVehicles r) = Throw m) ->
  exists m, calculateSpecialStageAverages findVehicles dateRanges = Throw m.
Proof.
  intros Hin [m Hm]. unfold calculateSpecialStageAverages.
  edestruct (mapE_throws
               (fun pr : string * Range =>
                  let* result := specialAccumulate (snd pr) (findVehicles (snd pr)) in
                  Normal (fst pr, result)) dateRanges (period, r) Hin) as [m' Hm'].
  - simpl. rewrite Hm. by eexists.
  - rewrite Hm'. by eexists.
Qed.

(** Claim C7, as the code has it.  The stage averages never throw and
    ignore every event without a stage name or an event type: removing
    them changes nothing.  For a vehicle whose events all have a stage
    name, the Bay Work processing ignores the events without [workType]
    or [bayNumber], and it completes when no work type of the vehicle is
    a name inherited from [Object.prototype] (for which no bucket is
    created).  Errors are not isolated per vehicle: an
    in-window event without a stage name makes the special stage averages
    throw for the whole batch wherever the vehicle stands in it, and the
    route then answers with status 500 and the error message instead of
    any result. *)
Theorem malformed_events_skipped_errors_not_isolated :
  (forall r vehicles,
      stageAveragesAccumulate r (map (keepEvents wellFormed) vehicles)
      = stageAveragesAccumulate r vehicles)
  /\ (forall r result v,
      (forall e, In e (stages v) -> hasStageName e = true) ->
      bayWorkVehicle r result (keepEvents hasGroupKey v) = bayWorkVehicle r result v
      /\ ((forall e wt, In e (stages v) -> workType e = Some wt ->
                        Js.inheritedName wt = false) ->
          exists result', bayWorkVehicle r result v = Normal result'))
  /\ (forall r vs1 v vs2 e,
      In e (stages v) -> inWindow r e = true -> stageName e = None ->
      exists m, specialAccumulate r (vs1 ++ v :: vs2) = Throw m)
  /\ (forall tz clock tick q period r vs1 v vs2 e,
      In (period, r) (fst (getDateRanges tz clock tick)) ->
      findSpecial q r = vs1 ++ v :: vs2 ->
      In e (stages v) -> inWindow r e = true -> stageName e = None ->
      let resp := fst (dashboardMetrics tz clock tick q "all") in
      status resp = 500 /\ success resp = false /\ exists m, data resp = inr m).
Proof.
  split; [apply stageAveragesAccumulate_wellFormed|].
  split.
  { intros r result v Hn. split; [by apply bayWorkVehicle_keyless|].
    by apply bayWorkVehicle_completes. }
  split; [apply specialAccumulate_throws|].
  intros tz clock tick q period r vs1 v vs2 e Hp Hq Hin Hw Hname.
  unfold dashboardMetrics.
  destruct (getDateRanges tz clock tick) as [dateRanges tick'] eqn:Hg. simpl in Hp.
  destruct (calculateSpecialStageAverages_throws (findSpecial q) dateRanges period r Hp)
    as [m Hm].
  { rewrite Hq. by eapply specialAccumulate_throws. }
  unfold metricsBody.
  change (wants "all" "special-stage-averages") with true.
  unfold whenWanted at 1. rewrite Hm. cbn [cbind fst].
  simpl. split; [done|]. split; [done|]. by eexists.
Qed.

Lemma malformed_events_skipped_errors_not_isolated_witness :
  In corruptVehicle [goodVehicle; corruptVehicle]
  /\ (exists m, specialAccumulate (mkRange 1793664000000 1793700000001)
                  ([goodVehicle] ++ corruptVehicle :: []) = Throw m)
  /\ status (fst (dashboardMetrics 0 tickingClock 0
                    (sameBatch ([goodVehicle] ++ corruptVehicle :: [])) "all")) = 500.
Proof.
  pose proof malformed_events_skipped_errors_not_isolated as (_ & _ & Hbatch & Hroute).
  split; [right; by left|]. split.
  - apply (Hbatch _ _ _ _ (mkEvent None (Some "Start") 1793690000000 None None None None));
      [by left|by vm_compute|done].
  - apply (Hroute 0 tickingClock 0%nat (sameBatch ([goodVehicle] ++ corruptVehicle :: []))
             "today" (mkRange 1793664000000 1793700000001) [goodVehicle] corruptVehicle []
             (mkEvent None (Some "Start") 1793690000000 None None None None));
      [by vm_compute; left|done|by left|by vm_compute|done].
Defined.

(** Claim C7 as stated fails.  With the corrupt vehicle in the batch the
    request fails as a whole; the same request without it reports the
    closed "Ready for Washing" occurrence of the good vehicle. *)
Lemma one_corrupt_vehicle_fails_the_request :
  fst (dashboardMetrics 0 tickingClock 0 (sameBatch [goodVehicle; corruptVehicle]) "all")
    = {| status := 500; success := false; message := "Server error";
         data := inr undefinedStartsWith |}
  /\ reportedSpecialCount
       (fst (dashboardMetrics 0 tickingClock 0 (sameBatch [goodVehicle; corruptVehicle]) "all"))
       "today" "Ready for Washing" = None
  /\ reportedSpecialCount
       (fst (dashboardMetrics 0 tickingClock 0 (sameBatch [goodVehicle]) "all"))
       "today" "Ready for Washing" = Some 1.
Proof. by vm_compute. Qed.

(** A work type that is a name inherited from [Object.prototype] gets no
    bucket: a closed occurrence of it makes the Bay Work metrics throw at
    [details.push], and the route answers with status 500; an occurrence
    that is not closed goes unnoticed. *)
Lemma inherited_work_type_fails_bay_work :
  bayWorkAccumulate (mkRange 0 10000) [constructorVehicle [ "Start"; "End" ]]
    = Throw detailsPushError
  /\ fst (dashboardMetrics 0 tickingClock 0
            (sameBatch [constructorVehicleAt 1793690000000 [ "Start"; "End" ]]) "bay-work")
     = {| status := 500; success := false; message := "Server error";
          data := inr detailsPushError |}
  /\ bayWorkAccumulate (mkRange 0 10000) [constructorVehicle [ "Start" ]]
     = Normal emptyBayResult.
Proof. by vm_compute. Qed.

(** ** The window generator and the clock *)

(** Claim C6, as the code has it.  One call of the generator reads the
    clock four times.  The start of every window and both boundaries of
    [lastMonth] are computed from the first reading alone; the ends of
    [today], [thisWeek] and [thisMonth] are the second, third and fourth
    reading.  When the clock shows one value over the readings of two
    consecutive calls, the two calls return the same windows, and all
    three ends are that value.  The metrics route calls the generator
    once per request, whatever metric is asked for. *)
Theorem window_generator_reads_clock_four_times (tz : Z) (clock : nat -> Z) (tick : nat) :
  let ranges := fst (getDateRanges tz clock tick) in
  snd (getDateRanges tz clock tick) = (tick + 4)%nat
  /\ map fst ranges = ["today"; "thisWeek"; "thisMonth"; "lastMonth"]
  /\ windowEnd ranges "today" = Some (clock (tick + 1)%nat)
  /\ windowEnd ranges "thisWeek" = Some (clock (tick + 2)%nat)
  /\ windowEnd ranges "thisMonth" = Some (clock (tick + 3)%nat)
  /\ (forall clock' tick',
        clock' tick' = clock tick ->
        let ranges' := fst (getDateRanges tz clock' tick') in
        map (fun pr => r_start (snd pr)) ranges' = map (fun pr => r_start (snd pr)) ranges
        /\ getProp ranges' "lastMonth" = getProp ranges "lastMonth")
  /\ ((forall k, (tick <= k < tick + 8)%nat -> clock k = clock tick) ->
        fst (getDateRanges tz clock (tick + 4)%nat) = ranges
        /\ windowEnd ranges "today" = Some (clock tick)
        /\ windowEnd ranges "thisWeek" = Some (clock tick)
        /\ windowEnd ranges "thisMonth" = Some (clock tick))
  /\ (forall q metricType,
        snd (dashboardMetrics tz clock tick q metricType) = (tick + 4)%nat).
Proof.
  intros ranges. unfold ranges.
  split; [reflexivity|].
  split; [reflexivity|].
  split; [reflexivity|].
  split; [reflexivity|].
  split; [reflexivity|].
  split; [|split].
  - intros clock' tick' Heq.
    cbv -[DateApi.setHours0 DateApi.setDate DateApi.newDate DateApi.getFullYear
          DateApi.getMonth DateApi.getDate DateApi.getDay Z.sub].
    rewrite Heq. split; reflexivity.
  - intros Hfrozen.
    cbv -[DateApi.setHours0 DateApi.setDate DateApi.newDate DateApi.getFullYear
          DateApi.getMonth DateApi.getDate DateApi.getDay Z.sub Nat.add].
    rewrite (Hfrozen (tick + 4)%nat), (Hfrozen (tick + 4 + 1)%nat),
      (Hfrozen (tick + 4 + 2)%nat), (Hfrozen (tick + 4 + 3)%nat),
      (Hfrozen (tick + 1)%nat), (Hfrozen (tick + 2)%nat), (Hfrozen (tick + 3)%nat) by lia.
    repeat split; reflexivity.
  - intros q metricType. unfold dashboardMetrics.
    destruct (getDateRanges tz clock tick) as [dateRanges tick'] eqn:Hg.
    change (tick' = (tick + 4)%nat).
    apply (f_equal snd) in Hg. exact (eq_sym Hg).
Qed.

Lemma window_generator_reads_clock_four_times_witness :
  (forall k, (0 <= k < 0 + 8)%nat -> (fun _ : nat => 1793700000000) k = 1793700000000)
  /\ fst (getDateRanges 0 (fun _ => 1793700000000) (0 + 4)%nat)
     = fst (getDateRanges 0 (fun _ => 1793700000000) 0%nat)
  /\ windowEnd (fst (getDateRanges 0 (fun _ => 1793700000000) 0%nat)) "today"
     = Some 1793700000000.
Proof.
  assert (forall k, (0 <= k < 0 + 8)%nat -> (fun _ : nat => 1793700000000) k = 1793700000000)
    as Hfrozen by reflexivity.
  split; [exact Hfrozen|].
  destruct (window_generator_reads_clock_four_times 0 (fun _ => 1793700000000) 0%nat)
    as (_ & _ & _ & _ & _ & _ & Hsame & _).
  destruct (Hsame Hfrozen) as (H1 & H2 & _).
  split; [exact H1|exact H2].
Defined.

(** Claim C6 as stated fails.  With a clock that advances between its
    readings, the three open windows of one call end at three different
    instants, and the next call returns different windows. *)
Lemma window_ends_are_separate_clock_readings :
  let ranges := fst (getDateRanges 0 tickingClock 0) in
  windowEnd ranges "today" = Some 1793700000001
  /\ windowEnd ranges "thisWeek" = Some 1793700000002
  /\ windowEnd ranges "thisMonth" = Some 1793700000003
  /\ fst (getDateRanges 0 tickingClock 4) <> ranges.
Proof.
  cbv zeta. do 3 (split; [by vm_compute|]).
  intros H. vm_compute in H. discriminate H.
Qed.

(** ** The order of the event array *)

Lemma filter_perm (p : StageEvent -> bool) l l' :
  Permutation l l' -> Permutation (List.filter p l) (List.filter p l').
Proof.
  induction 1 as [|x l l' _ IH|x y l|l1 l2 l3 _ IH1 _ IH2]; simpl.
  - done.
  - destruct (p x); [by constructor|done].
  - destruct (p x), (p y); try done. apply perm_swap.
  - by etransitivity.
Qed.

(** The timestamps of a filtered, sorted event array do not depend on the
    order of the array. *)
Lemma sorted_filter_timestamps (p q : StageEvent -> bool) l l' :
  Permutation l l' ->
  map timestamp (List.filter q (sortByTimestamp (List.filter p l)))
  = map timestamp (List.filter q (sortByTimestamp (List.filter p l'))).
Proof.
  intros Hp. apply sorted_perm_eq.
  - apply sorted_timestamps, filter_sorted, sortByTimestamp_sorted.
  - apply sorted_timestamps, filter_sorted, sortByTimestamp_sorted.
  - apply Permutation_map, filter_perm.
    rewrite !sortByTimestamp_perm. by apply filter_perm.
Qed.

Lemma findEnd_timestamps ends ends' s s' :
  map timestamp ends = map timestamp ends' -> timestamp s = timestamp s' ->
  option_map timestamp (findEnd ends s) = option_map timestamp (findEnd ends' s').
Proof.
  intros He Hs. unfold findEnd. rewrite <- Hs. clear Hs. revert ends' He.
  induction ends as [|e ends IH]; intros [|e' ends']; simpl; try done.
  intros [= Ht Hrest]. rewrite Ht.
  destruct (timestamp s <? timestamp e'); simpl; [congruence|]. by apply IH.
Qed.

Lemma matching_timestamps vn name ends ends' starts starts' (result : gmap string Bucket) :
  map timestamp ends = map timestamp ends' ->
  map timestamp starts = map timestamp starts' ->
  fold_left
    (fun result startEvent =>
       match findEnd ends startEvent with
       | Some endEvent =>
           alter (pushOccurrence formatMilliseconds vn startEvent endEvent) name result
       | None => result
       end) starts result
  = fold_left
      (fun result startEvent =>
         match findEnd ends' startEvent with
         | Some endEvent =>
             alter (pushOccurrence formatMilliseconds vn startEvent endEvent) name result
         | None => result
         end) starts' result.
Proof.
  intros He. revert starts' result.
  induction starts as [|s starts IH]; intros [|s' starts'] result; simpl; try done.
  intros [= Hs Hrest].
  pose proof (findEnd_timestamps ends ends' s s' He Hs) as Hf.
  destruct (findEnd ends s) as [e|], (findEnd ends' s') as [e'|]; simpl in Hf; try done.
  - injection Hf as Hf. unfold pushOccurrence. rewrite Hs, Hf. by apply IH.
  - by apply IH.
Qed.

(** The stage averages sort the events of a stage before matching them:
    the buckets do not depend on the order of [vehicle.stages]. *)
Lemma stageAveragesStage_order_independent r v v' result name :
  vehicleNumber v = vehicleNumber v' -> Permutation (stages v) (stages v') ->
  stageAveragesStage r v result name = stageAveragesStage r v' result name.
Proof.
  intros Hvn Hp. unfold stageAveragesStage, stageEventsOf. rewrite Hvn.
  apply matching_timestamps; by apply sorted_filter_timestamps.
Qed.

(** Claim C2 at a failing input.  The two vehicles hold the same events in
    two array orders.  The job-card metrics search the unsorted array, so
    the interval of the technician receipt starts at the bay allocation
    that comes first in the array: at 1000 with a duration of two seconds
    for one order, at 2000 with a duration of one second for the other. *)
Theorem job_card_intervals_depend_on_array_order :
  vehicleNumber receiptInOrder = vehicleNumber receiptReordered
  /\ Permutation (stages receiptInOrder) (stages receiptReordered)
  /\ technicianDetails (mkRange 0 10000) receiptInOrder
     = Normal [ mkDetail "V9" 1000 3000 "00:00:02" ]
  /\ technicianDetails (mkRange 0 10000) receiptReordered
     = Normal [ mkDetail "V9" 2000 3000 "00:00:01" ].
Proof.
  split; [done|]. split; [apply perm_swap|]. split; by vm_compute.
Qed.

(** ** The live view *)

Lemma eqb_neq (a b : string) : a <> b -> String.eqb a b = false.
Proof. intros H. by apply String.eqb_neq. Qed.

Lemma getProp_cons {V} (k' : string) (v : V) obj k :
  getProp ((k', v) :: obj) k = if String.eqb k' k then Some v else getProp obj k.
Proof. unfold getProp. simpl. by destruct (String.eqb k' k). Qed.

Lemma getProp_updateProp {V} (f : V -> V) k0 (obj : list (string * V)) k :
  getProp (updateProp f k0 obj) k
  = if String.eqb k0 k then option_map f (getProp obj k0) else getProp obj k.
Proof.
  induction obj as [|[k' v] obj IH]; simpl.
  - by destruct (String.eqb k0 k).
  - destruct (String.eqb_spec k' k0) as [->|Hne].
    + rewrite !getProp_cons, String.eqb_refl. simpl. by destruct (String.eqb k0 k).
    + rewrite !getProp_cons, IH, (eqb_neq _ _ Hne).
      destruct (String.eqb_spec k' k) as [->|Hne']; [|done].
      by rewrite (eqb_neq k0 k) by congruence.
Qed.

Lemma keys_updateProp {V} (f : V -> V) k0 (obj : list (string * V)) :
  map fst (updateProp f k0 obj) = map fst obj.
Proof.
  induction obj as [|[k' v] obj IH]; simpl; [done|].
  destruct (String.eqb k' k0); simpl; [done|]. by rewrite IH.
Qed.

Lemma getProp_app {V} (obj : list (string * V)) k0 v k :
  getProp (obj ++ [(k0, v)]) k
  = match getProp obj k with
    | Some x => Some x
    | None => if String.eqb k0 k then Some v else None
    end.
Proof.
  unfold getProp. induction obj as [|[k' v'] obj IH]; simpl.
  - by destruct (String.eqb k0 k).
  - destruct (String.eqb k' k); simpl; [done|exact IH].
Qed.

Lemma hasOwnProperty_getProp {V} (obj : list (string * V)) k :
  hasOwnProperty obj k = match getProp obj k with Some _ => true | None => false end.
Proof.
  unfold hasOwnProperty, getProp. induction obj as [|[k' v'] obj IH]; simpl; [done|].
  destruct (String.eqb k' k); simpl; [done|exact IH].
Qed.

Lemma hasOwnProperty_false_keys {V} (obj : list (string * V)) k :
  hasOwnProperty obj k = false -> ~ In k (map fst obj).
Proof.
  unfold hasOwnProperty. intros H Hin.
  apply in_map_iff in Hin as ([k' v] & <- & Hin).
  apply not_true_iff_false in H. apply H, existsb_exists.
  exists (k', v). split; [done|]. apply String.eqb_refl.
Qed.

Lemma getProp_None_keys {V} (obj : list (string * V)) k :
  ~ In k (map fst obj) -> getProp obj k = None.
Proof.
  unfold getProp. induction obj as [|[k' v'] obj IH]; simpl; [done|].
  intros Hn. destruct (String.eqb_spec k' k) as [->|]; [by destruct Hn; left|].
  apply IH. intros ?. apply Hn. by right.
Qed.

Lemma getProp_groupPush gs s k :
  getProp (ownGroupPush gs s) k
  = if String.eqb (keyOf s) k then Some (default [] (getProp gs k) ++ [s]) else getProp gs k.
Proof.
  unfold ownGroupPush. fold (keyOf s). rewrite getProp_updateProp.
  rewrite hasOwnProperty_getProp.
  destruct (String.eqb_spec (keyOf s) k) as [<-|Hne].
  - destruct (getProp gs (keyOf s)) as [es|] eqn:Hg; simpl; [by rewrite Hg|].
    by rewrite getProp_app, Hg, String.eqb_refl.
  - destruct (getProp gs (keyOf s)) as [es|] eqn:Hg; [done|].
    rewrite getProp_app. destruct (getProp gs k); [done|].
    destruct (String.eqb_spec (keyOf s) k); [done|]. done.
Qed.

Lemma keys_groupPush gs s :
  List.NoDup (map fst gs) -> List.NoDup (map fst (ownGroupPush gs s)).
Proof.
  intros Hnd. unfold ownGroupPush. rewrite keys_updateProp.
  destruct (hasOwnProperty gs _) eqn:Hh; [done|].
  rewrite map_app. simpl. apply NoDup_ListNoDup, NoDup_app.
  split; [by apply NoDup_ListNoDup|]. split; [|apply NoDup_singleton].
  intros k Hk ->%list_elem_of_singleton.
  by eapply hasOwnProperty_false_keys, list_elem_of_In.
Qed.

Lemma groupOf_snoc name l s :
  groupOf name (l ++ [s]) = groupOf name l ++ (if String.eqb (keyOf s) name then [s] else []).
Proof. unfold groupOf. rewrite List.filter_app. done. Qed.

(** [stageGroups] holds, under distinct keys, the events of each stage
    name in array order. *)
Lemma stageGroups_spec l :
  let gs := fold_left ownGroupPush l [] in
  List.NoDup (map fst gs)
  /\ forall k, getProp gs k = match groupOf k l with [] => None | es => Some es end.
Proof.
  induction l as [|s l IH] using rev_ind; simpl.
  - split; [constructor|done].
  - rewrite fold_left_app. simpl. destruct IH as [Hnd Hget].
    split; [by apply keys_groupPush|].
    intros k. rewrite getProp_groupPush, groupOf_snoc, Hget.
    destruct (String.eqb (keyOf s) k).
    + destruct (groupOf k l); done.
    + by rewrite app_nil_r.
Qed.

(** The keys of [stageGroups] are stage names of the events. *)
Lemma ownGroupPush_keys (Q : string -> Prop) gs s :
  Q (keyOf s) -> (forall k, In k (map fst gs) -> Q k) ->
  forall k, In k (map fst (ownGroupPush gs s)) -> Q k.
Proof.
  intros Hs Hgs k. unfold ownGroupPush. fold (keyOf s). rewrite keys_updateProp.
  destruct (hasOwnProperty gs (keyOf s)); [apply Hgs|].
  rewrite map_app, in_app_iff. intros [Hk|[<-|[]]]; [by apply Hgs|done].
Qed.

(** Grouping fails at the first event whose stage name is inherited: the
    name reads as truthy, no list is created, and the inherited value has
    no [push]. *)
Lemma groupPush_cases gs s :
  (forall k, In k (map fst gs) -> Js.inheritedName k = false) ->
  groupPush gs s
  = if inheritedStage s then Throw stageGroupsPushError else Normal (ownGroupPush gs s).
Proof.
  intros Hgs. unfold groupPush, ownGroupPush, inheritedStage. fold (keyOf s).
  destruct (Js.inheritedName (keyOf s)) eqn:Hi.
  - assert (hasOwnProperty gs (keyOf s) = false) as Hown.
    { apply not_true_iff_false. intros (kv & Hin & Heq%String.eqb_eq)%existsb_exists.
      rewrite (Hgs (keyOf s)) in Hi; [done|]. rewrite <- Heq. by apply in_map. }
    rewrite Hown. cbn [orb]. by rewrite Hown.
  - rewrite orb_false_r.
    destruct (hasOwnProperty gs (keyOf s)) eqn:Hown; [by rewrite Hown|].
    assert (hasOwnProperty (gs ++ [(keyOf s, [])]) (keyOf s) = true) as ->; [|done].
    unfold hasOwnProperty. rewrite existsb_app. cbn. by rewrite String.eqb_refl, orb_true_r.
Qed.

Lemma stageGroups_cases l : forall gs,
  (forall k, In k (map fst gs) -> Js.inheritedName k = false) ->
  forEachE groupPush l gs
  = if forallb (fun s => negb (inheritedStage s)) l
    then Normal (fold_left ownGroupPush l gs)
    else Throw stageGroupsPushError.
Proof.
  induction l as [|s l IH]; intros gs Hgs; cbn [forEachE forallb fold_left]; [done|].
  rewrite groupPush_cases by done.
  destruct (inheritedStage s) eqn:Hi; cbn [cbind negb andb]; [done|].
  apply IH. by apply ownGroupPush_keys.
Qed.

Lemma liveVehicle_cases {E} (entryOf : string -> StageEvent -> E) m v :
  liveVehicle entryOf m v
  = if noInheritedStage v then Normal (ownLiveVehicle entryOf m v)
    else Throw stageGroupsPushError.
Proof.
  unfold liveVehicle, noInheritedStage, ownLiveVehicle.
  rewrite stageGroups_cases by (by intros k []).
  by destruct (forallb _ (stages v)).
Qed.

Lemma liveStageMap_cases {E} (entryOf : string -> StageEvent -> E) db :
  liveStageMap entryOf db
  = if forallb noInheritedStage (activeVehicles db) then Normal (ownLiveStageMap entryOf db)
    else Throw stageGroupsPushError.
Proof.
  unfold liveStageMap, ownLiveStageMap.
  apply (forEachE_all noInheritedStage). intros m v. apply liveVehicle_cases.
Qed.

Section LiveFacts.

Context {E : Type} (entryOf : string -> StageEvent -> E) (vehicleOf : E -> string).
Hypothesis vehicleOf_entryOf : forall vn s, vehicleOf (entryOf vn s) = vn.

Lemma liveStarts_find vn name ends starts (m : gmap string (list E)) :
  liveStarts entryOf vn name ends starts m
  = match find (fun s => negb (isEnded ends s)) starts with
    | Some s => <[name := default [] (m !! name) ++ [entryOf vn s]]> m
    | None => m
    end.
Proof.
  induction starts as [|s starts IH]; simpl; [done|].
  destruct (negb (isEnded ends s)); [done|exact IH].
Qed.

Lemma liveGroup_lookup vn (m : gmap string (list E)) k entries name :
  default [] (liveGroup entryOf vn m (k, entries) !! name)
  = default [] (m !! name)
    ++ (if String.eqb k name then option_list (entryOf vn <$> openStart entries) else []).
Proof.
  unfold liveGroup. simpl. rewrite liveStarts_find. fold (openStart entries).
  destruct (openStart entries) as [s|]; simpl.
  - destruct (String.eqb_spec k name) as [->|Hne].
    + by rewrite lookup_insert_eq.
    + rewrite lookup_insert_ne by done. by rewrite app_nil_r.
  - destruct (String.eqb k name); by rewrite app_nil_r.
Qed.

Lemma liveGroups_lookup vn gs : forall (m : gmap string (list E)) name,
  List.NoDup (map fst gs) ->
  default [] (fold_left (liveGroup entryOf vn) gs m !! name)
  = default [] (m !! name)
    ++ match getProp gs name with
       | Some entries => option_list (entryOf vn <$> openStart entries)
       | None => []
       end.
Proof.
  induction gs as [|[k entries] gs IH]; intros m name Hnd; simpl.
  - by rewrite app_nil_r.
  - apply List.NoDup_cons_iff in Hnd as [Hk Hnd].
    rewrite IH by done. rewrite liveGroup_lookup, <- app_assoc. f_equal.
    unfold getProp at 2. simpl.
    destruct (String.eqb_spec k name) as [->|Hne]; simpl.
    + by rewrite getProp_None_keys, app_nil_r.
    + done.
Qed.

(** What one vehicle adds under a stage name: the record of the open
    start of that stage, if there is one. *)
Lemma liveVehicle_lookup (m : gmap string (list E)) v name :
  default [] (ownLiveVehicle entryOf m v !! name)
  = default [] (m !! name)
    ++ option_list (entryOf (vehicleNumber v) <$> openStart (groupOf name (stages v))).
Proof.
  unfold ownLiveVehicle. destruct (stageGroups_spec (stages v)) as [Hnd Hget].
  rewrite liveGroups_lookup by done. f_equal. rewrite Hget.
  destruct (groupOf name (stages v)) eqn:Hg; [|done]. done.
Qed.

Lemma liveStageMap_lookup vehicles : forall (m : gmap string (list E)) name,
  default [] (fold_left (ownLiveVehicle entryOf) vehicles m !! name)
  = default [] (m !! name)
    ++ flat_map (fun v => option_list (entryOf (vehicleNumber v)
                                         <$> openStart (groupOf name (stages v))))
                vehicles.
Proof.
  induction vehicles as [|v vehicles IH]; intros m name; simpl.
  - by rewrite app_nil_r.
  - by rewrite IH, liveVehicle_lookup, <- app_assoc.
Qed.

Lemma entriesOf_other vn vehicles (g : Vehicle -> option StageEvent) :
  ~ In vn (map vehicleNumber vehicles) ->
  entriesOf vehicleOf vn
    (flat_map (fun v => option_list (entryOf (vehicleNumber v) <$> g v)) vehicles) = [].
Proof.
  induction vehicles as [|v vehicles IH]; simpl; [done|].
  intros Hn. unfold entriesOf in *. rewrite List.filter_app, IH by tauto.
  rewrite app_nil_r. destruct (g v); simpl; [|done].
  rewrite vehicleOf_entryOf.
  destruct (String.eqb_spec (vehicleNumber v) vn); [|done]. tauto.
Qed.

Lemma entriesOf_vehicle vehicles (g : Vehicle -> option StageEvent) v :
  List.NoDup (map vehicleNumber vehicles) -> In v vehicles ->
  entriesOf vehicleOf (vehicleNumber v)
    (flat_map (fun v => option_list (entryOf (vehicleNumber v) <$> g v)) vehicles)
  = option_list (entryOf (vehicleNumber v) <$> g v).
Proof.
  induction vehicles as [|v0 vehicles IH]; simpl; [done|].
  intros [Hn0 Hnd]%List.NoDup_cons_iff Hin.
  unfold entriesOf in *. rewrite List.filter_app.
  destruct Hin as [->|Hin].
  - fold (entriesOf vehicleOf (vehicleNumber v)
            (flat_map (fun v => option_list (entryOf (vehicleNumber v) <$> g v)) vehicles)).
    rewrite entriesOf_other, app_nil_r by done.
    destruct (g v); simpl; [|done]. by rewrite vehicleOf_entryOf, String.eqb_refl.
  - rewrite IH by done.
    assert (vehicleNumber v0 <> vehicleNumber v) as Hne.
    { intros Heq. apply Hn0. rewrite Heq. by apply in_map. }
    destruct (g v0); simpl; [|done]. rewrite vehicleOf_entryOf.
    destruct (String.eqb_spec (vehicleNumber v0) (vehicleNumber v)); [done|]. done.
Qed.

Lemma entriesOf_at_most_one vn vehicles (g : Vehicle -> option StageEvent) :
  List.NoDup (map vehicleNumber vehicles) ->
  (length (entriesOf vehicleOf vn
             (flat_map (fun v => option_list (entryOf (vehicleNumber v) <$> g v)) vehicles))
   <= 1)%nat.
Proof.
  intros Hnd.
  destruct (in_dec string_dec vn (map vehicleNumber vehicles)) as [Hin|Hout].
  - apply in_map_iff in Hin as (v & <- & Hin).
    rewrite entriesOf_vehicle by done. destruct (g v); simpl; lia.
  - rewrite entriesOf_other by done. simpl. lia.
Qed.

Lemma liveStageMap_entries db name :
  List.NoDup (map vehicleNumber (activeVehicles db)) ->
  (forall vn,
      (length (entriesOf vehicleOf vn (default [] (ownLiveStageMap entryOf db !! name)))
       <= 1)%nat)
  /\ (forall v, In v (activeVehicles db) ->
      entriesOf vehicleOf (vehicleNumber v) (default [] (ownLiveStageMap entryOf db !! name))
      = option_list (entryOf (vehicleNumber v) <$> openStart (groupOf name (stages v)))).
Proof.
  intros Hnd. unfold ownLiveStageMap. rewrite liveStageMap_lookup, lookup_empty. simpl.
  split.
  - intros vn. by apply entriesOf_at_most_one.
  - intros v Hin.
    by apply (entriesOf_vehicle _ (fun v => openStart (groupOf name (stages v)))).
Qed.

End LiveFacts.

Lemma isEnded_false ends s :
  isEnded ends s = false <-> forall e, In e ends -> timestamp e <= timestamp s.
Proof.
  unfold isEnded. split.
  - intros H e He. destruct (Z.leb_spec (timestamp e) (timestamp s)); [done|].
    apply not_true_iff_false in H. destruct H. apply existsb_exists.
    exists e. split; [done|]. by apply Z.ltb_lt.
  - intros H. apply not_true_iff_false. intros (e & He & Hlt)%existsb_exists.
    apply Z.ltb_lt in Hlt. specialize (H e He). lia.
Qed.

Lemma isEnded_true ends s :
  isEnded ends s = true <-> exists e, In e ends /\ timestamp s < timestamp e.
Proof.
  unfold isEnded. rewrite existsb_exists. by setoid_rewrite Z.ltb_lt.
Qed.

Lemma group_events_In ty name l e :
  In e (sortByTimestamp (List.filter (isEvent ty) (groupOf name l)))
  <-> In e l /\ keyOf e = name /\ eventType e = Some ty.
Proof.
  unfold groupOf, isEvent.
  rewrite sortByTimestamp_In, !filter_In, strictEq_true, String.eqb_eq. tauto.
Qed.

Lemma openStart_Some name l s :
  openStart (groupOf name l) = Some s ->
  In s l /\ keyOf s = name /\ eventType s = Some "Start"
  /\ (forall e, In e l -> keyOf e = name -> eventType e = Some "End" ->
                timestamp e <= timestamp s)
  /\ (forall s', In s' l -> keyOf s' = name -> eventType s' = Some "Start" ->
        (forall e, In e l -> keyOf e = name -> eventType e = Some "End" ->
                   timestamp e <= timestamp s') ->
        timestamp s <= timestamp s').
Proof.
  unfold openStart. intros Hf.
  apply find_sorted_earliest in Hf as (Hin & Hopen & Hmin); [|apply sortByTimestamp_sorted].
  apply group_events_In in Hin as (Hin & Hk & Hty).
  apply negb_true_iff in Hopen. rewrite isEnded_false in Hopen.
  do 3 (split; [done|]). split.
  - intros e He Hke Htye. apply Hopen, group_events_In. done.
  - intros s' Hs' Hk' Hty' Hopen'. apply Hmin; [by apply group_events_In|].
    apply negb_true_iff. apply isEnded_false. intros e He.
    apply group_events_In in He as (He & Hke & Htye). by apply Hopen'.
Qed.

Lemma openStart_None name l s' :
  openStart (groupOf name l) = None ->
  In s' l -> keyOf s' = name -> eventType s' = Some "Start" ->
  exists e, In e l /\ keyOf e = name /\ eventType e = Some "End"
            /\ timestamp s' < timestamp e.
Proof.
  unfold openStart. intros Hf Hin Hk Hty.
  pose proof (find_none _ _ Hf s') as Hp. simpl in Hp.
  assert (In s' (sortByTimestamp (List.filter (isEvent "Start") (groupOf name l)))) as Hs
    by (by apply group_events_In).
  apply Hp in Hs. apply negb_false_iff in Hs. apply isEnded_true in Hs as (e & He & Hlt).
  apply group_events_In in He as (He & Hke & Htye). by exists e.
Qed.

(** Claim C10.  Let the active vehicles have distinct vehicle numbers.
    Both copies of the route fail, with the same [TypeError], exactly when
    some event of an active vehicle has a stage name that objects inherit
    from [Object.prototype].  Otherwise both return their map, and in it
    the list stored under a stage name holds at most one record of a given
    vehicle.  For an active vehicle this record exists exactly when the
    group of that stage name has a [Start] that no [End] of the group
    follows, and it is made from the earliest such start; the later
    unclosed starts add nothing.  When no record is made, every start of
    the group is followed by an end. *)
Theorem live_status_one_open_entry_per_vehicle_and_stage
    (formatToIST : Z -> string) (now : Z) (db : list Vehicle) (name : string) :
  List.NoDup (map vehicleNumber (activeVehicles db)) ->
  match liveStageStatus db, stageWiseDistribution formatToIST now db with
  | Normal status, Normal distribution =>
      forallb noInheritedStage (activeVehicles db) = true
      /\ (forall vn,
          (length (entriesOf l_vehicleNumber vn (default [] (status !! name))) <= 1)%nat
          /\ (length (entriesOf li_vehicleNumber vn (default [] (distribution !! name)))
              <= 1)%nat)
      /\ (forall v, In v (activeVehicles db) ->
          let open := openStart (groupOf name (stages v)) in
          entriesOf l_vehicleNumber (vehicleNumber v) (default [] (status !! name))
          = option_list (liveEntry (vehicleNumber v) <$> open)
          /\ entriesOf li_vehicleNumber (vehicleNumber v) (default [] (distribution !! name))
             = option_list (liveEntryIST formatToIST now (vehicleNumber v) <$> open)
          /\ (forall s, open = Some s ->
                In s (stages v) /\ keyOf s = name /\ eventType s = Some "Start"
                /\ (forall e, In e (stages v) -> keyOf e = name ->
                              eventType e = Some "End" -> timestamp e <= timestamp s)
                /\ (forall s', In s' (stages v) -> keyOf s' = name ->
                      eventType s' = Some "Start" ->
                      (forall e, In e (stages v) -> keyOf e = name ->
                                 eventType e = Some "End" -> timestamp e <= timestamp s') ->
                      timestamp s <= timestamp s'))
          /\ (open = None ->
                forall s', In s' (stages v) -> keyOf s' = name ->
                  eventType s' = Some "Start" ->
                  exists e, In e (stages v) /\ keyOf e = name /\ eventType e = Some "End"
                            /\ timestamp s' < timestamp e))
  | Throw error, Throw error' =>
      error = stageGroupsPushError /\ error' = stageGroupsPushError
      /\ forallb noInheritedStage (activeVehicles db) = false
  | _, _ => False
  end.
Proof.
  intros Hnd. unfold liveStageStatus, stageWiseDistribution. rewrite !liveStageMap_cases.
  destruct (forallb noInheritedStage (activeVehicles db)); [|done].
  destruct (liveStageMap_entries liveEntry l_vehicleNumber (fun _ _ => eq_refl) db name Hnd)
    as [H1 H2].
  destruct (liveStageMap_entries (liveEntryIST formatToIST now) li_vehicleNumber
              (fun _ _ => eq_refl) db name Hnd) as [H3 H4].
  cbv iota beta. split; [done|]. split.
  - intros vn. split; [apply H1|apply H3].
  - intros v Hv. split; [by apply H2|]. split; [by apply H4|].
    split.
    + intros s Hs. by apply openStart_Some.
    + intros Hnone s'. by apply openStart_None.
Qed.

Lemma live_status_one_open_entry_per_vehicle_and_stage_witness :
  List.NoDup (map vehicleNumber (activeVehicles [washingQueue]))
  /\ exists status,
       liveStageStatus [washingQueue] = Normal status
       /\ entriesOf l_vehicleNumber "V4" (default [] (status !! "Washing"))
          = [ mkLiveEntry "V4" 3000 "Unknown" ].
Proof.
  assert (List.NoDup (map vehicleNumber (activeVehicles [washingQueue]))) as Hnd.
  { simpl. constructor; [by intros []|constructor]. }
  split; [exact Hnd|].
  pose proof (live_status_one_open_entry_per_vehicle_and_stage (fun _ => "") 0 [washingQueue]
                "Washing" Hnd) as H.
  destruct (liveStageStatus [washingQueue]) as [status|error] eqn:Hs,
           (stageWiseDistribution (fun _ => "") 0 [washingQueue]) as [distribution|error'];
    try done.
  exists status. split; [done|]. destruct H as (_ & _ & Hv).
  destruct (Hv washingQueue) as (Hentry & _); [by left|].
  etransitivity; [exact Hentry|by vm_compute].
Defined.

(** A [Start] of a stage named "constructor" is not filed: both copies of
    the route fail at [push]. *)
Lemma inherited_stage_name_fails_live_status :
  liveStageStatus [mkVehicle "V12" 0 None [ stageEvent "constructor" "Start" 1000 ]]
    = Throw stageGroupsPushError
  /\ stageWiseDistribution (fun _ => "") 0
       [mkVehicle "V12" 0 None [ stageEvent "constructor" "Start" 1000 ]]
     = Throw stageGroupsPushError.
Proof. by vm_compute. Qed.

(** ** The canonical display order *)

Lemma getProp_app_gen {V} (a b : list (string * V)) k :
  getProp (a ++ b) k = match getProp a k with Some v => Some v | None => getProp b k end.
Proof.
  unfold getProp. induction a as [|[k' v'] a IH]; simpl; [done|].
  destruct (String.eqb k' k); simpl; [done|exact IH].
Qed.

Lemma getProp_filter_key {V} (p : string -> bool) (obj : list (string * V)) k :
  getProp (List.filter (fun kv => p (fst kv)) obj) k = if p k then getProp obj k else None.
Proof.
  induction obj as [|[k' v'] obj IH]; simpl; [by destruct (p k)|].
  destruct (p k') eqn:Hp'.
  - rewrite !getProp_cons, IH.
    destruct (String.eqb_spec k' k) as [->|]; [by rewrite Hp'|done].
  - rewrite getProp_cons, IH.
    destruct (String.eqb_spec k' k) as [->|]; [by rewrite Hp'|done].
Qed.

Lemma getProp_Some_In {V} (obj : list (string * V)) k v :
  List.NoDup (map fst obj) -> (getProp obj k = Some v <-> In (k, v) obj).
Proof.
  intros Hnd. split; [apply getProp_In|].
  induction obj as [|[k' v'] obj IH]; simpl; [done|].
  apply List.NoDup_cons_iff in Hnd as [Hk Hnd]. rewrite getProp_cons.
  intros [[= -> ->]|Hin]; [by rewrite String.eqb_refl|].
  destruct (String.eqb_spec k' k) as [->|]; [|by apply IH].
  destruct Hk. apply in_map_iff. by exists (k, v).
Qed.

Lemma omap_cons_eq {A B} (f : A -> option B) x l :
  omap f (x :: l) = match f x with Some y => y :: omap f l | None => omap f l end.
Proof. reflexivity. Qed.

Lemma getProp_lookup_entries {V} (obj : list (string * V)) (names : list string) k :
  getProp (omap (fun name => option_map (fun v => (name, v)) (getProp obj name)) names) k
  = if existsb (String.eqb k) names then getProp obj k else None.
Proof.
  induction names as [|n names IH]; [done|].
  rewrite omap_cons_eq. cbn [existsb].
  destruct (getProp obj n) as [v|] eqn:Hn; cbn [option_map].
  - rewrite getProp_cons, IH. rewrite (String.eqb_sym k n).
    destruct (String.eqb_spec n k) as [->|]; [by rewrite Hn|done].
  - rewrite IH. rewrite (String.eqb_sym k n).
    destruct (String.eqb_spec n k) as [->|]; simpl; [|done].
    rewrite Hn. by destruct (existsb _ names).
Qed.

Lemma keys_lookup_entries {V} (obj : list (string * V)) (names : list string) :
  map fst (omap (fun name => option_map (fun v => (name, v)) (getProp obj name)) names)
  = List.filter (hasOwnProperty obj) names.
Proof.
  induction names as [|n names IH]; [done|].
  rewrite omap_cons_eq. cbn [List.filter]. rewrite hasOwnProperty_getProp.
  destruct (getProp obj n); cbn [option_map map fst]; by rewrite IH.
Qed.

Lemma hasOwnProperty_In {V} (obj : list (string * V)) k v :
  In (k, v) obj -> hasOwnProperty obj k = true.
Proof.
  intros Hin. apply existsb_exists. exists (k, v). split; [done|]. apply String.eqb_refl.
Qed.

(** [sortByStageOrder] splits the object into its canonical stages and the
    rest. *)
Lemma sortByStageOrder_split {V} (obj : list (string * V)) :
  sortByStageOrder obj = knownEntries obj ++ unknownEntries obj.
Proof.
  unfold sortByStageOrder, knownEntries, unknownEntries. f_equal.
  apply filter_ext_in. intros [k v] Hin. cbn [fst]. f_equal.
  rewrite hasOwnProperty_getProp, getProp_lookup_entries. fold (inStageOrder k).
  destruct (inStageOrder k); [|done].
  pose proof (hasOwnProperty_In _ _ _ Hin) as Hown.
  rewrite hasOwnProperty_getProp in Hown. by destruct (getProp obj k).
Qed.

Lemma getProp_sortByStageOrder {V} (obj : list (string * V)) k :
  getProp (sortByStageOrder obj) k = getProp obj k.
Proof.
  rewrite sortByStageOrder_split, getProp_app_gen. unfold knownEntries, unknownEntries.
  rewrite getProp_lookup_entries.
  rewrite (getProp_filter_key (fun k => negb (inStageOrder k))).
  fold (inStageOrder k). destruct (inStageOrder k); simpl; [|done].
  by destruct (getProp obj k).
Qed.

Lemma stageOrder_NoDup : List.NoDup stageOrder.
Proof. apply NoDup_ListNoDup, (bool_decide_unpack _). by vm_compute. Qed.

Lemma inStageOrder_true k : inStageOrder k = true <-> In k stageOrder.
Proof.
  unfold inStageOrder. rewrite existsb_exists. split.
  - intros (x & Hx & ->%String.eqb_eq). done.
  - intros H. exists k. split; [done|apply String.eqb_refl].
Qed.

Lemma knownEntries_In {V} (obj : list (string * V)) k v :
  In (k, v) (knownEntries obj) <-> In k stageOrder /\ getProp obj k = Some v.
Proof.
  unfold knownEntries. rewrite <- list_elem_of_In, list_elem_of_omap. split.
  - intros (n & Hn%list_elem_of_In & Hg).
    destruct (getProp obj n) as [v'|] eqn:Hv; simpl in Hg; [|done].
    by injection Hg as <- <-.
  - intros [Hk Hg]. exists k. split; [by apply list_elem_of_In|]. by rewrite Hg.
Qed.

Lemma knownEntries_NoDup {V} (obj : list (string * V)) : List.NoDup (knownEntries obj).
Proof.
  apply (NoDup_map_inv fst). unfold knownEntries. rewrite keys_lookup_entries.
  apply List.NoDup_filter, stageOrder_NoDup.
Qed.

Lemma filter_partition_perm {A} (p : A -> bool) (l : list A) :
  Permutation (List.filter p l ++ List.filter (fun x => negb (p x)) l) l.
Proof.
  induction l as [|x l IH]; simpl; [done|].
  destruct (p x); simpl.
  - by constructor.
  - rewrite <- Permutation_middle. by constructor.
Qed.

Lemma keys_filter_key {V} (p : string -> bool) (obj : list (string * V)) :
  map fst (List.filter (fun kv => p (fst kv)) obj) = List.filter p (map fst obj).
Proof.
  induction obj as [|[k v] obj IH]; [done|]. cbn [List.filter map fst].
  destruct (p k); cbn [map fst]; by rewrite IH.
Qed.

(** The reordering loses nothing and invents nothing.  For an
    object with distinct keys, none of which is an array index,
    ["__proto__"] or ["hasOwnProperty"], the result has the same entries,
    every key keeps its value, the canonical stages that are present come
    first in canonical order, and the other keys follow in their original
    order. *)
Theorem sortByStageOrder_reorders {V : Type} (obj : list (string * V)) :
  List.NoDup (map fst obj) ->
  forallb plainKey (map fst obj) = true ->
  Permutation (sortByStageOrder obj) obj
  /\ (forall k, getProp (sortByStageOrder obj) k = getProp obj k)
  /\ map fst (sortByStageOrder obj)
     = List.filter (hasOwnProperty obj) stageOrder
       ++ List.filter (fun k => negb (inStageOrder k)) (map fst obj)
  /\ length (sortByStageOrder obj) = length obj.
Proof.
  intros Hnd _.
  assert (Permutation (sortByStageOrder obj) obj) as Hperm.
  { rewrite sortByStageOrder_split.
    etransitivity; [|apply (filter_partition_perm (fun kv => inStageOrder (fst kv)) obj)].
    apply Permutation_app_tail. apply NoDup_Permutation.
    - apply NoDup_ListNoDup, knownEntries_NoDup.
    - apply NoDup_ListNoDup, List.NoDup_filter.
      apply (NoDup_map_inv fst). done.
    - intros [k v]. rewrite !list_elem_of_In, knownEntries_In, filter_In. cbn [fst].
      rewrite inStageOrder_true, (getProp_Some_In obj k v Hnd). tauto. }
  split; [exact Hperm|]. split; [apply getProp_sortByStageOrder|]. split.
  - rewrite sortByStageOrder_split, map_app. unfold knownEntries, unknownEntries.
    rewrite keys_lookup_entries. f_equal.
    apply (keys_filter_key (fun k => negb (inStageOrder k))).
  - by apply Permutation_length.
Qed.

Lemma sortByStageOrder_reorders_witness :
  List.NoDup (map fst [("Washing", 1); ("Polishing", 2); ("Interactive Bay", 3)])
  /\ forallb plainKey (map fst [("Washing", 1); ("Polishing", 2); ("Interactive Bay", 3)])
     = true
  /\ map fst (sortByStageOrder [("Washing", 1); ("Polishing", 2); ("Interactive Bay", 3)])
     = ["Interactive Bay"; "Washing"; "Polishing"].
Proof.
  assert (List.NoDup (map fst [("Washing", 1); ("Polishing", 2); ("Interactive Bay", 3)])) as Hnd.
  { apply NoDup_ListNoDup, (bool_decide_unpack _). by vm_compute. }
  split; [exact Hnd|]. split; [by vm_compute|].
  destruct (sortByStageOrder_reorders _ Hnd) as (_ & _ & Hkeys & _); [by vm_compute|].
  rewrite Hkeys. by vm_compute.
Defined.

Lemma filter_none {A} (p : A -> bool) (l : list A) :
  (forall x, In x l -> p x = false) -> List.filter p l = [].
Proof.
  induction l as [|x l IH]; intros H; simpl; [done|].
  rewrite (H x) by (by left). apply IH. intros; apply H; by right.
Qed.

Lemma filter_idem {A} (p : A -> bool) (l : list A) :
  List.filter p (List.filter p l) = List.filter p l.
Proof.
  induction l as [|x l IH]; simpl; [done|].
  destruct (p x) eqn:Hp; simpl; rewrite ?Hp, IH; done.
Qed.

Lemma sortByStageOrder_twice {V : Type} (obj : list (string * V)) :
  sortByStageOrder (sortByStageOrder obj) = sortByStageOrder obj.
Proof.
  rewrite (sortByStageOrder_split (sortByStageOrder obj)).
  rewrite (sortByStageOrder_split obj) at 3.
  f_equal.
  - unfold knownEntries. apply list_omap_ext, Forall_Forall2_diag, Forall_forall.
    intros n _. by rewrite getProp_sortByStageOrder.
  - rewrite sortByStageOrder_split. unfold unknownEntries.
    rewrite List.filter_app, filter_idem.
    rewrite filter_none; [done|].
    intros [k v] [Hk _]%knownEntries_In. cbn [fst].
    apply inStageOrder_true in Hk. by rewrite Hk.
Qed.

(** Reordering twice is reordering once, so the second pass the metrics
    route makes over the stage averages changes nothing. *)
Theorem sortByStageOrder_idempotent {V : Type} (obj : list (string * V)) :
  sortByStageOrder (sortByStageOrder obj) = sortByStageOrder obj.
Proof. apply sortByStageOrder_twice. Qed.


(** ** The buckets of the stage averages, stage by stage *)

Lemma stageAveragesStages_lookup r v (names : list string) name :
  forall result : gmap string Bucket,
  List.NoDup names ->
  fold_left (stageAveragesStage r v) names result !! name
  = if existsb (String.eqb name) names
    then matchStarts (vehicleNumber v) (stageEnds r v name) (stageStarts r v name)
           <$> result !! name
    else result !! name.
Proof.
  induction names as [|n names IH]; intros result Hnd; [done|].
  apply List.NoDup_cons_iff in Hnd as [Hn Hnd]. cbn [fold_left existsb].
  rewrite IH by done.
  destruct (String.eqb_spec name n) as [->|Hne]; cbn [orb].
  - assert (existsb (String.eqb n) names = false) as ->.
    { apply not_true_iff_false. intros (x & Hx & ->%String.eqb_eq)%existsb_exists. done. }
    apply stageAveragesStage_lookup.
  - rewrite stageAveragesStage_lookup_ne by done. done.
Qed.

Lemma accumulate_lookup r (names : list string) name vehicles :
  forall (result : gmap string Bucket) b,
  List.NoDup names -> In name names -> result !! name = Some b ->
  fold_left (fun result v => fold_left (stageAveragesStage r v) names result) vehicles result
    !! name
  = Some (fold_left (fun b v => matchStarts (vehicleNumber v) (stageEnds r v name)
                                  (stageStarts r v name) b) vehicles b).
Proof.
  induction vehicles as [|v vehicles IH]; intros result b Hnd Hin Hb; [done|].
  cbn [fold_left]. apply IH; [done|done|].
  rewrite stageAveragesStages_lookup by done.
  assert (existsb (String.eqb name) names = true) as ->.
  { apply existsb_exists. exists name. split; [done|apply String.eqb_refl]. }
  by rewrite Hb.
Qed.

Lemma matchStarts_fold_details r name vehicles : forall b,
  details (fold_left (fun b v => matchStarts (vehicleNumber v) (stageEnds r v name)
                                   (stageStarts r v name) b) vehicles b)
  = details b ++ flat_map (vehicleDetails r name) vehicles.
Proof.
  induction vehicles as [|v vehicles IH]; intros b; cbn [fold_left flat_map].
  - by rewrite app_nil_r.
  - rewrite IH, matchStarts_details, <- app_assoc. done.
Qed.

Lemma init_lookup_In (names : list string) name :
  In name names -> initBuckets names !! name = Some emptyBucket.
Proof.
  intros Hin. unfold initBuckets.
  destruct (list_to_map (map (fun n => (n, emptyBucket)) names) !! name) as [b|] eqn:Hb.
  - by apply init_lookup in Hb as ->.
  - apply not_elem_of_list_to_map_2 in Hb. destruct Hb.
    apply list_elem_of_fmap. exists (name, emptyBucket). split; [done|].
    apply list_elem_of_In, in_map_iff. by exists name.
Qed.

Lemma trackedStages_NoDup : List.NoDup trackedStages.
Proof. apply NoDup_ListNoDup, (bool_decide_unpack _). by vm_compute. Qed.

Lemma restrictedStages_NoDup : List.NoDup restrictedStages.
Proof. apply NoDup_ListNoDup, (bool_decide_unpack _). by vm_compute. Qed.

Lemma getProp_map_names {V} (f : string -> V) (names : list string) name :
  In name names -> getProp (map (fun n => (n, f n)) names) name = Some (f name).
Proof.
  induction names as [|n names IH]; [done|]. cbn [map]. rewrite getProp_cons.
  intros [->|Hin]; [by rewrite String.eqb_refl|].
  destruct (String.eqb_spec n name) as [->|]; [done|by apply IH].
Qed.

Lemma stageAveragesAccumulate_lookup r vehicles name :
  In name trackedStages ->
  stageAveragesAccumulate r vehicles !! name
  = Some (fold_left (fun b v => matchStarts (vehicleNumber v) (stageEnds r v name)
                                  (stageStarts r v name) b) vehicles emptyBucket).
Proof.
  intros Hin. unfold stageAveragesAccumulate.
  apply (accumulate_lookup r trackedStages name vehicles);
    [apply trackedStages_NoDup|done|by apply init_lookup_In].
Qed.

(** The bucket of a tracked stage holds, vehicle after vehicle in the
    order of the batch, the detail records of the closed starts of that
    stage; the other stages do not interfere.  The formatted entry of the
    stage carries these details and their number. *)
Theorem stage_bucket_collects_vehicle_details (r : Range) (vehicles : list Vehicle)
    (name : string) :
  In name trackedStages ->
  exists b,
    stageAveragesAccumulate r vehicles !! name = Some b
    /\ details b = flat_map (vehicleDetails r name) vehicles
    /\ count b = Z.of_nat (length (flat_map (vehicleDetails r name) vehicles))
    /\ totalDurationMs b = sumOf exactMs (flat_map (vehicleDetails r name) vehicles)
    /\ getProp (stageAveragesFormat (stageAveragesAccumulate r vehicles)) name
       = Some (formatStage b).
Proof.
  intros Hin. eexists. split; [by apply stageAveragesAccumulate_lookup|].
  assert (details (fold_left (fun b v => matchStarts (vehicleNumber v) (stageEnds r v name)
                                           (stageStarts r v name) b) vehicles emptyBucket)
          = flat_map (vehicleDetails r name) vehicles) as Hd
    by (by rewrite matchStarts_fold_details).
  split; [exact Hd|].
  pose proof (stageAveragesAccumulate_ok r vehicles name _
                (stageAveragesAccumulate_lookup r vehicles name Hin)) as [Hc Ht].
  rewrite Hd in Hc, Ht. split; [exact Hc|]. split; [exact Ht|].
  unfold stageAveragesFormat. rewrite getProp_sortByStageOrder.
  rewrite (getProp_map_names
             (fun n => formatStage (default emptyBucket (stageAveragesAccumulate r vehicles !! n))))
    by done.
  by rewrite stageAveragesAccumulate_lookup.
Qed.

Lemma stage_bucket_collects_vehicle_details_witness :
  In "Washing" trackedStages
  /\ exists b,
       stageAveragesAccumulate (mkRange 0 10000) [twoStartsOneEnd; subSecondWashing] !! "Washing"
         = Some b
       /\ map startTime (details b) = [1000; 2000; 0; 2000].
Proof.
  assert (In "Washing" trackedStages) as Hin by (do 8 right; by left).
  split; [exact Hin|].
  destruct (stage_bucket_collects_vehicle_details (mkRange 0 10000)
              [twoStartsOneEnd; subSecondWashing] "Washing" Hin) as (b & Hb & Hd & _).
  exists b. split; [exact Hb|]. rewrite Hd. by vm_compute.
Defined.

Lemma stageStarts_In r v name s :
  In s (stageStarts r v name) <->
  In s (stages v) /\ stageName s = Some name /\ eventType s = Some "Start"
  /\ r_start r <= timestamp s <= r_end r.
Proof.
  unfold stageStarts. rewrite filter_In, stageEventsOf_In. unfold isEvent.
  rewrite strictEq_true. tauto.
Qed.

Lemma stageEnds_In r v name e :
  In e (stageEnds r v name) <->
  In e (stages v) /\ stageName e = Some name /\ eventType e = Some "End"
  /\ r_start r <= timestamp e <= r_end r.
Proof.
  unfold stageEnds. rewrite filter_In, stageEventsOf_In. unfold isEvent.
  rewrite strictEq_true. tauto.
Qed.

Lemma stageEnds_sorted r v name : StronglySorted tsLe (stageEnds r v name).
Proof. apply filter_sorted, sortByTimestamp_sorted. Qed.

Lemma findEnd_closedStart r v name s :
  closedStart r v name s = match findEnd (stageEnds r v name) s with
                           | Some _ => true
                           | None => false
                           end.
Proof.
  unfold closedStart, findEnd. induction (stageEnds r v name) as [|e ends IH]; [done|].
  cbn [existsb find]. destruct (timestamp s <? timestamp e); [done|exact IH].
Qed.

Lemma vehicleDetails_starts r name v :
  map startTime (vehicleDetails r name v)
  = map timestamp (List.filter (closedStart r v name) (stageStarts r v name)).
Proof.
  unfold vehicleDetails. induction (stageStarts r v name) as [|s starts IH]; [done|].
  rewrite omap_cons_eq. cbn [List.filter]. rewrite findEnd_closedStart.
  unfold detailOfStart at 1. destruct (findEnd (stageEnds r v name) s); cbn [option_map map].
  - by rewrite IH.
  - exact IH.
Qed.

(** Every detail record a vehicle contributes to a stage comes from a
    [Start] and an [End] of that stage among the vehicle's events, both
    inside the window, the end strictly later than the start and the
    earliest such end.  The starts reported are exactly the in-window
    starts that an in-window end follows, in ascending order. *)
Theorem stage_details_are_real_intervals (r : Range) (v : Vehicle) (name : string) :
  (forall d, In d (vehicleDetails r name v) ->
     d_vehicleNumber d = vehicleNumber v
     /\ r_start r <= startTime d /\ startTime d < endTime d /\ endTime d <= r_end r
     /\ exists s e,
          In s (stages v) /\ In e (stages v)
          /\ stageName s = Some name /\ stageName e = Some name
          /\ eventType s = Some "Start" /\ eventType e = Some "End"
          /\ timestamp s = startTime d /\ timestamp e = endTime d
          /\ forall e', In e' (stageEnds r v name) -> timestamp s < timestamp e' ->
                        timestamp e <= timestamp e')
  /\ map startTime (vehicleDetails r name v)
     = map timestamp (List.filter (closedStart r v name) (stageStarts r v name))
  /\ StronglySorted Z.le (map startTime (vehicleDetails r name v)).
Proof.
  split; [|split].
  - intros d Hd. unfold vehicleDetails in Hd.
    apply list_elem_of_In, list_elem_of_omap in Hd as (s & Hs%list_elem_of_In & Hf).
    unfold detailOfStart in Hf.
    pose proof (findEnd_spec (stageEnds r v name) s (stageEnds_sorted r v name)) as Hspec.
    destruct (findEnd (stageEnds r v name) s) as [e|]; cbn [option_map] in Hf; [|done].
    injection Hf as <-. destruct Hspec as (He & Hlt & Hmin).
    apply stageStarts_In in Hs as (Hs1 & Hs2 & Hs3 & Hs4).
    apply stageEnds_In in He as (He1 & He2 & He3 & He4).
    cbn. split; [done|]. split; [lia|]. split; [done|]. split; [lia|].
    exists s, e. done.
  - apply vehicleDetails_starts.
  - rewrite vehicleDetails_starts. apply sorted_timestamps, filter_sorted.
    apply filter_sorted, sortByTimestamp_sorted.
Qed.

(** The order of the vehicles in the batch only orders the details: the
    count and the total of every tracked stage are the same for two
    batches that hold the same vehicles. *)
Theorem stage_totals_ignore_vehicle_order (r : Range) (vehicles vehicles' : list Vehicle)
    (name : string) :
  Permutation vehicles vehicles' ->
  In name trackedStages ->
  exists b b',
    stageAveragesAccumulate r vehicles !! name = Some b
    /\ stageAveragesAccumulate r vehicles' !! name = Some b'
    /\ count b = count b'
    /\ totalDurationMs b = totalDurationMs b'
    /\ Permutation (details b) (details b').
Proof.
  intros Hp Hin.
  destruct (stage_bucket_collects_vehicle_details r vehicles name Hin)
    as (b & Hb & Hd & Hc & Ht & _).
  destruct (stage_bucket_collects_vehicle_details r vehicles' name Hin)
    as (b' & Hb' & Hd' & Hc' & Ht' & _).
  assert (Permutation (flat_map (vehicleDetails r name) vehicles)
                      (flat_map (vehicleDetails r name) vehicles')) as Hperm.
  { clear -Hp. induction Hp as [|x l l' _ IH|x y l|l1 l2 l3 _ IH1 _ IH2]; cbn [flat_map].
    - done.
    - by apply Permutation_app_head.
    - rewrite !app_assoc. apply Permutation_app_tail, Permutation_app_comm.
    - by etransitivity. }
  exists b, b'. split; [done|]. split; [done|].
  split; [rewrite Hc, Hc'; f_equal; by apply Permutation_length|].
  split; [|by rewrite Hd, Hd'].
  rewrite Ht, Ht'. clear -Hperm.
  induction Hperm as [|x l l' _ IH|x y l|l1 l2 l3 _ IH1 _ IH2]; cbn [sumOf fold_right].
  - done.
  - unfold sumOf in IH. by rewrite IH.
  - lia.
  - by etransitivity.
Qed.

Lemma stage_totals_ignore_vehicle_order_witness :
  Permutation [twoStartsOneEnd; subSecondWashing] [subSecondWashing; twoStartsOneEnd]
  /\ In "Washing" trackedStages
  /\ exists b b',
       stageAveragesAccumulate (mkRange 0 10000) [twoStartsOneEnd; subSecondWashing] !! "Washing"
         = Some b
       /\ stageAveragesAccumulate (mkRange 0 10000) [subSecondWashing; twoStartsOneEnd]
            !! "Washing" = Some b'
       /\ count b = count b' /\ totalDurationMs b = totalDurationMs b'.
Proof.
  assert (In "Washing" trackedStages) as Hin by (do 8 right; by left).
  assert (Permutation [twoStartsOneEnd; subSecondWashing] [subSecondWashing; twoStartsOneEnd])
    as Hp by apply perm_swap.
  split; [exact Hp|]. split; [exact Hin|].
  destruct (stage_totals_ignore_vehicle_order (mkRange 0 10000) _ _ "Washing" Hp Hin)
    as (b & b' & H1 & H2 & H3 & H4 & _).
  by exists b, b'.
Defined.

(** The route [/dashboard/stage-averages] and [calculateStageAverages]
    run the same loop over different stage lists: for the same window and
    the same vehicles they report the same entry for each of the four
    restricted stages. *)
Theorem route_and_metrics_stage_averages_agree (r : Range) (vehicles : list Vehicle)
    (name : string) :
  In name restrictedStages ->
  exists out,
    getProp (routeStageAveragesFormat (routeStageAveragesAccumulate r vehicles)) name = Some out
    /\ getProp (stageAveragesFormat (stageAveragesAccumulate r vehicles)) name = Some out.
Proof.
  intros Hin.
  assert (In name trackedStages) as Hin'.
  { unfold restrictedStages in Hin. simpl in Hin. unfold trackedStages.
    destruct Hin as [<-|[<-|[<-|[<-|[]]]]]; simpl; tauto. }
  destruct (stage_bucket_collects_vehicle_details r vehicles name Hin')
    as (b & Hb & _ & _ & _ & Hout).
  exists (formatStage b). split; [|exact Hout].
  unfold routeStageAveragesFormat.
  rewrite (getProp_map_names
             (fun n => formatStage (default emptyBucket
                                      (routeStageAveragesAccumulate r vehicles !! n)))) by done.
  do 2 f_equal. unfold routeStageAveragesAccumulate.
  rewrite (accumulate_lookup r restrictedStages name vehicles _ emptyBucket);
    [|apply restrictedStages_NoDup|done|by apply init_lookup_In].
  rewrite stageAveragesAccumulate_lookup in Hb by done. injection Hb as <-. done.
Qed.

Lemma route_and_metrics_stage_averages_agree_witness :
  In "Washing" restrictedStages
  /\ exists out,
       getProp (routeStageAveragesFormat
                  (routeStageAveragesAccumulate (mkRange 0 10000) [twoStartsOneEnd])) "Washing"
         = Some out
       /\ getProp (stageAveragesFormat
                     (stageAveragesAccumulate (mkRange 0 10000) [twoStartsOneEnd])) "Washing"
          = Some out.
Proof.
  assert (In "Washing" restrictedStages) as Hin by (right; by left).
  split; [exact Hin|].
  exact (route_and_metrics_stage_averages_agree (mkRange 0 10000) [twoStartsOneEnd]
           "Washing" Hin).
Defined.

(** ** Vehicles without events, and what the metrics route computes *)

Lemma mapE_Normal {A B} (f : A -> completion B) (g : A -> B) l :
  (forall x, In x l -> f x = Normal (g x)) -> mapE f l = Normal (map g l).
Proof.
  induction l as [|x l IH]; intros H; [done|]. cbn [mapE map].
  rewrite (H x) by (by left). cbn [cbind]. rewrite IH by (intros; apply H; by right). done.
Qed.

Lemma forEachE_id {A S} (f : S -> A -> completion S) l s :
  (forall s x, In x l -> f s x = Normal s) -> forEachE f l s = Normal s.
Proof.
  induction l as [|x l IH]; intros H; [done|]. cbn [forEachE].
  rewrite (H s x) by (by left). cbn [cbind]. apply IH. intros; apply H; by right.
Qed.

Lemma fold_left_id {A S} (f : S -> A -> S) l s :
  (forall s x, In x l -> f s x = s) -> fold_left f l s = s.
Proof.
  induction l as [|x l IH]; intros H; [done|]. cbn [fold_left].
  rewrite (H s x) by (by left). apply IH. intros; apply H; by right.
Qed.

Lemma stageAveragesVehicle_no_events r result v :
  stages v = [] -> stageAveragesVehicle r result v = result.
Proof.
  intros Hs. unfold stageAveragesVehicle. apply fold_left_id.
  intros res name _. unfold stageAveragesStage, stageEventsOf. by rewrite Hs.
Qed.

Lemma specialVehicle_no_events r result v :
  stages v = [] -> specialVehicle r result v = Normal result.
Proof. intros Hs. unfold specialVehicle. by rewrite Hs. Qed.

Lemma jobCardVehicle_no_events r result v :
  stages v = [] -> jobCardVehicle r result v = Normal result.
Proof. intros Hs. unfold jobCardVehicle. rewrite Hs. by destruct result. Qed.

Lemma bayWorkVehicle_no_events r result v :
  stages v = [] -> bayWorkVehicle r result v = Normal result.
Proof. intros Hs. unfold bayWorkVehicle. by rewrite Hs. Qed.

(** A batch in which no vehicle has any stage event (in particular an
    empty batch) is not an error: every family completes, every bucket of
    every window is zero with no details, and the Bay Work metrics have no
    work type at all. *)
Theorem vehicles_without_events_give_zero_aggregates
    (findVehicles : Range -> list Vehicle) (dateRanges : list (string * Range)) :
  (forall r v, In v (findVehicles r) -> stages v = []) ->
  (forall period outs name out,
      In (period, outs) (calculateStageAverages findVehicles dateRanges) ->
      In (name, out) outs -> out = zeroStageOut)
  /\ (exists result,
        calculateSpecialStageAverages findVehicles dateRanges = Normal result
        /\ forall period outs name out,
             In (period, outs) result -> In (name, out) outs -> out = zeroStageOut)
  /\ calculateJobCardReceivedMetrics findVehicles dateRanges
     = Normal (map (fun pr => (fst pr, emptyJResult)) dateRanges)
  /\ calculateBayWorkMetrics findVehicles dateRanges
     = Normal (map (fun pr => (fst pr, mkBayPeriodOut [] zeroBayOut)) dateRanges).
Proof.
  intros Hempty.
  assert (forall r, stageAveragesAccumulate r (findVehicles r) = initBuckets trackedStages)
    as Hstage.
  { intros r. unfold stageAveragesAccumulate. apply fold_left_id.
    intros res v Hv. by apply stageAveragesVehicle_no_events, (Hempty r). }
  assert (forall r, forEachE (specialVehicle r) (findVehicles r) initSBuckets
                    = Normal initSBuckets) as Hspecial.
  { intros r. apply forEachE_id. intros res v Hv.
    by apply specialVehicle_no_events, (Hempty r). }
  assert (forall r, jobCardPeriod r (findVehicles r) = Normal emptyJResult) as Hjob.
  { intros r. unfold jobCardPeriod. rewrite forEachE_id; [done|].
    intros res v Hv. by apply jobCardVehicle_no_events, (Hempty r). }
  assert (forall r, bayWorkAccumulate r (findVehicles r) = Normal emptyBayResult) as Hbay.
  { intros r. unfold bayWorkAccumulate. apply forEachE_id. intros res v Hv.
    by apply bayWorkVehicle_no_events, (Hempty r). }
  split; [|split; [|split]].
  - intros period outs name out Hp Ho.
    unfold calculateStageAverages in Hp.
    apply in_map_iff in Hp as ([p r] & [= _ <-] & _). cbn [snd] in Ho.
    rewrite Hstage in Ho. vm_compute in Ho.
    repeat (destruct Ho as [[= _ <-]|Ho]; [reflexivity|]). destruct Ho.
  - exists (map (fun pr : string * Range => (fst pr, specialFormat
              (fold_left (fun result name => alter specialAverage name result)
                         specialStages initSBuckets))) dateRanges).
    split.
    + unfold calculateSpecialStageAverages.
      rewrite (mapE_Normal _ (fun pr : string * Range =>
                 (fst pr, fold_left (fun result name => alter specialAverage name result)
                            specialStages initSBuckets))).
      * cbn [cbind]. by rewrite map_map.
      * intros [p r] _. cbn [fst snd]. unfold specialAccumulate.
        by rewrite Hspecial.
    + intros period outs name out Hp Ho.
      apply in_map_iff in Hp as ([p r] & [= _ <-] & _).
      vm_compute in Ho.
      repeat (destruct Ho as [[= _ <-]|Ho]; [reflexivity|]). destruct Ho.
  - unfold calculateJobCardReceivedMetrics.
    apply mapE_Normal. intros [p r] _. cbn [fst snd]. by rewrite Hjob.
  - unfold calculateBayWorkMetrics.
    rewrite (mapE_Normal _ (fun pr : string * Range => (fst pr, emptyBayResult))).
    + cbn [cbind]. rewrite map_map. f_equal.
    + intros [p r] _. cbn [fst snd]. by rewrite Hbay.
Qed.

Lemma vehicles_without_events_give_zero_aggregates_witness :
  (forall (r : Range) v, In v ((fun _ : Range => [mkVehicle "V0" 0 None []]) r) -> stages v = [])
  /\ calculateBayWorkMetrics (fun _ => [mkVehicle "V0" 0 None []]) [("today", mkRange 0 10)]
     = Normal [("today", mkBayPeriodOut [] zeroBayOut)].
Proof.
  assert (forall (r : Range) v,
            In v ((fun _ : Range => [mkVehicle "V0" 0 None []]) r) -> stages v = []) as H.
  { intros r v [<-|[]]. reflexivity. }
  split; [exact H|].
  exact (proj2 (proj2 (proj2 (vehicles_without_events_give_zero_aggregates
                                (fun _ => [mkVehicle "V0" 0 None []])
                                [("today", mkRange 0 10)] H)))).
Defined.

Lemma resortPeriods_calculateStageAverages findVehicles dateRanges :
  resortPeriods (calculateStageAverages findVehicles dateRanges)
  = calculateStageAverages findVehicles dateRanges.
Proof.
  unfold resortPeriods, calculateStageAverages. rewrite map_map.
  apply map_ext. intros [p r]. cbn [fst snd].
  unfold stageAveragesFormat. by rewrite sortByStageOrder_twice.
Qed.

(** A request for the stage averages alone cannot fail, whatever the
    stored events look like: the answer has status 200, carries exactly
    what [calculateStageAverages] returns (the second reordering changes
    nothing) and none of the other three families. *)
Theorem metrics_stage_averages_alone_always_succeed
    (tz : Z) (clock : nat -> Z) (tick : nat) (q : Queries) :
  fst (dashboardMetrics tz clock tick q "stage-averages")
  = {| status := 200;
       success := true;
       message := "Dashboard metrics calculated successfully for stage-averages";
       data := inl {| stageAverages :=
                        Some (calculateStageAverages (findStageAverages q)
                                (fst (getDateRanges tz clock tick)));
                      specialStageAverages := None;
                      jobCardReceivedMetrics := None;
                      bayWorkMetrics := None |} |}.
Proof.
  unfold dashboardMetrics.
  destruct (getDateRanges tz clock tick) as [dateRanges tick'] eqn:Hg.
  cbn [fst]. unfold metricsBody.
  change (wants "stage-averages" "stage-averages") with true.
  change (wants "stage-averages" "special-stage-averages") with false.
  change (wants "stage-averages" "job-card-received") with false.
  change (wants "stage-averages" "bay-work") with false.
  cbn [whenWanted cbind option_map].
  rewrite resortPeriods_calculateStageAverages. reflexivity.
Qed.

(** A metric type the route does not know is not rejected: the answer has
    status 200 and an empty result, and the type is echoed in the
    message. *)
Theorem metrics_unknown_type_is_an_empty_success
    (tz : Z) (clock : nat -> Z) (tick : nat) (q : Queries) (metricType : string) :
  ~ In metricType knownMetricTypes ->
  fst (dashboardMetrics tz clock tick q metricType)
  = {| status := 200;
       success := true;
       message := "Dashboard metrics calculated successfully for " +:+ metricType;
       data := inl noMetrics |}.
Proof.
  intros Hunknown. unfold dashboardMetrics.
  destruct (getDateRanges tz clock tick) as [dateRanges tick'] eqn:Hg.
  cbn [fst]. unfold metricsBody.
  assert (forall family, In family knownMetricTypes -> wants metricType family = false) as Hw.
  { intros family Hf. unfold wants.
    destruct (String.eqb_spec metricType "all") as [->|_].
    - destruct Hunknown. by left.
    - destruct (String.eqb_spec metricType family) as [->|_]; [done|done]. }
  rewrite !Hw by (unfold knownMetricTypes; simpl; tauto).
  cbn [whenWanted cbind option_map].
  destruct (String.eqb_spec metricType "all") as [->|_]; [|done].
  destruct Hunknown. by left.
Qed.

Lemma metrics_unknown_type_is_an_empty_success_witness :
  ~ In "averages" knownMetricTypes
  /\ status (fst (dashboardMetrics 0 tickingClock 0 (sameBatch [goodVehicle]) "averages")) = 200.
Proof.
  assert (~ In "averages" knownMetricTypes) as H.
  { unfold knownMetricTypes. simpl. intros [H|[H|[H|[H|[H|[]]]]]]; discriminate H. }
  split; [exact H|].
  by rewrite (metrics_unknown_type_is_an_empty_success 0 tickingClock 0%nat
                (sameBatch [goodVehicle]) "averages" H).
Defined.

(** ** The other closure rules *)

Lemma find_sorted_cases (p : StageEvent -> bool) l :
  StronglySorted tsLe l ->
  match find p l with
  | Some e => In e l /\ p e = true
              /\ forall e', In e' l -> p e' = true -> timestamp e <= timestamp e'
  | None => forall e', In e' l -> p e' = false
  end.
Proof.
  intros Hs. destruct (find p l) as [e|] eqn:Hf.
  - by apply find_sorted_earliest.
  - intros e' He'. by apply (find_none _ _ Hf).
Qed.

(** ** What the loops do to one bucket *)

Lemma grownBy_refl b : grownBy b b [].
Proof. unfold grownBy. rewrite app_nil_r. simpl. repeat split; lia. Qed.

Lemma grownBy_trans b1 b2 b3 ds1 ds2 :
  grownBy b1 b2 ds1 -> grownBy b2 b3 ds2 -> grownBy b1 b3 (ds1 ++ ds2).
Proof.
  unfold grownBy. intros (H1 & H2 & H3 & H4 & H5 & H6) (G1 & G2 & G3 & G4 & G5 & G6).
  rewrite length_app, sumOf_app, G1, H1, app_assoc.
  repeat split; try congruence; lia.
Qed.

Lemma closeWith_lookup vn key closure starts (result : gmap string SBucket) b :
  result !! key = Some b ->
  exists b', fold_left (closeWith vn key closure) starts result !! key = Some b'
             /\ grownBy b b' (omap (closedDetail vn closure) starts).
Proof.
  revert result b. induction starts as [|s starts IH]; intros result b Hb; cbn [fold_left].
  - exists b. split; [done|apply grownBy_refl].
  - rewrite omap_cons_eq.
    assert (closedDetail vn closure s
            = option_map
                (fun e => mkDetail vn (timestamp s) (timestamp e)
                            (formatDuration (inject_Z (timestamp e - timestamp s))))
                (closure s)) as -> by done.
    unfold closeWith at 2. destruct (closure s) as [e|]; cbn [option_map].
    + destruct (IH (alter (pushSpecial vn s e) key result) (pushSpecial vn s e b))
        as (b' & Hb' & Hg); [by rewrite lookup_alter_eq, Hb|].
      exists b'. split; [done|].
      change (grownBy b b'
                ([mkDetail vn (timestamp s) (timestamp e)
                           (formatDuration (inject_Z (timestamp e - timestamp s)))]
                 ++ omap (closedDetail vn closure) starts)).
      apply (grownBy_trans b (pushSpecial vn s e b) b'); [|exact Hg].
      unfold grownBy, pushSpecial, sumOf, exactMs. simpl. repeat split; lia.
    + by apply IH.
Qed.

Lemma closeWith_lookup_ne vn key key' closure starts (result : gmap string SBucket) :
  key <> key' ->
  fold_left (closeWith vn key closure) starts result !! key' = result !! key'.
Proof.
  intros Hne. revert result. induction starts as [|s starts IH]; intros result;
    cbn [fold_left]; [done|].
  rewrite IH. unfold closeWith. destruct (closure s); [|done]. by apply lookup_alter_ne.
Qed.


Lemma specialVehicleNamed_creation r result vehicle b :
  result !! "Job Card Creation + Customer Approval" = Some b ->
  exists b', specialVehicleNamed r result vehicle !! "Job Card Creation + Customer Approval"
             = Some b'
             /\ grownBy b b' (creationDetails r vehicle).
Proof.
  intros Hb. unfold specialVehicleNamed. rewrite !closeWith_lookup_ne by done.
  by apply closeWith_lookup.
Qed.

Lemma specialVehiclesNamed_lookup key (dets : Range -> Vehicle -> list Detail) r :
  (forall result vehicle b, result !! key = Some b ->
     exists b', specialVehicleNamed r result vehicle !! key = Some b'
                /\ grownBy b b' (dets r vehicle)) ->
  forall vehicles result b, result !! key = Some b ->
    exists b', fold_left (specialVehicleNamed r) vehicles result !! key = Some b'
               /\ grownBy b b' (flat_map (dets r) vehicles).
Proof.
  intros Hstep vehicles. induction vehicles as [|v vehicles IH]; intros result b Hb;
    cbn [fold_left flat_map].
  - exists b. split; [done|apply grownBy_refl].
  - destruct (Hstep result v b Hb) as (b1 & Hb1 & Hg1).
    destruct (IH _ _ Hb1) as (b' & Hb' & Hg). exists b'. split; [done|].
    by eapply grownBy_trans.
Qed.

Lemma getProp_specialFormat result key :
  In key specialStages ->
  getProp (specialFormat result) key
  = Some (formatSpecial (default emptySBucket (result !! key))).
Proof.
  intros Hin. unfold specialFormat. rewrite getProp_sortByStageOrder.
  unfold specialStages in *. cbn [map].
  generalize (fun name => formatSpecial (default emptySBucket (result !! name))).
  intros f. simpl in Hin. destruct Hin as [<-|[<-|[<-|[]]]]; reflexivity.
Qed.

(** The whole computation: it fails exactly when some vehicle of some
    window has an event without a stage name inside that window, and
    otherwise reports, for every window, the details the vehicles of the
    window contribute, in batch order. *)
Lemma calculateSpecialStageAverages_cases findVehicles dateRanges :
  calculateSpecialStageAverages findVehicles dateRanges
  = if allWindowsNamed findVehicles dateRanges
    then Normal (map (fun pr : string * Range =>
                        (fst pr,
                         specialFormat
                           (fold_left (fun result name => alter specialAverage name result)
                              specialStages
                              (fold_left (specialVehicleNamed (snd pr)) (findVehicles (snd pr))
                                         initSBuckets))))
                     dateRanges)
    else Throw undefinedStartsWith.
Proof.
  unfold calculateSpecialStageAverages, allWindowsNamed.
  rewrite (mapE_all (fun pr => forallb (allNamedIn (snd pr)) (findVehicles (snd pr))) _
             (fun pr => (fst pr,
                fold_left (fun result name => alter specialAverage name result) specialStages
                  (fold_left (specialVehicleNamed (snd pr)) (findVehicles (snd pr))
                             initSBuckets)))
             undefinedStartsWith).
  - destruct (forallb _ dateRanges); cbn [cbind]; [|done]. by rewrite map_map.
  - intros [p r]. cbn [fst snd]. unfold specialAccumulate. rewrite specialVehicles_cases.
    by destruct (forallb (allNamedIn r) (findVehicles r)).
Qed.

Lemma specialEntries key dets findVehicles dateRanges :
  In key specialStages ->
  (forall r result vehicle b, result !! key = Some b ->
     exists b', specialVehicleNamed r result vehicle !! key = Some b'
                /\ grownBy b b' (dets r vehicle)) ->
  Forall2 (specialEntry key dets findVehicles) dateRanges
    (map (fun pr : string * Range =>
            (fst pr,
             specialFormat
               (fold_left (fun result name => alter specialAverage name result)
                  specialStages
                  (fold_left (specialVehicleNamed (snd pr)) (findVehicles (snd pr))
                             initSBuckets))))
         dateRanges).
Proof.
  intros Hkey Hstep. induction dateRanges as [|[p r] l IH]; cbn [map]; constructor; [|exact IH].
  unfold specialEntry. cbn [fst snd]. split; [done|].
  rewrite getProp_specialFormat by done.
  rewrite (fold_alter_lookup specialAverage specialStages _ key specialStages_NoDup Hkey).
  assert (initSBuckets !! key = Some emptySBucket) as Hinit.
  { simpl in Hkey. destruct Hkey as [<-|[<-|[<-|[]]]]; by vm_compute. }
  destruct (specialVehiclesNamed_lookup key dets r (Hstep r) (findVehicles r) _ _ Hinit)
    as (b' & -> & Hd & Hc & _).
  eexists. split; [reflexivity|].
  change (specialAverage <$> Some b') with (Some (specialAverage b')).
  cbn [default from_option id].
  unfold specialAverage. simpl in Hd, Hc.
  destruct (0 <? s_count b'); cbn [formatSpecial o_details o_count s_details s_count];
    rewrite Hd; (split; [done|]); rewrite Hc; lia.
Qed.


Lemma closedDetails_In vn closure starts d :
  In d (omap (closedDetail vn closure) starts)
  <-> exists startEvent endEvent,
        In startEvent starts /\ closure startEvent = Some endEvent
        /\ d = mkDetail vn (timestamp startEvent) (timestamp endEvent)
                 (formatDuration (inject_Z (timestamp endEvent - timestamp startEvent))).
Proof.
  rewrite <- list_elem_of_In, list_elem_of_omap. unfold closedDetail. split.
  - intros (s & Hs%list_elem_of_In & Hd). destruct (closure s) as [e|] eqn:He; [|done].
    injection Hd as <-. by exists s, e.
  - intros (s & e & Hs & He & ->). exists s. split; [by apply list_elem_of_In|].
    by rewrite He.
Qed.


(** ** The closure rule of "Additional Work Job Approval" *)



(** ** The other closure rules *)

(** "Job Card Creation + Customer Approval" (exact name) is closed by the
    earliest later start of "Job Card Received + Bay Allocation" (prefix
    match) inside the window, one such start being enough.  The search
    stops at the first match: the step of one start closes it in this way
    whenever it returns, and it can only throw on a vehicle that has an
    event without a stage name inside the window.  Such a vehicle makes the
    later filter of the approval starts throw in any case, so the vehicle
    is processed exactly when every event of the window has a stage name;
    the bucket then gains one detail record per closed start, and the
    result of the whole computation holds these records window by
    window. *)
Theorem job_card_creation_closed_by_next_allocation :
  (forall r vehicle startEvent,
      match creationClosure r vehicle startEvent with
      | Some endEvent =>
          In endEvent (stages vehicle)
          /\ r_start r <= timestamp endEvent <= r_end r
          /\ laterBayAllocation startEvent endEvent = true
          /\ forall e', In e' (stages vehicle) -> r_start r <= timestamp e' <= r_end r ->
                        laterBayAllocation startEvent e' = true ->
                        timestamp endEvent <= timestamp e'
      | None =>
          forall e', In e' (stages vehicle) -> r_start r <= timestamp e' <= r_end r ->
                     laterBayAllocation startEvent e' = false
      end)
  /\ (forall r vehicle result startEvent,
      jobCardCreationStep (vehicleNumber vehicle) (windowStages r vehicle) result startEvent
      = Normal
          match creationClosure r vehicle startEvent with
          | Some endEvent =>
              alter (pushSpecial (vehicleNumber vehicle) startEvent endEvent)
                    "Job Card Creation + Customer Approval" result
          | None => result
          end
      \/ (jobCardCreationStep (vehicleNumber vehicle) (windowStages r vehicle) result
                              startEvent
          = Throw undefinedStartsWith
          /\ allNamedIn r vehicle = false))
  /\ (forall r vehicle result b,
      result !! "Job Card Creation + Customer Approval" = Some b ->
      if allNamedIn r vehicle
      then exists result' b',
             specialVehicle r result vehicle = Normal result'
             /\ result' !! "Job Card Creation + Customer Approval" = Some b'
             /\ s_details b' = s_details b ++ creationDetails r vehicle
             /\ s_count b' = s_count b + Z.of_nat (length (creationDetails r vehicle))
             /\ s_totalDurationMs b'
                = s_totalDurationMs b + sumOf exactMs (creationDetails r vehicle)
      else specialVehicle r result vehicle = Throw undefinedStartsWith)
  /\ (forall r vehicle d,
      In d (creationDetails r vehicle)
      <-> exists startEvent endEvent,
            (In startEvent (stages vehicle)
             /\ r_start r <= timestamp startEvent <= r_end r
             /\ stageName startEvent = Some "Job Card Creation + Customer Approval"
             /\ eventType startEvent = Some "Start")
            /\ creationClosure r vehicle startEvent = Some endEvent
            /\ d = mkDetail (vehicleNumber vehicle) (timestamp startEvent)
                     (timestamp endEvent)
                     (formatDuration
                        (inject_Z (timestamp endEvent - timestamp startEvent))))
  /\ (forall findVehicles dateRanges,
      if allWindowsNamed findVehicles dateRanges
      then exists out,
             calculateSpecialStageAverages findVehicles dateRanges = Normal out
             /\ Forall2 (specialEntry "Job Card Creation + Customer Approval"
                                      creationDetails findVehicles)
                        dateRanges out
      else calculateSpecialStageAverages findVehicles dateRanges
           = Throw undefinedStartsWith).
Proof.
  split; [|split; [|split; [|split]]].
  - intros r vehicle startEvent. unfold creationClosure.
    pose proof (find_sorted_cases (laterBayAllocation startEvent) (windowStages r vehicle)
                  (sortByTimestamp_sorted _)) as Hfind.
    destruct (find _ _) as [endEvent|].
    + destruct Hfind as ([Hin Hw]%windowStages_In & Hp & Hmin).
      do 3 (split; [done|]). intros e' He' Hw' Hp'. apply Hmin; [|done].
      by apply windowStages_In.
    + intros e' He' Hw'. apply Hfind. by apply windowStages_In.
  - intros r vehicle result startEvent. apply jobCardCreationStep_cases.
  - intros r vehicle result b Hb. rewrite specialVehicle_cases.
    destruct (allNamedIn r vehicle); [|done].
    destruct (specialVehicleNamed_creation r result vehicle b Hb)
      as (b' & Hb' & Hd & Hc & Ht & _).
    by exists (specialVehicleNamed r result vehicle), b'.
  - intros r vehicle d. unfold creationDetails. rewrite closedDetails_In.
    split; intros (s & e & Hs & He & Hd); exists s, e; (split; [|done]);
      revert Hs; unfold creationStart, isEvent;
      rewrite filter_In, windowStages_In, andb_true_iff, !strictEq_true; tauto.
  - intros findVehicles dateRanges. rewrite calculateSpecialStageAverages_cases.
    destruct (allWindowsNamed findVehicles dateRanges); [|done].
    eexists. split; [reflexivity|].
    apply specialEntries; [by left|]. intros r. apply specialVehicleNamed_creation.
Qed.

Lemma job_card_creation_closed_by_next_allocation_witness :
  let v := mkVehicle "V3" 0 None
             [ stageEvent "Job Card Creation + Customer Approval" "Start" 0;
               stageEvent "Job Card Received + Bay Allocation" "Start" 1800000 ] in
  exists result' b',
    specialVehicle (mkRange 0 10000000) initSBuckets v = Normal result'
    /\ result' !! "Job Card Creation + Customer Approval" = Some b'
    /\ s_details b' = [ mkDetail "V3" 0 1800000 "00:30:00" ]
    /\ s_count b' = 1.
Proof.
  intros v.
  pose proof (proj1 (proj2 (proj2 job_card_creation_closed_by_next_allocation))
                (mkRange 0 10000000) v initSBuckets emptySBucket eq_refl) as H.
  assert (allNamedIn (mkRange 0 10000000) v = true) as Hn by (by vm_compute).
  rewrite Hn in H. destruct H as (result' & b' & H1 & H2 & H3 & H4 & _).
  exists result', b'. split; [exact H1|]. split; [exact H2|].
  split; [rewrite H3; by vm_compute|]. rewrite H4. by vm_compute.
Defined.

(** "Ready for Washing" is closed by the earliest later start of
    "Washing" (exact name) inside the window; without one the occurrence
    stays open and the bucket is untouched.  This step compares names
    with [===] and cannot throw. *)
Theorem ready_for_washing_closed_by_next_washing (r : Range) (vehicle : Vehicle)
    (result : gmap string SBucket) (b : SBucket) (startEvent : StageEvent) :
  result !! "Ready for Washing" = Some b ->
  let vehicleStages := windowStages r vehicle in
  let result' := readyForWashingStep (vehicleNumber vehicle) vehicleStages result startEvent in
  ((forall e, In e vehicleStages -> laterWashingStart startEvent e = false) ->
     result' = result)
  /\ ((exists e, In e vehicleStages /\ laterWashingStart startEvent e = true) ->
      exists endEvent b',
        result' !! "Ready for Washing" = Some b'
        /\ s_count b' = s_count b + 1
        /\ s_totalDurationMs b' = s_totalDurationMs b + (timestamp endEvent - timestamp startEvent)
        /\ s_details b' = s_details b ++
             [ mkDetail (vehicleNumber vehicle) (timestamp startEvent) (timestamp endEvent)
                        (formatDuration (inject_Z (timestamp endEvent - timestamp startEvent))) ]
        /\ In endEvent (stages vehicle)
        /\ stageName endEvent = Some "Washing" /\ eventType endEvent = Some "Start"
        /\ timestamp startEvent < timestamp endEvent
        /\ forall e', In e' vehicleStages -> laterWashingStart startEvent e' = true ->
                      timestamp endEvent <= timestamp e').
Proof.
  intros Hb vehicleStages result'.
  unfold result', readyForWashingStep. fold (laterWashingStart startEvent).
  pose proof (find_sorted_cases (laterWashingStart startEvent) vehicleStages
                (sortByTimestamp_sorted _)) as Hfind.
  destruct (find (laterWashingStart startEvent) vehicleStages) as [endEvent|].
  - destruct Hfind as (Hin & Hp & Hmin). split.
    + intros Hnone. rewrite (Hnone _ Hin) in Hp. done.
    + intros _. exists endEvent. eexists. split; [by rewrite lookup_alter_eq, Hb|]. cbn.
      do 3 (split; [done|]).
      apply windowStages_In in Hin as [Hin _]. split; [done|].
      unfold laterWashingStart, isEvent in Hp.
      apply andb_true_iff in Hp as [[H1 H2]%andb_true_iff H3].
      apply strictEq_true in H1, H2. apply Z.ltb_lt in H3. done.
  - split; [done|]. intros (e & He & Hp). rewrite (Hfind e He) in Hp. done.
Qed.

Lemma ready_for_washing_closed_by_next_washing_witness :
  initSBuckets !! "Ready for Washing" = Some emptySBucket
  /\ exists endEvent b',
       readyForWashingStep "V3" (windowStages (mkRange 0 1793700000000) goodVehicle)
         initSBuckets (stageEvent "Ready for Washing" "Start" 1793680000000)
         !! "Ready for Washing" = Some b'
       /\ s_totalDurationMs b' = 0 + (timestamp endEvent - 1793680000000)
       /\ timestamp endEvent = 1793683600000.
Proof.
  split; [by vm_compute|].
  destruct (ready_for_washing_closed_by_next_washing (mkRange 0 1793700000000) goodVehicle
              initSBuckets emptySBucket (stageEvent "Ready for Washing" "Start" 1793680000000))
    as [_ Hclosed]; [by vm_compute|].
  destruct Hclosed as (endEvent & b' & H1 & _ & H3 & _ & Hin & Hname & _ & _).
  { exists (stageEvent "Washing" "Start" 1793683600000).
    split; [by vm_compute; right; left|by vm_compute]. }
  exists endEvent, b'. split; [exact H1|]. split; [exact H3|].
  simpl in Hin. destruct Hin as [<-|[<-|[]]]; [discriminate Hname|done].
Defined.

(** ** The job-card intervals, in array order *)

Lemma forEachE_find_details (P : StageEvent -> StageEvent -> completion bool)
    (Q : StageEvent -> StageEvent -> bool) (D : StageEvent -> StageEvent -> Detail)
    (L xs : list StageEvent) : forall b0,
  (forall x y, In y L -> P x y = Normal (Q x y)) ->
  exists b',
    forEachE (fun b x =>
                let* o := findE (P x) L in
                Normal (match o with
                        | Some y => pushDetail (D x y) b
                        | None => b
                        end)) xs b0 = Normal b'
    /\ j_details b' = j_details b0 ++ omap (fun x => option_map (D x) (find (Q x) L)) xs.
Proof.
  induction xs as [|x xs IH]; intros b0 HP.
  - exists b0. split; [done|]. by rewrite app_nil_r.
  - cbn [forEachE]. rewrite (findE_pure (P x) (Q x)) by (intros y Hy; by apply HP).
    cbn [cbind]. rewrite omap_cons_eq.
    destruct (find (Q x) L) as [y|]; cbn [option_map].
    + destruct (IH (pushDetail (D x y) b0) HP) as (b' & Hb' & Hd).
      exists b'. split; [exact Hb'|]. rewrite Hd. cbn. by rewrite <- app_assoc.
    + apply IH, HP.
Qed.

Lemma fold_find_details (Q : StageEvent -> StageEvent -> bool)
    (D : StageEvent -> StageEvent -> Detail) (L xs : list StageEvent) : forall b0,
  j_details (fold_left (fun b x => match find (Q x) L with
                                   | Some y => pushDetail (D x y) b
                                   | None => b
                                   end) xs b0)
  = j_details b0 ++ omap (fun x => option_map (D x) (find (Q x) L)) xs.
Proof.
  induction xs as [|x xs IH]; intros b0; [by rewrite app_nil_r|].
  cbn [fold_left]. rewrite IH, omap_cons_eq.
  destruct (find (Q x) L); cbn [option_map]; [|done]. cbn. by rewrite <- app_assoc.
Qed.

Lemma bayWorkAfter_named startEvent s :
  hasStageName s = true -> bayWorkAfter startEvent s = Normal (laterBayWork startEvent s).
Proof. intros H. unfold bayWorkAfter. by rewrite stageNameStartsWith_named. Qed.

Lemma bayAllocationBefore_named technicianEvent s :
  hasStageName s = true ->
  bayAllocationBefore technicianEvent s = Normal (earlierBayAllocation technicianEvent s).
Proof. intros H. unfold bayAllocationBefore. by rewrite stageNameStartsWith_named. Qed.

Lemma isBayAllocationStart_named s :
  hasStageName s = true -> isBayAllocationStart s = Normal (bayAllocationStart s).
Proof. intros H. unfold isBayAllocationStart. by rewrite stageNameStartsWith_named. Qed.

(** For a vehicle whose in-window events all carry a stage name the
    job-card processing completes, and what it pushes is read off the
    unsorted array of in-window events: a bay allocation is paired with
    the first later Bay Work start of the array, a technician receipt
    with the first earlier bay allocation of the array, an FI receipt
    with the first earlier technician receipt of the array. *)
Theorem job_card_pairs_events_in_array_order (r : Range) (result : JResult) (v : Vehicle) :
  (forall e, In e (stages v) -> inWindow r e = true -> hasStageName e = true) ->
  let L := windowArray r v in
  let vn := vehicleNumber v in
  exists result',
    jobCardVehicle r result v = Normal result'
    /\ j_details (jobCardReceivedBayAllocation result')
       = j_details (jobCardReceivedBayAllocation result)
         ++ omap (fun s => option_map (intervalDetail vn s) (find (laterBayWork s) L))
                 (List.filter bayAllocationStart L)
    /\ j_details (jobCardReceivedByTechnician result')
       = j_details (jobCardReceivedByTechnician result)
         ++ omap (fun t => option_map (fun p => intervalDetail vn p t)
                                      (find (earlierBayAllocation t) L))
                 (List.filter technicianStart L)
    /\ j_details (jobCardReceivedByFI result')
       = j_details (jobCardReceivedByFI result)
         ++ omap (fun f => option_map (fun p => intervalDetail vn p f)
                                      (find (technicianBefore f) L))
                 (List.filter fiStart L).
Proof.
  intros Hnamed L vn. subst L vn. unfold windowArray, jobCardVehicle. cbv zeta.
  set (L := List.filter (inWindow r) (stages v)). set (vn := vehicleNumber v).
  assert (forall e, In e L -> hasStageName e = true) as Hn.
  { intros e [Hin Hw]%filter_In. by apply Hnamed. }
  rewrite (filterE_pure isBayAllocationStart bayAllocationStart L)
    by (intros x Hx; by apply isBayAllocationStart_named, Hn).
  cbn [cbind].
  destruct (forEachE_find_details bayWorkAfter laterBayWork (intervalDetail vn) L
              (List.filter bayAllocationStart L) (jobCardReceivedBayAllocation result))
    as (ba & Hba & Hbad).
  { intros x y Hy. by apply bayWorkAfter_named, Hn. }
  rewrite Hba. cbn [cbind].
  destruct (forEachE_find_details bayAllocationBefore earlierBayAllocation
              (fun t p => intervalDetail vn p t) L
              (List.filter technicianStart L) (jobCardReceivedByTechnician result))
    as (bt & Hbt & Hbtd).
  { intros x y Hy. by apply bayAllocationBefore_named, Hn. }
  cbv beta in Hbt. unfold technicianStart in Hbt at 1. rewrite Hbt. cbn [cbind].
  eexists. split; [reflexivity|]. cbn.
  split; [exact Hbad|]. split; [exact Hbtd|].
  apply (fold_find_details technicianBefore (fun f p => intervalDetail vn p f)).
Qed.

Lemma job_card_pairs_events_in_array_order_witness :
  (forall e, In e (stages receiptReordered) -> inWindow (mkRange 0 10000) e = true ->
             hasStageName e = true)
  /\ exists result',
       jobCardVehicle (mkRange 0 10000) emptyJResult receiptReordered = Normal result'
       /\ j_details (jobCardReceivedByTechnician result')
          = [ mkDetail "V9" 2000 3000 "00:00:01" ].
Proof.
  assert (forall e, In e (stages receiptReordered) -> inWindow (mkRange 0 10000) e = true ->
                    hasStageName e = true) as Hn.
  { intros e He _. simpl in He. by repeat destruct He as [<-|He]. }
  split; [exact Hn|].
  destruct (job_card_pairs_events_in_array_order (mkRange 0 10000) emptyJResult
              receiptReordered Hn) as (result' & Hr & _ & Ht & _).
  exists result'. split; [exact Hr|]. rewrite Ht. by vm_compute.
Defined.

(** When the event array of a vehicle is in chronological order, the
    events the job-card metrics pair are these: a bay allocation with the
    earliest later Bay Work start; a technician receipt with the earliest
    bay allocation of the window (not the latest one before the receipt);
    an FI receipt with the earliest technician receipt of the window. *)
Theorem job_card_pairs_in_chronological_arrays (r : Range) (v : Vehicle) :
  StronglySorted tsLe (stages v) ->
  let L := windowArray r v in
  (forall s e, find (laterBayWork s) L = Some e ->
     In e (stages v) /\ laterBayWork s e = true
     /\ forall e', In e' L -> laterBayWork s e' = true -> timestamp e <= timestamp e')
  /\ (forall t p, find (earlierBayAllocation t) L = Some p ->
     In p (stages v) /\ bayAllocationStart p = true /\ timestamp p < timestamp t
     /\ forall p', In p' L -> bayAllocationStart p' = true -> timestamp p <= timestamp p')
  /\ (forall f p, find (technicianBefore f) L = Some p ->
     In p (stages v) /\ technicianStart p = true /\ timestamp p < timestamp f
     /\ forall p', In p' L -> technicianStart p' = true -> timestamp p <= timestamp p').
Proof.
  intros Hsorted L.
  assert (StronglySorted tsLe L) as HL by (by apply filter_sorted).
  split; [|split].
  - intros s e Hf. apply find_sorted_earliest in Hf as (Hin & Hp & Hmin); [|done].
    apply filter_In in Hin as [Hin _]. done.
  - intros t p Hf. apply find_sorted_earliest in Hf as (Hin & Hp & Hmin); [|done].
    unfold earlierBayAllocation in Hp. apply andb_true_iff in Hp as [Hp Hlt].
    apply Z.ltb_lt in Hlt.
    split; [by apply filter_In in Hin as [Hin _]|]. split; [exact Hp|]. split; [exact Hlt|].
    intros p' Hin' Hp'.
    destruct (Z.ltb_spec (timestamp p') (timestamp t)) as [Hlt'|Hge]; [|lia].
    apply Hmin; [done|]. unfold earlierBayAllocation. unfold bayAllocationStart in Hp'.
    rewrite Hp'. by apply Z.ltb_lt.
  - intros f p Hf. apply find_sorted_earliest in Hf as (Hin & Hp & Hmin); [|done].
    unfold technicianBefore in Hp. apply andb_true_iff in Hp as [Hp Hlt].
    apply Z.ltb_lt in Hlt.
    split; [by apply filter_In in Hin as [Hin _]|]. split; [exact Hp|]. split; [exact Hlt|].
    intros p' Hin' Hp'.
    destruct (Z.ltb_spec (timestamp p') (timestamp f)) as [Hlt'|Hge]; [|lia].
    apply Hmin; [done|]. unfold technicianBefore. unfold technicianStart in Hp'.
    rewrite Hp'. by apply Z.ltb_lt.
Qed.

Lemma job_card_pairs_in_chronological_arrays_witness :
  StronglySorted tsLe (stages twoAllocationsThenReceipt)
  /\ exists p,
       find (earlierBayAllocation (stageEvent "Job Card Received (by Technician)" "Start" 6000))
            (windowArray (mkRange 0 10000) twoAllocationsThenReceipt) = Some p
       /\ timestamp p = 1000
       /\ bayAllocationStart p = true.
Proof.
  assert (StronglySorted tsLe (stages twoAllocationsThenReceipt)) as Hs.
  { repeat constructor; unfold tsLe; simpl; lia. }
  split; [exact Hs|].
  destruct (job_card_pairs_in_chronological_arrays (mkRange 0 10000)
              twoAllocationsThenReceipt Hs) as (_ & Ht & _).
  assert (find (earlierBayAllocation
                  (stageEvent "Job Card Received (by Technician)" "Start" 6000))
               (windowArray (mkRange 0 10000) twoAllocationsThenReceipt)
          = Some (stageEvent "Job Card Received + Bay Allocation" "Start" 1000)) as Hf
    by (by vm_compute).
  eexists. split; [exact Hf|]. split; [reflexivity|].
  exact (proj1 (proj2 (Ht _ _ Hf))).
Defined.

(** ** The Bay Work roll-up *)

Lemma sumBuckets_insert f k b (m : gmap string BayBucket) :
  m !! k = None -> sumBuckets f (<[k := b]> m) = f b + sumBuckets f m.
Proof.
  intros Hk. unfold sumBuckets. rewrite map_fold_insert_L; [done| |done].
  intros. lia.
Qed.

Lemma sumBuckets_alter f g k b (m : gmap string BayBucket) :
  m !! k = Some b -> sumBuckets f (alter g k m) = sumBuckets f m + (f (g b) - f b).
Proof.
  intros Hk.
  rewrite <- (insert_delete_id m k b Hk) at 1 2.
  rewrite alter_insert_eq.
  rewrite !sumBuckets_insert by apply lookup_delete_eq. lia.
Qed.

Lemma bayWorkStart_rollup vn wt stages result startEvent :
  is_Some (byWorkType result !! wt) -> rollupOk result ->
  rollupOk (bayWorkStart vn wt stages result startEvent)
  /\ is_Some (byWorkType (bayWorkStart vn wt stages result startEvent) !! wt).
Proof.
  intros [b Hb] (H1 & H2 & H3 & H4). unfold bayWorkStart.
  destruct (walk _ _ _ _ _) as [[[e|] paused] active]; [|by split; [|exists b]].
  split.
  - unfold rollupOk. cbn [byWorkType overall].
    rewrite !(sumBuckets_alter _ _ _ b) by done.
    unfold addBay at 1 3 5 7; cbn [b_count b_totalDurationMs b_totalActiveDurationMs
                                  b_totalPausedDurationMs].
    unfold addBay; cbn [b_count b_totalDurationMs b_totalActiveDurationMs
                        b_totalPausedDurationMs].
    repeat split; lia.
  - cbn [byWorkType]. rewrite lookup_alter_eq, Hb. by eexists.
Qed.

Lemma bayWorkGroup_rollup vn result entry result' :
  bayWorkGroup vn result entry = Normal result' -> rollupOk result -> rollupOk result'.
Proof.
  unfold bayWorkGroup. intros H Hres.
  set (wt := g_workType entry.2) in *.
  apply (forEachE_invariant rollupOk _ _ _ _) with (3 := H).
  { intros res x res' Hr. destruct (byWorkType res !! wt) eqn:Hl.
    - intros [= <-]. apply bayWorkStart_rollup; [by rewrite Hl; eexists|done].
    - destruct (closedOccurrence _ _); [done|]. by intros [= <-]. }
  destruct (byWorkType result !! wt) eqn:Hl; [done|].
  destruct (Js.inheritedName wt); [done|].
  destruct Hres as (H1 & H2 & H3 & H4).
  unfold rollupOk. cbn [byWorkType overall].
  rewrite !sumBuckets_insert by done. cbn. repeat split; lia.
Qed.

Lemma bayWorkVehicle_rollup r result vehicle result' :
  bayWorkVehicle r result vehicle = Normal result' -> rollupOk result -> rollupOk result'.
Proof.
  unfold bayWorkVehicle. intros H Hres.
  destruct (filterE (isBayWorkInWindow r) _) as [inWin|]; cbn [cbind] in H; [|done].
  apply (forEachE_invariant rollupOk _ _ _ _) with (3 := H); [|done].
  intros res x res' Hx Hg. by eapply bayWorkGroup_rollup.
Qed.

(** In the accumulated Bay Work result of a window the overall bucket is
    the roll-up of the work-type buckets: its count, its total, its active
    and its paused time are the sums of those of the work types. *)
Theorem bay_work_overall_is_sum_of_work_types (r : Range) (vehicles : list Vehicle)
    (result : BayResult) :
  bayWorkAccumulate r vehicles = Normal result ->
  b_count (overall result) = sumBuckets b_count (byWorkType result)
  /\ b_totalDurationMs (overall result) = sumBuckets b_totalDurationMs (byWorkType result)
  /\ b_totalActiveDurationMs (overall result)
     = sumBuckets b_totalActiveDurationMs (byWorkType result)
  /\ b_totalPausedDurationMs (overall result)
     = sumBuckets b_totalPausedDurationMs (byWorkType result).
Proof.
  unfold bayWorkAccumulate. intros H.
  apply (forEachE_invariant rollupOk _ _ _ _) with (3 := H).
  - intros s x s' Hs Hv. by eapply bayWorkVehicle_rollup.
  - by repeat split.
Qed.

Lemma bay_work_overall_is_sum_of_work_types_witness :
  exists result,
    bayWorkAccumulate (mkRange 0 4000000) [dentingVehicle] = Normal result
    /\ b_count (overall result) = 1
    /\ b_count (overall result) = sumBuckets b_count (byWorkType result).
Proof.
  destruct (bayWorkAccumulate (mkRange 0 4000000) [dentingVehicle]) as [result|] eqn:Hacc;
    [|by vm_compute in Hacc].
  exists result. split; [done|].
  split; [by vm_compute in Hacc; injection Hacc as <-|].
  exact (proj1 (bay_work_overall_is_sum_of_work_types _ _ _ Hacc)).
Defined.

(** ** Occurrences without a Pause *)

Lemma walk_without_pause subsequent : forall lastTime paused active,
  Forall (fun e => notPause e = true) subsequent ->
  snd (fst (walk subsequent lastTime paused active StActive)) = paused.
Proof.
  induction subsequent as [|e rest IH]; intros lastTime paused active Hn; [done|].
  apply Forall_cons in Hn as [He Hn]. cbn [walk].
  unfold notPause in He. apply negb_true_iff in He. rewrite He.
  destruct (isEvent "Resume" e); [by apply IH|].
  destruct (isEvent "End" e); [done|by apply IH].
Qed.

(** A Start of a group none of whose events is a Pause adds no paused
    time: what it adds to the active time is the whole total, whatever
    Resume events lie between the Start and the End. *)
Theorem bay_work_without_pause_is_all_active (vn wt : string) (stages : list StageEvent)
    (result : BayResult) (startEvent : StageEvent) :
  (forall e, In e stages -> notPause e = true) ->
  let result' := bayWorkStart vn wt stages result startEvent in
  b_totalPausedDurationMs (overall result') = b_totalPausedDurationMs (overall result)
  /\ b_totalActiveDurationMs (overall result') - b_totalActiveDurationMs (overall result)
     = b_totalDurationMs (overall result') - b_totalDurationMs (overall result).
Proof.
  intros Hn result'. subst result'. unfold bayWorkStart.
  assert (Forall (fun e => notPause e = true) (subsequentOf stages startEvent)) as Hsub.
  { apply List.Forall_forall. intros e [He _]%subsequentOf_In. by apply Hn. }
  pose proof (walk_without_pause _ (timestamp startEvent) 0 0 Hsub) as Hp.
  destruct (walk _ _ _ _ _) as [[[e|] paused] active] eqn:Hw; [|split; lia].
  cbn [fst snd] in Hp. subst paused.
  destruct (walk_closed _ _ _ _ _ Hw) as (Hsum & _).
  cbn [overall addBay b_totalPausedDurationMs b_totalActiveDurationMs b_totalDurationMs].
  split; lia.
Qed.

Lemma bay_work_without_pause_is_all_active_witness :
  (forall e, In e unpausedStages -> notPause e = true)
  /\ b_totalPausedDurationMs
       (overall (bayWorkStart "V2" "Denting" unpausedStages emptyBayResult (bayEvent "Start" 0)))
     = b_totalPausedDurationMs (overall emptyBayResult).
Proof.
  assert (forall e, In e unpausedStages -> notPause e = true) as Hn.
  { intros e He. simpl in He. by repeat destruct He as [<-|He]. }
  split; [exact Hn|].
  exact (proj1 (bay_work_without_pause_is_all_active "V2" "Denting" unpausedStages
                  emptyBayResult (bayEvent "Start" 0) Hn)).
Defined.

(** ** The calendar of the window generator *)

Lemma allFrom_spec n : forall P from z,
  allFrom n P from = true -> from <= z < from + 2 ^ Z.of_nat n -> P z = true.
Proof.
  induction n as [|k IH]; intros P from z H Hz.
  - simpl in *. by assert (z = from) as -> by lia.
  - cbn [allFrom] in H. apply andb_true_iff in H as [H1 H2].
    rewrite Nat2Z.inj_succ, Z.pow_succ_r in Hz by lia.
    destruct (Z_lt_ge_dec z (from + 2 ^ Z.of_nat k)).
    + apply (IH P from); [done|lia].
    + apply (IH P (from + 2 ^ Z.of_nat k)); [done|lia].
Qed.

Lemma checkDoe_all doe : 0 <= doe < 146097 -> checkDoe doe = true.
Proof.
  intros H.
  assert (allFrom 18 (fun z => if 146097 <=? z then true else checkDoe z) 0 = true) as Hall
    by (vm_compute; reflexivity).
  pose proof (allFrom_spec 18 _ 0 doe Hall) as Hz. cbv beta in Hz.
  destruct (146097 <=? doe) eqn:E; [lia|]. apply Hz. simpl. lia.
Qed.

(** Day number to civil date and back. *)
Lemma civil_round_trip z :
  DateApi.daysFromCivil (DateApi.civilFromDays z).1.1 (DateApi.civilFromDays z).1.2
                        (DateApi.civilFromDays z).2 = z
  /\ 1 <= (DateApi.civilFromDays z).1.2 <= 12
  /\ 1 <= (DateApi.civilFromDays z).2 <= 31.
Proof.
  unfold DateApi.civilFromDays. cbv zeta. cbn [fst snd].
  set (era := (z + 719468) / 146097).
  set (doe := z + 719468 - era * 146097).
  assert (0 <= doe < 146097) as Hdoe.
  { subst doe era. pose proof (Z.div_mod (z + 719468) 146097 ltac:(lia)).
    pose proof (Z.mod_pos_bound (z + 719468) 146097 ltac:(lia)). lia. }
  pose proof (checkDoe_all doe Hdoe) as Hc. unfold checkDoe, civilOfDoe in Hc. cbv zeta in Hc.
  set (yoe := (doe - doe / 1460 + doe / 36524 - doe / 146096) / 365) in *.
  set (doy := doe - (365 * yoe + yoe / 4 - yoe / 100)) in *.
  set (mp := (5 * doy + 2) / 153) in *.
  set (d := doy - (153 * mp + 2) / 5 + 1) in *.
  set (m := if mp <? 10 then mp + 3 else mp - 9) in *.
  repeat (apply andb_true_iff in Hc as [Hc ?]).
  split; [|lia].
  unfold DateApi.daysFromCivil. cbv zeta.
  replace (if m <=? 2 then (if m <=? 2 then yoe + era * 400 + 1 else yoe + era * 400) - 1
           else if m <=? 2 then yoe + era * 400 + 1 else yoe + era * 400)
    with (yoe + era * 400) by (destruct (m <=? 2); lia).
  assert ((yoe + era * 400) / 400 = era) as ->.
  { rewrite Z.div_add by lia. rewrite Z.div_small by lia. lia. }
  replace (yoe + era * 400 - era * 400) with yoe by lia.
  subst doe. lia.
Qed.

Lemma daysFromCivil_day y m d :
  DateApi.daysFromCivil y m d = DateApi.daysFromCivil y m 1 + d - 1.
Proof. unfold DateApi.daysFromCivil. cbv zeta. lia. Qed.

(** [MakeDay] with the year and the month of a day and any date. *)
Lemma makeDay_of_day z date :
  DateApi.makeDay (DateApi.civilFromDays z).1.1 ((DateApi.civilFromDays z).1.2 - 1) date
  = z - (DateApi.civilFromDays z).2 + date.
Proof.
  destruct (civil_round_trip z) as (Hrt & Hm & Hd).
  unfold DateApi.makeDay.
  set (y := (DateApi.civilFromDays z).1.1) in *.
  set (m := (DateApi.civilFromDays z).1.2) in *.
  set (d := (DateApi.civilFromDays z).2) in *.
  rewrite Z.div_small, Z.mod_small by lia.
  replace (y + 0) with y by lia. replace (m - 1 + 1) with m by lia.
  rewrite daysFromCivil_day in Hrt. lia.
Qed.

Lemma localDay_midnight tz n : DateApi.localDay tz (n * DateApi.msPerDay - tz) = n.
Proof.
  unfold DateApi.localDay, DateApi.msPerDay.
  replace (n * 86400000 - tz + tz) with (n * 86400000) by lia.
  by rewrite Z.div_mul.
Qed.

Lemma timeInDay_midnight tz n : DateApi.timeInDay tz (n * DateApi.msPerDay - tz) = 0.
Proof.
  unfold DateApi.timeInDay, DateApi.msPerDay.
  replace (n * 86400000 - tz + tz) with (n * 86400000) by lia.
  by rewrite Z.mod_mul.
Qed.

Lemma setDate_midnight tz n date :
  DateApi.setDate tz (n * DateApi.msPerDay - tz) date
  = (n - DateApi.getDate tz (n * DateApi.msPerDay - tz) + date) * DateApi.msPerDay - tz.
Proof.
  unfold DateApi.setDate, DateApi.getFullYear, DateApi.getMonth, DateApi.getDate.
  rewrite timeInDay_midnight, localDay_midnight.
  change (fst (fst (DateApi.civilFromDays n))) with (DateApi.civilFromDays n).1.1.
  change (snd (fst (DateApi.civilFromDays n))) with (DateApi.civilFromDays n).1.2.
  rewrite makeDay_of_day. change (snd (DateApi.civilFromDays n)) with (DateApi.civilFromDays n).2.
  lia.
Qed.

Lemma newDate_midnight tz n date :
  DateApi.newDate tz (DateApi.getFullYear tz (n * DateApi.msPerDay - tz))
                  (DateApi.getMonth tz (n * DateApi.msPerDay - tz)) date
  = (n - DateApi.getDate tz (n * DateApi.msPerDay - tz) + date) * DateApi.msPerDay - tz.
Proof.
  unfold DateApi.newDate, DateApi.getFullYear, DateApi.getMonth, DateApi.getDate.
  rewrite localDay_midnight.
  change (fst (fst (DateApi.civilFromDays n))) with (DateApi.civilFromDays n).1.1.
  change (snd (fst (DateApi.civilFromDays n))) with (DateApi.civilFromDays n).1.2.
  rewrite makeDay_of_day. change (snd (DateApi.civilFromDays n)) with (DateApi.civilFromDays n).2.
  lia.
Qed.

Lemma getDate_positive tz t : 1 <= DateApi.getDate tz t <= 31.
Proof. unfold DateApi.getDate. apply civil_round_trip. Qed.

Lemma getDay_range tz t : 0 <= DateApi.getDay tz t <= 6.
Proof.
  unfold DateApi.getDay.
  pose proof (Z.mod_pos_bound (DateApi.localDay tz t + 4) 7 ltac:(lia)). lia.
Qed.

(** The week start the generator computes, as a day number. *)
Lemma startOfWeek_day tz t :
  DateApi.setDate tz (DateApi.setHours0 tz t)
    (DateApi.getDate tz (DateApi.setHours0 tz t) - DateApi.getDay tz (DateApi.setHours0 tz t))
  = (DateApi.localDay tz t - DateApi.getDay tz t) * DateApi.msPerDay - tz.
Proof.
  unfold DateApi.setHours0. rewrite setDate_midnight.
  unfold DateApi.getDay at 1. rewrite localDay_midnight. fold (DateApi.getDay tz t).
  f_equal. f_equal. lia.
Qed.

(** The start of [today] is the local midnight before the first clock
    reading.  The start of [thisWeek] is the local midnight of the Sunday
    on or before that day: [getDay] whole days earlier, at most six. *)
Theorem week_window_starts_on_sunday_midnight (tz : Z) (clock : nat -> Z) (tick : nat) :
  let ranges := fst (getDateRanges tz clock tick) in
  exists today week,
    windowStart ranges "today" = Some today
    /\ windowStart ranges "thisWeek" = Some week
    /\ today <= clock tick < today + DateApi.msPerDay
    /\ DateApi.timeInDay tz today = 0
    /\ week = today - DateApi.getDay tz (clock tick) * DateApi.msPerDay
    /\ today - 6 * DateApi.msPerDay <= week <= today
    /\ DateApi.timeInDay tz week = 0
    /\ DateApi.getDay tz week = 0.
Proof.
  intros ranges. subst ranges. unfold getDateRanges. cbv zeta.
  unfold windowStart. cbn [fst getProp String.eqb Ascii.eqb Bool.eqb option_map r_start].
  eexists. eexists. split; [reflexivity|]. split; [reflexivity|].
  cbn [snd r_start].
  rewrite startOfWeek_day.
  pose proof (getDay_range tz (clock tick)) as Hw.
  set (t := clock tick) in *.
  assert (DateApi.localDay tz t * DateApi.msPerDay - tz <= t
          < DateApi.localDay tz t * DateApi.msPerDay - tz + DateApi.msPerDay) as Hday.
  { unfold DateApi.localDay, DateApi.msPerDay.
    pose proof (Z.div_mod (t + tz) 86400000 ltac:(lia)).
    pose proof (Z.mod_pos_bound (t + tz) 86400000 ltac:(lia)). lia. }
  unfold DateApi.setHours0.
  split; [exact Hday|].
  split; [apply timeInDay_midnight|].
  split; [unfold DateApi.msPerDay; lia|].
  split; [unfold DateApi.msPerDay in *; lia|].
  split; [apply timeInDay_midnight|].
  unfold DateApi.getDay at 1. rewrite localDay_midnight.
  unfold DateApi.getDay.
  replace (DateApi.localDay tz t - (DateApi.localDay tz t + 4) mod 7 + 4)
    with (DateApi.localDay tz t + 4 - (DateApi.localDay tz t + 4) mod 7) by lia.
  pose proof (Z.div_mod (DateApi.localDay tz t + 4) 7 ltac:(lia)) as Hdm.
  replace (DateApi.localDay tz t + 4 - (DateApi.localDay tz t + 4) mod 7)
    with (((DateApi.localDay tz t + 4) / 7) * 7) by lia.
  apply Z.mod_mul. lia.
Qed.

(** The month boundaries are taken from the date object after it was
    moved to the week start: [thisMonth] starts on the first day of the
    month of the week start, which is never after the week start, and
    [lastMonth] ends at the midnight that begins the day before, exactly
    one day before [thisMonth] starts.  An event strictly between those
    two midnights is in neither month window. *)
Theorem month_windows_follow_the_week_start (tz : Z) (clock : nat -> Z) (tick : nat) :
  let ranges := fst (getDateRanges tz clock tick) in
  exists week month last,
    windowStart ranges "thisWeek" = Some week
    /\ getProp ranges "thisMonth" = Some month
    /\ getProp ranges "lastMonth" = Some last
    /\ r_start month = week - (DateApi.getDate tz week - 1) * DateApi.msPerDay
    /\ r_start month <= week
    /\ r_end last = r_start month - DateApi.msPerDay
    /\ forall e, r_end last < timestamp e < r_start month ->
         inWindow last e = false /\ inWindow month e = false.
Proof.
  intros ranges. subst ranges. unfold getDateRanges. cbv zeta.
  unfold windowStart. cbn [fst getProp String.eqb Ascii.eqb Bool.eqb option_map r_start r_end].
  eexists. eexists. eexists.
  split; [reflexivity|]. split; [reflexivity|]. split; [reflexivity|].
  cbn [snd r_start r_end].
  rewrite startOfWeek_day.
  set (n := DateApi.localDay tz (clock tick) - DateApi.getDay tz (clock tick)).
  rewrite !newDate_midnight.
  pose proof (getDate_positive tz (n * DateApi.msPerDay - tz)) as Hd.
  set (d := DateApi.getDate tz (n * DateApi.msPerDay - tz)) in *.
  unfold DateApi.msPerDay.
  split; [lia|]. split; [lia|]. split; [lia|].
  intros e He. unfold inWindow. cbn [r_start r_end].
  split; apply andb_false_iff; [right|left]; apply Z.leb_gt; lia.
Qed.

(** ** The copies of the duration formatter *)

Lemma inline_formatDuration_eq ms : inline_formatDuration ms = formatDuration ms.
Proof. unfold inline_formatDuration. rewrite formatDuration_fields. reflexivity. Qed.

(** The copies of the duration formatter that the routes define locally
    return what [utils.formatDuration] returns, for every number of
    milliseconds. *)
Theorem duration_formatter_copies_agree (ms : Q) :
  route_formatDuration ms = formatDuration ms
  /\ inline_formatDuration ms = formatDuration ms.
Proof.
  split; [apply route_formatDuration_eq|apply inline_formatDuration_eq].
Qed.

(** ** The last event of a vehicle *)

Lemma lastStage_step_Some l stages :
  Forall (fun x => timestamp x <= timestamp l) stages ->
  fold_left (fun latest stage =>
               match latest with
               | None => Some stage
               | Some l => if timestamp l <? timestamp stage then Some stage else latest
               end) stages (Some l) = Some l.
Proof.
  induction 1 as [|x stages Hx _ IH]; [done|]. cbn [fold_left].
  destruct (Z.ltb_spec (timestamp l) (timestamp x)); [lia|]. exact IH.
Qed.

Lemma lastStageOf_snoc stages x :
  lastStageOf (stages ++ [x])
  = match lastStageOf stages with
    | None => Some x
    | Some l => if timestamp l <? timestamp x then Some x else Some l
    end.
Proof.
  unfold lastStageOf. rewrite fold_left_app. cbn [fold_left].
  by destruct (fold_left _ stages None).
Qed.

Lemma lastStageOf_split stages :
  match lastStageOf stages with
  | None => stages = []
  | Some e => exists l1 l2, stages = l1 ++ e :: l2
                /\ Forall (fun x => timestamp x < timestamp e) l1
                /\ Forall (fun x => timestamp x <= timestamp e) l2
  end.
Proof.
  induction stages as [|x stages IH] using rev_ind; [done|].
  rewrite lastStageOf_snoc. destruct (lastStageOf stages) as [l|].
  - destruct IH as (l1 & l2 & -> & H1 & H2).
    destruct (Z.ltb_spec (timestamp l) (timestamp x)).
    + exists (l1 ++ l :: l2), []. split; [done|]. split; [|constructor].
      apply Forall_app. split; [|constructor; [lia|]].
      * eapply List.Forall_impl; [|exact H1]. intros a Ha. simpl in Ha. lia.
      * eapply List.Forall_impl; [|exact H2]. intros a Ha. simpl in Ha. lia.
    + exists l1, (l2 ++ [x]). split; [by rewrite <- app_assoc|]. split; [done|].
      apply Forall_app. split; [done|]. by constructor.
  - subst stages. exists [], []. done.
Qed.

Lemma lastStageOf_of_split l1 e l2 :
  Forall (fun x => timestamp x < timestamp e) l1 ->
  Forall (fun x => timestamp x <= timestamp e) l2 ->
  lastStageOf (l1 ++ e :: l2) = Some e.
Proof.
  intros H1 H2. unfold lastStageOf. rewrite fold_left_app. cbn [fold_left].
  fold (lastStageOf l1).
  pose proof (lastStageOf_split l1) as Hl1.
  destruct (lastStageOf l1) as [l|].
  - destruct Hl1 as (a & b & -> & _ & _).
    apply Forall_app in H1 as [_ H1]. apply Forall_cons in H1 as [Hl _].
    destruct (Z.ltb_spec (timestamp l) (timestamp e)); [|lia].
    by apply lastStage_step_Some.
  - by apply lastStage_step_Some.
Qed.

(** The [lastStage] the vehicle lists of [/dashboard/all-time-active] and
    [/dashboard/todays-vehicles] report is the event with the greatest
    timestamp, whatever its event type, and the first such event of the
    array when several share that timestamp; there is none exactly when
    the vehicle has no events. *)
Theorem last_stage_is_first_latest_event (stages : list StageEvent) :
  (lastStageOf stages = None <-> stages = [])
  /\ forall e, lastStageOf stages = Some e <->
       exists l1 l2, stages = l1 ++ e :: l2
         /\ Forall (fun x => timestamp x < timestamp e) l1
         /\ Forall (fun x => timestamp x <= timestamp e) l2.
Proof.
  pose proof (lastStageOf_split stages) as Hs.
  split.
  - split; [|by intros ->].
    intros Hn. by rewrite Hn in Hs.
  - intros e. split.
    + intros He. by rewrite He in Hs.
    + intros (l1 & l2 & -> & H1 & H2). by apply lastStageOf_of_split.
Qed.

(** ** The stage map of the all-time route *)

(** A loop whose body throws exactly on the elements that are [bad], as
    long as the state satisfies an invariant of the body. *)
Lemma forEachE_bad {A S} (P : S -> Prop) (bad : A -> bool) (f : S -> A -> completion S)
    (g : S -> A -> S) msg l :
  (forall s x, P s -> f s x = if bad x then Throw msg else Normal (g s x)) ->
  (forall s x, P s -> bad x = false -> P (g s x)) ->
  forall s, P s ->
    forEachE f l s = (if existsb bad l then Throw msg else Normal (fold_left g l s))
    /\ (existsb bad l = false -> P (fold_left g l s)).
Proof.
  intros Hf Hg. induction l as [|x l IH]; intros s Hs; cbn [forEachE existsb fold_left];
    [done|].
  rewrite Hf by done. destruct (bad x) eqn:Hx; cbn [cbind orb]; [done|].
  apply IH. by apply Hg.
Qed.

Section AllTimeFacts.

Context {E : Type} (entryOf : string -> StageEvent -> E).

Lemma allTimeStage_cases vn stages (m : gmap string (list E)) s :
  ownKeysOnly m ->
  allTimeStage entryOf vn stages m s
  = if failingStart stages s then Throw stageMapPushError
    else Normal (ownAllTimeStage entryOf vn stages m s).
Proof.
  intros Hm. unfold allTimeStage, ownAllTimeStage, failingStart, inheritedStage.
  fold (keyOf s). destruct (Js.inheritedName (keyOf s)) eqn:Hi; cbn [andb].
  - rewrite (Hm _ Hi). rewrite (Hm _ Hi).
    by destruct (isEvent "Start" s && negb (endedLater stages s)).
  - destruct (isEvent "Start" s && negb (endedLater stages s)); [|done].
    destruct (m !! keyOf s) eqn:Hk; [by rewrite Hk|]. by rewrite lookup_insert_eq.
Qed.

Lemma ownAllTimeStage_lookup vn stages (m : gmap string (list E)) s name :
  default [] (ownAllTimeStage entryOf vn stages m s !! name)
  = default [] (m !! name)
    ++ (if unendedStart stages name s && negb (inheritedStage s) then [entryOf vn s] else []).
Proof.
  unfold ownAllTimeStage, unendedStart. fold (keyOf s).
  destruct (inheritedStage s); [by rewrite andb_false_r, app_nil_r|]. rewrite andb_true_r.
  set (m' := match m !! keyOf s with Some _ => m | None => <[keyOf s := []]> m end).
  assert (default [] (m' !! name) = default [] (m !! name)) as Hm'.
  { subst m'. destruct (m !! keyOf s) eqn:Hk; [done|].
    destruct (decide (keyOf s = name)) as [<-|Hne].
    - by rewrite lookup_insert_eq, Hk.
    - by rewrite lookup_insert_ne. }
  assert (is_Some (m' !! keyOf s)) as [l Hl].
  { subst m'. destruct (m !! keyOf s) eqn:Hk; [by rewrite Hk|].
    rewrite lookup_insert_eq. by eexists. }
  destruct (String.eqb_spec (keyOf s) name) as [<-|Hne]; cbn [andb].
  - destruct (isEvent "Start" s && negb (endedLater stages s)).
    + rewrite lookup_alter_eq, <- Hm', Hl. done.
    + by rewrite Hm', app_nil_r.
  - rewrite app_nil_r.
    destruct (isEvent "Start" s && negb (endedLater stages s)); [|done].
    by rewrite lookup_alter_ne.
Qed.

Lemma ownAllTimeStage_keys vn stages (m : gmap string (list E)) s k :
  is_Some (ownAllTimeStage entryOf vn stages m s !! k)
  <-> (k = keyOf s /\ inheritedStage s = false) \/ is_Some (m !! k).
Proof.
  unfold ownAllTimeStage. fold (keyOf s).
  destruct (inheritedStage s); [split; [by right|by intros [[_ ?]|?]]|].
  set (m' := match m !! keyOf s with Some _ => m | None => <[keyOf s := []]> m end).
  assert (is_Some (m' !! k) <-> (k = keyOf s /\ false = false) \/ is_Some (m !! k)) as Hm'.
  { subst m'. destruct (m !! keyOf s) eqn:Hk.
    - split; [by right|]. intros [[-> _]|H]; [by rewrite Hk|done].
    - rewrite lookup_insert_is_Some. split.
      + intros [H|[_ H]]; [by left|by right].
      + intros [[H _]|H]; [by left|]. destruct (decide (keyOf s = k)); [by left|by right]. }
  destruct (isEvent "Start" s && negb (endedLater stages s)); [|done].
  by rewrite lookup_alter_is_Some.
Qed.

Lemma ownAllTimeStage_ownKeys vn stages (m : gmap string (list E)) s :
  ownKeysOnly m -> ownKeysOnly (ownAllTimeStage entryOf vn stages m s).
Proof.
  intros Hm k Hk. apply eq_None_not_Some. rewrite ownAllTimeStage_keys.
  intros [[-> Hi]|Hs].
  - unfold inheritedStage in Hi. congruence.
  - rewrite (Hm k Hk) in Hs. by destruct Hs.
Qed.

Lemma allTimeStages_cases (m : gmap string (list E)) v :
  ownKeysOnly m ->
  allTimeStages entryOf m v
  = (if allTimeFails v then Throw stageMapPushError
     else Normal (ownAllTimeStages entryOf m v))
  /\ ownKeysOnly (ownAllTimeStages entryOf m v).
Proof.
  intros Hm. unfold allTimeStages, allTimeFails, ownAllTimeStages.
  split.
  - apply (forEachE_bad ownKeysOnly (failingStart (stages v))); [| |done].
    + intros s x Hs. by apply allTimeStage_cases.
    + intros s x Hs _. by apply ownAllTimeStage_ownKeys.
  - apply fold_left_invariant; [|done]. intros s x. apply ownAllTimeStage_ownKeys.
Qed.

Lemma allTimeStages_fold vn stages l : forall (m : gmap string (list E)) name,
  default [] (fold_left (ownAllTimeStage entryOf vn stages) l m !! name)
  = default [] (m !! name)
    ++ map (entryOf vn)
           (List.filter (fun s => unendedStart stages name s && negb (inheritedStage s)) l).
Proof.
  induction l as [|s l IH]; intros m name; cbn [fold_left List.filter map].
  - by rewrite app_nil_r.
  - rewrite IH, ownAllTimeStage_lookup, <- app_assoc. f_equal.
    by destruct (unendedStart stages name s && negb (inheritedStage s)).
Qed.

Lemma allTimeStages_fold_keys vn stages l : forall (m : gmap string (list E)) k,
  is_Some (fold_left (ownAllTimeStage entryOf vn stages) l m !! k)
  <-> (exists s, In s l /\ k = keyOf s /\ inheritedStage s = false) \/ is_Some (m !! k).
Proof.
  induction l as [|s l IH]; intros m k; cbn [fold_left].
  - split; [by right|]. by intros [(s & [] & _)|H].
  - rewrite IH, ownAllTimeStage_keys. split.
    + intros [(s' & Hin & Hk)|[Hk|H]].
      * left. exists s'. split; [by right|done].
      * left. exists s. split; [by left|done].
      * by right.
    + intros [(s' & [<-|Hin] & Hk)|H].
      * right. by left.
      * left. by exists s'.
      * right. by right.
Qed.

(** Without a failing start, the unended starts filed under a key are all
    the unended starts of that stage name. *)
Lemma unendedEntries_own name v :
  allTimeFails v = false ->
  map (entryOf (vehicleNumber v))
      (List.filter (fun s => unendedStart (stages v) name s && negb (inheritedStage s))
                   (stages v))
  = unendedEntries entryOf name v.
Proof.
  intros Hf. unfold unendedEntries. f_equal. apply filter_ext_in. intros s Hs.
  unfold allTimeFails in Hf. apply not_true_iff_false in Hf.
  destruct (unendedStart (stages v) name s) eqn:Hu; [|done].
  destruct (inheritedStage s) eqn:Hi; [|done].
  destruct Hf. apply existsb_exists. exists s. split; [done|].
  unfold failingStart. rewrite Hi. unfold unendedStart in Hu.
  apply andb_true_iff in Hu as [[_ H1]%andb_true_iff H2]. by rewrite H1, H2.
Qed.

Lemma allTimeVehicles_lookup vehicles : forall (m : gmap string (list E)) name,
  existsb allTimeFails vehicles = false ->
  default [] (fold_left (ownAllTimeStages entryOf) vehicles m !! name)
  = default [] (m !! name) ++ flat_map (unendedEntries entryOf name) vehicles.
Proof.
  induction vehicles as [|v vehicles IH]; intros m name Hf; cbn [fold_left flat_map].
  - by rewrite app_nil_r.
  - cbn [existsb] in Hf. apply orb_false_iff in Hf as [Hv Hf].
    rewrite IH by done. unfold ownAllTimeStages.
    rewrite allTimeStages_fold, <- app_assoc. by rewrite unendedEntries_own.
Qed.

Lemma allTimeVehicles_keys vehicles : forall (m : gmap string (list E)) k,
  is_Some (fold_left (ownAllTimeStages entryOf) vehicles m !! k)
  <-> (exists v s, In v vehicles /\ In s (stages v) /\ k = keyOf s
                   /\ inheritedStage s = false)
      \/ is_Some (m !! k).
Proof.
  induction vehicles as [|v vehicles IH]; intros m k; cbn [fold_left].
  - split; [by right|]. by intros [(v & s & [] & _)|H].
  - rewrite IH. unfold ownAllTimeStages. rewrite allTimeStages_fold_keys. split.
    + intros [(v' & s & Hv & Hs & Hk)|[(s & Hs & Hk)|H]].
      * left. exists v', s. split; [by right|done].
      * left. exists v, s. split; [by left|done].
      * by right.
    + intros [(v' & s & [<-|Hv] & Hs & Hk)|H].
      * right. left. by exists s.
      * left. by exists v', s.
      * right. by right.
Qed.

(** The open start the live route reports is an unended start of the
    all-time route. *)
Lemma openStart_unended name l s :
  openStart (groupOf name l) = Some s -> In s l /\ unendedStart l name s = true.
Proof.
  intros (Hin & Hk & Hty & Hopen & _)%openStart_Some.
  split; [done|]. unfold unendedStart.
  rewrite Hk, String.eqb_refl. unfold isEvent. rewrite Hty. cbn.
  apply negb_true_iff, not_true_iff_false. unfold endedLater.
  intros (e & He & Hc)%existsb_exists.
  apply andb_true_iff in Hc as [Hc Hlt]. apply andb_true_iff in Hc as [Hsame Hend].
  apply Z.ltb_lt in Hlt.
  assert (keyOf e = name) as Hke.
  { rewrite <- Hk. unfold keyOf, propertyKey, sameName in *.
    destruct (stageName e), (stageName s); try done. simpl.
    by apply String.eqb_eq in Hsame. }
  unfold isEvent in Hend. apply strictEq_true in Hend.
  specialize (Hopen e He Hke Hend). lia.
Qed.

Lemma live_in_all_time db vehicles name e :
  (forall v, In v (activeVehicles db) -> In v vehicles) ->
  existsb allTimeFails vehicles = false ->
  In e (default [] (ownLiveStageMap entryOf db !! name)) ->
  In e (default [] (fold_left (ownAllTimeStages entryOf) vehicles ∅ !! name)).
Proof.
  intros Hsub Hf. unfold ownLiveStageMap.
  rewrite liveStageMap_lookup, allTimeVehicles_lookup, !lookup_empty by done.
  cbn [default app].
  intros (v & Hv & He)%in_flat_map.
  destruct (openStart (groupOf name (stages v))) as [s|] eqn:Hs; [|done].
  destruct He as [<-|[]].
  apply openStart_unended in Hs as [Hin Hun].
  apply in_flat_map. exists v. split; [by apply Hsub|].
  unfold unendedEntries. apply in_map, filter_In. done.
Qed.

End AllTimeFacts.

Lemma allTimeVehicle_snd formatToIST now vehicles : forall st,
  snd (fold_left (ownAllTimeVehicle formatToIST now) vehicles st)
  = fold_left (ownAllTimeStages (activeEntry formatToIST now)) vehicles (snd st).
Proof. induction vehicles as [|v vehicles IH]; intros st; [done|]. cbn [fold_left]. by rewrite IH. Qed.

Lemma allTimeVehicle_fst formatToIST now vehicles : forall st vn,
  fst (fold_left (ownAllTimeVehicle formatToIST now) vehicles st) !! vn
  = match find (fun v => String.eqb (vehicleNumber v) vn) (rev vehicles) with
    | Some v => Some (option_map (lastStageInfo formatToIST now) (lastStageOf (stages v)))
    | None => fst st !! vn
    end.
Proof.
  induction vehicles as [|v vehicles IH] using rev_ind; intros st vn; [done|].
  rewrite fold_left_app, rev_app_distr. cbn [fold_left rev app find ownAllTimeVehicle fst].
  destruct (String.eqb_spec (vehicleNumber v) vn) as [->|Hne].
  - by rewrite lookup_insert_eq.
  - rewrite lookup_insert_ne by done. apply IH.
Qed.

Lemma allTimeVehicles_cases formatToIST now vehicles :
  forEachE (allTimeVehicle formatToIST now) vehicles (∅, ∅)
  = if existsb allTimeFails vehicles then Throw stageMapPushError
    else Normal (fold_left (ownAllTimeVehicle formatToIST now) vehicles (∅, ∅)).
Proof.
  apply (forEachE_bad (fun st => ownKeysOnly (snd st)) allTimeFails).
  - intros st v Hst. unfold allTimeVehicle, ownAllTimeVehicle.
    rewrite (proj1 (allTimeStages_cases _ _ _ Hst)). by destruct (allTimeFails v).
  - intros st v Hst _. cbn [ownAllTimeVehicle snd]. by apply allTimeStages_cases.
  - intros k _. apply lookup_empty.
Qed.

(** The response of the all-time route: it fails exactly when some vehicle
    has a failing start. *)
Lemma allTimeActive_cases formatToIST now vehicles :
  allTimeActive formatToIST now vehicles
  = if existsb allTimeFails vehicles then Throw stageMapPushError
    else Normal (ownAllTimeActive formatToIST now vehicles).
Proof.
  unfold allTimeActive, ownAllTimeActive. rewrite allTimeVehicles_cases.
  by destruct (existsb allTimeFails vehicles).
Qed.

Lemma allTimeFails_true vehicles :
  existsb allTimeFails vehicles = true
  <-> exists v s, In v vehicles /\ In s (stages v)
        /\ Js.inheritedName (keyOf s) = true /\ eventType s = Some "Start"
        /\ endedLater (stages v) s = false.
Proof.
  rewrite existsb_exists. split.
  - intros (v & Hv & (s & Hs & Hf)%existsb_exists). exists v, s.
    unfold failingStart, inheritedStage, isEvent in Hf.
    apply andb_true_iff in Hf as [[H1 H2%strictEq_true]%andb_true_iff H3%negb_true_iff].
    done.
  - intros (v & s & Hv & Hs & H1 & H2 & H3). exists v. split; [done|].
    apply existsb_exists. exists s. split; [done|].
    unfold failingStart, inheritedStage, isEvent. rewrite H1, H3.
    apply strictEq_true in H2. by rewrite H2.
Qed.

(** The route [/dashboard/all-time-active] fails, with the [TypeError] of
    [push], exactly when some vehicle has a [Start] that no later [End]
    with the same stage name follows and whose stage name is inherited
    from [Object.prototype].  Otherwise its stage-wise distribution holds,
    under a key, one record for every [Start] of every vehicle that no
    later [End] with the same stage name follows, vehicle after vehicle
    and in array order: a vehicle with several such starts is listed
    several times.  Its keys are the stage names of all the events of the
    vehicles that are not inherited names, so a stage whose starts are all
    ended has an empty list. *)
Theorem all_time_active_lists_every_unended_start (formatToIST : Z -> string) (now : Z)
    (vehicles : list Vehicle) (name : string) :
  match allTimeActive formatToIST now vehicles with
  | Normal response =>
      default [] (ata_stageWiseDistribution response !! name)
      = flat_map (unendedEntries (activeEntry formatToIST now) name) vehicles
      /\ (is_Some (ata_stageWiseDistribution response !! name)
          <-> Js.inheritedName name = false
              /\ exists v s, In v vehicles /\ In s (stages v) /\ name = keyOf s)
      /\ ~ (exists v s, In v vehicles /\ In s (stages v)
              /\ Js.inheritedName (keyOf s) = true /\ eventType s = Some "Start"
              /\ endedLater (stages v) s = false)
  | Throw error =>
      error = stageMapPushError
      /\ exists v s, In v vehicles /\ In s (stages v)
           /\ Js.inheritedName (keyOf s) = true /\ eventType s = Some "Start"
           /\ endedLater (stages v) s = false
  end.
Proof.
  rewrite allTimeActive_cases. destruct (existsb allTimeFails vehicles) eqn:Hf.
  - split; [done|]. by apply allTimeFails_true.
  - unfold ownAllTimeActive. cbn [ata_stageWiseDistribution].
    rewrite allTimeVehicle_snd. cbn [snd]. split; [|split].
    + by rewrite allTimeVehicles_lookup, lookup_empty.
    + rewrite allTimeVehicles_keys, lookup_empty. unfold inheritedStage. split.
      * intros [(v & s & Hv & Hs & -> & Hi)|H]; [|by destruct H].
        split; [done|]. by exists v, s.
      * intros [Hi (v & s & Hv & Hs & ->)]. left. by exists v, s.
    + intros H%allTimeFails_true. congruence.
Qed.

(** Every record of the stage-wise distribution that
    [/dashboard/live-status] returns has its counterpart, with the same
    vehicle number, start, performer and duration, under the same key of
    the distribution that [/dashboard/all-time-active] returns when it is
    run on the vehicles that have not left. *)
Theorem live_status_records_are_all_time_active (formatToIST : Z -> string) (now : Z)
    (db vehicles : list Vehicle) (name : string) (le : LiveEntryIST)
    (distribution : gmap string (list LiveEntryIST)) (response : AllTimeActive) :
  (forall v, In v (activeVehicles db) -> In v vehicles) ->
  stageWiseDistribution formatToIST now db = Normal distribution ->
  allTimeActive formatToIST now vehicles = Normal response ->
  In le (default [] (distribution !! name)) ->
  exists ae,
    In ae (default [] (ata_stageWiseDistribution response !! name))
    /\ ae_vehicleNumber ae = li_vehicleNumber le
    /\ ae_startedAt ae = li_startedAt le
    /\ ae_performedBy ae = li_performedBy le
    /\ ae_duration ae = li_duration le.
Proof.
  intros Hsub Hlive Hall Hle.
  unfold stageWiseDistribution in Hlive. rewrite liveStageMap_cases in Hlive.
  destruct (forallb noInheritedStage (activeVehicles db)); [|done].
  injection Hlive as <-.
  rewrite allTimeActive_cases in Hall.
  destruct (existsb allTimeFails vehicles) eqn:Hf; [done|]. injection Hall as <-.
  unfold ownLiveStageMap in Hle.
  rewrite liveStageMap_lookup, lookup_empty in Hle. cbn [default app] in Hle.
  apply in_flat_map in Hle as (v & Hv & Hle).
  destruct (openStart (groupOf name (stages v))) as [s|] eqn:Hs; [|done].
  destruct Hle as [<-|[]].
  exists (activeEntry formatToIST now (vehicleNumber v) s). split.
  - unfold ownAllTimeActive. cbn [ata_stageWiseDistribution]. rewrite allTimeVehicle_snd.
    cbn [snd]. apply (live_in_all_time _ db); [done|done|].
    unfold ownLiveStageMap. rewrite liveStageMap_lookup, lookup_empty. cbn [default app].
    apply in_flat_map. exists v. split; [done|]. rewrite Hs. by left.
  - cbn. do 3 (split; [done|]).
    apply inline_formatDuration_eq.
Qed.

Lemma live_status_records_are_all_time_active_witness :
  (forall v, In v (activeVehicles [washingQueue]) -> In v [washingQueue])
  /\ exists distribution response ae,
       stageWiseDistribution (fun _ => "") 10000 [washingQueue] = Normal distribution
       /\ allTimeActive (fun _ => "") 10000 [washingQueue] = Normal response
       /\ In ae (default [] (ata_stageWiseDistribution response !! "Washing"))
       /\ ae_vehicleNumber ae = "V4" /\ ae_duration ae = "00:00:07".
Proof.
  assert (forall v, In v (activeVehicles [washingQueue]) -> In v [washingQueue]) as Hsub
    by (by intros v Hv).
  split; [exact Hsub|].
  destruct (stageWiseDistribution (fun _ => "") 10000 [washingQueue])
    as [distribution|] eqn:Hlive; [|by vm_compute in Hlive].
  destruct (allTimeActive (fun _ => "") 10000 [washingQueue])
    as [response|] eqn:Hall; [|by vm_compute in Hall].
  assert (In (liveEntryIST (fun _ => "") 10000 "V4" (washingEvent "Start" 3000))
             (default [] (distribution !! "Washing"))) as Hle.
  { revert Hlive. unfold stageWiseDistribution. rewrite liveStageMap_cases.
    change (forallb noInheritedStage (activeVehicles [washingQueue])) with true.
    intros [= <-]. unfold ownLiveStageMap.
    rewrite liveStageMap_lookup, lookup_empty. vm_compute. by left. }
  destruct (live_status_records_are_all_time_active (fun _ => "") 10000 [washingQueue]
              [washingQueue] "Washing" _ distribution response Hsub Hlive Hall Hle)
    as (ae & Hin & Hvn & _ & _ & Hd).
  exists distribution, response, ae.
  split; [done|]. split; [done|]. split; [exact Hin|]. split; [exact Hvn|].
  rewrite Hd. by vm_compute.
Defined.

(** When the vehicles of the query have distinct vehicle numbers, the
    vehicle list that [/dashboard/all-time-active] returns has one record
    per vehicle, in the order of the query, and the [lastStage] of a
    record is made from the last event of that vehicle. *)
Theorem all_time_active_reports_each_vehicle (formatToIST : Z -> string) (now : Z)
    (vehicles : list Vehicle) (response : AllTimeActive) :
  List.NoDup (map vehicleNumber vehicles) ->
  allTimeActive formatToIST now vehicles = Normal response ->
  ata_count response = length (ata_vehicles response)
  /\ map avo_vehicleNumber (ata_vehicles response) = map vehicleNumber vehicles
  /\ map avo_lastStage (ata_vehicles response)
     = map (fun v => option_map (lastStageInfo formatToIST now) (lastStageOf (stages v)))
           vehicles.
Proof.
  intros Hnd Hall. rewrite allTimeActive_cases in Hall.
  destruct (existsb allTimeFails vehicles); [done|]. injection Hall as <-.
  unfold ownAllTimeActive.
  cbn [ata_count ata_vehicles]. rewrite length_map, !map_map. cbn [avo_vehicleNumber avo_lastStage].
  split; [done|]. split; [done|].
  apply map_ext_in. intros v Hv.
  rewrite allTimeVehicle_fst.
  destruct (find _ (rev vehicles)) as [v'|] eqn:Hf.
  - apply find_some in Hf as [Hin Heq]. apply String.eqb_eq in Heq.
    apply in_rev in Hin.
    assert (v' = v) as ->; [|done].
    clear -Hnd Hin Hv Heq. induction vehicles as [|a vehicles IH]; [done|].
    cbn [map] in Hnd. apply List.NoDup_cons_iff in Hnd as [Ha Hnd].
    destruct Hin as [->|Hin], Hv as [->|Hv]; [done| | |by apply IH].
    + destruct Ha. rewrite Heq. by apply in_map.
    + destruct Ha. rewrite <- Heq. by apply in_map.
  - pose proof (find_none _ _ Hf v) as Hn. cbv beta in Hn.
    rewrite String.eqb_refl in Hn. by specialize (Hn (proj1 (in_rev _ _) Hv)).
Qed.

Lemma all_time_active_reports_each_vehicle_witness :
  List.NoDup (map vehicleNumber [washingQueue; dentingVehicle])
  /\ exists response,
       allTimeActive (fun _ => "") 0 [washingQueue; dentingVehicle] = Normal response
       /\ map avo_vehicleNumber (ata_vehicles response) = ["V4"; "V2"].
Proof.
  assert (List.NoDup (map vehicleNumber [washingQueue; dentingVehicle])) as Hnd.
  { cbn. constructor; [intros [H|[]]; discriminate H|].
    constructor; [intros []|constructor]. }
  split; [exact Hnd|].
  destruct (allTimeActive (fun _ => "") 0 [washingQueue; dentingVehicle])
    as [response|] eqn:Hall; [|by vm_compute in Hall].
  exists response. split; [done|].
  exact (proj1 (proj2 (all_time_active_reports_each_vehicle (fun _ => "") 0
                         [washingQueue; dentingVehicle] response Hnd Hall))).
Defined.

(** A [Start] of a stage named "toString" that nothing ends makes
    [/dashboard/all-time-active] fail; once it is ended the route answers
    and the name is not a key of the distribution. *)
Lemma inherited_stage_name_in_all_time_active :
  allTimeActive (fun _ => "") 0
    [mkVehicle "V12" 0 None [ stageEvent "toString" "Start" 1000 ]]
  = Throw stageMapPushError
  /\ exists response,
       allTimeActive (fun _ => "") 0
         [mkVehicle "V12" 0 None [ stageEvent "toString" "Start" 1000;
                                   stageEvent "toString" "End" 2000 ]]
       = Normal response
       /\ ata_stageWiseDistribution response !! "toString" = None.
Proof. split; [by vm_compute|]. eexists. split; by vm_compute. Qed.

(** ** Today's vehicles *)

Lemma filter_noExit_length formatToIST now vehicles :
  length (List.filter tv_isActive (map (processVehicle formatToIST now) vehicles))
  = length (List.filter noExit vehicles)
  /\ length (List.filter (fun v => negb (tv_isActive v))
                         (map (processVehicle formatToIST now) vehicles))
     = length (List.filter (fun v => negb (noExit v)) vehicles).
Proof.
  induction vehicles as [|v vehicles [IH1 IH2]]; [done|].
  cbn [map List.filter].
  assert (tv_isActive (processVehicle formatToIST now v) = noExit v) as ->
    by (unfold noExit; cbn; by destruct (exitTime v)).
  destruct (noExit v); cbn [negb length]; split; congruence.
Qed.

Lemma filter_negb_length {A} (p : A -> bool) l :
  (length (List.filter p l) + length (List.filter (fun x => negb (p x)) l))%nat = length l.
Proof. induction l as [|x l IH]; [done|]. cbn. destruct (p x); cbn; lia. Qed.

(** In the response of [/dashboard/todays-vehicles] every vehicle of the
    query has one record, the active count is the number of vehicles
    without an exit time, and the active and the completed count add up
    to the count. *)
Theorem todays_vehicles_counts_partition (formatToIST : Z -> string) (now : Z)
    (vehicles : list Vehicle) :
  let response := todaysVehiclesResponse formatToIST now vehicles in
  length (tvs_vehicles response) = tvs_count response
  /\ tvs_activeCount response = length (List.filter noExit vehicles)
  /\ (tvs_activeCount response + tvs_completedCount response)%nat = tvs_count response.
Proof.
  intros response. subst response. unfold todaysVehiclesResponse.
  cbn [tvs_vehicles tvs_count tvs_activeCount tvs_completedCount].
  destruct (filter_noExit_length formatToIST now vehicles) as [-> ->].
  split; [by rewrite length_map|]. split; [done|]. apply filter_negb_length.
Qed.

(** ** The live stage-wise status *)

Lemma isStageEvent_named stage ty s :
  hasStageName s = true ->
  isStageEvent stage ty s = Normal (nameStartsWith stage s && isEvent ty s).
Proof. intros H. unfold isStageEvent. by rewrite stageNameStartsWith_named. Qed.

Lemma isStageEvent_nameless stage ty s :
  hasStageName s = false -> isStageEvent stage ty s = Throw undefinedStartsWith.
Proof. unfold hasStageName, isStageEvent, stageNameStartsWith. by destruct (stageName s). Qed.

Lemma filterE_isStageEvent stage ty l :
  filterE (isStageEvent stage ty) l
  = if forallb hasStageName l
    then Normal (List.filter (fun s => nameStartsWith stage s && isEvent ty s) l)
    else Throw undefinedStartsWith.
Proof.
  induction l as [|s l IH]; [done|]. cbn [filterE forallb List.filter].
  destruct (hasStageName s) eqn:Hs.
  - rewrite isStageEvent_named by done. cbn [cbind andb]. rewrite IH.
    destruct (forallb hasStageName l); cbn [cbind]; [|done].
    by destruct (nameStartsWith stage s && isEvent ty s).
  - by rewrite isStageEvent_nameless.
Qed.

Lemma addClasses_nil b : addClasses [] b = b.
Proof. destruct b. unfold addClasses. cbn. by rewrite !app_nil_r. Qed.

Lemma addClasses_cons c cs b : addClasses cs (pushClass c b) = addClasses (c :: cs) b.
Proof.
  destruct c as [[] i]; unfold addClasses, pushClass, activeOf, completedOf; cbn;
    by rewrite <- app_assoc.
Qed.

Lemma addClasses_app cs1 cs2 b : addClasses cs2 (addClasses cs1 b) = addClasses (cs1 ++ cs2) b.
Proof.
  unfold addClasses, activeOf, completedOf. cbn.
  by rewrite !List.filter_app, !map_app, !app_assoc.
Qed.

Lemma fold_step_class {X} (step : gmap string LiveBucket -> X -> gmap string LiveBucket)
    (cl : X -> bool * StageInfo) k xs :
  (forall r x, step r x = alter (pushClass (cl x)) k r) ->
  forall r, fold_left step xs r = alter (addClasses (map cl xs)) k r.
Proof.
  intros Hstep. induction xs as [|x xs IH]; intros r; cbn [fold_left map].
  - symmetry. apply alter_id. intros b _. apply addClasses_nil.
  - rewrite IH, Hstep, alter_alter_eq. apply alter_ext. intros b _.
    apply addClasses_cons.
Qed.

Lemma startEndStart_class format vn stage ends result s :
  startEndStart format vn stage ends result s
  = alter (pushClass (startEndClass format vn ends s)) stage result.
Proof.
  unfold startEndStart, startEndClass, firstLaterEnd.
  by destruct (find _ ends).
Qed.

Lemma onlyStartStart_class format vn stage stages result s :
  onlyStartStart format vn stage stages result s
  = alter (pushClass (onlyStartClass format vn stages s)) stage result.
Proof.
  unfold onlyStartStart, onlyStartClass, pushClass. cbn [fst snd].
  by destruct (hasNext stages s).
Qed.

Lemma startEndStage_cases format v result stage :
  startEndStage format v result stage
  = if allNamed v
    then Normal (alter (addClasses (startEndClasses format stage v)) stage result)
    else Throw undefinedStartsWith.
Proof.
  unfold startEndStage, allNamed. rewrite !filterE_isStageEvent.
  destruct (forallb hasStageName (stages v)); cbn [cbind]; [|done].
  f_equal. apply fold_step_class. intros r x. apply startEndStart_class.
Qed.

Lemma onlyStartStage_cases format v result stage :
  onlyStartStage format v result stage
  = if allNamed v
    then Normal (alter (addClasses (onlyStartClasses format stage v)) stage result)
    else Throw undefinedStartsWith.
Proof.
  unfold onlyStartStage, allNamed. rewrite !filterE_isStageEvent.
  destruct (forallb hasStageName (stages v)); cbn [cbind]; [|done].
  f_equal. apply fold_step_class. intros r x. apply onlyStartStart_class.
Qed.

Lemma forEachE_pure_steps {S X} (step : S -> X -> completion S) (pure : S -> X -> S) l :
  (forall s x, step s x = Normal (pure s x)) ->
  forall s, forEachE step l s = Normal (fold_left pure l s).
Proof.
  intros H. induction l as [|x l IH]; intros s; cbn [forEachE fold_left]; [done|].
  rewrite H. cbn [cbind]. apply IH.
Qed.

Lemma isIn_In name names : isIn name names = true <-> In name names.
Proof.
  unfold isIn. rewrite existsb_exists. split.
  - intros (x & Hx & ->%String.eqb_eq). done.
  - intros H. exists name. by rewrite String.eqb_refl.
Qed.

Lemma fold_alter_keyed (F : string -> LiveBucket -> LiveBucket) l :
  List.NoDup l ->
  forall (r : gmap string LiveBucket) name,
    fold_left (fun r st => alter (F st) st r) l r !! name
    = (if isIn name l then F name else id) <$> r !! name.
Proof.
  induction 1 as [|a l Ha Hnd IH]; intros r name; cbn [fold_left].
  - cbn. by destruct (r !! name).
  - rewrite IH. unfold isIn. cbn [existsb]. fold (isIn name l).
    destruct (String.eqb_spec name a) as [->|Hne]; cbn [orb].
    + assert (isIn a l = false) as ->.
      { apply not_true_iff_false. by rewrite isIn_In. }
      rewrite lookup_alter_eq. by destruct (r !! a).
    + by rewrite lookup_alter_ne.
Qed.

Lemma fold_insert_lookup (b0 : LiveBucket) l : forall (m : gmap string LiveBucket) name,
  fold_left (fun r st => <[st := b0]> r) l m !! name
  = if isIn name l then Some b0 else m !! name.
Proof.
  induction l as [|a l IH]; intros m name; cbn [fold_left]; [done|].
  rewrite IH. unfold isIn. cbn [existsb]. fold (isIn name l).
  destruct (isIn name l); [by rewrite orb_true_r|]. rewrite orb_false_r.
  destruct (String.eqb_spec name a) as [->|Hne].
  - by rewrite lookup_insert_eq.
  - by rewrite lookup_insert_ne.
Qed.

Lemma stagesWithStartEnd_NoDup : List.NoDup stagesWithStartEnd.
Proof. apply NoDup_ListNoDup, (bool_decide_unpack _). by vm_compute. Qed.

Lemma stagesWithOnlyStart_NoDup : List.NoDup stagesWithOnlyStart.
Proof. apply NoDup_ListNoDup, (bool_decide_unpack _). by vm_compute. Qed.

Lemma stageLiveVehicle_cases format result v :
  match stageLiveVehicle format result v with
  | Normal result' =>
      allNamed v = true
      /\ forall name,
           result' !! name = addClasses (vehicleClasses format name v) <$> result !! name
  | Throw m => allNamed v = false /\ m = undefinedStartsWith
  end.
Proof.
  unfold stageLiveVehicle. destruct (allNamed v) eqn:Hn.
  - rewrite (forEachE_pure_steps _
               (fun r st => alter (addClasses (startEndClasses format st v)) st r))
      by (intros s x; by rewrite startEndStage_cases, Hn).
    cbn [cbind].
    rewrite (forEachE_pure_steps _
               (fun r st => alter (addClasses (onlyStartClasses format st v)) st r))
      by (intros s x; by rewrite onlyStartStage_cases, Hn).
    split; [done|]. intros name.
    rewrite (fold_alter_keyed (fun st => addClasses (onlyStartClasses format st v)))
      by apply stagesWithOnlyStart_NoDup.
    rewrite (fold_alter_keyed (fun st => addClasses (startEndClasses format st v)))
      by apply stagesWithStartEnd_NoDup.
    unfold vehicleClasses.
    destruct (result !! name) as [b|]; [|done]. cbn [fmap option_fmap option_map]. f_equal.
    destruct (isIn name stagesWithStartEnd), (isIn name stagesWithOnlyStart);
      cbn [id app]; rewrite ?addClasses_app, ?app_nil_r, ?addClasses_nil; done.
  - unfold stagesWithStartEnd. cbn [forEachE]. rewrite startEndStage_cases, Hn. done.
Qed.

Lemma stageLive_fold format vehicles : forall result,
  match forEachE (stageLiveVehicle format) vehicles result with
  | Normal result' =>
      forallb allNamed vehicles = true
      /\ forall name,
           result' !! name
           = addClasses (flat_map (vehicleClasses format name) vehicles) <$> result !! name
  | Throw m => forallb allNamed vehicles = false /\ m = undefinedStartsWith
  end.
Proof.
  induction vehicles as [|v vehicles IH]; intros result; cbn [forEachE forallb flat_map].
  - split; [done|]. intros name. destruct (result !! name) as [b|]; [|done].
    cbn. by rewrite addClasses_nil.
  - pose proof (stageLiveVehicle_cases format result v) as Hv.
    destruct (stageLiveVehicle format result v) as [result1|m]; cbn [cbind].
    + destruct Hv as [-> Hv]. cbn [andb]. specialize (IH result1).
      destruct (forEachE _ vehicles result1) as [result'|m]; [|done].
      destruct IH as [-> IH]. split; [done|]. intros name. rewrite IH, Hv.
      destruct (result !! name) as [b|]; [|done]. cbn. by rewrite addClasses_app.
    + destruct Hv as [-> ->]. done.
Qed.

Lemma initLive_lookup name :
  initLive !! name
  = if isIn name (stagesWithStartEnd ++ stagesWithOnlyStart) then Some (mkLiveBucket [] [])
    else None.
Proof. unfold initLive. by rewrite fold_insert_lookup, lookup_empty. Qed.

Lemma stageLiveStatus_cases format vehicles :
  match stageLiveStatus format vehicles with
  | Normal result =>
      forallb allNamed vehicles = true
      /\ forall name,
           result !! name
           = if isIn name (stagesWithStartEnd ++ stagesWithOnlyStart)
             then Some (addClasses (flat_map (vehicleClasses format name) vehicles)
                                   (mkLiveBucket [] []))
             else None
  | Throw m => forallb allNamed vehicles = false /\ m = undefinedStartsWith
  end.
Proof.
  unfold stageLiveStatus. pose proof (stageLive_fold format vehicles initLive) as H.
  destruct (forEachE _ vehicles initLive) as [result|m]; [|done].
  destruct H as [Hn H]. split; [done|]. intros name. rewrite H, initLive_lookup.
  by destruct (isIn name _).
Qed.

Lemma allNamed_forallb vehicles :
  forallb allNamed vehicles = true
  <-> forall v s, In v vehicles -> In s (stages v) -> hasStageName s = true.
Proof.
  rewrite forallb_forall. unfold allNamed. split.
  - intros H v s Hv Hs. specialize (H v Hv). rewrite forallb_forall in H. by apply H.
  - intros H v Hv. apply forallb_forall. intros s Hs. by eapply H.
Qed.

Lemma activeOf_flat_map {A} (f : A -> list (bool * StageInfo)) l :
  activeOf (flat_map f l) = flat_map (fun x => activeOf (f x)) l.
Proof.
  induction l as [|x l IH]; [done|]. cbn [flat_map]. rewrite <- IH.
  unfold activeOf. by rewrite List.filter_app, map_app.
Qed.

Lemma completedOf_flat_map {A} (f : A -> list (bool * StageInfo)) l :
  completedOf (flat_map f l) = flat_map (fun x => completedOf (f x)) l.
Proof.
  induction l as [|x l IH]; [done|]. cbn [flat_map]. rewrite <- IH.
  unfold completedOf. by rewrite List.filter_app, map_app.
Qed.

Lemma activeOf_startEnd format vn ends starts :
  activeOf (map (startEndClass format vn ends) starts)
  = map (startInfo format vn)
        (List.filter (fun s => negb (existsb (fun e => timestamp s <? timestamp e) ends)) starts).
Proof.
  induction starts as [|s starts IH]; [done|]. unfold activeOf in *.
  cbn [map List.filter].
  destruct (startEndClass format vn ends s) as [c i] eqn:Hc.
  unfold startEndClass, firstLaterEnd in Hc.
  destruct (find _ ends) as [e|] eqn:Hf; injection Hc as <- <-.
  - apply find_some in Hf as [Hin Hlt].
    assert (existsb (fun e => timestamp s <? timestamp e) ends = true) as ->
      by (apply existsb_exists; by exists e).
    cbn [fst snd negb map List.filter]. exact IH.
  - assert (existsb (fun e => timestamp s <? timestamp e) ends = false) as ->.
    { apply not_true_iff_false. intros (e & He & Hlt)%existsb_exists.
      pose proof (find_none _ _ Hf e He) as Hn. cbv beta in Hn. congruence. }
    cbn [fst snd negb map List.filter]. f_equal. exact IH.
Qed.

Lemma completedOf_startEnd format vn ends starts :
  completedOf (map (startEndClass format vn ends) starts)
  = omap (fun s => option_map (completedInfo format vn s) (firstLaterEnd ends s)) starts.
Proof.
  induction starts as [|s starts IH]; [done|]. unfold completedOf in *.
  rewrite omap_cons_eq. cbn [map List.filter].
  destruct (startEndClass format vn ends s) as [c i] eqn:Hc.
  unfold startEndClass in Hc.
  destruct (firstLaterEnd ends s) as [e|]; injection Hc as <- <-;
    cbn [fst snd option_map map List.filter]; [f_equal|]; exact IH.
Qed.

Lemma activeOf_onlyStart format vn stages starts :
  activeOf (map (onlyStartClass format vn stages) starts)
  = map (startInfo format vn) (List.filter (fun s => negb (hasNext stages s)) starts).
Proof.
  induction starts as [|s starts IH]; [done|]. unfold activeOf in *.
  cbn [map List.filter]. unfold onlyStartClass at 1 2. cbn [fst snd].
  destruct (hasNext stages s); cbn [fst snd negb map List.filter]; [|f_equal]; exact IH.
Qed.

Lemma completedOf_onlyStart format vn stages starts :
  completedOf (map (onlyStartClass format vn stages) starts)
  = map (startInfo format vn) (List.filter (hasNext stages) starts).
Proof.
  induction starts as [|s starts IH]; [done|]. unfold completedOf in *.
  cbn [map List.filter]. unfold onlyStartClass at 1 2. cbn [fst snd].
  destruct (hasNext stages s); cbn [fst snd negb map List.filter]; [f_equal|]; exact IH.
Qed.

Lemma vehicleClasses_startEnd format stage v :
  In stage stagesWithStartEnd -> vehicleClasses format stage v = startEndClasses format stage v.
Proof.
  intros Hin. unfold vehicleClasses.
  assert (isIn stage stagesWithStartEnd = true) as -> by (by apply isIn_In).
  assert (isIn stage stagesWithOnlyStart = false) as ->.
  { cbn in Hin. by repeat destruct Hin as [<-|Hin]. }
  by rewrite app_nil_r.
Qed.

Lemma vehicleClasses_onlyStart format stage v :
  In stage stagesWithOnlyStart -> vehicleClasses format stage v = onlyStartClasses format stage v.
Proof.
  intros Hin. unfold vehicleClasses.
  assert (isIn stage stagesWithOnlyStart = true) as -> by (by apply isIn_In).
  assert (isIn stage stagesWithStartEnd = false) as ->.
  { cbn in Hin. by repeat destruct Hin as [<-|Hin]. }
  done.
Qed.

(** When every event of the vehicles carries a stage name the route
    completes, and its result has exactly the nine stages as keys.  Under
    a stage with [Start] and [End] every [Start] of every vehicle whose
    stage name begins with the stage is filed once: under [completed],
    with the time of the first [End] of the array after it, when the
    vehicle has a later [End] of the stage, and under [active] otherwise. *)
Theorem stage_live_status_files_each_start_once (format : Z -> string)
    (vehicles : list Vehicle) :
  (forall v s, In v vehicles -> In s (stages v) -> hasStageName s = true) ->
  exists result,
    stageLiveStatus format vehicles = Normal result
    /\ (forall name, is_Some (result !! name)
                     <-> In name (stagesWithStartEnd ++ stagesWithOnlyStart))
    /\ forall stage, In stage stagesWithStartEnd ->
         exists b,
           result !! stage = Some b
           /\ lb_active b
              = flat_map (fun v =>
                  map (startInfo format (vehicleNumber v))
                      (List.filter
                         (fun s => negb (existsb (fun e => timestamp s <? timestamp e)
                                                 (stageEventsOfType stage "End" v)))
                         (stageEventsOfType stage "Start" v)))
                  vehicles
           /\ lb_completed b
              = flat_map (fun v =>
                  omap (fun s => option_map (completedInfo format (vehicleNumber v) s)
                                   (firstLaterEnd (stageEventsOfType stage "End" v) s))
                       (stageEventsOfType stage "Start" v))
                  vehicles
           /\ (length (lb_active b) + length (lb_completed b))%nat
              = length (flat_map (stageEventsOfType stage "Start") vehicles).
Proof.
  intros Hnamed%allNamed_forallb.
  pose proof (stageLiveStatus_cases format vehicles) as H.
  destruct (stageLiveStatus format vehicles) as [result|m]; [|destruct H; congruence].
  destruct H as [_ H]. exists result. split; [done|]. split.
  - intros name. rewrite H, <- isIn_In. destruct (isIn name _); [|by split; [intros []|]].
    split; [done|]. by eexists.
  - intros stage Hin. eexists. split.
    { rewrite H. assert (isIn stage (stagesWithStartEnd ++ stagesWithOnlyStart) = true) as ->
        by (apply isIn_In, in_app_iff; by left). reflexivity. }
    cbn [addClasses lb_active lb_completed app].
    rewrite activeOf_flat_map, completedOf_flat_map.
    assert (forall v, vehicleClasses format stage v = startEndClasses format stage v) as Hvc
      by (intros v; by apply vehicleClasses_startEnd).
    split; [|split].
    + apply flat_map_ext. intros v. rewrite Hvc. apply activeOf_startEnd.
    + apply flat_map_ext. intros v. rewrite Hvc. apply completedOf_startEnd.
    + clear H Hnamed Hin. induction vehicles as [|v vehicles IH]; [done|].
      cbn [flat_map]. rewrite !length_app. rewrite <- IH, Hvc.
      unfold startEndClasses, activeOf, completedOf. rewrite !length_map.
      pose proof (filter_negb_length fst
                    (map (startEndClass format (vehicleNumber v)
                            (stageEventsOfType stage "End" v))
                         (stageEventsOfType stage "Start" v))) as Hlen.
      rewrite length_map in Hlen. lia.
Qed.

Lemma stage_live_status_files_each_start_once_witness :
  (forall v s, In v [twoWashings] -> In s (stages v) -> hasStageName s = true)
  /\ exists result,
       stageLiveStatus (fun _ => "") [twoWashings] = Normal result
       /\ exists b, result !! "Washing" = Some b
                    /\ length (lb_active b) = 1%nat /\ length (lb_completed b) = 1%nat.
Proof.
  assert (forall v s, In v [twoWashings] -> In s (stages v) -> hasStageName s = true) as Hn.
  { intros v s [<-|[]] Hs. cbn in Hs. by repeat destruct Hs as [<-|Hs]. }
  split; [exact Hn|].
  destruct (stage_live_status_files_each_start_once (fun _ => "") [twoWashings] Hn)
    as (result & Hr & _ & Hse).
  exists result. split; [exact Hr|].
  destruct (Hse "Washing") as (b & Hb & Ha & Hc & _); [cbn; tauto|].
  exists b. split; [exact Hb|]. rewrite Ha, Hc. by vm_compute.
Defined.

(** Under a stage that has a [Start] only, a [Start] of a vehicle is
    filed under [completed] as soon as the vehicle has any later [Start],
    of whatever stage, and under [active] otherwise: the active records of
    a vehicle are those of its latest [Start] events. *)
Theorem stage_live_status_only_start_active_is_latest (format : Z -> string)
    (vehicles : list Vehicle) (result : gmap string LiveBucket) (stage : string) :
  stageLiveStatus format vehicles = Normal result ->
  In stage stagesWithOnlyStart ->
  exists b,
    result !! stage = Some b
    /\ lb_active b
       = flat_map (fun v =>
           map (startInfo format (vehicleNumber v))
               (List.filter (fun s => negb (hasNext (stages v) s))
                            (stageEventsOfType stage "Start" v)))
           vehicles
    /\ lb_completed b
       = flat_map (fun v =>
           map (startInfo format (vehicleNumber v))
               (List.filter (hasNext (stages v)) (stageEventsOfType stage "Start" v)))
           vehicles
    /\ forall v s, hasNext (stages v) s = false ->
         forall s', In s' (stages v) -> eventType s' = Some "Start" ->
                    timestamp s' <= timestamp s.
Proof.
  intros Hr Hin.
  pose proof (stageLiveStatus_cases format vehicles) as H. rewrite Hr in H.
  destruct H as [_ H]. eexists. split.
  { rewrite H. assert (isIn stage (stagesWithStartEnd ++ stagesWithOnlyStart) = true) as ->
      by (apply isIn_In, in_app_iff; by right). reflexivity. }
  cbn [addClasses lb_active lb_completed app].
  rewrite activeOf_flat_map, completedOf_flat_map.
  assert (forall v, vehicleClasses format stage v = onlyStartClasses format stage v) as Hvc
    by (intros v; by apply vehicleClasses_onlyStart).
  split; [|split].
  - apply flat_map_ext. intros v. rewrite Hvc. apply activeOf_onlyStart.
  - apply flat_map_ext. intros v. rewrite Hvc. apply completedOf_onlyStart.
  - intros v s Hnext s' Hs' Hty.
    destruct (Z.leb_spec (timestamp s') (timestamp s)) as [|Hlt]; [done|].
    apply not_true_iff_false in Hnext. destruct Hnext. apply existsb_exists.
    exists s'. split; [done|]. unfold isEvent. rewrite Hty. cbn. by apply Z.ltb_lt.
Qed.

Lemma stage_live_status_only_start_active_is_latest_witness :
  exists result,
    stageLiveStatus (fun _ => "") [twoOnlyStarts] = Normal result
    /\ exists b, result !! "Job Card Creation + Customer Approval" = Some b
                 /\ lb_active b = []
                 /\ length (lb_completed b) = 1%nat.
Proof.
  pose proof (stageLiveStatus_cases (fun _ => "") [twoOnlyStarts]) as Hcases.
  destruct (stageLiveStatus (fun _ => "") [twoOnlyStarts]) as [result|m] eqn:Hr;
    [clear Hcases|destruct Hcases as [Hn _]; by vm_compute in Hn].
  exists result. split; [done|].
  destruct (stage_live_status_only_start_active_is_latest (fun _ => "") [twoOnlyStarts]
              result "Job Card Creation + Customer Approval" Hr) as (b & Hb & Ha & Hc & _);
    [cbn; tauto|].
  exists b. split; [exact Hb|]. rewrite Ha, Hc. by vm_compute.
Defined.

(** One event without a stage name, in any vehicle of the query, makes
    the whole route fail with the [TypeError] of [startsWith]; and the
    route fails in no other case. *)
Theorem stage_live_status_fails_on_a_nameless_event (format : Z -> string)
    (vehicles : list Vehicle) :
  (stageLiveStatus format vehicles = Throw undefinedStartsWith
   <-> exists v s, In v vehicles /\ In s (stages v) /\ stageName s = None)
  /\ forall m, stageLiveStatus format vehicles = Throw m -> m = undefinedStartsWith.
Proof.
  pose proof (stageLiveStatus_cases format vehicles) as H.
  destruct (stageLiveStatus format vehicles) as [result|m].
  - destruct H as [Hn _]. split; [|done]. split; [done|].
    intros (v & s & Hv & Hs & Hnone).
    rewrite allNamed_forallb in Hn. specialize (Hn v s Hv Hs).
    unfold hasStageName in Hn. by rewrite Hnone in Hn.
  - destruct H as [Hn ->]. split; [|by intros m [= <-]]. split; [|done]. intros _.
    apply not_true_iff_false in Hn.
    destruct (forallb allNamed vehicles) eqn:Hall; [done|].
    clear Hn. induction vehicles as [|v vehicles IH]; [done|].
    cbn [forallb] in Hall. apply andb_false_iff in Hall as [Hv|Hall].
    + unfold allNamed in Hv.
      assert (exists s, In s (stages v) /\ stageName s = None) as (s & Hs & Hnone).
      { induction (stages v) as [|s l IHl]; [done|]. cbn [forallb] in Hv.
        apply andb_false_iff in Hv as [Hs|Hl].
        - exists s. split; [by left|]. unfold hasStageName in Hs. by destruct (stageName s).
        - destruct (IHl Hl) as (s' & Hs' & Hn'). exists s'. split; [by right|done]. }
      exists v, s. split; [by left|done].
    + destruct (IH Hall) as (v' & s & Hv' & Hs & Hnone).
      exists v', s. split; [by right|done].
Qed.

(** ** Keys of the live stage map *)

Section LiveKeys.

Context {E : Type} (entryOf : string -> StageEvent -> E).

Lemma liveVehicle_nonempty (m : gmap string (list E)) v :
  map_Forall (fun _ l => l <> []) m ->
  map_Forall (fun _ l => l <> []) (ownLiveVehicle entryOf m v).
Proof.
  unfold ownLiveVehicle. apply (fold_left_invariant (map_Forall (fun _ (l : list E) => l <> []))).
  intros m' [k entries] Hm'. unfold liveGroup. cbn [fst snd]. rewrite liveStarts_find.
  destruct (find _ _) as [s|]; [|done].
  apply map_Forall_insert_2; [|done]. by destruct (default [] (m' !! k)).
Qed.

Lemma liveStageMap_nonempty db :
  map_Forall (fun _ l => l <> []) (ownLiveStageMap entryOf db).
Proof.
  unfold ownLiveStageMap.
  apply (fold_left_invariant (map_Forall (fun _ (l : list E) => l <> []))).
  - intros m v Hm. by apply liveVehicle_nonempty.
  - apply map_Forall_empty.
Qed.

End LiveKeys.

(** A key of the stage-wise distribution that [/dashboard/live-status]
    returns always holds at least one record: a stage name is a key
    exactly when some vehicle that has not left has, in the group of that
    name, a [Start] that no [End] follows.  (The all-time route also keeps
    the keys whose lists are empty.) *)
Theorem live_status_keys_have_records (formatToIST : Z -> string) (now : Z)
    (db : list Vehicle) (distribution : gmap string (list LiveEntryIST))
    (name : string) (l : list LiveEntryIST) :
  stageWiseDistribution formatToIST now db = Normal distribution ->
  distribution !! name = Some l ->
  l <> []
  /\ exists v s, In v (activeVehicles db) /\ openStart (groupOf name (stages v)) = Some s
       /\ In (liveEntryIST formatToIST now (vehicleNumber v) s) l.
Proof.
  intros Hd Hl. unfold stageWiseDistribution in Hd. rewrite liveStageMap_cases in Hd.
  destruct (forallb noInheritedStage (activeVehicles db)); [|done]. injection Hd as <-.
  assert (l <> []) as Hne.
  { by apply (liveStageMap_nonempty (liveEntryIST formatToIST now) db name l). }
  split; [exact Hne|].
  pose proof (liveStageMap_lookup (liveEntryIST formatToIST now) (activeVehicles db) ∅ name)
    as Hlook.
  fold (ownLiveStageMap (liveEntryIST formatToIST now) db) in Hlook.
  rewrite Hl, lookup_empty in Hlook. cbn [default from_option id app] in Hlook.
  destruct l as [|e l]; [done|].
  assert (In e (e :: l)) as He by (by left). rewrite Hlook in He.
  apply in_flat_map in He as (v & Hv & He).
  destruct (openStart (groupOf name (stages v))) as [s|] eqn:Hs; [|done].
  destruct He as [<-|[]]. exists v, s. split; [done|]. split; [done|]. by left.
Qed.

Lemma live_status_keys_have_records_witness :
  exists distribution l,
    stageWiseDistribution (fun _ => "") 10000 [washingQueue] = Normal distribution
    /\ distribution !! "Washing" = Some l
    /\ l <> [].
Proof.
  destruct (stageWiseDistribution (fun _ => "") 10000 [washingQueue])
    as [distribution|] eqn:Hd; [|by vm_compute in Hd].
  destruct (distribution !! "Washing") as [l|] eqn:Hl.
  - exists distribution, l. split; [done|]. split; [done|].
    exact (proj1 (live_status_keys_have_records (fun _ => "") 10000 [washingQueue]
                    distribution "Washing" l Hd Hl)).
  - exfalso. revert Hd Hl. unfold stageWiseDistribution. rewrite liveStageMap_cases.
    change (forallb noInheritedStage (activeVehicles [washingQueue])) with true.
    intros [= <-]. by vm_compute.
Defined.

(** ** Active stages with their duration *)

Lemma someE_pure {A} (p : A -> completion bool) (q : A -> bool) l :
  (forall x, In x l -> p x = Normal (q x)) -> someE p l = Normal (existsb q l).
Proof.
  induction l as [|x l IH]; intros H; [done|]. cbn [someE existsb].
  rewrite (H x) by (by left). cbn [cbind]. destruct (q x); [done|].
  apply IH. intros; apply H; by right.
Qed.

Lemma someE_Throw {A} (p : A -> completion bool) l m :
  someE p l = Throw m -> exists x, In x l /\ p x = Throw m.
Proof.
  induction l as [|x l IH]; [done|]. cbn [someE].
  destruct (p x) as [[]|m'] eqn:Hx; cbn [cbind]; [done| |].
  - intros (y & Hy & Hm)%IH. exists y. split; [by right|done].
  - intros [= <-]. exists x. split; [by left|done].
Qed.

Lemma forEachE_pure_In {S X} (step : S -> X -> completion S) (pure : S -> X -> S) l :
  (forall s x, In x l -> step s x = Normal (pure s x)) ->
  forall s, forEachE step l s = Normal (fold_left pure l s).
Proof.
  induction l as [|x l IH]; intros H s; cbn [forEachE fold_left]; [done|].
  rewrite H by (by left). cbn [cbind]. apply IH. intros; apply H; by right.
Qed.

Lemma forEachE_Throw {S X} (step : S -> X -> completion S) l : forall s m,
  forEachE step l s = Throw m -> exists s' x, In x l /\ step s' x = Throw m.
Proof.
  induction l as [|x l IH]; intros s m; [done|]. cbn [forEachE].
  destruct (step s x) as [s1|m'] eqn:Hx; cbn [cbind].
  - intros (s' & y & Hy & Hm)%IH. exists s', y. split; [by right|done].
  - intros [= <-]. exists s, x. split; [by left|done].
Qed.

Lemma mapE_Throw_In {A B} (f : A -> completion B) l m :
  mapE f l = Throw m -> exists x, In x l /\ f x = Throw m.
Proof.
  induction l as [|x l IH]; [done|]. cbn [mapE].
  destruct (f x) as [y|m'] eqn:Hx; cbn [cbind].
  - destruct (mapE f l) as [ys|m'']; cbn [cbind]; [done|].
    intros [= <-]. destruct IH as (x' & Hin & Hf); [done|]. exists x'. split; [by right|done].
  - intros [= <-]. exists x. split; [by left|done].
Qed.

Lemma named_key s n : stageName s = Some n -> keyOf s = n.
Proof. unfold keyOf, propertyKey. by intros ->. Qed.

Lemma recordStartTime_named st s :
  hasStageName s = true -> recordStartTime st s = Normal (openTimesStep st s).
Proof.
  unfold hasStageName, recordStartTime, openTimesStep, isDependentStage, dependentName, keyOf.
  destruct (stageName s) as [n|]; [|done]. intros _.
  destruct (isEvent "Start" s); [done|].
  by destruct (isEvent "End" s && _).
Qed.

Lemma recordStartTime_Throw st s m :
  recordStartTime st s = Throw m -> m = undefinedIncludes /\ stageName s = None.
Proof.
  unfold recordStartTime, isDependentStage.
  destruct (isEvent "Start" s).
  - destruct (stageName s); cbn [cbind]; [done|]. by intros [= <-].
  - by destruct (isEvent "End" s && _).
Qed.

Lemma filterE_includes p l :
  filterE (fun s => let* b := stageNameIncludes s p in Normal (b && isEvent "Start" s)) l
  = if forallb hasStageName l
    then Normal (List.filter (fun s => nameIncludes p s && isEvent "Start" s) l)
    else Throw undefinedIncludes.
Proof.
  induction l as [|s l IH]; [done|]. cbn [filterE forallb List.filter].
  unfold stageNameIncludes at 1, hasStageName at 1, nameIncludes at 1.
  destruct (stageName s) as [n|]; cbn [cbind andb]; [|done].
  rewrite IH. destruct (forallb hasStageName l); cbn [cbind]; [|done].
  by destruct (includes n p && isEvent "Start" s).
Qed.

Lemma fold_push {A B} (c : A -> bool) (r : A -> B) l : forall acc,
  fold_left (fun acc x => if c x then acc ++ [r x] else acc) l acc
  = acc ++ map r (List.filter c l).
Proof.
  induction l as [|x l IH]; intros acc; cbn [fold_left List.filter map].
  - by rewrite app_nil_r.
  - rewrite IH. destruct (c x); [|done]. cbn [map]. by rewrite <- app_assoc.
Qed.

Lemma fold_app_flat_map {A B} (f : A -> list B) l : forall acc,
  fold_left (fun acc x => acc ++ f x) l acc = acc ++ flat_map f l.
Proof.
  induction l as [|x l IH]; intros acc; cbn [fold_left flat_map].
  - by rewrite app_nil_r.
  - by rewrite IH, <- app_assoc.
Qed.

Lemma dependentStarts_named now stages acc entry :
  forallb hasStageName stages = true ->
  dependentStarts now stages acc entry = Normal (acc ++ dependentRecords now stages entry).
Proof.
  intros Hn. unfold dependentStarts, dependentRecords. rewrite filterE_includes, Hn.
  cbn [cbind]. f_equal.
  apply (fold_push (fun s => negb (dependentEnded (snd entry) stages s)) (dependentRecord now)).
Qed.

Lemma fold_regular now stages times : forall acc,
  fold_left (regularStage now stages) times acc = acc ++ regularRecords now stages times.
Proof.
  induction times as [|entry times IH]; intros acc; cbn [fold_left].
  - unfold regularRecords. cbn. by rewrite app_nil_r.
  - rewrite IH. unfold regularRecords. rewrite omap_cons_eq. unfold regularStage.
    destruct (find _ stages); cbn [option_map]; [|done]. by rewrite <- app_assoc.
Qed.

Lemma dependentStages_named stages :
  forallb hasStageName stages = true ->
  dependentStages stages = Normal (dependentConfigs stages).
Proof.
  intros Hn. rewrite forallb_forall in Hn. unfold dependentStages.
  rewrite (someE_pure _ additionalWorkStart).
  2:{ intros s Hs. unfold additionalWorkStart.
      by rewrite stageNameStartsWith_named by (by apply Hn). }
  cbn [cbind]. rewrite (someE_pure _ otherJobCardStart).
  2:{ intros s Hs. specialize (Hn s Hs).
      unfold otherJobCardReceivedStart, otherJobCardStart, hasStageName in *.
      by destruct (stageName s). }
  done.
Qed.

(** The record of a vehicle all of whose events carry a stage name. *)
Lemma vehicleActiveStages_named now v :
  allNamed v = true ->
  vehicleActiveStages now v
  = Normal
      (let activeStages :=
         flat_map (dependentRecords now (stages v)) (dependentConfigs (stages v))
         ++ regularRecords now (stages v) (openTimes (stages v)) in
       {| vas_vehicleNumber := vehicleNumber v;
          vas_entryTime := entryTime v;
          vas_activeStages := activeStages;
          vas_totalActiveStages := length activeStages |}).
Proof.
  unfold allNamed. intros Hn. unfold vehicleActiveStages.
  rewrite (forEachE_pure_In _ openTimesStep).
  2:{ intros s x Hx. apply recordStartTime_named.
      rewrite forallb_forall in Hn. by apply Hn. }
  cbn [cbind]. rewrite dependentStages_named by done. cbn [cbind].
  rewrite (forEachE_pure_In _ (fun acc entry => acc ++ dependentRecords now (stages v) entry))
    by (intros s x _; by apply dependentStarts_named).
  cbn [cbind]. rewrite fold_app_flat_map, fold_regular. cbn [app]. done.
Qed.

Lemma vehicleActiveStages_nameless now v :
  allNamed v = false ->
  exists m, vehicleActiveStages now v = Throw m /\ typeErrorMessage m.
Proof.
  unfold allNamed. intros Hn. unfold vehicleActiveStages.
  destruct (forEachE recordStartTime (stages v) []) as [times|m] eqn:Hfirst; cbn [cbind].
  2:{ exists m. split; [done|]. left.
      apply forEachE_Throw in Hfirst as (s' & x & _ & Hx).
      by apply recordStartTime_Throw in Hx as [-> _]. }
  unfold dependentStages.
  destruct (someE _ (stages v)) as [additionalWork|m] eqn:Hsome1; cbn [cbind].
  2:{ exists m. split; [done|]. right.
      apply someE_Throw in Hsome1 as (x & _ & Hx). unfold stageNameStartsWith in Hx.
      destruct (stageName x); cbn [cbind] in Hx; [done|]. by injection Hx as <-. }
  destruct (someE otherJobCardReceivedStart (stages v)) as [jobCard|m] eqn:Hsome2;
    cbn [cbind].
  2:{ exists m. split; [done|]. left.
      apply someE_Throw in Hsome2 as (x & _ & Hx). unfold otherJobCardReceivedStart in Hx.
      destruct (stageName x); [done|]. by injection Hx as <-. }
  cbn [forEachE]. unfold dependentStarts at 1. cbn [fst snd].
  rewrite filterE_includes, Hn. cbn [cbind].
  exists undefinedIncludes. split; [done|]. by left.
Qed.

Lemma vehicleActiveStages_cases now v :
  match vehicleActiveStages now v with
  | Normal r =>
      allNamed v = true
      /\ vas_activeStages r
         = flat_map (dependentRecords now (stages v)) (dependentConfigs (stages v))
           ++ regularRecords now (stages v) (openTimes (stages v))
      /\ vas_totalActiveStages r = length (vas_activeStages r)
  | Throw m => allNamed v = false /\ typeErrorMessage m
  end.
Proof.
  destruct (allNamed v) eqn:Hn.
  - rewrite vehicleActiveStages_named by done. done.
  - destruct (vehicleActiveStages_nameless now v Hn) as (m & -> & Hm). done.
Qed.

Lemma allNamed_false v :
  allNamed v = false <-> exists s, In s (stages v) /\ stageName s = None.
Proof.
  unfold allNamed. split.
  - induction (stages v) as [|s l IH]; [done|]. cbn [forallb].
    intros [Hs|Hl]%andb_false_iff.
    + exists s. split; [by left|]. unfold hasStageName in Hs. by destruct (stageName s).
    + destruct (IH Hl) as (s' & Hs' & Hn'). exists s'. split; [by right|done].
  - intros (s & Hs & Hnone). apply not_true_iff_false. intros Hall.
    rewrite forallb_forall in Hall. specialize (Hall s Hs).
    unfold hasStageName in Hall. by rewrite Hnone in Hall.
Qed.

(** [/active-stages-with-duration] fails exactly when some event of some
    vehicle of the query has no stage name, and then with the [TypeError]
    of [includes] or of [startsWith].  When it answers, the count is the
    number of vehicles listed, every vehicle listed has at least one
    active stage, and its total is the number of its records. *)
Theorem active_stages_fail_exactly_on_nameless_events (now : Z) (vehicles : list Vehicle) :
  ((exists m, activeStagesWithDuration now vehicles = Throw m)
   <-> exists v s, In v vehicles /\ In s (stages v) /\ stageName s = None)
  /\ (forall m, activeStagesWithDuration now vehicles = Throw m -> typeErrorMessage m)
  /\ (forall r, activeStagesWithDuration now vehicles = Normal r ->
        asr_count r = length (asr_vehicles r)
        /\ forall x, In x (asr_vehicles r) ->
             vas_activeStages x <> []
             /\ vas_totalActiveStages x = length (vas_activeStages x)).
Proof.
  unfold activeStagesWithDuration.
  destruct (mapE (vehicleActiveStages now) vehicles) as [ys|m] eqn:Hmap; cbn [cbind].
  - split; [|split; [done|]].
    + split; [by intros [m Hm]|]. intros (v & s & Hv & Hs & Hnone).
      assert (allNamed v = false) as Hn by (apply allNamed_false; by exists s).
      destruct (vehicleActiveStages_nameless now v Hn) as (m & Hm & _).
      destruct (mapE_throws (vehicleActiveStages now) vehicles v Hv) as [m' Hm'];
        [by exists m|]. congruence.
    + intros r [= <-]. cbn [asr_count asr_vehicles]. split; [done|].
      intros x [Hx Hpos]%filter_In.
      destruct (mapE_In _ _ _ _ Hmap Hx) as (v & Hv & Hvx).
      pose proof (vehicleActiveStages_cases now v) as Hc. rewrite Hvx in Hc.
      destruct Hc as (_ & _ & Htotal). split; [|done].
      rewrite Htotal in Hpos. apply Nat.ltb_lt in Hpos.
      intros Hnil. rewrite Hnil in Hpos. cbn in Hpos. lia.
  - apply mapE_Throw_In in Hmap as (v & Hv & Hvm).
    pose proof (vehicleActiveStages_cases now v) as Hc. rewrite Hvm in Hc.
    destruct Hc as [Hn Hm].
    split; [|split; [by intros m' [= <-]|done]].
    split; [|by exists m]. intros _.
    apply allNamed_false in Hn as (s & Hs & Hnone). by exists v, s.
Qed.

(** ** Dependent and regular stages *)

Lemma includes_startsWith s p : Js.startsWith s p = true -> includes s p = true.
Proof. intros H. destruct s; cbn [includes]; by rewrite H. Qed.

Lemma vehicleActiveStages_Normal now v r :
  vehicleActiveStages now v = Normal r ->
  allNamed v = true
  /\ vas_activeStages r
     = flat_map (dependentRecords now (stages v)) (dependentConfigs (stages v))
       ++ regularRecords now (stages v) (openTimes (stages v)).
Proof.
  intros Hr. pose proof (vehicleActiveStages_cases now v) as Hc. rewrite Hr in Hc.
  by destruct Hc as (? & ? & _).
Qed.

Lemma allNamed_stageName v s :
  allNamed v = true -> In s (stages v) -> exists n, stageName s = Some n.
Proof.
  unfold allNamed. rewrite forallb_forall. intros H Hs. specialize (H s Hs).
  unfold hasStageName in H. destruct (stageName s) as [n|]; [by exists n|done].
Qed.

(** The keys of [stageStartTimes] are names of non-dependent starts. *)
Lemma openTimesStep_keys st s k :
  In k (map fst (openTimesStep st s)) ->
  In k (map fst st)
  \/ (k = keyOf s /\ isEvent "Start" s = true /\ dependentName s = false
      /\ k <> "__proto__").
Proof.
  unfold openTimesStep. destruct (isEvent "Start" s).
  - destruct (dependentName s); cbn [negb]; [by left|].
    unfold setProp. destruct (String.eqb_spec (keyOf s) "__proto__") as [|Hp]; [by left|].
    destruct (hasOwnProperty st (keyOf s)).
    + rewrite keys_updateProp. by left.
    + rewrite map_app, in_app_iff. intros [H|[<-|[]]]; [by left|by right].
  - destruct (isEvent "End" s && _); [|by left].
    unfold deleteProp. intros H. left.
    apply in_map_iff in H as (kv & <- & [Hin _]%filter_In). by apply in_map.
Qed.

Lemma openTimes_keys l : forall st k,
  In k (map fst (fold_left openTimesStep l st)) ->
  In k (map fst st)
  \/ exists s, In s l /\ k = keyOf s /\ isEvent "Start" s = true /\ dependentName s = false
                /\ k <> "__proto__".
Proof.
  induction l as [|x l IH]; intros st k; cbn [fold_left]; [by left|].
  intros [H|(s & Hs & H)]%IH.
  - apply openTimesStep_keys in H as [H|H]; [by left|].
    right. exists x. split; [by left|done].
  - right. exists s. split; [by right|done].
Qed.

Lemma NoDup_snoc (k : string) l : ~ In k l -> List.NoDup l -> List.NoDup (l ++ [k]).
Proof.
  induction l as [|a l IH]; intros Hk Hnd; cbn [app].
  - constructor; [by intros []|constructor].
  - apply List.NoDup_cons_iff in Hnd as [Ha Hnd]. constructor.
    + rewrite in_app_iff. intros [H|[->|[]]]; [done|]. apply Hk. by left.
    + apply IH; [|done]. intros H. apply Hk. by right.
Qed.

Lemma openTimesStep_NoDup st s :
  List.NoDup (map fst st) -> List.NoDup (map fst (openTimesStep st s)).
Proof.
  intros Hnd. unfold openTimesStep. destruct (isEvent "Start" s).
  - destruct (dependentName s); cbn [negb]; [done|].
    unfold setProp. destruct (String.eqb (keyOf s) "__proto__"); [done|].
    destruct (hasOwnProperty st (keyOf s)) eqn:Hown.
    + by rewrite keys_updateProp.
    + rewrite map_app. apply NoDup_snoc; [|done]. by apply hasOwnProperty_false_keys.
  - destruct (isEvent "End" s && _); [|done].
    unfold deleteProp.
    rewrite (keys_filter_key (fun k => negb (String.eqb k (keyOf s)))).
    by apply List.NoDup_filter.
Qed.

Lemma openTimes_NoDup stages : List.NoDup (map fst (openTimes stages)).
Proof.
  unfold openTimes.
  apply (fold_left_invariant (fun st : list (string * Z) => List.NoDup (map fst st))).
  - intros st s Hst. by apply openTimesStep_NoDup.
  - constructor.
Qed.

Lemma getProp_setProp {V} k (v : V) obj k' :
  getProp (setProp k v obj) k'
  = if String.eqb k "__proto__" then getProp obj k'
    else if String.eqb k k' then Some v else getProp obj k'.
Proof.
  unfold setProp. destruct (String.eqb k "__proto__"); [done|].
  pose proof (hasOwnProperty_getProp obj k) as Hown.
  destruct (hasOwnProperty obj k).
  - rewrite getProp_updateProp. destruct (String.eqb k k'); [|done].
    by destruct (getProp obj k).
  - rewrite getProp_app. destruct (String.eqb_spec k k') as [<-|Hne].
    + by destruct (getProp obj k).
    + by destruct (getProp obj k').
Qed.

Lemma getProp_deleteProp {V} k (obj : list (string * V)) k' :
  getProp (deleteProp k obj) k' = if String.eqb k k' then None else getProp obj k'.
Proof.
  unfold deleteProp. rewrite (getProp_filter_key (fun x => negb (String.eqb x k))).
  rewrite (String.eqb_sym k' k). by destruct (String.eqb k k').
Qed.

(** ["__proto__"] is never a key of [stageStartTimes]. *)
Lemma openTimes_proto stages : getProp (openTimes stages) "__proto__" = None.
Proof.
  apply getProp_None_keys. unfold openTimes.
  intros [[]|(s & _ & _ & _ & _ & Hp)]%openTimes_keys. done.
Qed.

(** After the first pass a non-dependent stage name other than
    ["__proto__"] is a key of [stageStartTimes] exactly when the last
    [Start] or [End] of that name in the array is a [Start], whose time
    the key holds. *)
Lemma openTimes_last n stages :
  forallb hasStageName stages = true ->
  existsb (includes n) dependentPatterns = false ->
  n <> "__proto__" ->
  getProp (openTimes stages) n
  = match last (List.filter (startOrEndOf n) stages) with
    | Some s => if isEvent "Start" s then Some (timestamp s) else None
    | None => None
    end.
Proof.
  intros Hn Hdep Hproto. unfold openTimes.
  induction stages as [|x stages IH] using rev_ind; [done|].
  rewrite forallb_app in Hn. apply andb_true_iff in Hn as [Hn Hx].
  cbn [forallb] in Hx. rewrite andb_true_r in Hx.
  rewrite fold_left_app, List.filter_app. cbn [fold_left List.filter].
  specialize (IH Hn). unfold hasStageName in Hx.
  destruct (stageName x) as [m|] eqn:Hm; [|done].
  assert (startOrEndOf n x = String.eqb m n && (isEvent "Start" x || isEvent "End" x)) as ->
    by (unfold startOrEndOf; by rewrite Hm).
  set (st := fold_left openTimesStep stages []) in *.
  set (evs := List.filter (startOrEndOf n) stages) in *.
  unfold openTimesStep, dependentName. rewrite (named_key x m Hm), Hm.
  destruct (isEvent "Start" x) eqn:Hstart.
  - cbn [orb]. rewrite andb_true_r.
    destruct (String.eqb_spec m n) as [->|Hne]; cbv iota.
    + rewrite Hdep. cbn [negb]. rewrite getProp_setProp, (eqb_neq _ _ Hproto).
      rewrite String.eqb_refl, last_snoc. by rewrite Hstart.
    + rewrite app_nil_r.
      destruct (existsb (includes m) dependentPatterns); cbn [negb]; [exact IH|].
      rewrite getProp_setProp. destruct (String.eqb m "__proto__"); [exact IH|].
      destruct (String.eqb_spec m n); [done|exact IH].
  - cbn [orb]. destruct (isEvent "End" x) eqn:Hend; cbn [andb].
    + destruct (String.eqb_spec m n) as [->|Hne]; cbn [andb]; cbv iota.
      * rewrite last_snoc, Hstart.
        pose proof (hasOwnProperty_getProp st n) as Hown.
        destruct (hasOwnProperty st n); cbv iota.
        -- by rewrite getProp_deleteProp, String.eqb_refl.
        -- by destruct (getProp st n).
      * rewrite app_nil_r.
        destruct (hasOwnProperty st m); cbv iota; [|exact IH].
        rewrite getProp_deleteProp. destruct (String.eqb_spec m n); [done|exact IH].
    + rewrite andb_false_r, app_nil_r. exact IH.
Qed.

Lemma dependent_record_name now stages entry a :
  In entry (dependentConfigs stages) ->
  In a (dependentRecords now stages entry) ->
  as_isDependentStage a = true
  /\ exists s, In s stages /\ a = dependentRecord now s
       /\ nameIncludes (fst entry) s = true /\ isEvent "Start" s = true
       /\ dependentEnded (snd entry) stages s = false.
Proof.
  intros Hentry. unfold dependentRecords.
  intros (s & <- & [[Hs Hc]%filter_In Hend]%filter_In)%in_map_iff.
  apply andb_true_iff in Hc as [Hinc Hstart]. apply negb_true_iff in Hend.
  split; [done|]. by exists s.
Qed.

Lemma dependentConfigs_patterns stages entry :
  In entry (dependentConfigs stages) -> In (fst entry) dependentPatterns.
Proof.
  unfold dependentConfigs, dependentPatterns.
  intros [<-|[<-|[<-|[<-|[]]]]]; cbn; tauto.
Qed.

Lemma regular_record now stages times a :
  In a (regularRecords now stages times) ->
  as_isDependentStage a = false
  /\ exists k t, In (k, t) times /\ as_stageName a = Some k /\ as_startedAt a = t.
Proof.
  unfold regularRecords.
  intros ([k t] & Hin & Ha)%list_elem_of_In%list_elem_of_omap.
  apply list_elem_of_In in Hin. cbn [fst snd] in Ha.
  destruct (find _ stages) as [s|]; cbn [option_map] in Ha; [|done].
  injection Ha as <-. split; [done|]. by exists k, t.
Qed.

(** A stage with an approval that nothing ends.  In the record of a
    vehicle, every [Start] whose stage name begins with "Additional Work
    Job Approval" is listed as active, whatever follows it.  A [Start]
    whose name contains "Job Card Received" is listed as soon as the
    vehicle has such a start that is not a bay allocation; a vehicle whose
    only such starts are bay allocations never shows the stage "Job Card
    Received + Bay Allocation". *)
Theorem approval_and_job_card_stages_never_end (now : Z) (v : Vehicle)
    (r : VehicleActiveStages) :
  vehicleActiveStages now v = Normal r ->
  (forall s, In s (stages v) -> additionalWorkStart s = true ->
     In (dependentRecord now s) (vas_activeStages r))
  /\ (forall s, In s (stages v) -> nameIncludes "Job Card Received" s = true ->
        isEvent "Start" s = true -> existsb otherJobCardStart (stages v) = true ->
        In (dependentRecord now s) (vas_activeStages r))
  /\ (existsb otherJobCardStart (stages v) = false ->
        forall a, In a (vas_activeStages r) ->
                  as_stageName a <> Some "Job Card Received + Bay Allocation").
Proof.
  intros [Hn ->]%vehicleActiveStages_Normal.
  split; [|split].
  - intros s Hs Hadd. apply in_app_iff. left. apply in_flat_map.
    eexists. split; [cbn; right; left; reflexivity|].
    unfold dependentRecords. cbn [fst snd]. apply in_map, filter_In. split.
    + apply filter_In. split; [done|].
      unfold additionalWorkStart in Hadd. apply andb_true_iff in Hadd as [Hp Hstart].
      rewrite Hstart, andb_true_r.
      unfold nameStartsWith in Hp. unfold nameIncludes.
      destruct (stageName s); [|done]. by apply includes_startsWith.
    + unfold dependentEnded. cbn [endedBy cfg_isActive]. rewrite negb_involutive.
      apply existsb_exists. by exists s.
  - intros s Hs Hinc Hstart Hother. apply in_app_iff. left. apply in_flat_map.
    eexists. split; [cbn; do 3 right; left; reflexivity|].
    unfold dependentRecords. cbn [fst snd]. apply in_map, filter_In. split.
    + apply filter_In. split; [done|]. by rewrite Hinc, Hstart.
    + unfold dependentEnded. cbn [endedBy cfg_isActive]. by rewrite Hother.
  - intros Hother a [Ha|Ha]%in_app_iff Hname.
    + apply in_flat_map in Ha as (entry & Hentry & Ha).
      destruct (dependent_record_name now _ _ _ Hentry Ha)
        as (_ & s & Hs & -> & Hinc & Hstart & Hend).
      cbn [dependentRecord activeStage as_stageName] in Hname.
      unfold nameIncludes in Hinc. rewrite Hname in Hinc.
      unfold dependentConfigs in Hentry.
      destruct Hentry as [<-|[<-|[<-|[<-|[]]]]]; cbn [fst snd] in *;
        [by vm_compute in Hinc|by vm_compute in Hinc|by vm_compute in Hinc|].
      unfold dependentEnded in Hend. cbn [endedBy cfg_isActive] in Hend.
      by rewrite Hother in Hend.
    + apply regular_record in Ha as (_ & k & t & Hin & Hk & _).
      rewrite Hname in Hk. injection Hk as <-.
      assert (In "Job Card Received + Bay Allocation" (map fst (openTimes (stages v)))) as Hkey
        by (apply in_map_iff; by exists ("Job Card Received + Bay Allocation", t)).
      apply openTimes_keys in Hkey as [[]|(s & Hs & Hk & _ & Hdep & _)].
      destruct (allNamed_stageName v s Hn Hs) as [m Hm].
      rewrite (named_key s m Hm) in Hk. subst m.
      unfold dependentName in Hdep. rewrite Hm in Hdep. by vm_compute in Hdep.
Qed.

Lemma approval_and_job_card_stages_never_end_witness :
  exists r,
    vehicleActiveStages 600000 mixedVehicle = Normal r
    /\ In (dependentRecord 600000 (stageEvent "Additional Work Job Approval" "Start" 3000))
          (vas_activeStages r)
    /\ forall a, In a (vas_activeStages r) ->
                 as_stageName a <> Some "Job Card Received + Bay Allocation".
Proof.
  destruct (vehicleActiveStages 600000 mixedVehicle) as [r|] eqn:Hr; [|by vm_compute in Hr].
  exists r. split; [done|].
  destruct (approval_and_job_card_stages_never_end 600000 mixedVehicle r Hr)
    as (Hadd & _ & Hbay).
  split.
  - apply Hadd; [cbn; tauto|by vm_compute].
  - apply Hbay. by vm_compute.
Defined.

(** For a stage name that matches none of the dependent patterns, the
    record of a vehicle lists the stage exactly when the name is not
    ["__proto__"] and the last [Start] or [End] of that name in the array
    is a [Start], whatever the timestamps: an [End] stored after a [Start]
    closes it even when it is earlier in time, and the listed start is
    that last [Start].  A stage named ["__proto__"] is never listed: the
    assignment of its start time adds no key to [stageStartTimes]. *)
Theorem regular_stage_is_open_when_array_ends_with_start (now : Z) (v : Vehicle)
    (r : VehicleActiveStages) (n : string) :
  vehicleActiveStages now v = Normal r ->
  existsb (includes n) dependentPatterns = false ->
  let events := List.filter (startOrEndOf n) (stages v) in
  (forall a, In a (vas_activeStages r) -> as_stageName a = Some n ->
     n <> "__proto__"
     /\ as_isDependentStage a = false
     /\ exists s, last events = Some s /\ isEvent "Start" s = true
                  /\ as_startedAt a = timestamp s)
  /\ (n <> "__proto__" ->
      forall s, last events = Some s -> isEvent "Start" s = true ->
        exists a, In a (vas_activeStages r) /\ as_stageName a = Some n
                  /\ as_startedAt a = timestamp s).
Proof.
  intros [Hn ->]%vehicleActiveStages_Normal Hdep events. subst events.
  split.
  - intros a [Ha|Ha]%in_app_iff Hname.
    + apply in_flat_map in Ha as (entry & Hentry & Ha).
      destruct (dependent_record_name now _ _ _ Hentry Ha)
        as (_ & s & Hs & -> & Hinc & _).
      cbn [dependentRecord activeStage as_stageName] in Hname.
      unfold nameIncludes in Hinc. rewrite Hname in Hinc.
      apply dependentConfigs_patterns in Hentry.
      apply not_true_iff_false in Hdep. destruct Hdep. apply existsb_exists.
      by exists (fst entry).
    + apply regular_record in Ha as (Hreg & k & t & Hin & Hk & Ht).
      rewrite Hname in Hk. injection Hk as <-.
      apply getProp_Some_In in Hin; [|apply openTimes_NoDup].
      assert (n <> "__proto__") as Hproto.
      { intros ->. by rewrite openTimes_proto in Hin. }
      split; [done|]. split; [done|].
      rewrite (openTimes_last n (stages v) Hn Hdep Hproto) in Hin.
      destruct (last _) as [s|]; [|done]. exists s. split; [done|].
      destruct (isEvent "Start" s); [|done]. injection Hin as ->. done.
  - intros Hproto s Hs Hstart.
    pose proof (openTimes_last n (stages v) Hn Hdep Hproto) as Hlast.
    rewrite Hs, Hstart in Hlast.
    assert (In s (List.filter (startOrEndOf n) (stages v))) as Hin.
    { apply list_elem_of_In. by apply last_Some_elem_of. }
    apply filter_In in Hin as [Hin Hc]. unfold startOrEndOf in Hc.
    apply andb_true_iff in Hc as [Hname _].
    apply getProp_In in Hlast.
    destruct (find (fun s' => strictEq (stageName s') n && (timestamp s' =? timestamp s))
                   (stages v)) as [s0|] eqn:Hfind.
    + exists (activeStage now (Some n) (timestamp s) s0 false).
      split; [|done]. apply in_app_iff. right. unfold regularRecords.
      apply list_elem_of_In, list_elem_of_omap. exists (n, timestamp s).
      split; [by apply list_elem_of_In|]. cbn [fst snd]. by rewrite Hfind.
    + pose proof (find_none _ _ Hfind s Hin) as Hnone. cbv beta in Hnone.
      by rewrite Hname, Z.eqb_refl in Hnone.
Qed.

Lemma regular_stage_is_open_when_array_ends_with_start_witness :
  exists r,
    vehicleActiveStages 600000 mixedVehicle = Normal r
    /\ (forall a, In a (vas_activeStages r) -> as_stageName a <> Some "Washing")
    /\ exists a, In a (vas_activeStages r) /\ as_stageName a = Some "Bay Work: PM"
                 /\ as_startedAt a = 4000.
Proof.
  destruct (vehicleActiveStages 600000 mixedVehicle) as [r|] eqn:Hr; [|by vm_compute in Hr].
  exists r. split; [done|]. split.
  - intros a Ha Hname.
    destruct (regular_stage_is_open_when_array_ends_with_start 600000 mixedVehicle r
                "Washing" Hr) as [Hopen _]; [by vm_compute|].
    destruct (Hopen a Ha Hname) as (_ & _ & s & Hs & Hstart & _).
    vm_compute in Hs. injection Hs as <-. by vm_compute in Hstart.
  - destruct (regular_stage_is_open_when_array_ends_with_start 600000 mixedVehicle r
                "Bay Work: PM" Hr) as [_ Hlisted]; [by vm_compute|].
    apply (Hlisted ltac:(done) (stageEvent "Bay Work: PM" "Start" 4000)); by vm_compute.
Defined.

(** A start of a stage named ["__proto__"] that nothing ends is not
    listed. *)
Lemma proto_stage_is_not_listed :
  vehicleActiveStages 600000
    (mkVehicle "V13" 0 None [ stageEvent "__proto__" "Start" 1000 ])
  = Normal {| vas_vehicleNumber := "V13"; vas_entryTime := 0;
              vas_activeStages := []; vas_totalActiveStages := 0 |}.
Proof. by vm_compute. Qed.
